(** * sonic-boom: a buffered, backpressure-aware file writer

    A shallow embedding of [index.js].  The writer object becomes the record
    [sonic]; every function of the source becomes a function of the same name
    in a small state-and-exception monad over a [world] holding the writer,
    the answers of the blocking file-system primitives, the callbacks handed
    to the runtime, the listeners the writer registers on itself, and a trace
    of what an observer sees (signals, system calls, sleeps, callbacks).

    Conventions.
    - JavaScript numbers are [Z]; a string is the list of its UTF-16 code
      units, a [Buffer] the list of its bytes ([Byte.byte]).
    - Recursion through callbacks ([release] calls [_actualWrite], which calls
      [release], ...) is cut by a [fuel] argument.
    - Listeners attached by the application are observers: they do not call
      back into the writer.  Only their number matters ([listenerCount],
      and [emit('error')] throwing when nobody listens). *)

From Stdlib Require Import ZArith List String Bool Lia.
From Stdlib.Strings Require Import Byte.
From Stdlib Require DecimalString.
Import ListNotations.
Open Scope string_scope.
Open Scope list_scope.
Open Scope Z_scope.

Set Implicit Arguments.

(** ** JavaScript values *)

(** A string: its UTF-16 code units.  [s.length] is the number of units. *)
Abbreviation jsstring := (list Z).

(** A [Buffer]: its bytes. *)
Abbreviation Buffer := (list byte).

(** The byte of value [z] (modulo 256). *)
Definition octet (z : Z) : byte :=
  match Byte.of_N (Z.to_N (z mod 256)) with
  | Some b => b
  | None => Byte.x00
  end.

Definition len {A} (l : list A) : Z := Z.of_nat (List.length l).

(** [x.slice(n)] on strings, [x.slice(n)] / [x.subarray(n)] on buffers: a
    negative [n] counts from the end. *)
Definition js_slice {A} (l : list A) (n : Z) : list A :=
  skipn (Z.to_nat (if n <? 0 then Z.max (len l + n) 0 else n)) l.

(** The bytes of a string written with the ['utf8'] encoding: one to three
    bytes per code unit, four for a surrogate pair, U+FFFD for a lone
    surrogate. *)
Definition is_lead (c : Z) : bool := (0xD800 <=? c) && (c <? 0xDC00).
Definition is_trail (c : Z) : bool := (0xDC00 <=? c) && (c <? 0xE000).

Definition utf8_3 (c : Z) : list byte :=
  map octet [0xE0 + c / 4096; 0x80 + (c / 64) mod 64; 0x80 + c mod 64].

Definition utf8_4 (hi lo : Z) : list byte :=
  let cp := 0x10000 + (hi - 0xD800) * 1024 + (lo - 0xDC00) in
  map octet [0xF0 + cp / 262144; 0x80 + (cp / 4096) mod 64;
             0x80 + (cp / 64) mod 64; 0x80 + cp mod 64].

Fixpoint utf8 (s : jsstring) : list byte :=
  match s with
  | [] => []
  | c :: r =>
      if c <? 0x80 then octet c :: utf8 r
      else if c <? 0x800 then octet (0xC0 + c / 64) :: octet (0x80 + c mod 64) :: utf8 r
      else if is_lead c then
        match r with
        | d :: r' => if is_trail d then utf8_4 c d ++ utf8 r'
                     else utf8_3 0xFFFD ++ utf8 r
        | [] => utf8_3 0xFFFD
        end
      else if is_trail c then utf8_3 0xFFFD ++ utf8 r
      else utf8_3 c ++ utf8 r
  end.

(** [Buffer.concat(list, totalLength)]: the buffers one after the other, cut
    or zero-filled to [totalLength] when it is given. *)
Definition Buffer_concat (bufs : list Buffer) (totalLength : option Z) : Buffer :=
  let all := List.concat bufs in
  match totalLength with
  | None => all
  | Some l => firstn (Z.to_nat l) (all ++ repeat Byte.x00 (Z.to_nat l - List.length all))
  end.

(** Errors: [new Error(message)], a [TypeError] of the runtime, and the errors
    of the file-system layer, which carry a [code]. *)
Inductive jserror : Type :=
| Error (message : string)
| TypeError (message : string)
| SystemError (code : string).

Definition code_is (e : jserror) (c : string) : bool :=
  match e with
  | SystemError c' => String.eqb c' c
  | _ => false
  end.

(** The argument of [flush]: nothing ([undefined] or [null]), a function
    (named by a number), or any other value. *)
Inductive jsarg : Type :=
| Nullish
| Fn (cb : nat)
| NotCallable.

(** The answer of a file-system primitive: a number (bytes written, the new
    descriptor, or nothing of interest) or a failure with its code. *)
Inductive reply : Type :=
| Done (v : Z)
| Failed (code : string).

Definition failure (r : reply) : option jserror :=
  match r with
  | Done _ => None
  | Failed c => Some (SystemError c)
  end.

Definition BUSY_WRITE_TIMEOUT : Z := 100.
Definition kEmptyBuffer : Buffer := [].
Definition MAX_WRITE : Z := 16 * 1024.

(** ** The two content modes

    The constructor installs [write], [flush], [flushSync] and [_actualWrite]
    per content mode; [release] and the life cycle are shared and only use
    the in-flight chunk through [.length], [.slice(n)] and the write
    primitive.  [buf] is the type of [_writingBuf], [chunk] of the elements
    of [_bufs]. *)
Class Content (buf chunk : Type) : Type := {
  (** the initial [_writingBuf]: [''] or [kEmptyBuffer] *)
  blank : buf;
  (** [_writingBuf.length] *)
  length_of : buf -> Z;
  (** [_writingBuf.slice(n)] *)
  slice : buf -> Z -> buf;
  (** the bytes [fs.write] puts on the descriptor for this content *)
  octets : buf -> list byte;
  (** the chunk [_actualWrite] puts in flight, or the error raised while
      choosing it, with what is left of [_bufs] and [_lens] (index.js 583
      and 600) *)
  next_chunk : buf -> list chunk -> list Z -> (jserror + buf) * list chunk * list Z
}.

(** [mergeBuf(bufs, len)] *)
Definition mergeBuf (bufs : list Buffer) (len : option Z) : Buffer :=
  match bufs with
  | [] => kEmptyBuffer
  | [b] => b
  | _ => Buffer_concat bufs len
  end.

(** [this._writingBuf || this._bufs.shift() || ''] *)
Definition next_utf8 (w : jsstring) (bufs : list jsstring) (lens : list Z)
  : (jserror + jsstring) * list jsstring * list Z :=
  match w with
  | _ :: _ => (inr w, bufs, lens)
  | [] => match bufs with
          | c :: rest => (inr c, rest, lens)
          | [] => (inr [], [], lens)
          end
  end.

(** [this._writingBuf.length ? this._writingBuf
      : mergeBuf(this._bufs.shift(), this._lens.shift())]:
    both queues are shifted before [mergeBuf] reads [bufs.length], which
    throws on [undefined]. *)
Definition next_buffer (w : Buffer) (bufs : list (list Buffer)) (lens : list Z)
  : (jserror + Buffer) * list (list Buffer) * list Z :=
  match w with
  | _ :: _ => (inr w, bufs, lens)
  | [] => match bufs with
          | c :: rest => (inr (mergeBuf c (hd_error lens)), rest, tl lens)
          | [] => (inl (TypeError "Cannot read properties of undefined (reading 'length')"),
                   [], tl lens)
          end
  end.

#[export] Instance Utf8 : Content jsstring jsstring := {
  blank := [];
  length_of := len;
  slice := js_slice;
  octets := utf8;
  next_chunk := next_utf8
}.

#[export] Instance Raw : Content Buffer (list Buffer) := {
  blank := kEmptyBuffer;
  length_of := len;
  slice := js_slice;
  octets := fun b => b;
  next_chunk := next_buffer
}.

(** ** The monad: state, exceptions, and calls that do not come back *)

Section Monad.

Variable W : Type.

Inductive outcome (A : Type) : Type :=
(** the call returned [a] *)
| Returned (a : A) (w : W)
(** the call threw [e] *)
| Thrown (e : jserror) (w : W)
(** a blocking primitive was called and no answer is left for it *)
| Waiting
(** the recursion was cut *)
| OutOfFuel.

Definition M (A : Type) : Type := W -> outcome A.

Definition ret {A} (a : A) : M A := fun w => Returned a w.

Definition bind {A B} (m : M A) (k : A -> M B) : M B :=
  fun w => match m w with
           | Returned a w' => k a w'
           | Thrown _ e w' => Thrown _ e w'
           | Waiting _ => Waiting _
           | OutOfFuel _ => OutOfFuel _
           end.

Definition throw {A} (e : jserror) : M A := fun w => Thrown _ e w.

(** [try { m } catch (err) { handler err }] *)
Definition try_catch {A} (m : M A) (handler : jserror -> M A) : M A :=
  fun w => match m w with
           | Thrown _ e w' => handler e w'
           | r => r
           end.

(** [try { m } catch (err) { ... }] where the handler leaves the function or
    ends the iteration: the caller branches on what happened. *)
Definition attempt {A} (m : M A) : M (jserror + A) :=
  fun w => match m w with
           | Returned a w' => Returned (inr a) w'
           | Thrown _ e w' => Returned (inl e) w'
           | Waiting _ => Waiting _
           | OutOfFuel _ => OutOfFuel _
           end.

Definition out_of_fuel {A} : M A := fun _ => OutOfFuel _.

(** [if (c) { m }] *)
Definition when (c : bool) (m : M unit) : M unit :=
  if c then m else ret tt.

End Monad.

Arguments Returned {W A}.
Arguments Thrown {W A}.
Arguments Waiting {W A}.
Arguments OutOfFuel {W A}.
Arguments ret {W A}.
Arguments bind {W A B}.
Arguments throw {W A}.
Arguments try_catch {W A}.
Arguments attempt {W A}.
Arguments out_of_fuel {W A}.
Arguments when {W}.

Declare Scope js_scope.
Delimit Scope js_scope with js.
Notation "x <- m ;; k" := (bind m (fun x => k))
  (at level 61, m at next level, right associativity) : js_scope.
Notation "m ;; k" := (bind m (fun _ => k))
  (at level 61, right associativity) : js_scope.
Open Scope js_scope.

(** ** The writer and its world *)

Section Writer.

Context {buf chunk : Type} {content : Content buf chunk}.

(** The fields [SonicBoom] sets on [this] (index.js 98-118, 123/131), and
    [_opening], which [openFile] adds. *)
Record sonic : Type := mkSonic {
  _len : Z;
  fd : Z;
  _bufs : list chunk;
  _lens : list Z;
  _writing : bool;
  _ending : bool;
  _reopening : bool;
  _asyncDrainScheduled : bool;
  _hwm : Z;
  file : option string;
  destroyed : bool;
  minLength : Z;
  maxLength : Z;
  maxWrite : Z;
  sync : bool;
  writable : bool;
  _fsync : bool;
  append : bool;
  mode : option Z;
  retryEAGAIN : jserror -> Z -> Z -> bool;
  mkdir : bool;
  _writingBuf : buf;
  _opening : bool
}.

(** Assignments to the fields the code mutates. *)
Definition set_len (v : Z) (s : sonic) : sonic :=
  mkSonic v (fd s) (_bufs s) (_lens s) (_writing s) (_ending s) (_reopening s)
    (_asyncDrainScheduled s) (_hwm s) (file s) (destroyed s) (minLength s)
    (maxLength s) (maxWrite s) (sync s) (writable s) (_fsync s) (append s)
    (mode s) (retryEAGAIN s) (mkdir s) (_writingBuf s) (_opening s).
Definition set_fd (v : Z) (s : sonic) : sonic :=
  mkSonic (_len s) v (_bufs s) (_lens s) (_writing s) (_ending s) (_reopening s)
    (_asyncDrainScheduled s) (_hwm s) (file s) (destroyed s) (minLength s)
    (maxLength s) (maxWrite s) (sync s) (writable s) (_fsync s) (append s)
    (mode s) (retryEAGAIN s) (mkdir s) (_writingBuf s) (_opening s).
Definition set_bufs (v : list chunk) (s : sonic) : sonic :=
  mkSonic (_len s) (fd s) v (_lens s) (_writing s) (_ending s) (_reopening s)
    (_asyncDrainScheduled s) (_hwm s) (file s) (destroyed s) (minLength s)
    (maxLength s) (maxWrite s) (sync s) (writable s) (_fsync s) (append s)
    (mode s) (retryEAGAIN s) (mkdir s) (_writingBuf s) (_opening s).
Definition set_lens (v : list Z) (s : sonic) : sonic :=
  mkSonic (_len s) (fd s) (_bufs s) v (_writing s) (_ending s) (_reopening s)
    (_asyncDrainScheduled s) (_hwm s) (file s) (destroyed s) (minLength s)
    (maxLength s) (maxWrite s) (sync s) (writable s) (_fsync s) (append s)
    (mode s) (retryEAGAIN s) (mkdir s) (_writingBuf s) (_opening s).
Definition set_writing (v : bool) (s : sonic) : sonic :=
  mkSonic (_len s) (fd s) (_bufs s) (_lens s) v (_ending s) (_reopening s)
    (_asyncDrainScheduled s) (_hwm s) (file s) (destroyed s) (minLength s)
    (maxLength s) (maxWrite s) (sync s) (writable s) (_fsync s) (append s)
    (mode s) (retryEAGAIN s) (mkdir s) (_writingBuf s) (_opening s).
Definition set_ending (v : bool) (s : sonic) : sonic :=
  mkSonic (_len s) (fd s) (_bufs s) (_lens s) (_writing s) v (_reopening s)
    (_asyncDrainScheduled s) (_hwm s) (file s) (destroyed s) (minLength s)
    (maxLength s) (maxWrite s) (sync s) (writable s) (_fsync s) (append s)
    (mode s) (retryEAGAIN s) (mkdir s) (_writingBuf s) (_opening s).
Definition set_reopening (v : bool) (s : sonic) : sonic :=
  mkSonic (_len s) (fd s) (_bufs s) (_lens s) (_writing s) (_ending s) v
    (_asyncDrainScheduled s) (_hwm s) (file s) (destroyed s) (minLength s)
    (maxLength s) (maxWrite s) (sync s) (writable s) (_fsync s) (append s)
    (mode s) (retryEAGAIN s) (mkdir s) (_writingBuf s) (_opening s).
Definition set_asyncDrainScheduled (v : bool) (s : sonic) : sonic :=
  mkSonic (_len s) (fd s) (_bufs s) (_lens s) (_writing s) (_ending s)
    (_reopening s) v (_hwm s) (file s) (destroyed s) (minLength s)
    (maxLength s) (maxWrite s) (sync s) (writable s) (_fsync s) (append s)
    (mode s) (retryEAGAIN s) (mkdir s) (_writingBuf s) (_opening s).
Definition set_file (v : option string) (s : sonic) : sonic :=
  mkSonic (_len s) (fd s) (_bufs s) (_lens s) (_writing s) (_ending s)
    (_reopening s) (_asyncDrainScheduled s) (_hwm s) v (destroyed s)
    (minLength s) (maxLength s) (maxWrite s) (sync s) (writable s) (_fsync s)
    (append s) (mode s) (retryEAGAIN s) (mkdir s) (_writingBuf s) (_opening s).
Definition set_destroyed (v : bool) (s : sonic) : sonic :=
  mkSonic (_len s) (fd s) (_bufs s) (_lens s) (_writing s) (_ending s)
    (_reopening s) (_asyncDrainScheduled s) (_hwm s) (file s) v
    (minLength s) (maxLength s) (maxWrite s) (sync s) (writable s) (_fsync s)
    (append s) (mode s) (retryEAGAIN s) (mkdir s) (_writingBuf s) (_opening s).
Definition set_writingBuf (v : buf) (s : sonic) : sonic :=
  mkSonic (_len s) (fd s) (_bufs s) (_lens s) (_writing s) (_ending s)
    (_reopening s) (_asyncDrainScheduled s) (_hwm s) (file s) (destroyed s)
    (minLength s) (maxLength s) (maxWrite s) (sync s) (writable s) (_fsync s)
    (append s) (mode s) (retryEAGAIN s) (mkdir s) v (_opening s).
Definition set_opening (v : bool) (s : sonic) : sonic :=
  mkSonic (_len s) (fd s) (_bufs s) (_lens s) (_writing s) (_ending s)
    (_reopening s) (_asyncDrainScheduled s) (_hwm s) (file s) (destroyed s)
    (minLength s) (maxLength s) (maxWrite s) (sync s) (writable s) (_fsync s)
    (append s) (mode s) (retryEAGAIN s) (mkdir s) (_writingBuf s) v.

(** The signals of the writer. *)
Inductive event : Type :=
| EvReady
| EvError (err : jserror)
| EvWrite (n : Z)
| EvDrain
| EvDrop (data : buf)
| EvFinish
| EvClose.

(** What an observer sees, in order: signals, the system calls with their
    answers, the sleeps, and the calls of the callbacks given to [flush]. *)
Inductive obs : Type :=
| Emit (ev : event)
| SysWrite (fd : Z) (content : buf) (r : reply)
| SysFsync (fd : Z) (r : reply)
| SysClose (fd : Z) (r : reply)
| SysOpen (file flags : string) (mode : option Z) (r : reply)
| SysMkdir (file : string) (r : reply)
| Sleep (ms : Z)
| Call (cb : nat) (arg : option jserror).

(** The callbacks the writer hands to the runtime: each waits for the
    runtime to run it, with the answer of its system call where it has one. *)
Inductive task : Type :=
(** [fs.write(this.fd, this._writingBuf, ..., this.release)] *)
| fs_write (fd : Z) (content : buf)
(** [setTimeout(fsWrite, BUSY_WRITE_TIMEOUT)] *)
| timer_fsWrite
(** [fs.mkdir(path.dirname(file), ..., cb)] of [openFile] *)
| fs_mkdir (file flags : string) (mode : option Z)
(** [fs.open(file, flags, mode, fileOpened)] *)
| fs_open (file flags : string) (mode : option Z)
(** [fs.fsync(sonic.fd, closeWrapped)] *)
| fs_fsync_close (fd : Z)
(** [fs.close(sonic.fd, done)] *)
| fs_close_done (fd : Z)
(** [fs.close(fd, (err) => ...)] of [reopen] *)
| fs_close_old (fd : Z)
(** [fs.fsync(this.fd, cb)] of [callFlushCallbackOnDrain] *)
| fs_fsync_cb (fd : Z) (cb : nat)
(** [process.nextTick(() => sonic.emit('ready'))] *)
| tick_ready
(** [process.nextTick(emitDrain, this)] *)
| tick_drain
(** [process.nextTick(() => { if (listenerCount('error') > 0) emit('error', err) })] *)
| tick_error (err : jserror).

(** The listeners the writer registers on itself with [once('ready', ...)]. *)
Inductive ready_listener : Type :=
(** [() => { this.reopen(file) }] *)
| LReopen (file : option string)
(** [() => { this.end() }] *)
| LEnd
(** [actualClose.bind(null, sonic)] *)
| LActualClose
(** [() => { if (fd !== this.fd) fs.close(fd, ...) }] *)
| LCloseOld (fd : Z).

Record world : Type := mkWorld {
  (** the writer *)
  self : sonic;
  (** the answers of the blocking primitives still to come, in call order *)
  replies : list reply;
  (** what has been observed so far, oldest first *)
  trace : list obs;
  (** callbacks waiting in the runtime *)
  tasks : list task;
  (** once-listeners of ['ready'] *)
  ready_once : list ready_listener;
  (** [onDrain] and [onError] of [callFlushCallbackOnDrain]: the number of
      the registration and the callback *)
  drain_once : list (nat * nat);
  error_once : list (nat * nat);
  (** listeners of the application on ['drain'] and ['error'] *)
  drain_listeners : nat;
  error_listeners : nat;
  (** the number of the next registration *)
  fresh : nat
}.

Definition with_self (f : sonic -> sonic) (w : world) : world :=
  mkWorld (f (self w)) (replies w) (trace w) (tasks w) (ready_once w)
    (drain_once w) (error_once w) (drain_listeners w) (error_listeners w) (fresh w).
Definition with_replies (v : list reply) (w : world) : world :=
  mkWorld (self w) v (trace w) (tasks w) (ready_once w)
    (drain_once w) (error_once w) (drain_listeners w) (error_listeners w) (fresh w).
Definition with_trace (v : list obs) (w : world) : world :=
  mkWorld (self w) (replies w) v (tasks w) (ready_once w)
    (drain_once w) (error_once w) (drain_listeners w) (error_listeners w) (fresh w).
Definition with_tasks (v : list task) (w : world) : world :=
  mkWorld (self w) (replies w) (trace w) v (ready_once w)
    (drain_once w) (error_once w) (drain_listeners w) (error_listeners w) (fresh w).
Definition with_ready_once (v : list ready_listener) (w : world) : world :=
  mkWorld (self w) (replies w) (trace w) (tasks w) v
    (drain_once w) (error_once w) (drain_listeners w) (error_listeners w) (fresh w).
Definition with_drain_once (v : list (nat * nat)) (w : world) : world :=
  mkWorld (self w) (replies w) (trace w) (tasks w) (ready_once w)
    v (error_once w) (drain_listeners w) (error_listeners w) (fresh w).
Definition with_error_once (v : list (nat * nat)) (w : world) : world :=
  mkWorld (self w) (replies w) (trace w) (tasks w) (ready_once w)
    (drain_once w) v (drain_listeners w) (error_listeners w) (fresh w).
Definition with_drain_listeners (v : nat) (w : world) : world :=
  mkWorld (self w) (replies w) (trace w) (tasks w) (ready_once w)
    (drain_once w) (error_once w) v (error_listeners w) (fresh w).
Definition with_fresh (v : nat) (w : world) : world :=
  mkWorld (self w) (replies w) (trace w) (tasks w) (ready_once w)
    (drain_once w) (error_once w) (drain_listeners w) (error_listeners w) v.


Definition Js : Type -> Type := M world.

(** *** Primitive steps *)

Definition this : Js sonic := fun w => Returned (self w) w.

Definition upd (f : sonic -> sonic) : Js unit :=
  fun w => Returned tt (with_self f w).

Definition log (o : obs) : Js unit :=
  fun w => Returned tt (with_trace (trace w ++ [o]) w).

(** hand a callback to the runtime *)
Definition schedule (t : task) : Js unit :=
  fun w => Returned tt (with_tasks (tasks w ++ [t]) w).

(** a blocking primitive: the next answer, observed as [call answer] *)
Definition blocking (call : reply -> obs) : Js Z :=
  fun w => match replies w with
           | [] => Waiting
           | r :: rest =>
               let w' := with_trace (trace w ++ [call r]) (with_replies rest w) in
               match r with
               | Done v => Returned v w'
               | Failed c => Thrown (SystemError c) w'
               end
           end.

Definition sleep (ms : Z) : Js unit := log (Sleep ms).

(** [cb(arg)] for a callback given to [flush] *)
Definition call (cb : nat) (arg : option jserror) : Js unit := log (Call cb arg).

(** [this.once('ready', l)] *)
Definition once_ready (l : ready_listener) : Js unit :=
  fun w => Returned tt (with_ready_once (ready_once w ++ [l]) w).

Definition listenerCount_drain (w : world) : nat :=
  (drain_listeners w + List.length (drain_once w))%nat.

Definition listenerCount_error (w : world) : nat :=
  (error_listeners w + List.length (error_once w))%nat.

Definition unregister (reg : nat) (l : list (nat * nat)) : list (nat * nat) :=
  filter (fun x => negb (Nat.eqb (fst x) reg)) l.

(** [fs.writeSync(this.fd, this._writingBuf, ...)] (index.js 128, 136) *)
Definition fsWriteSync : Js Z :=
  s <- this ;; blocking (SysWrite (fd s) (_writingBuf s)).

(** [fs.write(this.fd, this._writingBuf, ..., this.release)] (index.js 129, 137) *)
Definition fsWrite : Js unit :=
  s <- this ;; schedule (fs_write (fd s) (_writingBuf s)).

(** [fs.fsyncSync(this.fd)] *)
Definition fsyncSync : Js unit :=
  s <- this ;; _ <- blocking (SysFsync (fd s)) ;; ret tt.

(** *** Signals

    [onDrain] and [onError] are the two closures of
    [callFlushCallbackOnDrain]; each removes the other when it runs. *)
Definition onDrain (reg cb : nat) : Js unit :=
  s <- this ;;
  (if negb (_fsync s) then schedule (fs_fsync_cb (fd s) cb) else call cb None) ;;
  (fun w => Returned tt (with_error_once (unregister reg (error_once w)) w)).

Definition onError (reg cb : nat) (err : jserror) : Js unit :=
  call cb (Some err) ;;
  (fun w => Returned tt (with_drain_once (unregister reg (drain_once w)) w)).

Fixpoint for_each {A} (f : A -> Js unit) (l : list A) : Js unit :=
  match l with
  | [] => ret tt
  | a :: l' => f a ;; for_each f l'
  end.

(** [this.emit(ev)] for every signal but ['ready'] (see [emit_ready]): the
    once-listeners of the signal run in registration order; ['error'] with
    no listener at all throws the error. *)
Definition emit (ev : event) : Js unit :=
  match ev with
  | EvError err =>
      fun w =>
        if Nat.eqb (listenerCount_error w) 0 then Thrown err w
        else (log (Emit ev) ;;
              for_each (fun l => onError (fst l) (snd l) err) (error_once w))
               (with_error_once [] w)
  | EvDrain =>
      fun w => (log (Emit ev) ;;
                for_each (fun l => onDrain (fst l) (snd l)) (drain_once w))
                 (with_drain_once [] w)
  | _ => log (Emit ev)
  end.

(** [this.on('newListener', ...)] of the constructor (index.js 246-250) *)
Definition newListener (name : string) : Js unit :=
  when (String.eqb name "drain") (upd (set_asyncDrainScheduled false)).

(** [emitDrain(sonic)] *)
Definition emitDrain : Js unit :=
  fun w =>
    let hasListeners := negb (Nat.eqb (listenerCount_drain w) 0) in
    if negb hasListeners then Returned tt w
    else (upd (set_asyncDrainScheduled false) ;; emit EvDrain) w.

(** [actualClose(sonic)] up to the [fs.fsync] it starts *)
Definition actualClose : Js unit :=
  s <- this ;;
  if fd s =? -1 then once_ready LActualClose
  else
    upd (set_destroyed true) ;;
    upd (fun s => set_lens [] (set_bufs [] s)) ;;
    schedule (fs_fsync_close (fd s)).

(** [done(err)] of [actualClose] *)
Definition done (err : option jserror) : Js unit :=
  match err with
  | Some err => emit (EvError err)
  | None =>
      s <- this ;;
      when (_ending s && negb (_writing s)) (emit EvFinish) ;;
      emit EvClose
  end.

(** [closeWrapped()] of [actualClose]: the error of [fs.fsync] is skipped *)
Definition closeWrapped : Js unit :=
  s <- this ;;
  if negb (fd s =? 1) && negb (fd s =? 2) then schedule (fs_close_done (fd s))
  else done None.

(** [SonicBoom.prototype.destroy] *)
Definition destroy : Js unit :=
  s <- this ;;
  if destroyed s then ret tt
  else actualClose.

(** a value used as a condition: a string is true when not empty *)
Definition truthy (v : option string) : bool :=
  match v with
  | Some p => negb (String.eqb p "")
  | None => false
  end.

(** [a || b] on strings that may be missing *)
Definition or_else (a b : option string) : option string :=
  if truthy a then a else b.

Definition unwrap (v : option string) : string :=
  match v with
  | Some p => p
  | None => ""
  end.

(** *** Dispatch and life cycle *)

(** The loop of [release] (index.js 204-208). *)
Fixpoint release_loop (fuel : nat) : Js unit :=
  match fuel with
  | O => out_of_fuel
  | S f =>
      n <- fsWriteSync ;;
      upd (fun s => set_len (_len s - n) s) ;;
      upd (fun s => set_writingBuf (slice (_writingBuf s) n) s) ;;
      s <- this ;;
      if negb (length_of (_writingBuf s) =? 0) then release_loop f else ret tt
  end.

(** The functions that call one another -- [release], [_actualWrite],
    [reopen], [openFile] with its closure [fileOpened], [end], and the
    listeners of ['ready'] -- are written first with their callees as
    variables; the fixpoint that follows closes the recursion, one unit of
    fuel per call. *)
Section Bodies.

Variable release : option jserror -> Z -> Js unit.
Variable _actualWrite : Js unit.
Variable reopen : option string -> Js unit.
Variable openFile : string -> Js unit.
Variable fileOpened : string -> option jserror -> Z -> Js unit.
Variable end_ : Js unit.
Variable emit_ready : Js unit.
Variable run_ready : list ready_listener -> Js unit.

(** The loop of [release] having run without an exception, or the chunk
    having been written at once (index.js 215-243). *)
Definition release_completed : Js unit :=
  s <- this ;;
  when (_fsync s) fsyncSync ;;
  s <- this ;;
  let len := _len s in
  if _reopening s then
    upd (set_writing false) ;;
    upd (set_reopening false) ;;
    reopen None
  else if len >? minLength s then _actualWrite
  else if _ending s then
    if len >? 0 then _actualWrite
    else upd (set_writing false) ;; actualClose
  else
    upd (set_writing false) ;;
    if sync s then
      when (negb (_asyncDrainScheduled s))
        (upd (set_asyncDrainScheduled true) ;; schedule tick_drain)
    else emit EvDrain.

(** [this.release = (err, n) => { ... }]; [fuel] is for the loop at
    index.js 204-208. *)
Definition release_body (fuel : nat) (err : option jserror) (n : Z) : Js unit :=
  match err with
  | Some err =>
      s <- this ;;
      if (code_is err "EAGAIN" || code_is err "EBUSY")
         && retryEAGAIN s err (length_of (_writingBuf s))
              (_len s - length_of (_writingBuf s))
      then
        if sync s then
          try_catch (sleep BUSY_WRITE_TIMEOUT ;; release None 0)
                    (fun err => release (Some err) 0)
        else schedule timer_fsWrite
      else
        upd (set_writing false) ;;
        emit (EvError err)
  | None =>
      emit (EvWrite n) ;;
      upd (fun s => set_len (_len s - n) s) ;;
      s <- this ;;
      when (_len s <? 0) (upd (set_len 0)) ;;
      upd (fun s => set_writingBuf (slice (_writingBuf s) n) s) ;;
      s <- this ;;
      if negb (length_of (_writingBuf s) =? 0) then
        if negb (sync s) then fsWrite
        else
          r <- attempt (release_loop fuel) ;;
          match r with
          | inl err => release (Some err) 0
          | inr _ => release_completed
          end
      else release_completed
  end.

(** [this._actualWrite()]: [actualWrite] and [actualWriteBuffer], which
    differ in the chunk they take ([next_chunk]) and in the encoding given
    to the write primitive ([octets]). *)
Definition _actualWrite_body : Js unit :=
  upd (set_writing true) ;;
  s <- this ;;
  let '(picked, bufs, lens) := next_chunk (_writingBuf s) (_bufs s) (_lens s) in
  upd (fun s => set_lens lens (set_bufs bufs s)) ;;
  match picked with
  | inl err => throw err
  | inr b =>
      upd (set_writingBuf b) ;;
      if sync s then
        try_catch (written <- fsWriteSync ;; release None written)
                  (fun err => release (Some err) 0)
      else fsWrite
  end.

(** [SonicBoom.prototype.reopen] *)
Definition reopen_body (newfile : option string) : Js unit :=
  s <- this ;;
  if destroyed s then throw (Error "SonicBoom destroyed")
  else if _opening s then once_ready (LReopen newfile)
  else if _ending s then ret tt
  else if negb (truthy (file s)) then
    throw (Error "Unable to reopen a file descriptor, you must pass a file to SonicBoom")
  else
    upd (set_reopening true) ;;
    if _writing s then ret tt
    else
      once_ready (LCloseOld (fd s)) ;;
      openFile (unwrap (or_else newfile (file s))).

(** [openFile(file, sonic)] *)
Definition openFile_body (target : string) : Js unit :=
  upd (set_opening true) ;;
  upd (set_writing true) ;;
  upd (set_asyncDrainScheduled false) ;;
  s <- this ;;
  let flags := if append s then "a" else "w" in
  if sync s then
    try_catch
      (when (mkdir s) (_ <- blocking (SysMkdir target) ;; ret tt) ;;
       newfd <- blocking (SysOpen target flags (mode s)) ;;
       fileOpened target None newfd)
      (fun err => fileOpened target (Some err) 0 ;; throw err)
  else if mkdir s then schedule (fs_mkdir target flags (mode s))
  else schedule (fs_open target flags (mode s)).

(** [fileOpened(err, fd)], the closure of [openFile(file, sonic)] *)
Definition fileOpened_body (target : string) (err : option jserror) (newfd : Z)
  : Js unit :=
  match err with
  | Some err =>
      upd (set_reopening false) ;;
      upd (set_writing false) ;;
      upd (set_opening false) ;;
      s <- this ;;
      if sync s then schedule (tick_error err)
      else emit (EvError err)
  | None =>
      upd (set_fd newfd) ;;
      upd (set_file (Some target)) ;;
      upd (set_reopening false) ;;
      upd (set_opening false) ;;
      upd (set_writing false) ;;
      s <- this ;;
      (if sync s then schedule tick_ready else emit_ready) ;;
      s <- this ;;
      if _reopening s then ret tt
      else
        when (negb (_writing s) && (_len s >? minLength s) && negb (destroyed s))
             _actualWrite
  end.

(** [SonicBoom.prototype.end] *)
Definition end_body : Js unit :=
  s <- this ;;
  if destroyed s then throw (Error "SonicBoom destroyed")
  else if _opening s then once_ready LEnd
  else if _ending s then ret tt
  else
    upd (set_ending true) ;;
    if _writing s then ret tt
    else if (_len s >? 0) && (fd s >=? 0) then _actualWrite
    else actualClose.

(** [this.emit('ready')]: the once-listeners registered so far run in
    order, each removed as it runs. *)
Definition emit_ready_body : Js unit :=
  log (Emit EvReady) ;;
  (fun w => run_ready (ready_once w) (with_ready_once [] w)).

Definition run_ready_body (ls : list ready_listener) : Js unit :=
  match ls with
  | [] => ret tt
  | l :: rest =>
      match l with
      | LReopen newfile => reopen newfile
      | LEnd => end_
      | LActualClose => actualClose
      | LCloseOld old =>
          s <- this ;;
          when (negb (old =? fd s)) (schedule (fs_close_old old))
      end ;;
      run_ready rest
  end.

End Bodies.

Fixpoint release (fuel : nat) (err : option jserror) (n : Z) {struct fuel} : Js unit :=
  match fuel with
  | O => out_of_fuel
  | S f => release_body (release f) (_actualWrite f) (reopen f) f err n
  end

with _actualWrite (fuel : nat) {struct fuel} : Js unit :=
  match fuel with
  | O => out_of_fuel
  | S f => _actualWrite_body (release f)
  end

with reopen (fuel : nat) (newfile : option string) {struct fuel} : Js unit :=
  match fuel with
  | O => out_of_fuel
  | S f => reopen_body (openFile f) newfile
  end

with openFile (fuel : nat) (target : string) {struct fuel} : Js unit :=
  match fuel with
  | O => out_of_fuel
  | S f => openFile_body (fileOpened f) target
  end

with fileOpened (fuel : nat) (target : string) (err : option jserror) (newfd : Z)
       {struct fuel} : Js unit :=
  match fuel with
  | O => out_of_fuel
  | S f => fileOpened_body (_actualWrite f) (emit_ready f) target err newfd
  end

with end_ (fuel : nat) {struct fuel} : Js unit :=
  match fuel with
  | O => out_of_fuel
  | S f => end_body (_actualWrite f)
  end

with emit_ready (fuel : nat) {struct fuel} : Js unit :=
  match fuel with
  | O => out_of_fuel
  | S f => emit_ready_body (run_ready f)
  end

with run_ready (fuel : nat) (ls : list ready_listener) {struct fuel} : Js unit :=
  match fuel with
  | O => out_of_fuel
  | S f => run_ready_body (reopen f) (end_ f) (run_ready f) ls
  end.

(** [callFlushCallbackOnDrain.call(this, cb)]: registering [onDrain] on
    ['drain'] fires the ['newListener'] hook first. *)
Definition callFlushCallbackOnDrain (cb : nat) : Js unit :=
  newListener "drain" ;;
  (fun w =>
     let reg := fresh w in
     Returned tt
       (with_fresh (S reg)
          (with_error_once (error_once w ++ [(reg, cb)])
             (with_drain_once (drain_once w ++ [(reg, cb)]) w)))).

(** The application attaches a listener to ['drain'] or to ['error']. *)
Definition on_drain : Js unit :=
  newListener "drain" ;;
  (fun w => Returned tt (with_drain_listeners (S (drain_listeners w)) w)).

Definition on_error : Js unit :=
  newListener "error" ;;
  (fun w => Returned tt
     (mkWorld (self w) (replies w) (trace w) (tasks w) (ready_once w)
        (drain_once w) (error_once w) (drain_listeners w)
        (S (error_listeners w)) (fresh w))).

(** *** The runtime runs a callback

    [r] is the answer of the system call the callback was waiting for (it is
    not looked at for timers and ticks). *)
Definition run (fuel : nat) (t : task) (r : reply) : Js unit :=
  match t with
  | fs_write fd0 content0 =>
      log (SysWrite fd0 content0 r) ;;
      match r with
      | Done n => release fuel None n
      | Failed c => release fuel (Some (SystemError c)) 0
      end
  | timer_fsWrite => fsWrite
  | fs_mkdir target flags mode0 =>
      log (SysMkdir target r) ;;
      match r with
      | Failed c => fileOpened fuel target (Some (SystemError c)) 0
      | Done _ => schedule (fs_open target flags mode0)
      end
  | fs_open target flags mode0 =>
      log (SysOpen target flags mode0 r) ;;
      match r with
      | Failed c => fileOpened fuel target (Some (SystemError c)) 0
      | Done newfd => fileOpened fuel target None newfd
      end
  | fs_fsync_close fd0 => log (SysFsync fd0 r) ;; closeWrapped
  | fs_close_done fd0 => log (SysClose fd0 r) ;; done (failure r)
  | fs_close_old fd0 =>
      log (SysClose fd0 r) ;;
      match failure r with
      | Some err => emit (EvError err)
      | None => ret tt
      end
  | fs_fsync_cb fd0 cb => log (SysFsync fd0 r) ;; call cb (failure r)
  | tick_ready => emit_ready fuel
  | tick_drain => emitDrain
  | tick_error err =>
      fun w =>
        if negb (Nat.eqb (listenerCount_error w) 0) then emit (EvError err) w
        else Returned tt w
  end.

Fixpoint remove_nth {A} (i : nat) (l : list A) : list A :=
  match i, l with
  | _, [] => []
  | O, _ :: l' => l'
  | S i', a :: l' => a :: remove_nth i' l'
  end.

(** The [i]-th waiting callback is run with answer [r]; a [Thrown] outcome
    is an exception nobody catches. *)
Definition complete (fuel : nat) (i : nat) (r : reply) : Js unit :=
  fun w =>
    match nth_error (tasks w) i with
    | None => Returned tt w
    | Some t => run fuel t r (with_tasks (remove_nth i (tasks w)) w)
    end.

(** *** Construction *)

(** The destination: a descriptor or a path. *)
Inductive dest : Type :=
| Num (n : Z)
| Str (p : string).

Definition dest_truthy (d : option dest) : bool :=
  match d with
  | Some (Num n) => negb (n =? 0)
  | Some (Str p) => negb (String.eqb p "")
  | None => false
  end.

Record options : Type := mkOptions {
  o_fd : option dest;
  o_dest : option dest;
  o_minLength : option Z;
  o_maxLength : option Z;
  o_maxWrite : option Z;
  o_sync : option bool;
  o_append : option bool;
  o_mkdir : option bool;
  o_retryEAGAIN : option (jserror -> Z -> Z -> bool);
  o_fsync : option bool;
  o_mode : option Z
}.

(** [v || d] on numbers and booleans that may be missing *)
Definition num_or (v : option Z) (d : Z) : Z :=
  match v with
  | Some n => if n =? 0 then d else n
  | None => d
  end.

Definition bool_or (v : option bool) (d : bool) : bool :=
  match v with
  | Some b => b || d
  | None => d
  end.

(** The fields of a new writer (index.js 98-118 and 123 / 131). *)
Definition fields (opts : options) : sonic :=
  {| _len := 0;
     fd := -1;
     _bufs := [];
     _lens := [];
     _writing := false;
     _ending := false;
     _reopening := false;
     _asyncDrainScheduled := false;
     _hwm := Z.max (num_or (o_minLength opts) 0) 16387;
     file := None;
     destroyed := false;
     minLength := num_or (o_minLength opts) 0;
     maxLength := num_or (o_maxLength opts) 0;
     maxWrite := num_or (o_maxWrite opts) MAX_WRITE;
     sync := bool_or (o_sync opts) false;
     writable := true;
     _fsync := bool_or (o_fsync opts) false;
     append := bool_or (match o_append opts with Some b => Some b | None => Some true end) false;
     mode := o_mode opts;
     retryEAGAIN := match o_retryEAGAIN opts with
                    | Some f => f
                    | None => fun _ _ _ => true
                    end;
     mkdir := bool_or (o_mkdir opts) false;
     _writingBuf := blank;
     _opening := false |}.

(** [this.release] while the constructor is still running [openFile]: it is
    assigned only afterwards (index.js 154), so [actualWrite], which reads
    it into a local and calls that, raises a TypeError. *)
Definition release_unset : option jserror -> Z -> Js unit :=
  fun _ _ => throw (TypeError "release is not a function").

(** [openFile(fd, this)] as the constructor calls it (index.js 146): in
    blocking mode [fileOpened] runs at once, before [release] exists. *)
Definition openFile_new (fuel : nat) (target : string) : Js unit :=
  openFile_body
    (fileOpened_body (_actualWrite_body release_unset) (emit_ready fuel)) target.

(** [`${n}`] for a number that is an integer *)
Definition decimal (n : Z) : string := DecimalString.NilZero.string_of_int (Z.to_int n).

(** [new SonicBoom(opts)], in a runtime whose blocking primitives will
    answer [answers]. *)
Definition SonicBoom (fuel : nat) (opts : options) (answers : list reply)
  : outcome world unit :=
  let destination := if dest_truthy (o_fd opts) then o_fd opts else o_dest opts in
  (match destination with
   | Some (Num n) => upd (set_fd n) ;; schedule tick_ready
   | Some (Str p) => openFile_new fuel p
   | None => throw (Error "SonicBoom supports only file descriptors and files")
   end ;;
   s <- this ;;
   when (minLength s >=? maxWrite s)
     (throw (Error ("minLength should be smaller than maxWrite ("
                    ++ decimal (maxWrite s) ++ ")"))))
    (mkWorld (fields opts) answers [] [] [] [] [] 0 0 0).

End Writer.

Arguments sonic : clear implicits.
Arguments world : clear implicits.
Arguments event : clear implicits.
Arguments obs : clear implicits.
Arguments task : clear implicits.
Arguments Js : clear implicits.

(** ** The functions installed per content mode *)

Definition TextJs : Type -> Type := Js jsstring jsstring.
Definition BytesJs : Type -> Type := Js Buffer (list Buffer).

(** [actualWrite] and [actualWriteBuffer] *)
Definition actualWrite (fuel : nat) : TextJs unit := _actualWrite fuel.
Definition actualWriteBuffer (fuel : nat) : BytesJs unit := _actualWrite fuel.

(** [write(data)] *)
Definition write (fuel : nat) (data : jsstring) : TextJs bool :=
  s <- this ;;
  if destroyed s then throw (Error "SonicBoom destroyed")
  else
    let len' := _len s + len data in
    let bufs := _bufs s in
    if negb (maxLength s =? 0) && (len' >? maxLength s) then
      emit (EvDrop data) ;;
      s <- this ;;
      ret (_len s <? _hwm s)
    else
      (if (len bufs =? 0) || (len (last bufs []) + len data >? maxWrite s)
       then upd (set_bufs (bufs ++ [data]))
       else upd (set_bufs (removelast bufs ++ [last bufs [] ++ data]))) ;;
      upd (set_len len') ;;
      s <- this ;;
      when (negb (_writing s) && (_len s >=? minLength s)) (actualWrite fuel) ;;
      s <- this ;;
      ret (_len s <? _hwm s).

(** [lens[lens.length - 1]] *)
Definition last_len (lens : list Z) : option Z :=
  match lens with
  | [] => None
  | _ => Some (last lens 0)
  end.

(** [writeBuffer(data)].  With [_lens] empty and [_bufs] not,
    [lens[lens.length - 1]] is [undefined]: the comparison is false, the data
    joins the last chunk, and no element of [_lens] changes. *)
Definition writeBuffer (fuel : nat) (data : Buffer) : BytesJs bool :=
  s <- this ;;
  if destroyed s then throw (Error "SonicBoom destroyed")
  else
    let len' := _len s + len data in
    let bufs := _bufs s in
    let lens := _lens s in
    if negb (maxLength s =? 0) && (len' >? maxLength s) then
      emit (EvDrop data) ;;
      s <- this ;;
      ret (_len s <? _hwm s)
    else
      (if (len bufs =? 0)
          || match last_len lens with
             | Some l => l + len data >? maxWrite s
             | None => false
             end
       then
         upd (set_bufs (bufs ++ [[data]])) ;;
         upd (set_lens (lens ++ [len data]))
       else
         upd (set_bufs (removelast bufs ++ [last bufs [] ++ [data]])) ;;
         match last_len lens with
         | Some l => upd (set_lens (removelast lens ++ [l + len data]))
         | None => ret tt
         end) ;;
      upd (set_len len') ;;
      s <- this ;;
      when (negb (_writing s) && (_len s >=? minLength s)) (actualWriteBuffer fuel) ;;
      s <- this ;;
      ret (_len s <? _hwm s).

(** [flush(cb)] *)
Definition flush (fuel : nat) (cb : jsarg) : TextJs unit :=
  match cb with
  | NotCallable => throw (Error "flush cb must be a function")
  | _ =>
      s <- this ;;
      if destroyed s then
        let error := Error "SonicBoom destroyed" in
        match cb with
        | Fn f => call f (Some error)
        | _ => throw error
        end
      else if minLength s <=? 0 then
        match cb with
        | Fn f => call f None
        | _ => ret tt
        end
      else
        match cb with
        | Fn f => callFlushCallbackOnDrain f
        | _ => ret tt
        end ;;
        if _writing s then ret tt
        else
          when (len (_bufs s) =? 0) (upd (set_bufs [[]])) ;;
          actualWrite fuel
  end.

(** [flushBuffer(cb)] *)
Definition flushBuffer (fuel : nat) (cb : jsarg) : BytesJs unit :=
  match cb with
  | NotCallable => throw (Error "flush cb must be a function")
  | _ =>
      s <- this ;;
      if destroyed s then
        let error := Error "SonicBoom destroyed" in
        match cb with
        | Fn f => call f (Some error)
        | _ => throw error
        end
      else if minLength s <=? 0 then
        match cb with
        | Fn f => call f None
        | _ => ret tt
        end
      else
        match cb with
        | Fn f => callFlushCallbackOnDrain f
        | _ => ret tt
        end ;;
        if _writing s then ret tt
        else
          when (len (_bufs s) =? 0)
            (upd (set_bufs [[]]) ;; upd (set_lens [0])) ;;
          actualWriteBuffer fuel
  end.

(** The loop of [flushSync] (index.js 513-532); [buf] is its local variable.
    [this._bufs[0]] is only read after the loop test found [_bufs] not
    empty. *)
Fixpoint flushSync_loop (fuel : nat) (buf : jsstring) : TextJs unit :=
  match fuel with
  | O => out_of_fuel
  | S f =>
      s <- this ;;
      if negb (len (_bufs s) =? 0) || negb (len buf =? 0) then
        let buf := if len buf <=? 0 then hd [] (_bufs s) else buf in
        r <- attempt
               (n <- blocking (SysWrite (fd s) buf) ;;
                let rest := js_slice buf n in
                upd (fun s => set_len (Z.max (_len s - n) 0) s) ;;
                when (len rest <=? 0) (upd (fun s => set_bufs (tl (_bufs s)) s)) ;;
                ret rest) ;;
        match r with
        | inr rest => flushSync_loop f rest
        | inl err =>
            s <- this ;;
            let shouldRetry := code_is err "EAGAIN" || code_is err "EBUSY" in
            if shouldRetry && negb (retryEAGAIN s err (len buf) (_len s - len buf))
            then throw err
            else sleep BUSY_WRITE_TIMEOUT ;; flushSync_loop f buf
        end
      else ret tt
  end.

(** [flushSync()] *)
Definition flushSync (fuel : nat) : TextJs unit :=
  s <- this ;;
  if destroyed s then throw (Error "SonicBoom destroyed")
  else if fd s <? 0 then throw (Error "sonic boom is not ready yet")
  else
    when (negb (_writing s) && (len (_writingBuf s) >? 0))
      (upd (set_bufs (_writingBuf s :: _bufs s)) ;;
       upd (set_writingBuf [])) ;;
    flushSync_loop fuel [].

(** The loop of [flushBufferSync] (index.js 550-570). *)
Fixpoint flushBufferSync_loop (fuel : nat) (buf : Buffer) : BytesJs unit :=
  match fuel with
  | O => out_of_fuel
  | S f =>
      s <- this ;;
      if negb (len (_bufs s) =? 0) || negb (len buf =? 0) then
        let buf := if len buf <=? 0
                   then mergeBuf (hd [] (_bufs s)) (hd_error (_lens s))
                   else buf in
        r <- attempt
               (n <- blocking (SysWrite (fd s) buf) ;;
                let rest := js_slice buf n in
                upd (fun s => set_len (Z.max (_len s - n) 0) s) ;;
                when (len rest <=? 0)
                  (upd (fun s => set_bufs (tl (_bufs s)) s) ;;
                   upd (fun s => set_lens (tl (_lens s)) s)) ;;
                ret rest) ;;
        match r with
        | inr rest => flushBufferSync_loop f rest
        | inl err =>
            s <- this ;;
            let shouldRetry := code_is err "EAGAIN" || code_is err "EBUSY" in
            if shouldRetry && negb (retryEAGAIN s err (len buf) (_len s - len buf))
            then throw err
            else sleep BUSY_WRITE_TIMEOUT ;; flushBufferSync_loop f buf
        end
      else ret tt
  end.

(** [flushBufferSync()] *)
Definition flushBufferSync (fuel : nat) : BytesJs unit :=
  s <- this ;;
  if destroyed s then throw (Error "SonicBoom destroyed")
  else if fd s <? 0 then throw (Error "sonic boom is not ready yet")
  else
    when (negb (_writing s) && (len (_writingBuf s) >? 0))
      (upd (set_bufs ([_writingBuf s] :: _bufs s)) ;;
       upd (set_writingBuf kEmptyBuffer)) ;;
    flushBufferSync_loop fuel kEmptyBuffer.

(** ** Reading a trace *)

(** The bytes the write primitive has taken, in order: of each write that
    succeeded with [n], the first [n] bytes of what it was handed. *)
Fixpoint delivered {buf chunk} {content : Content buf chunk} (t : list (obs buf)) : list byte :=
  match t with
  | [] => []
  | SysWrite _ b (Done n) :: t' => firstn (Z.to_nat n) (octets b) ++ delivered t'
  | _ :: t' => delivered t'
  end.

(** What came back from a call, for statements about concrete runs. *)
Definition final {W A} (o : outcome W A) : option W :=
  match o with
  | Returned _ w => Some w
  | Thrown _ w => Some w
  | _ => None
  end.

(** * Specification vocabulary *)

(** ** Sample writers and runs *)

(** One call after another. *)
Definition after {W A B} (o : outcome W A) (m : M W B) : outcome W B :=
  match o with
  | Returned _ w => m w
  | Thrown e w => Thrown e w
  | Waiting => Waiting
  | OutOfFuel => OutOfFuel
  end.

Infix ">>>" := after (at level 62, left associativity) : js_scope.

(** [{ fd: 1 }] with the given [sync], [fsync], [minLength], [maxLength]
    and [maxWrite]. *)
Definition on_stdout (sync fsync : bool) (minLength maxLength maxWrite : Z) : options :=
  {| o_fd := Some (Num 1); o_dest := None;
     o_minLength := Some minLength; o_maxLength := Some maxLength;
     o_maxWrite := Some maxWrite; o_sync := Some sync; o_append := None;
     o_mkdir := None; o_retryEAGAIN := None; o_fsync := Some fsync;
     o_mode := None |}.

(** [{ dest: path }], deferred. *)
Definition on_path (path : string) : options :=
  {| o_fd := None; o_dest := Some (Str path);
     o_minLength := None; o_maxLength := None; o_maxWrite := None;
     o_sync := None; o_append := None; o_mkdir := None;
     o_retryEAGAIN := None; o_fsync := None; o_mode := None |}.

Definition text (opts : options) (answers : list reply)
  : outcome (world jsstring jsstring) unit :=
  SonicBoom 8 opts answers.

Definition bytes (opts : options) (answers : list reply)
  : outcome (world Buffer (list Buffer)) unit :=
  SonicBoom 8 opts answers.

(** A writer with [maxLength] 500 holding 480 bytes, one write in flight. *)
Definition holding_480 : outcome (world jsstring jsstring) bool :=
  text (on_stdout false false 0 500 0) [] >>> write 4 (repeat 97 480).

Definition holding_480_bytes : outcome (world Buffer (list Buffer)) bool :=
  bytes (on_stdout false false 0 500 0) [] >>> writeBuffer 4 (repeat Byte.x61 480).

(** A writer on descriptor 1, destroyed. *)
Definition destroyed_text : outcome (world jsstring jsstring) unit :=
  text (on_stdout false false 0 0 0) [] >>> destroy.

Definition destroyed_bytes : outcome (world Buffer (list Buffer)) unit :=
  bytes (on_stdout false false 0 0 0) [] >>> destroy.

(** A writer built on a path, once the file is open. *)
Definition opened_on_path : outcome (world jsstring jsstring) unit :=
  text (on_path "app.log") [] >>> complete 5 0 (Done 7).

(** A writer on descriptor 1 holding data behind a write in flight. *)
Definition holding_behind_write : outcome (world jsstring jsstring) bool :=
  text (on_stdout false false 0 0 0) []
  >>> write 4 [97] >>> write 4 [98; 99].

(** ** Guards and errors *)

(** The guard of [write] and [writeBuffer] at index.js 282 and 314. *)
Definition over_dropThreshold {buf chunk} (s : sonic buf chunk) (n : Z) : Prop :=
  0 < maxLength s /\ maxLength s < _len s + n.

(** The guard of [write] and [writeBuffer] passed: the data is accepted. *)
Definition accepted {buf chunk} (s : sonic buf chunk) (n : Z) : Prop :=
  maxLength s = 0 \/ _len s + n <= maxLength s.

Definition no_backing_path : jserror :=
  Error "Unable to reopen a file descriptor, you must pass a file to SonicBoom".

(** An error of the retryable class. *)
Definition retryable (e : jserror) : bool :=
  code_is e "EAGAIN" || code_is e "EBUSY".


(** ** Enqueueing *)

(** The end of [write] and [writeBuffer] (index.js 296-302, 330-336), after
    the data has joined [_bufs]: [_len] takes the new length, dispatch starts
    unless a write is in flight or [minLength] is not reached, and the
    answer is read off [_len]. *)
Definition dispatch_and_answer {buf chunk} {content : Content buf chunk}
           (fuel : nat) (len' : Z) : Js buf chunk bool :=
  upd (set_len len') ;;
  s <- this ;;
  when (negb (_writing s) && (_len s >=? minLength s)) (_actualWrite fuel) ;;
  s <- this ;;
  ret (_len s <? _hwm s).

(** The rule in the words of the specification: the data joins the tail
    chunk when the two together are at most [maxWrite] long, and starts a
    new chunk otherwise (also when there is no chunk yet). *)
Fixpoint enqueue_text (maxWrite : Z) (bufs : list jsstring) (data : jsstring)
  : list jsstring :=
  match bufs with
  | [] => [data]
  | [tail] => if len tail + len data <=? maxWrite
              then [tail ++ data] else [tail; data]
  | c :: rest => c :: enqueue_text maxWrite rest data
  end.

(** The size of a chunk of buffers: what [_lens] records for it. *)
Definition chunk_size (c : list Buffer) : Z := len (List.concat c).

Fixpoint enqueue_bytes (maxWrite : Z) (bufs : list (list Buffer)) (data : Buffer)
  : list (list Buffer) :=
  match bufs with
  | [] => [[data]]
  | [tail] => if chunk_size tail + len data <=? maxWrite
              then [tail ++ [data]] else [tail; [data]]
  | c :: rest => c :: enqueue_bytes maxWrite rest data
  end.

(** What [writeBuffer] leaves in [_bufs] and [_lens] (index.js 319-328),
    when [_lens] holds the sizes of the chunks of [_bufs]. *)
Definition pushed_bufs maxWrite (bufs : list (list Buffer)) (lens : list Z)
           (data : Buffer) : list (list Buffer) :=
  if (len bufs =? 0)
     || match last_len lens with
        | Some l => l + len data >? maxWrite
        | None => false
        end
  then bufs ++ [[data]]
  else removelast bufs ++ [last bufs [] ++ [data]].

Definition pushed_lens maxWrite (bufs : list (list Buffer)) (lens : list Z)
           (data : Buffer) : list Z :=
  if (len bufs =? 0)
     || match last_len lens with
        | Some l => l + len data >? maxWrite
        | None => false
        end
  then lens ++ [len data]
  else match last_len lens with
       | Some l => removelast lens ++ [l + len data]
       | None => lens
       end.

(** Every pending chunk is at most [maxWrite] long, in the unit the code
    counts in: characters for text, bytes for buffers (where [_lens] holds
    the size of each chunk). *)
Definition packed_text (s : sonic jsstring jsstring) : Prop :=
  Forall (fun c : jsstring => len c <= maxWrite s) (_bufs s).

Definition packed_bytes (s : sonic Buffer (list Buffer)) : Prop :=
  _lens s = map chunk_size (_bufs s)
  /\ Forall (fun n => n <= maxWrite s) (_lens s).

Definition Q_text (maxWrite : Z) (bufs : list jsstring) (lens : list Z) : Prop :=
  Forall (fun c : jsstring => len c <= maxWrite) bufs.

Definition Q_bytes (maxWrite : Z) (bufs : list (list Buffer)) (lens : list Z) : Prop :=
  lens = map chunk_size bufs /\ Forall (fun n => n <= maxWrite) lens.

(** ** Properties of the queues that dispatch keeps *)

Section StabilityDefs.

Context {buf chunk : Type}.

(** The fields fixed at construction that the proofs below care about. *)
Definition settings (s : sonic buf chunk) : Z * Z * Z * Z * bool * bool :=
  (_hwm s, minLength s, maxLength s, maxWrite s, sync s, _fsync s).

Variable Q : list chunk -> list Z -> Prop.
Variable cfg : Z * Z * Z * Z * bool * bool.

Definition stable (s : sonic buf chunk) : Prop :=
  Q (_bufs s) (_lens s) /\ settings s = cfg.

(** [m] keeps [stable], however it ends. *)
Definition keeps {A} (m : Js buf chunk A) : Prop :=
  forall w, stable (self w) ->
            match m w with
            | Returned _ w' => stable (self w')
            | Thrown _ w' => stable (self w')
            | Waiting => True
            | OutOfFuel => True
            end.

End StabilityDefs.

(** ** The ledger: bytes delivered and bytes pending *)

Section Ledger.

Context {buf chunk : Type} {content : Content buf chunk}.

(** The bytes of a pending chunk, and the contents for which [.slice(n)]
    keeps what the descriptor has not taken. *)
Variable flat : chunk -> list byte.
Variable wf : buf -> Prop.
Variable Qq : list chunk -> list Z -> Prop.

Definition flats (bufs : list chunk) : list byte := List.concat (map flat bufs).

(** The bytes the writer still holds: the chunk in flight, then the queue. *)
Definition pending (s : sonic buf chunk) : list byte :=
  octets (_writingBuf s) ++ flats (_bufs s).

Definition quiet (s : sonic buf chunk) : Prop :=
  destroyed s = false /\ _ending s = false /\ _reopening s = false.

Definition reply_ok (r : reply) : Prop :=
  match r with
  | Done v => 0 <= v
  | Failed _ => True
  end.

(** A tick of the runtime, as opposed to a write on its way. *)
Definition calm (t : task buf) : Prop := t = tick_ready \/ t = tick_drain.

Definition on_its_way (s : sonic buf chunk) (t : task buf) : Prop :=
  t = timer_fsWrite \/ exists fd0, t = fs_write fd0 (_writingBuf s).

(** At most one write is on its way; it carries the chunk in flight, and
    [_writing] is set while it is. *)
Definition tasks_ok (s : sonic buf chunk) (ts : list (task buf)) : Prop :=
  Forall calm ts
  \/ exists before d after',
      ts = before ++ d :: after'
      /\ Forall calm before /\ Forall calm after'
      /\ on_its_way s d /\ _writing s = true.

Record Inv (blocking_mode : bool) (L : list byte) (w : world buf chunk) : Prop := mkInv {
  inv_sync : sync (self w) = blocking_mode;
  inv_quiet : quiet (self w);
  inv_wf : wf (_writingBuf (self w));
  inv_queue : Qq (_bufs (self w)) (_lens (self w));
  inv_ready : ready_once w = [];
  inv_drain : drain_once w = [];
  inv_error : error_once w = [];
  inv_tasks : tasks_ok (self w) (tasks w);
  inv_replies : Forall reply_ok (replies w);
  inv_ledger : delivered (trace w) ++ pending (self w) = L
}.

(** No write is on its way. *)
Definition Idle (blocking_mode : bool) (L : list byte) (w : world buf chunk) : Prop :=
  Inv blocking_mode L w /\ Forall calm (tasks w).

(** [release] runs: no write is on its way, and in deferred mode
    [_writing] is set. *)
Definition Busy (blocking_mode : bool) (L : list byte) (w : world buf chunk) : Prop :=
  Idle blocking_mode L w /\ (blocking_mode = false -> _writing (self w) = true).

(** The chunk in flight after [n] of it were taken. *)
Definition sliced (n : Z) (w : world buf chunk) : world buf chunk :=
  with_self (fun s => set_writingBuf (slice (_writingBuf s) n) s) w.

(** Two states that differ in nothing the ledger reads. *)
Definition same_ledger (w w' : world buf chunk) : Prop :=
  destroyed (self w') = destroyed (self w)
  /\ _ending (self w') = _ending (self w)
  /\ _reopening (self w') = _reopening (self w)
  /\ sync (self w') = sync (self w)
  /\ _writingBuf (self w') = _writingBuf (self w)
  /\ _bufs (self w') = _bufs (self w)
  /\ _lens (self w') = _lens (self w)
  /\ ready_once w' = ready_once w
  /\ drain_once w' = drain_once w
  /\ error_once w' = error_once w
  /\ tasks w' = tasks w
  /\ replies w' = replies w
  /\ delivered (trace w') = delivered (trace w).

Definition ends_in {A} (Pr Pt : world buf chunk -> Prop)
           (o : outcome (world buf chunk) A) : Prop :=
  match o with
  | Returned _ w' => Pr w'
  | Thrown _ w' => Pt w'
  | Waiting => True
  | OutOfFuel => True
  end.

End Ledger.

(** ** Runs of a writer *)

(** What an enqueue adds to the ledger: the bytes of the data, unless the
    drop threshold rejects it. *)
Definition let_through {buf chunk} (s : sonic buf chunk) (n : Z) (bytes : list byte)
  : list byte :=
  if negb (maxLength s =? 0) && (_len s + n >? maxLength s) then [] else bytes.

(** A run of the program: calls of [write] and callbacks run by the
    runtime, in any order. *)
Inductive step (buf : Type) : Type :=
| Enqueue (data : buf)
| Callback (i : nat) (r : reply).

Arguments Callback {buf}.

Fixpoint run_bytes (fuel : nat) (steps : list (step Buffer))
         (w : world Buffer (list Buffer)) (sent : list byte)
  : option (world Buffer (list Buffer) * list byte) :=
  match steps with
  | [] => Some (w, sent)
  | Enqueue data :: rest =>
      match final (writeBuffer fuel data w) with
      | Some w' => run_bytes fuel rest w' (sent ++ let_through (self w) (len data) data)
      | None => None
      end
  | Callback i r :: rest =>
      match final (complete fuel i r w) with
      | Some w' => run_bytes fuel rest w' sent
      | None => None
      end
  end.

Fixpoint run_text (fuel : nat) (steps : list (step jsstring))
         (w : world jsstring jsstring) (sent : list byte)
  : option (world jsstring jsstring * list byte) :=
  match steps with
  | [] => Some (w, sent)
  | Enqueue data :: rest =>
      match final (write fuel data w) with
      | Some w' => run_text fuel rest w' (sent ++ let_through (self w) (len data) (utf8 data))
      | None => None
      end
  | Callback i r :: rest =>
      match final (complete fuel i r w) with
      | Some w' => run_text fuel rest w' sent
      | None => None
      end
  end.

(** Text made of characters that take one byte. *)
Definition one_byte_text (s : jsstring) : Prop := Forall (fun c => 0 <= c < 128) s.

Definition step_ok_bytes (st : step Buffer) : Prop :=
  match st with
  | Enqueue _ => True
  | Callback _ r => reply_ok r
  end.

Definition step_ok_text (st : step jsstring) : Prop :=
  match st with
  | Enqueue data => one_byte_text data
  | Callback _ r => reply_ok r
  end.

Definition lens_in_step (bufs : list (list Buffer)) (lens : list Z) : Prop :=
  lens = map chunk_size bufs.

Definition all_one_byte (bufs : list jsstring) (lens : list Z) : Prop :=
  Forall one_byte_text bufs.

(** Sample runs. *)
Definition sample_run_bytes : list (step Buffer) :=
  [Enqueue (map octet [97; 98]); Enqueue (map octet [99; 100; 101]);
   Callback 1 (Done 1); Callback 0 (Done 0); Callback 0 (Failed "EAGAIN");
   Callback 0 (Done 0); Enqueue (map octet [102]); Callback 0 (Done 1);
   Callback 0 (Done 3)].

Definition sample_answers : list reply := [Done 1; Failed "EAGAIN"; Done 1; Done 2].

Definition sample_run_text : list (step jsstring) :=
  [Enqueue [97; 98]; Enqueue [99; 100]; Callback 0 (Done 0)].

Definition Inv_bytes := Inv (@List.concat byte) (fun _ : Buffer => True) lens_in_step.
Definition Inv_text := Inv utf8 one_byte_text all_one_byte.

(** ** Programs on a writer *)

(** What a program does with a writer: the calls of its interface, the
    listeners it attaches, and the callbacks the runtime runs in between. *)
Inductive op (buf : Type) : Type :=
| OpWrite (data : buf)
| OpFlush (cb : jsarg)
| OpFlushSync
| OpReopen (file : option string)
| OpEnd
| OpDestroy
| OpOnDrain
| OpOnError
| OpCallback (i : nat) (r : reply).

Arguments OpFlush {buf}.
Arguments OpFlushSync {buf}.
Arguments OpReopen {buf}.
Arguments OpEnd {buf}.
Arguments OpDestroy {buf}.
Arguments OpOnDrain {buf}.
Arguments OpOnError {buf}.
Arguments OpCallback {buf}.

(** One operation; [write_], [flush_] and [flushSync_] are the functions the
    constructor installed for the content mode. *)
Definition exec {buf chunk} {content : Content buf chunk}
           (write_ : buf -> Js buf chunk bool) (flush_ : jsarg -> Js buf chunk unit)
           (flushSync_ : Js buf chunk unit) (fuel : nat) (o : op buf)
  : Js buf chunk unit :=
  match o with
  | OpWrite data => _ <- write_ data ;; ret tt
  | OpFlush cb => flush_ cb
  | OpFlushSync => flushSync_
  | OpReopen newfile => reopen fuel newfile
  | OpEnd => end_ fuel
  | OpDestroy => destroy
  | OpOnDrain => on_drain
  | OpOnError => on_error
  | OpCallback i r => complete fuel i r
  end.

Definition exec_text (fuel : nat) : op jsstring -> TextJs unit :=
  exec (write fuel) (flush fuel) (flushSync fuel) fuel.

Definition exec_bytes (fuel : nat) : op Buffer -> BytesJs unit :=
  exec (writeBuffer fuel) (flushBuffer fuel) (flushBufferSync fuel) fuel.

(** A program: the operations one after the other; an exception ends the
    operation that raised it, not the program. *)
Fixpoint run_ops {W A} (step_ : A -> M W unit) (ops : list A) (w : W) : option W :=
  match ops with
  | [] => Some w
  | o :: rest =>
      match final (step_ o w) with
      | Some w' => run_ops step_ rest w'
      | None => None
      end
  end.

(** The options as the constructor stored them. *)
Definition configuration {buf chunk} (s : sonic buf chunk)
  : Z * Z * Z * Z * bool * bool * bool * bool * option Z * bool :=
  (_hwm s, minLength s, maxLength s, maxWrite s, sync s, writable s, _fsync s,
   append s, mode s, mkdir s).

(** How a writer may differ from what it was: the configuration is the same,
    and [destroyed] and [_ending], once set, stay set. *)
Definition evolves {buf chunk} (s s' : sonic buf chunk) : Prop :=
  configuration s' = configuration s
  /\ retryEAGAIN s' = retryEAGAIN s
  /\ (destroyed s = true -> destroyed s' = true)
  /\ (_ending s = true -> _ending s' = true).

Definition moves {buf chunk A} (m : Js buf chunk A) : Prop :=
  forall w, match m w with
            | Returned _ w' => evolves (self w) (self w')
            | Thrown _ w' => evolves (self w) (self w')
            | Waiting => True
            | OutOfFuel => True
            end.

(** [_lens] holds the size of each chunk of [_bufs]. *)
Definition aligned (s : sonic Buffer (list Buffer)) : Prop :=
  _lens s = map chunk_size (_bufs s).

(** Sample programs. *)
Definition sample_program_text : list (op jsstring) :=
  [OpWrite [104; 105]; OpCallback 0 (Done 7); OpOnDrain; OpFlush (Fn 0);
   OpCallback 0 (Done 2); OpWrite [33]; OpEnd; OpCallback 0 (Done 1);
   OpCallback 0 (Done 0); OpCallback 0 (Done 0); OpWrite [63]].

Definition sample_program_bytes : list (op Buffer) :=
  [OpWrite (map octet [104; 105]); OpWrite (map octet [33]); OpFlush Nullish;
   OpCallback 1 (Failed "EAGAIN"); OpCallback 1 (Done 0); OpCallback 1 (Done 2);
   OpDestroy; OpCallback 0 (Done 0); OpReopen None].

Definition SonicBoom_destroyed : jserror := Error "SonicBoom destroyed".

(** [{ fd: 0 }] *)
Definition on_stdin : options :=
  {| o_fd := Some (Num 0); o_dest := None;
     o_minLength := None; o_maxLength := None; o_maxWrite := None;
     o_sync := None; o_append := None; o_mkdir := None;
     o_retryEAGAIN := None; o_fsync := None; o_mode := None |}.

(** ** A writer on a descriptor *)

Section OnDescriptor.

Context {buf chunk : Type}.

Variable n : Z.

(** A callback waiting in the runtime that concerns descriptor [n] only, and
    closes it only if it is neither 1 nor 2. *)
Definition task_on (t : task buf) : Prop :=
  match t with
  | fs_write fd0 _ => fd0 = n
  | fs_fsync_close fd0 => fd0 = n
  | fs_fsync_cb fd0 _ => fd0 = n
  | fs_close_done fd0 => fd0 = n /\ n <> 1 /\ n <> 2
  | timer_fsWrite => True
  | tick_ready => True
  | tick_drain => True
  | tick_error _ => True
  | fs_mkdir _ _ _ => False
  | fs_open _ _ _ => False
  | fs_close_old _ => False
  end.

(** The same for what has been observed: no file is opened, no directory
    made, every write and fsync is on [n], and [n] is closed only if it is
    neither 1 nor 2. *)
Definition obs_on (o : obs buf) : Prop :=
  match o with
  | SysWrite fd0 _ _ => fd0 = n
  | SysFsync fd0 _ => fd0 = n
  | SysClose fd0 _ => fd0 = n /\ n <> 1 /\ n <> 2
  | SysOpen _ _ _ _ => False
  | SysMkdir _ _ => False
  | Emit _ => True
  | Sleep _ => True
  | Call _ _ => True
  end.

Definition listener_on (l : ready_listener) : Prop :=
  match l with
  | LEnd => True
  | LActualClose => True
  | LReopen _ => False
  | LCloseOld _ => False
  end.

Definition bound_to (w : world buf chunk) : Prop :=
  fd (self w) = n
  /\ file (self w) = None
  /\ _opening (self w) = false
  /\ Forall task_on (tasks w)
  /\ Forall obs_on (trace w)
  /\ Forall listener_on (ready_once w).

Definition stays {A} (m : Js buf chunk A) : Prop :=
  forall w, bound_to w ->
            match m w with
            | Returned _ w' => bound_to w'
            | Thrown _ w' => bound_to w'
            | Waiting => True
            | OutOfFuel => True
            end.

End OnDescriptor.

Definition sample_program_on_stdout : list (op jsstring) :=
  [OpWrite [104; 105]; OpReopen (Some "other.log"); OpCallback 1 (Done 2); OpEnd;
   OpCallback 1 (Done 0)].

Definition sample_program_on_stdout_bytes : list (op Buffer) :=
  [OpWrite [Byte.x61]; OpFlushSync; OpDestroy; OpCallback 2 (Failed "EIO")].

(** ** What [flushSync] writes *)

(** The chunks [flushSync] goes through: [_writingBuf] first when it holds
    something no write is in flight for (index.js 507-510), then [_bufs]. *)
Definition flushSync_queue (s : sonic jsstring jsstring) : list jsstring :=
  (if negb (_writing s) && (len (_writingBuf s) >? 0) then [_writingBuf s] else [])
  ++ _bufs s.

(** What is left for the loop of [flushSync] to write: the rest of the
    chunk it is at, then the chunks behind it. *)
Definition flushSync_rest (buf : jsstring) (bufs : list jsstring) : list byte :=
  match buf with
  | [] => flats utf8 bufs
  | _ => utf8 buf ++ flats utf8 (tl bufs)
  end.

Definition flushBufferSync_rest (buf : Buffer) (bufs : list (list Buffer)) : list byte :=
  match buf with
  | [] => flats (@List.concat byte) bufs
  | _ => buf ++ flats (@List.concat byte) (tl bufs)
  end.

(** One round of the loop of [flushSync] when the descriptor answers [n]. *)
Definition flushSync_round (buf : jsstring) (n : Z) (more : list reply)
           (w : world jsstring jsstring) : world jsstring jsstring :=
  let w1 := with_trace (trace w ++ [SysWrite (fd (self w)) buf (Done n)])
              (with_replies more w) in
  let w2 := with_self (fun s => set_len (Z.max (_len s - n) 0) s) w1 in
  if len (js_slice buf n) <=? 0
  then with_self (fun s => set_bufs (tl (_bufs s)) s) w2
  else w2.

Definition flushBufferSync_round (buf : Buffer) (n : Z) (more : list reply)
           (w : world Buffer (list Buffer)) : world Buffer (list Buffer) :=
  let w1 := with_trace (trace w ++ [SysWrite (fd (self w)) buf (Done n)])
              (with_replies more w) in
  let w2 := with_self (fun s => set_len (Z.max (_len s - n) 0) s) w1 in
  if len (js_slice buf n) <=? 0
  then with_self (fun s => set_lens (tl (_lens s)) s)
         (with_self (fun s => set_bufs (tl (_bufs s)) s) w2)
  else w2.

(** A deferred text writer with [maxWrite] 4: "x" is in flight, "abc" and
    "de" wait behind it; the descriptor will answer [answers] to blocking
    writes. *)
Definition holding_two_chunks (answers : list reply)
  : outcome (world jsstring jsstring) bool :=
  text (on_stdout false false 0 0 4) answers
  >>> write 4 [120] >>> write 4 [97; 98; 99] >>> write 4 [100; 101].

Definition holding_two_chunks_bytes (answers : list reply)
  : outcome (world Buffer (list Buffer)) bool :=
  bytes (on_stdout false false 0 0 4) answers
  >>> writeBuffer 4 (map octet [120])
  >>> writeBuffer 4 (map octet [97; 98]) >>> writeBuffer 4 (map octet [99])
  >>> writeBuffer 4 (map octet [100; 101]).

Definition flushBufferSync_queue (s : sonic Buffer (list Buffer)) : list (list Buffer) :=
  (if negb (_writing s) && (len (_writingBuf s) >? 0) then [[_writingBuf s]] else [])
  ++ _bufs s.

(** What the loop of [flushBufferSync] needs of [_lens]: the size it reads
    for the chunk at the head gives [mergeBuf] the whole chunk, and the
    sizes behind it are those of the chunks behind. *)
Definition ready_to_merge (bufs : list (list Buffer)) (lens : list Z) : Prop :=
  tl lens = map chunk_size (tl bufs)
  /\ mergeBuf (hd [] bufs) (hd_error lens) = List.concat (hd [] bufs).

(** A blocking buffer writer with an ['error'] listener whose descriptor
    fails four times: "x" stays unwritten in [_writingBuf], "ab" and "c"
    share a chunk behind it, "de" has its own. *)
Definition holding_behind_failed_write : outcome (world Buffer (list Buffer)) bool :=
  bytes (on_stdout true false 0 0 4)
        [Failed "EIO"; Failed "EIO"; Failed "EIO"; Failed "EIO"; Done 1; Done 2; Done 2]
  >>> on_error
  >>> writeBuffer 4 (map octet [120])
  >>> writeBuffer 4 (map octet [97; 98]) >>> writeBuffer 4 (map octet [99])
  >>> writeBuffer 4 (map octet [100; 101]).

(** ** Opening the file *)

(** [sonic.append ? 'a' : 'w'] *)
Definition open_flags {buf chunk} (s : sonic buf chunk) : string :=
  if append s then "a" else "w".

(** The writer as [openFile] leaves it before the file-system answers. *)
Definition opening {buf chunk} (s : sonic buf chunk) : sonic buf chunk :=
  set_asyncDrainScheduled false (set_writing true (set_opening true s)).

(** The writer as [fileOpened] leaves it when the file is open. *)
Definition opened {buf chunk} (target : string) (newfd : Z) (s : sonic buf chunk)
  : sonic buf chunk :=
  set_writing false
    (set_opening false (set_reopening false (set_file (Some target) (set_fd newfd s)))).

(** The writer as [fileOpened] leaves it when the file could not be opened. *)
Definition not_opened {buf chunk} (s : sonic buf chunk) : sonic buf chunk :=
  set_opening false (set_writing false (set_reopening false s)).

(** [{ dest: path }] with the given [sync], [mkdir] and [append]. *)
Definition on_file (path : string) (sync mkdir append : bool) : options :=
  {| o_fd := None; o_dest := Some (Str path);
     o_minLength := None; o_maxLength := None; o_maxWrite := None;
     o_sync := Some sync; o_append := Some append; o_mkdir := Some mkdir;
     o_retryEAGAIN := None; o_fsync := None; o_mode := None |}.

(** ** Sample writers on a file *)

(** [{ dest: 'app.log', sync: false }] once the file is open on
    descriptor 7. *)
Definition open_on_app_log : outcome (world jsstring jsstring) unit :=
  text (on_file "app.log" false false true) [] >>> complete 4 0 (Done 7).

(** The same with "hi" handed to [fs.write]. *)
Definition writing_to_app_log : outcome (world jsstring jsstring) bool :=
  open_on_app_log >>> write 4 [104; 105].

(** ** What [end] writes *)

(** The chunks a text writer holds when no write is in flight: what is
    left of [_writingBuf], then [_bufs]. *)
Definition held (wb : jsstring) (bufs : list jsstring) : list jsstring :=
  (if len wb >? 0 then [wb] else []) ++ bufs.

(** The characters in a queue of chunks. *)
Definition held_length (q : list jsstring) : Z :=
  fold_right (fun c n => len c + n) 0 q.

(** Each chunk taken whole by descriptor [d]: the write and the ['write']
    event that follows it. *)
Definition whole_writes (d : Z) (q : list jsstring) : list (obs jsstring) :=
  flat_map (fun c => [SysWrite d c (Done (len (utf8 c))); Emit (EvWrite (len (utf8 c)))]) q.

(** A blocking text writer on descriptor 1 whose writes failed twice: "x"
    is left in [_writingBuf] and "ab" waits in [_bufs]; the descriptor will
    take both. *)
Definition holding_after_failed_writes : outcome (world jsstring jsstring) bool :=
  text (on_stdout true false 0 0 4) [Failed "EIO"; Failed "EIO"; Done 1; Done 2]
  >>> on_error >>> write 4 [120] >>> write 4 [97; 98].

(** ** [flush] with a callback *)

(** The chunk [flush] sends: [this._writingBuf || this._bufs.shift() || '']
    once [''] has been pushed on an empty [_bufs]. *)
Definition flush_chunk (s : sonic jsstring jsstring) : jsstring :=
  match _writingBuf s with
  | _ :: _ => _writingBuf s
  | [] => hd [] (_bufs s)
  end.

(** A deferred text writer on descriptor 1 with [minLength] 10 holding
    "ab". *)
Definition holding_below_minLength : outcome (world jsstring jsstring) bool :=
  text (on_stdout false false 10 0 0) [] >>> write 4 [97; 98].

(** A deferred text writer on descriptor 1 with [maxWrite] 4: four
    two-byte characters are in flight and "abcd" waits behind them. *)
Definition holding_behind_multibyte : outcome (world jsstring jsstring) unit :=
  text (on_stdout false false 0 0 4) []
  >>> write 4 [120] >>> write 4 [233; 233; 233; 233] >>> write 4 [97; 98; 99; 100]
  >>> complete 4 1 (Done 1).

(** [{ dest: 'app.log', sync: false }] given "hi" before the file is
    open. *)
Definition written_before_open : outcome (world jsstring jsstring) bool :=
  text (on_file "app.log" false false true) [] >>> write 4 [104; 105].

(** ** Retried writes *)

(** The codes [release] retries on. *)
Definition busy (code : string) : Prop := code = "EAGAIN"%string \/ code = "EBUSY"%string.

(** What a blocking writer does for each write that failed with a busy
    code: the failed write, the pause, and the ['write'] event of
    [release(undefined, 0)]. *)
Definition retries (d : Z) (c : jsstring) (codes : list string) : list (obs jsstring) :=
  flat_map (fun code => [SysWrite d c (Failed code); Sleep BUSY_WRITE_TIMEOUT;
                         Emit (EvWrite 0)]) codes.

(** A blocking text writer on descriptor 1 that is busy twice before it
    takes two bytes. *)
Definition busy_twice : outcome (world jsstring jsstring) unit :=
  text (on_stdout true false 0 0 0) [Failed "EAGAIN"; Failed "EBUSY"; Done 2].

(** ** A writer that does not retry *)

(** [{ fd: 1, minLength: 10, retryEAGAIN: () => false }] *)
Definition refusing_retries : options :=
  {| o_fd := Some (Num 1); o_dest := None;
     o_minLength := Some 10; o_maxLength := None; o_maxWrite := None;
     o_sync := Some false; o_append := None; o_mkdir := None;
     o_retryEAGAIN := Some (fun _ _ _ => false); o_fsync := None; o_mode := None |}.

(** It holds "abc"; the descriptor will take one byte, be busy, then take
    three. *)
Definition holding_abc : outcome (world jsstring jsstring) bool :=
  text refusing_retries [Done 1; Failed "EAGAIN"; Done 3] >>> write 4 [97; 98; 99].

(** ** What is written after [destroy] *)


(** A write observed, or waiting in the runtime, carries content that is
    [in_flight]. *)
Definition write_of {buf} (in_flight : buf -> Prop) (o : obs buf) : Prop :=
  match o with
  | SysWrite _ c _ => in_flight c
  | _ => True
  end.

Definition write_task {buf} (in_flight : buf -> Prop) (t : task buf) : Prop :=
  match t with
  | fs_write _ c => in_flight c
  | _ => True
  end.

(** Nothing is pending, and the trace has gained nothing since [t0] but
    writes of content [in_flight]; so is all that can still be written. *)
Definition drained {buf chunk} (in_flight : buf -> Prop) (t0 : list (obs buf))
           (w : world buf chunk) : Prop :=
  _bufs (self w) = []
  /\ in_flight (_writingBuf (self w))
  /\ Forall (write_task in_flight) (tasks w)
  /\ exists t', trace w = t0 ++ t' /\ Forall (write_of in_flight) t'.

Definition confines {buf chunk} (in_flight : buf -> Prop) (t0 : list (obs buf))
           {A} (m : Js buf chunk A) : Prop :=
  forall w, drained in_flight t0 w ->
            match m w with
            | Returned _ w' => drained in_flight t0 w'
            | Thrown _ w' => drained in_flight t0 w'
            | Waiting => True
            | OutOfFuel => True
            end.


(** * Verification *)

(** ** Unfolding the monad *)

Section MonadFacts.

Context {W : Type}.

Lemma bind_returned {A B} (m : M W A) (k : A -> M W B) w a w' :
  m w = Returned a w' -> bind m k w = k a w'.
Proof. unfold bind. intros ->. reflexivity. Qed.

Lemma bind_thrown {A B} (m : M W A) (k : A -> M W B) w e w' :
  m w = Thrown e w' -> bind m k w = Thrown e w'.
Proof. unfold bind. intros ->. reflexivity. Qed.

Lemma bind_inv {A B} (m : M W A) (k : A -> M W B) w b w' :
  bind m k w = Returned b w' ->
  exists a w1, m w = Returned a w1 /\ k a w1 = Returned b w'.
Proof.
  unfold bind. destruct (m w) as [a w1| | |]; try discriminate.
  intros H. exists a, w1. split; [reflexivity | exact H].
Qed.

Lemma when_inv (c : bool) (m : M W unit) w u w' :
  when c m w = Returned u w' ->
  (c = true /\ m w = Returned u w') \/ (c = false /\ w' = w).
Proof.
  destruct c; simpl; intros H.
  - left. split; [reflexivity | exact H].
  - right. inversion H. split; reflexivity.
Qed.

End MonadFacts.

(** ** Drop threshold (C2) *)

Lemma drop_guard {buf chunk} (s : sonic buf chunk) n :
  over_dropThreshold s n ->
  negb (maxLength s =? 0) && (_len s + n >? maxLength s) = true.
Proof.
  intros [Hpos Hover].
  apply andb_true_iff. split.
  - apply negb_true_iff, Z.eqb_neq. lia.
  - apply Z.gtb_lt. exact Hover.
Qed.

(** C2. A writer (not destroyed) with [maxLength > 0] that is asked to
    enqueue data taking [_len + data.length] over [maxLength] does not buffer
    it: the call emits ['drop'] with exactly that data, returns
    [_len < _hwm] on the unchanged [_len], and leaves the writer (its
    [_len], [_bufs], [_lens], [_writingBuf] and everything else) as it was.
    Both content modes. *)
Theorem enqueue_over_dropThreshold_drops :
  (forall fuel (w : world jsstring jsstring) (data : jsstring),
      destroyed (self w) = false ->
      over_dropThreshold (self w) (len data) ->
      write fuel data w
      = Returned (_len (self w) <? _hwm (self w))
          (with_trace (trace w ++ [Emit (EvDrop data)]) w))
  /\
  (forall fuel (w : world Buffer (list Buffer)) (data : Buffer),
      destroyed (self w) = false ->
      over_dropThreshold (self w) (len data) ->
      writeBuffer fuel data w
      = Returned (_len (self w) <? _hwm (self w))
          (with_trace (trace w ++ [Emit (EvDrop data)]) w)).
Proof.
  split; intros fuel w data Hlive Hover.
  - unfold write, bind, this. cbv beta iota. rewrite Hlive.
    rewrite (drop_guard Hover). reflexivity.
  - unfold writeBuffer, bind, this. cbv beta iota. rewrite Hlive.
    rewrite (drop_guard Hover). reflexivity.
Qed.

(** The example of the specification: 50 more bytes are dropped and 480
    stay. *)
Lemma enqueue_over_dropThreshold_drops_witness :
  (exists w,
      holding_480 = Returned true w
      /\ _len (self w) = 480 /\ maxLength (self w) = 500
      /\ write 4 (repeat 98 50) w
         = Returned true (with_trace (trace w ++ [Emit (EvDrop (repeat 98 50))]) w))
  /\
  (exists w,
      holding_480_bytes = Returned true w
      /\ _len (self w) = 480 /\ maxLength (self w) = 500
      /\ writeBuffer 4 (repeat Byte.x62 50) w
         = Returned true (with_trace (trace w ++ [Emit (EvDrop (repeat Byte.x62 50))]) w)).
Proof.
  split.
  - eexists. split; [vm_compute; reflexivity | ].
    split; [reflexivity | ]. split; [reflexivity | ].
    apply (proj1 enqueue_over_dropThreshold_drops 4%nat).
    + reflexivity.
    + split; vm_compute; reflexivity.
  - eexists. split; [vm_compute; reflexivity | ].
    split; [reflexivity | ]. split; [reflexivity | ].
    apply (proj2 enqueue_over_dropThreshold_drops 4%nat).
    + reflexivity.
    + split; vm_compute; reflexivity.
Defined.

(** ** [flush] on a destroyed writer (C10) *)

(** C10. On a destroyed writer, [flush(cb)] with a callback calls [cb] with
    the error "SonicBoom destroyed" and returns; with no callback it throws
    that error; and that error is thrown only when no callback is given (any
    other argument that is not a function is refused before the writer is
    looked at).  Both content modes. *)
Theorem flush_destroyed_reports_to_callback :
  (forall fuel (w : world jsstring jsstring),
      destroyed (self w) = true ->
      (forall cb,
          flush fuel (Fn cb) w
          = Returned tt
              (with_trace (trace w ++ [Call cb (Some (Error "SonicBoom destroyed"))]) w))
      /\ flush fuel Nullish w = Thrown (Error "SonicBoom destroyed") w
      /\ (forall arg w',
             flush fuel arg w = Thrown (Error "SonicBoom destroyed") w' ->
             arg = Nullish))
  /\
  (forall fuel (w : world Buffer (list Buffer)),
      destroyed (self w) = true ->
      (forall cb,
          flushBuffer fuel (Fn cb) w
          = Returned tt
              (with_trace (trace w ++ [Call cb (Some (Error "SonicBoom destroyed"))]) w))
      /\ flushBuffer fuel Nullish w = Thrown (Error "SonicBoom destroyed") w
      /\ (forall arg w',
             flushBuffer fuel arg w = Thrown (Error "SonicBoom destroyed") w' ->
             arg = Nullish)).
Proof.
  split; intros fuel w Hdead; repeat split.
  - intros cb. unfold flush, bind, this. cbv beta iota. rewrite Hdead. reflexivity.
  - unfold flush, bind, this. cbv beta iota. rewrite Hdead. reflexivity.
  - intros [ | cb | ] w'; [reflexivity | | ];
      unfold flush, bind, this; cbv beta iota; try rewrite Hdead;
      unfold call, log, throw; intros H; discriminate H.
  - intros cb. unfold flushBuffer, bind, this. cbv beta iota. rewrite Hdead. reflexivity.
  - unfold flushBuffer, bind, this. cbv beta iota. rewrite Hdead. reflexivity.
  - intros [ | cb | ] w'; [reflexivity | | ];
      unfold flushBuffer, bind, this; cbv beta iota; try rewrite Hdead;
      unfold call, log, throw; intros H; discriminate H.
Qed.

Lemma flush_destroyed_reports_to_callback_witness :
  (exists w,
      destroyed_text = Returned tt w
      /\ flush 3 (Fn 7) w
         = Returned tt
             (with_trace (trace w ++ [Call 7 (Some (Error "SonicBoom destroyed"))]) w)
      /\ flush 3 Nullish w = Thrown (Error "SonicBoom destroyed") w)
  /\
  (exists w,
      destroyed_bytes = Returned tt w
      /\ flushBuffer 3 (Fn 7) w
         = Returned tt
             (with_trace (trace w ++ [Call 7 (Some (Error "SonicBoom destroyed"))]) w)
      /\ flushBuffer 3 Nullish w = Thrown (Error "SonicBoom destroyed") w).
Proof.
  split.
  - eexists. split; [vm_compute; reflexivity | ].
    split.
    + apply (proj1 flush_destroyed_reports_to_callback 3%nat). reflexivity.
    + apply (proj1 flush_destroyed_reports_to_callback 3%nat). reflexivity.
  - eexists. split; [vm_compute; reflexivity | ].
    split.
    + apply (proj2 flush_destroyed_reports_to_callback 3%nat). reflexivity.
    + apply (proj2 flush_destroyed_reports_to_callback 3%nat). reflexivity.
Defined.

(** ** [reopen] and the backing path (C8) *)

(** A writer built on descriptor 1 refuses [reopen('new/path')]: the guard at
    index.js 445 reads [this.file] only, never the argument. *)
Lemma reopen_with_path_on_descriptor_writer :
  exists w,
    text (on_stdout false false 0 0 0) [] = Returned tt w
    /\ destroyed (self w) = false
    /\ _opening (self w) = false
    /\ _ending (self w) = false
    /\ file (self w) = None
    /\ reopen 5 (Some "new/path") w = Thrown no_backing_path w.
Proof.
  eexists. split; [vm_compute; reflexivity | ].
  repeat split.
Qed.

Section Reopen.

Context {buf chunk : Type} {content : Content buf chunk}.

(** C8, amended.  On a writer that is not destroyed, not opening and not
    ending, [reopen(file)] throws the missing-path error exactly when the
    writer has no backing path of its own ([this.file] unset), whatever
    [file] is.  When it has one, the call marks [_reopening] and either
    waits for the write in flight or registers the closing of the old
    descriptor and opens [file || this.file]. *)
Theorem reopen_needs_own_backing_path :
  forall fuel (w : world buf chunk) (newfile : option string),
    destroyed (self w) = false ->
    _opening (self w) = false ->
    _ending (self w) = false ->
    (truthy (file (self w)) = false ->
     reopen (S fuel) newfile w = Thrown no_backing_path w)
    /\
    (truthy (file (self w)) = true ->
     reopen (S fuel) newfile w
     = if _writing (self w)
       then Returned tt (with_self (set_reopening true) w)
       else openFile fuel (unwrap (or_else newfile (file (self w))))
              (with_ready_once (ready_once w ++ [LCloseOld (fd (self w))])
                 (with_self (set_reopening true) w))).
Proof.
  intros fuel w newfile Hlive Hopen Hend. split; intros Hfile.
  - cbn [reopen]. unfold reopen_body, bind, this. cbv beta iota.
    rewrite Hlive, Hopen, Hend, Hfile. reflexivity.
  - cbn [reopen]. unfold reopen_body, bind, this. cbv beta iota.
    rewrite Hlive, Hopen, Hend, Hfile. cbn [negb].
    destruct (_writing (self w)); reflexivity.
Qed.

End Reopen.

Lemma reopen_needs_own_backing_path_witness :
  (exists w,
      text (on_stdout false false 0 0 0) [] = Returned tt w
      /\ reopen 5 (Some "new/path") w = Thrown no_backing_path w)
  /\
  (exists w,
      opened_on_path = Returned tt w
      /\ file (self w) = Some "app.log"
      /\ reopen 5 (Some "new/path") w
         = (if _writing (self w)
            then Returned tt (with_self (set_reopening true) w)
            else openFile 4 (unwrap (or_else (Some "new/path") (file (self w))))
                   (with_ready_once (ready_once w ++ [LCloseOld (fd (self w))])
                      (with_self (set_reopening true) w)))
      /\ exists w', reopen 5 (Some "new/path") w = Returned tt w'
                    /\ tasks w' = [fs_open "new/path" "a" None]).
Proof.
  split.
  - eexists. split; [vm_compute; reflexivity | ].
    match goal with
    | |- reopen _ _ ?W = _ =>
        exact (proj1 (reopen_needs_own_backing_path 4 W (Some "new/path")
                        eq_refl eq_refl eq_refl) eq_refl)
    end.
  - eexists. split; [vm_compute; reflexivity | ].
    split; [reflexivity | ].
    split.
    + match goal with
      | |- reopen _ _ ?W = _ =>
          exact (proj2 (reopen_needs_own_backing_path 4 W (Some "new/path")
                          eq_refl eq_refl eq_refl) eq_refl)
      end.
    + eexists. split; vm_compute; reflexivity.
Defined.

(** ** [destroy] (C5) *)


Section Destroy.

Context {buf chunk : Type} {content : Content buf chunk}.

(** The close sequence does not look at the answer of its [fs.fsync]:
    whether it failed or not, [closeWrapped] goes on to close the
    descriptor (or, for descriptors 1 and 2, to [done]). *)
Lemma close_skips_fsync_failure :
  forall fuel (fd0 : Z) (r : reply) (w : world buf chunk),
    run fuel (fs_fsync_close fd0) r w
    = closeWrapped (with_trace (trace w ++ [SysFsync fd0 r]) w).
Proof. reflexivity. Qed.

End Destroy.

(** ** Partial writes of text (C1, C9) *)

(** What [.slice(n)] keeps is what the descriptor has not taken -- for
    buffers, where [n] counts bytes of the buffer itself. *)
Lemma slice_buffer_keeps_the_rest :
  forall (b : Buffer) (n : Z),
    0 <= n ->
    firstn (Z.to_nat n) (octets b) ++ octets (slice b n) = octets b.
Proof.
  intros b n Hn. cbn [octets slice Raw]. unfold js_slice.
  destruct (n <? 0) eqn:E; [apply Z.ltb_lt in E; lia | ].
  apply firstn_skipn.
Qed.

(** The same holds for text made of one-byte characters only. *)
Lemma utf8_ascii :
  forall s : jsstring,
    Forall (fun c => 0 <= c < 128) s -> utf8 s = map octet s.
Proof.
  induction 1 as [ | c s Hc _ IH]; [reflexivity | ].
  cbn [utf8 map]. destruct (c <? 128) eqn:E; [ | apply Z.ltb_ge in E; lia].
  rewrite IH. reflexivity.
Qed.

Lemma slice_ascii_keeps_the_rest :
  forall (s : jsstring) (n : Z),
    Forall (fun c => 0 <= c < 128) s ->
    0 <= n ->
    firstn (Z.to_nat n) (octets s) ++ octets (slice s n) = octets s.
Proof.
  intros s n Hs Hn. cbn [octets slice Utf8]. unfold js_slice.
  destruct (n <? 0) eqn:E; [apply Z.ltb_lt in E; lia | ].
  rewrite (utf8_ascii Hs).
  rewrite (utf8_ascii (s := skipn (Z.to_nat n) s)).
  - rewrite firstn_map, <- map_app, firstn_skipn. reflexivity.
  - apply Forall_forall. intros c Hin.
    rewrite Forall_forall in Hs. apply Hs.
    rewrite <- (firstn_skipn (Z.to_nat n) s). apply in_or_app. right. exact Hin.
Qed.

(** C1.  A blocking text writer is given the three characters "éab"
    (four bytes in UTF-8); the descriptor takes three bytes of the four.
    [release] drops [n = 3] characters where three bytes were written, so
    the writer is left idle with nothing buffered, and the byte of "b" was
    never handed over.  The same happens to a deferred writer when the
    callback of [fs.write] reports three bytes. *)
Theorem text_partial_write_loses_bytes :
  utf8 [233; 97; 98] = [Byte.xc3; Byte.xa9; Byte.x61; Byte.x62]
  /\ (exists w,
         text (on_stdout true false 0 0 0) [Done 3] >>> write 6 [233; 97; 98]
         = Returned true w
         /\ delivered (trace w) = [Byte.xc3; Byte.xa9; Byte.x61]
         /\ _writing (self w) = false
         /\ _writingBuf (self w) = []
         /\ _bufs (self w) = []
         /\ _len (self w) = 0
         /\ tasks w = [tick_ready; tick_drain])
  /\ (exists w,
         text (on_stdout false false 0 0 0) [] >>> write 6 [233; 97; 98]
         >>> complete 6 1 (Done 3)
         = Returned tt w
         /\ delivered (trace w) = [Byte.xc3; Byte.xa9; Byte.x61]
         /\ _writing (self w) = false
         /\ _writingBuf (self w) = []
         /\ _bufs (self w) = []
         /\ _len (self w) = 0
         /\ tasks w = [tick_ready]).
Proof.
  split; [reflexivity | ].
  split; eexists; (split; [vm_compute; reflexivity | repeat split]).
Qed.

(** C9.  A blocking text writer is given "éé" (two characters,
    four bytes); the descriptor takes one byte, then two.  [release] clamps
    [_len] after the first answer, but the loop that writes the remainder
    (index.js 204-208) subtracts without clamping: the call returns with
    [_len = -1].  And the remainder kept after the first answer is not
    what was left unwritten: the first byte of the first character is
    handed over twice and the second character never. *)
Theorem blocking_release_loop_leaves_negative_len :
  exists w,
    text (on_stdout true false 0 0 0) [Done 1; Done 2] >>> write 6 [233; 233]
    = Returned true w
    /\ _len (self w) = -1
    /\ _writing (self w) = false
    /\ trace w = [SysWrite 1 [233; 233] (Done 1); Emit (EvWrite 1);
                  SysWrite 1 [233] (Done 2)]
    /\ delivered (trace w) = [Byte.xc3; Byte.xc3; Byte.xa9]
    /\ utf8 [233; 233] = [Byte.xc3; Byte.xa9; Byte.xc3; Byte.xa9].
Proof.
  eexists. split; [vm_compute; reflexivity | repeat split].
Qed.

(** ** A failing [fsync] after a chunk (C6) *)

(** C6.  With [fsync: true], [release] calls [fs.fsyncSync] unguarded
    (index.js 215-217).
    - Blocking mode: the failure is caught by [actualWrite], handed back to
      [release] as a write error, and raised: as an ['error'] signal when
      the application listens, as an exception out of [write] when it does
      not.
    - Deferred mode: the failure leaves the callback of [fs.write] as an
      uncaught exception; [_writing] stays set with no write in flight, so
      the chunk enqueued meanwhile is never dispatched, and later calls of
      [write] only buffer.  Had [fsync] succeeded, the next chunk would
      have been dispatched. *)
Theorem fsync_failure_after_chunk_is_raised :
  (exists w,
      text (on_stdout true true 0 0 0) [Done 1; Failed "EIO"] >>> on_error
      >>> write 6 [97]
      = Returned true w
      /\ trace w = [SysWrite 1 [97] (Done 1); Emit (EvWrite 1);
                    SysFsync 1 (Failed "EIO"); Emit (EvError (SystemError "EIO"))])
  /\ (exists w,
         text (on_stdout true true 0 0 0) [Done 1; Failed "EIO"] >>> write 6 [97]
         = Thrown (SystemError "EIO") w)
  /\ (exists w w',
         text (on_stdout false true 0 0 0) [Failed "EIO"]
         >>> write 6 [97] >>> write 6 [98] >>> complete 6 1 (Done 1)
         = Thrown (SystemError "EIO") w
         /\ _writing (self w) = true
         /\ _bufs (self w) = [[98]]
         /\ tasks w = [tick_ready]
         /\ write 6 [99] w = Returned true w'
         /\ _bufs (self w') = [[98; 99]]
         /\ tasks w' = [tick_ready]
         /\ delivered (trace w') = [Byte.x61])
  /\ (exists w,
         text (on_stdout false true 0 0 0) [Done 0]
         >>> write 6 [97] >>> write 6 [98] >>> complete 6 1 (Done 1)
         = Returned tt w
         /\ tasks w = [tick_ready; fs_write 1 [98]]).
Proof.
  split; [eexists; split; vm_compute; reflexivity | ].
  split; [eexists; vm_compute; reflexivity | ].
  split.
  - eexists. eexists. split; [vm_compute; reflexivity | ].
    split; [reflexivity | ]. split; [reflexivity | ]. split; [reflexivity | ].
    split; [vm_compute; reflexivity | ].
    repeat split.
  - eexists. split; vm_compute; reflexivity.
Qed.

(** ** [flushSync] and errors of the write primitive (C4) *)

(** Whatever the class of the error, the loop of [flushSync] throws only
    when the error is retryable and the predicate refuses; in every other
    case -- a fatal error in particular -- it sleeps and tries again. *)
Lemma flushSync_loop_on_error :
  forall fuel (buf : jsstring) (w : world jsstring jsstring) c rest,
    replies w = Failed c :: rest ->
    negb (len (_bufs (self w)) =? 0) || negb (len buf =? 0) = true ->
    let buf' := if len buf <=? 0 then hd [] (_bufs (self w)) else buf in
    let w' := with_trace (trace w ++ [SysWrite (fd (self w)) buf' (Failed c)])
                (with_replies rest w) in
    flushSync_loop (S fuel) buf w
    = if retryable (SystemError c)
         && negb (retryEAGAIN (self w) (SystemError c) (len buf')
                    (_len (self w) - len buf'))
      then Thrown (SystemError c) w'
      else flushSync_loop fuel buf'
             (with_trace (trace w' ++ [Sleep BUSY_WRITE_TIMEOUT]) w').
Proof.
  intros fuel buf w c rest Hr Hloop buf' w'.
  cbn [flushSync_loop]. unfold bind at 1. unfold this at 1. cbv beta iota.
  rewrite Hloop. fold buf'.
  unfold bind at 1. unfold attempt, bind at 1, blocking. rewrite Hr.
  cbv beta iota zeta. fold w'.
  unfold bind at 1. unfold this at 1. cbv beta iota.
  unfold retryable. change (self w') with (self w).
  destruct ((code_is (SystemError c) "EAGAIN" || code_is (SystemError c) "EBUSY")
            && negb (retryEAGAIN (self w) (SystemError c) (len buf')
                       (_len (self w) - len buf'))); reflexivity.
Qed.

(** C4.  A deferred writer holds one character below [minLength];
    the write primitive fails with [EBADF], an error that is not of the
    retryable class.  [flushSync] does not raise: it sleeps the backoff and
    calls the primitive again (here the second call succeeds; with no
    further answer it is still waiting in the loop).  An [EAGAIN] refused by
    the retry predicate is what it raises.  [flushBufferSync] does the
    same. *)
Theorem flushSync_retries_fatal_errors :
  (exists w,
      text (on_stdout false false 10 0 0) [Failed "EBADF"; Done 1]
      >>> write 4 [97] >>> flushSync 5
      = Returned tt w
      /\ trace w = [SysWrite 1 [97] (Failed "EBADF"); Sleep 100;
                    SysWrite 1 [97] (Done 1)])
  /\ text (on_stdout false false 10 0 0) [Failed "EBADF"]
     >>> write 4 [97] >>> flushSync 5
     = Waiting
  /\ (exists w,
         bytes (on_stdout false false 10 0 0) [Failed "EBADF"; Done 1]
         >>> writeBuffer 4 [Byte.x61] >>> flushBufferSync 5
         = Returned tt w
         /\ trace w = [SysWrite 1 [Byte.x61] (Failed "EBADF"); Sleep 100;
                       SysWrite 1 [Byte.x61] (Done 1)])
  /\ bytes (on_stdout false false 10 0 0) [Failed "EBADF"]
     >>> writeBuffer 4 [Byte.x61] >>> flushBufferSync 5
     = Waiting
  /\ (exists w,
         SonicBoom (content := Utf8) 4
           {| o_fd := Some (Num 1); o_dest := None; o_minLength := Some 10;
              o_maxLength := None; o_maxWrite := None; o_sync := None;
              o_append := None; o_mkdir := None;
              o_retryEAGAIN := Some (fun _ _ _ => false);
              o_fsync := None; o_mode := None |}
           [Failed "EAGAIN"]
         >>> write 4 [97] >>> flushSync 5
         = Thrown (SystemError "EAGAIN") w
         /\ _bufs (self w) = [[97]]).
Proof.
  split; [eexists; split; vm_compute; reflexivity | ].
  split; [vm_compute; reflexivity | ].
  split; [eexists; split; vm_compute; reflexivity | ].
  split; [vm_compute; reflexivity | ].
  eexists; split; vm_compute; reflexivity.
Qed.

(** ** What dispatch leaves alone

    Dispatch and the life cycle never add to [_bufs] and [_lens] -- they
    take the head chunk or empty both -- and never touch the settings.  So
    any property of the two queues that survives [next_chunk] and holds of
    the empty queues is kept, together with the settings, by every function
    of the dispatch engine, whether it returns or throws. *)

Section Stability.

Context {buf chunk : Type} {content : Content buf chunk}.

Variable Q : list chunk -> list Z -> Prop.
Variable cfg : Z * Z * Z * Z * bool * bool.

Local Abbreviation stable := (@stable buf chunk Q cfg).
Local Abbreviation keeps := (@keeps buf chunk Q cfg _).

Hypothesis Q_empty : Q [] [].
Hypothesis Q_next :
  forall b bufs lens picked bufs' lens',
    next_chunk b bufs lens = (picked, bufs', lens') ->
    Q bufs lens -> Q bufs' lens'.

Lemma keeps_ret {A} (a : A) : keeps (ret a).
Proof. intros w H. exact H. Qed.

Lemma keeps_throw {A} e : keeps (throw (A := A) e).
Proof. intros w H. exact H. Qed.

Lemma keeps_out_of_fuel {A} : keeps (out_of_fuel (A := A)).
Proof. intros w H. exact I. Qed.

Lemma keeps_bind {A B} (m : Js buf chunk A) (k : A -> Js buf chunk B) :
  keeps m -> (forall a, keeps (k a)) -> keeps (bind m k).
Proof.
  intros Hm Hk w H. unfold bind. specialize (Hm w H).
  destruct (m w) as [a w1 | e w1 | | ]; try exact Hm; try exact I.
  apply Hk. exact Hm.
Qed.

Lemma keeps_this {B} (k : sonic buf chunk -> Js buf chunk B) :
  (forall s, keeps (k s)) -> keeps (bind this k).
Proof.
  intros Hk. apply keeps_bind; [ | exact Hk].
  intros w H. exact H.
Qed.

(** [this] followed by a step that depends on what was read. *)
Lemma keeps_reading {B} (k : sonic buf chunk -> Js buf chunk B) :
  (forall w, stable (self w) ->
             match k (self w) w with
             | Returned _ w' => stable (self w')
             | Thrown _ w' => stable (self w')
             | Waiting => True
             | OutOfFuel => True
             end) ->
  keeps (bind this k).
Proof. intros Hk w H. exact (Hk w H). Qed.

Lemma keeps_try_catch {A} (m : Js buf chunk A) h :
  keeps m -> (forall e, keeps (h e)) -> keeps (try_catch m h).
Proof.
  intros Hm Hh w H. unfold try_catch. specialize (Hm w H).
  destruct (m w) as [a w1 | e w1 | | ]; try exact Hm.
  apply Hh. exact Hm.
Qed.

Lemma keeps_attempt {A} (m : Js buf chunk A) : keeps m -> keeps (attempt m).
Proof.
  intros Hm w H. unfold attempt. specialize (Hm w H).
  destruct (m w); exact Hm.
Qed.

Lemma keeps_when c (m : Js buf chunk unit) : keeps m -> keeps (when c m).
Proof. intros Hm. destruct c; [exact Hm | apply keeps_ret]. Qed.

(** A step that leaves the writer itself alone. *)
Lemma keeps_same_self {A} (m : Js buf chunk A) :
  (forall w, match m w with
             | Returned _ w' => self w' = self w
             | Thrown _ w' => self w' = self w
             | _ => True
             end) ->
  keeps m.
Proof.
  intros Hm w H. specialize (Hm w).
  destruct (m w); try exact I; rewrite Hm; exact H.
Qed.

Lemma keeps_log o : keeps (log o).
Proof. apply keeps_same_self. reflexivity. Qed.

Lemma keeps_schedule t : keeps (schedule t).
Proof. apply keeps_same_self. reflexivity. Qed.

Lemma keeps_once_ready l : keeps (once_ready l).
Proof. apply keeps_same_self. reflexivity. Qed.

Lemma keeps_blocking c : keeps (blocking c).
Proof.
  apply keeps_same_self. intros w. unfold blocking.
  destruct (replies w) as [ | [v | code] rest]; reflexivity.
Qed.

(** An assignment to a field other than [_bufs], [_lens] and the settings. *)
Lemma keeps_upd f :
  (forall s, _bufs (f s) = _bufs s /\ _lens (f s) = _lens s
             /\ settings (f s) = settings s) ->
  keeps (upd f).
Proof.
  intros Hf w [HQ Hc]. simpl. destruct (Hf (self w)) as (Hb & Hl & Hs).
  split; [rewrite Hb, Hl; exact HQ | rewrite Hs; exact Hc].
Qed.

Lemma keeps_for_each {A} (f : A -> Js buf chunk unit) l :
  (forall a, keeps (f a)) -> keeps (for_each f l).
Proof.
  intros Hf. induction l as [ | a l IH]; simpl.
  - apply keeps_ret.
  - apply keeps_bind; [apply Hf | intros _; exact IH].
Qed.

Ltac field_untouched :=
  let s := fresh "s" in
  intros s; repeat split; reflexivity.

Ltac keeps_step :=
  match goal with
  | H : keeps ?m |- keeps ?m => exact H
  | H : forall x, keeps _ |- keeps _ => apply H
  | H : forall x y, keeps _ |- keeps _ => apply H
  | H : forall x y z, keeps _ |- keeps _ => apply H
  | |- keeps (ret _) => apply keeps_ret
  | |- keeps (throw _) => apply keeps_throw
  | |- keeps out_of_fuel => apply keeps_out_of_fuel
  | |- keeps (log _) => apply keeps_log
  | |- keeps (sleep _) => apply keeps_log
  | |- keeps (call _ _) => apply keeps_log
  | |- keeps (schedule _) => apply keeps_schedule
  | |- keeps (once_ready _) => apply keeps_once_ready
  | |- keeps (blocking _) => apply keeps_blocking
  | |- keeps (upd _) => apply keeps_upd; field_untouched
  | |- keeps (bind this _) => apply keeps_this; intros ?
  | |- keeps (bind _ _) => apply keeps_bind; [ | intros ?]
  | |- keeps (when _ _) => apply keeps_when
  | |- keeps (try_catch _ _) => apply keeps_try_catch; [ | intros ?]
  | |- keeps (attempt _) => apply keeps_attempt
  | |- keeps (if ?c then _ else _) => destruct c
  | |- keeps (match ?x with _ => _ end) => destruct x
  end.

Lemma keeps_fsWriteSync : keeps fsWriteSync.
Proof. unfold fsWriteSync. repeat keeps_step. Qed.

Lemma keeps_fsWrite : keeps fsWrite.
Proof. unfold fsWrite. repeat keeps_step. Qed.

Lemma keeps_fsyncSync : keeps fsyncSync.
Proof. unfold fsyncSync. repeat keeps_step. Qed.

Lemma keeps_emit ev : keeps (emit ev).
Proof.
  destruct ev; try apply keeps_log.
  - (* 'error' *)
    intros w H. unfold emit.
    destruct (Nat.eqb (listenerCount_error w) 0); [exact H | ].
    refine (@keeps_bind _ _ (log _) _ _ _ (with_error_once [] w) H).
    + apply keeps_log.
    + intros _. apply keeps_for_each. intros l. unfold onError.
      repeat keeps_step. apply keeps_same_self. reflexivity.
  - (* 'drain' *)
    intros w H. unfold emit.
    refine (@keeps_bind _ _ (log _) _ _ _ (with_drain_once [] w) H).
    + apply keeps_log.
    + intros _. apply keeps_for_each. intros l. unfold onDrain.
      repeat keeps_step; apply keeps_same_self; reflexivity.
Qed.

Lemma keeps_actualClose : keeps actualClose.
Proof.
  unfold actualClose. repeat keeps_step.
  intros w [_ Hc]. split; [exact Q_empty | exact Hc].
Qed.

Lemma keeps_destroy : keeps destroy.
Proof. unfold destroy. repeat keeps_step. apply keeps_actualClose. Qed.

Lemma keeps_release_loop fuel : keeps (release_loop fuel).
Proof.
  induction fuel as [ | f IH]; simpl; repeat keeps_step.
  apply keeps_fsWriteSync.
Qed.

Lemma keeps_engine :
  forall fuel,
    (forall err n, keeps (release fuel err n))
    /\ keeps (_actualWrite fuel)
    /\ (forall newfile, keeps (reopen fuel newfile))
    /\ (forall target, keeps (openFile fuel target))
    /\ (forall target err newfd, keeps (fileOpened fuel target err newfd))
    /\ keeps (end_ fuel)
    /\ keeps (emit_ready fuel)
    /\ (forall ls, keeps (run_ready fuel ls)).
Proof.
  induction fuel as [ | f (IHrelease & IHwrite & IHreopen & IHopen & IHopened
                           & IHend & IHready & IHrun)].
  - repeat split; intros; apply keeps_out_of_fuel.
  - repeat split.
    + (* release *)
      intros err n. cbn [release]. unfold release_body, release_completed.
      destruct err as [err | ].
      * repeat keeps_step. apply keeps_emit.
      * repeat (first [ apply keeps_emit | apply keeps_fsWrite
                      | apply keeps_fsyncSync | apply keeps_release_loop
                      | apply keeps_actualClose | keeps_step ]).
    + (* _actualWrite *)
      cbn [_actualWrite]. unfold _actualWrite_body.
      apply keeps_bind; [keeps_step | intros _].
      apply keeps_reading. intros w Hst.
      destruct (next_chunk (_writingBuf (self w)) (_bufs (self w)) (_lens (self w)))
        as [[picked bufs'] lens'] eqn:Hnext.
      assert (Hst' : stable (self (with_self
                                     (fun s => set_lens lens' (set_bufs bufs' s)) w))).
      { destruct Hst as [HQ Hc]. split; [eapply Q_next; [exact Hnext | exact HQ] | exact Hc]. }
      unfold bind at 1. unfold upd at 1. cbv beta iota.
      revert Hst'. generalize (with_self (fun s => set_lens lens' (set_bufs bufs' s)) w).
      change (keeps match picked with
                    | inl err => throw err
                    | inr b =>
                        upd (set_writingBuf b) ;;
                        (if sync (self w)
                         then try_catch (written <- fsWriteSync ;; release f None written)
                                (fun err => release f (Some err) 0)
                         else fsWrite)
                    end).
      repeat (first [ apply keeps_fsWriteSync | apply keeps_fsWrite | keeps_step ]).
    + (* reopen *)
      intros newfile. cbn [reopen]. unfold reopen_body. repeat keeps_step.
    + (* openFile *)
      intros target. cbn [openFile]. unfold openFile_body. repeat keeps_step.
    + (* fileOpened *)
      intros target err newfd. cbn [fileOpened]. unfold fileOpened_body.
      repeat (first [ apply keeps_emit | keeps_step ]).
    + (* end *)
      cbn [end_]. unfold end_body. repeat (first [ apply keeps_actualClose | keeps_step ]).
    + (* emit('ready') *)
      cbn [emit_ready]. unfold emit_ready_body. apply keeps_bind; [apply keeps_log | intros _].
      intros w H. apply (IHrun (ready_once w) (with_ready_once [] w)). exact H.
    + (* the listeners of 'ready' *)
      intros ls. cbn [run_ready]. unfold run_ready_body.
      repeat (first [ apply keeps_actualClose | keeps_step ]).
Qed.

Lemma keeps_dispatch_and_answer fuel len' :
  keeps (dispatch_and_answer fuel len').
Proof.
  unfold dispatch_and_answer.
  repeat (first [ apply (proj1 (proj2 (keeps_engine fuel))) | keeps_step ]).
Qed.

End Stability.

Lemma keeps_final {buf chunk} {content : Content buf chunk} Q cfg {A}
      (m : Js buf chunk A) w w' :
  keeps Q cfg m -> stable Q cfg (self w) -> final (m w) = Some w' ->
  stable Q cfg (self w').
Proof.
  intros Hm Hst Hfin. specialize (Hm w Hst).
  destruct (m w); simpl in Hfin; try discriminate;
    injection Hfin as <-; exact Hm.
Qed.

(** ** Chunking (C7) *)

Lemma accept_guard {buf chunk} (s : sonic buf chunk) n :
  accepted s n ->
  negb (maxLength s =? 0) && (_len s + n >? maxLength s) = false.
Proof.
  intros [H0 | Hle].
  - rewrite H0. reflexivity.
  - apply andb_false_iff. right.
    destruct (_len s + n >? maxLength s) eqn:E; [ | reflexivity].
    apply Z.gtb_lt in E. lia.
Qed.

(** A deferred text writer with [maxWrite] 4 and a write in flight is given
    five characters at once: they become one pending chunk of length 5. *)
Lemma oversized_enqueue_makes_oversized_chunk :
  exists w,
    text (on_stdout false false 0 0 4) []
    >>> write 4 [97] >>> write 4 [98; 99; 100; 101; 102]
    = Returned true w
    /\ maxWrite (self w) = 4
    /\ _bufs (self w) = [[98; 99; 100; 101; 102]]
    /\ ~ Forall (fun c : jsstring => len c <= maxWrite (self w)) (_bufs (self w)).
Proof.
  eexists. split; [vm_compute; reflexivity | ].
  split; [reflexivity | ]. split; [reflexivity | ].
  intros H. inversion H as [ | c l Hc _]. vm_compute in Hc. apply Hc. reflexivity.
Qed.

Lemma len_nil_iff {A} (l : list A) : (len l =? 0) = true <-> l = [].
Proof.
  unfold len. destruct l; simpl; split; intros H;
    try reflexivity; try discriminate.
Qed.

Lemma len_app {A} (a b : list A) : len (a ++ b) = len a + len b.
Proof. unfold len. rewrite length_app. lia. Qed.

Lemma len_nonneg {A} (l : list A) : 0 <= len l.
Proof. unfold len. lia. Qed.

(** What [write] leaves in [_bufs] (index.js 287-294) is the rule of the
    specification. *)
Lemma write_enqueues_text maxWrite (bufs : list jsstring) (data : jsstring) :
  (if (len bufs =? 0) || (len (last bufs []) + len data >? maxWrite)
   then bufs ++ [data]
   else removelast bufs ++ [last bufs [] ++ data])
  = enqueue_text maxWrite bufs data.
Proof.
  induction bufs as [ | c rest IH]; [reflexivity | ].
  destruct rest as [ | c' rest'].
  - cbn [last removelast enqueue_text app orb].
    change (len [c] =? 0) with false. cbn [orb].
    rewrite Z.gtb_ltb, Z.leb_antisym.
    destruct (maxWrite <? len c + len data); reflexivity.
  - change (enqueue_text maxWrite (c :: c' :: rest') data)
      with (c :: enqueue_text maxWrite (c' :: rest') data).
    rewrite <- IH.
    change (last (c :: c' :: rest') []) with (last (c' :: rest') []).
    change (removelast (c :: c' :: rest')) with (c :: removelast (c' :: rest')).
    assert (H1 : (len (c :: c' :: rest') =? 0) = false)
      by (apply Z.eqb_neq; unfold len; simpl; lia).
    assert (H2 : (len (c' :: rest') =? 0) = false)
      by (apply Z.eqb_neq; unfold len; simpl; lia).
    rewrite H1, H2. cbn [orb].
    destruct (len (last (c' :: rest') []) + len data >? maxWrite); reflexivity.
Qed.

Lemma enqueue_text_bounded maxWrite bufs data :
  Forall (fun c : jsstring => len c <= maxWrite) bufs ->
  len data <= maxWrite ->
  Forall (fun c : jsstring => len c <= maxWrite) (enqueue_text maxWrite bufs data).
Proof.
  intros Hb Hd. induction bufs as [ | c rest IH]; simpl.
  - constructor; [exact Hd | constructor].
  - inversion Hb as [ | c0 l0 Hc Hrest]; subst.
    destruct rest as [ | c' rest'].
    + destruct (len c + len data <=? maxWrite) eqn:E.
      * constructor; [ | constructor]. rewrite len_app. apply Z.leb_le. exact E.
      * constructor; [exact Hc | ]. constructor; [exact Hd | constructor].
    + constructor; [exact Hc | ]. apply IH. exact Hrest.
Qed.

Lemma chunk_size_app c (data : Buffer) :
  chunk_size (c ++ [data]) = chunk_size c + len data.
Proof.
  unfold chunk_size. rewrite concat_app, len_app. simpl.
  rewrite app_nil_r. reflexivity.
Qed.

Lemma chunk_size_single (data : Buffer) : chunk_size [data] = len data.
Proof. unfold chunk_size. simpl. rewrite app_nil_r. reflexivity. Qed.

Lemma writeBuffer_enqueues_bytes maxWrite (bufs : list (list Buffer)) (data : Buffer) :
  pushed_bufs maxWrite bufs (map chunk_size bufs) data
  = enqueue_bytes maxWrite bufs data
  /\ pushed_lens maxWrite bufs (map chunk_size bufs) data
     = map chunk_size (enqueue_bytes maxWrite bufs data).
Proof.
  unfold pushed_bufs, pushed_lens.
  induction bufs as [ | c rest IH].
  - simpl. rewrite chunk_size_single. split; reflexivity.
  - destruct rest as [ | c' rest'].
    + cbn [map last_len last removelast enqueue_bytes app].
      change (len [c] =? 0) with false. cbn [orb].
      rewrite Z.gtb_ltb, Z.leb_antisym.
      destruct (maxWrite <? chunk_size c + len data); cbn [negb map].
      * rewrite chunk_size_single. split; reflexivity.
      * rewrite chunk_size_app. split; reflexivity.
    + change (enqueue_bytes maxWrite (c :: c' :: rest') data)
        with (c :: enqueue_bytes maxWrite (c' :: rest') data).
      destruct IH as [IHb IHl]. cbn [map]. rewrite <- IHl, <- IHb.
      assert (H1 : (len (c :: c' :: rest') =? 0) = false)
        by (apply Z.eqb_neq; unfold len; simpl; lia).
      assert (H2 : (len (c' :: rest') =? 0) = false)
        by (apply Z.eqb_neq; unfold len; simpl; lia).
      rewrite H1, H2. cbn [orb map].
      change (last_len (chunk_size c :: chunk_size c' :: map chunk_size rest'))
        with (Some (last (chunk_size c' :: map chunk_size rest') 0)).
      change (last_len (chunk_size c' :: map chunk_size rest'))
        with (Some (last (chunk_size c' :: map chunk_size rest') 0)).
      destruct (last (chunk_size c' :: map chunk_size rest') 0 + len data >? maxWrite);
        split; reflexivity.
Qed.

Lemma enqueue_bytes_bounded maxWrite bufs data :
  Forall (fun n => n <= maxWrite) (map chunk_size bufs) ->
  len data <= maxWrite ->
  Forall (fun n => n <= maxWrite) (map chunk_size (enqueue_bytes maxWrite bufs data)).
Proof.
  intros Hb Hd. induction bufs as [ | c rest IH].
  - simpl. rewrite chunk_size_single. constructor; [exact Hd | constructor].
  - cbn [map] in Hb. inversion Hb as [ | c0 l0 Hc Hrest]; subst.
    destruct rest as [ | c' rest'].
    + cbn [enqueue_bytes].
      destruct (chunk_size c + len data <=? maxWrite) eqn:E; cbn [map].
      * constructor; [ | constructor]. rewrite chunk_size_app. apply Z.leb_le. exact E.
      * constructor; [exact Hc | ]. rewrite chunk_size_single.
        constructor; [exact Hd | constructor].
    + change (enqueue_bytes maxWrite (c :: c' :: rest') data)
        with (c :: enqueue_bytes maxWrite (c' :: rest') data).
      cbn [map]. constructor; [exact Hc | ]. apply IH. exact Hrest.
Qed.

Lemma write_accepts fuel (w : world jsstring jsstring) (data : jsstring) :
  destroyed (self w) = false ->
  accepted (self w) (len data) ->
  write fuel data w
  = dispatch_and_answer fuel (_len (self w) + len data)
      (with_self (set_bufs (enqueue_text (maxWrite (self w)) (_bufs (self w)) data)) w).
Proof.
  intros Hlive Hacc.
  unfold write. unfold bind at 1. unfold this at 1. cbv beta iota.
  rewrite Hlive, (accept_guard Hacc).
  rewrite <- write_enqueues_text.
  unfold bind at 1.
  destruct ((len (_bufs (self w)) =? 0)
            || (len (last (_bufs (self w)) []) + len data >? maxWrite (self w)));
    reflexivity.
Qed.

Lemma writeBuffer_accepts fuel (w : world Buffer (list Buffer)) (data : Buffer) :
  destroyed (self w) = false ->
  accepted (self w) (len data) ->
  _lens (self w) = map chunk_size (_bufs (self w)) ->
  let queue := enqueue_bytes (maxWrite (self w)) (_bufs (self w)) data in
  writeBuffer fuel data w
  = dispatch_and_answer fuel (_len (self w) + len data)
      (with_self (set_lens (map chunk_size queue))
         (with_self (set_bufs queue) w)).
Proof.
  intros Hlive Hacc Hlens queue.
  destruct (writeBuffer_enqueues_bytes (maxWrite (self w)) (_bufs (self w)) data)
    as [Hb Hl].
  unfold queue. rewrite <- Hl, <- Hb. clear Hb Hl queue.
  unfold pushed_bufs, pushed_lens. rewrite <- Hlens.
  unfold writeBuffer. unfold bind at 1. unfold this at 1. cbv beta iota.
  rewrite Hlive, (accept_guard Hacc).
  unfold bind at 1.
  destruct (_bufs (self w)) as [ | c rest] eqn:Hbufs.
  - reflexivity.
  - destruct (_lens (self w)) as [ | l lens'] eqn:Hl; [discriminate Hlens | ].
    change (len (c :: rest) =? 0) with false. cbn [orb].
    change (last_len (l :: lens')) with (Some (last (l :: lens') 0)).
    cbv beta iota.
    destruct (last (l :: lens') 0 + len data >? maxWrite (self w)); reflexivity.
Qed.

Lemma accept_guard_inv {buf chunk} (s : sonic buf chunk) n :
  negb (maxLength s =? 0) && (_len s + n >? maxLength s) = false ->
  accepted s n.
Proof.
  intros H. apply andb_false_iff in H. destruct H as [H | H].
  - left. apply negb_false_iff, Z.eqb_eq in H. exact H.
  - right. destruct (Z.gtb_spec (_len s + n) (maxLength s)); [discriminate | lia].
Qed.

Lemma Q_text_next maxWrite (b : jsstring) bufs lens picked bufs' lens' :
  next_chunk b bufs lens = (picked, bufs', lens') ->
  Q_text maxWrite bufs lens -> Q_text maxWrite bufs' lens'.
Proof.
  unfold Q_text. cbn [next_chunk Utf8]. unfold next_utf8.
  destruct b as [ | x b']; [destruct bufs as [ | c rest] | ];
    intros H HQ; injection H as <- <- <-; try exact HQ.
  inversion HQ; assumption.
Qed.

Lemma Q_bytes_next maxWrite (b : Buffer) bufs lens picked bufs' lens' :
  next_chunk b bufs lens = (picked, bufs', lens') ->
  Q_bytes maxWrite bufs lens -> Q_bytes maxWrite bufs' lens'.
Proof.
  unfold Q_bytes. cbn [next_chunk Raw]. unfold next_buffer.
  destruct b as [ | x b']; [destruct bufs as [ | c rest] | ];
    intros H [Hl HQ]; injection H as <- <- <-.
  - subst lens. split; [reflexivity | constructor].
  - subst lens. cbn [map tl] in *. split; [reflexivity | ].
    inversion HQ; assumption.
  - split; assumption.
Qed.

Lemma enqueue_text_oversized maxWrite bufs (data : jsstring) :
  maxWrite < len data -> enqueue_text maxWrite bufs data = bufs ++ [data].
Proof.
  intros Hbig. induction bufs as [ | c rest IH]; [reflexivity | ].
  destruct rest as [ | c' rest'].
  - cbn [enqueue_text app]. pose proof (len_nonneg c).
    destruct (Z.leb_spec (len c + len data) maxWrite); [lia | reflexivity].
  - change (enqueue_text maxWrite (c :: c' :: rest') data)
      with (c :: enqueue_text maxWrite (c' :: rest') data).
    rewrite IH. reflexivity.
Qed.

Lemma enqueue_bytes_oversized maxWrite bufs (data : Buffer) :
  maxWrite < len data -> enqueue_bytes maxWrite bufs data = bufs ++ [[data]].
Proof.
  intros Hbig. induction bufs as [ | c rest IH]; [reflexivity | ].
  destruct rest as [ | c' rest'].
  - cbn [enqueue_bytes app]. pose proof (len_nonneg (List.concat c)).
    unfold chunk_size.
    destruct (Z.leb_spec (len (List.concat c) + len data) maxWrite); [lia | reflexivity].
  - change (enqueue_bytes maxWrite (c :: c' :: rest') data)
      with (c :: enqueue_bytes maxWrite (c' :: rest') data).
    rewrite IH. reflexivity.
Qed.

(** C7, amended.  An accepted enqueue on a writer that is not destroyed
    joins the data to the tail chunk exactly when there is one and the two
    together are at most [maxWrite] long, and otherwise starts a new chunk
    with the whole of the data; dispatch then goes on from that queue, and
    when a write is in flight the call returns with it.  Hence, if every
    pending chunk was at most [maxWrite] long and the data itself is, every
    pending chunk still is when the call ends, whatever was dispatched
    meanwhile.  Data longer than [maxWrite] is not split: it becomes one
    chunk of its own.  Lengths are those the code counts: characters for
    text; bytes for buffers, where the size of the tail chunk is read from
    [_lens] and the statement is for a writer whose [_lens] holds the size
    of each chunk of [_bufs]. *)
Theorem enqueue_packs_within_maxWrite :
  (forall fuel (w : world jsstring jsstring) (data : jsstring),
      destroyed (self w) = false ->
      accepted (self w) (len data) ->
      let queue := enqueue_text (maxWrite (self w)) (_bufs (self w)) data in
      write fuel data w
      = dispatch_and_answer fuel (_len (self w) + len data)
          (with_self (set_bufs queue) w)
      /\ (_writing (self w) = true ->
          write fuel data w
          = Returned (_len (self w) + len data <? _hwm (self w))
              (with_self (set_len (_len (self w) + len data))
                 (with_self (set_bufs queue) w))))
  /\ (forall fuel (w w' : world jsstring jsstring) (data : jsstring),
         packed_text (self w) ->
         len data <= maxWrite (self w) ->
         final (write fuel data w) = Some w' ->
         packed_text (self w'))
  /\ (forall maxWrite (bufs : list jsstring) (data : jsstring),
         maxWrite < len data ->
         enqueue_text maxWrite bufs data = bufs ++ [data])
  /\ (forall fuel (w : world Buffer (list Buffer)) (data : Buffer),
         destroyed (self w) = false ->
         accepted (self w) (len data) ->
         _lens (self w) = map chunk_size (_bufs (self w)) ->
         let queue := enqueue_bytes (maxWrite (self w)) (_bufs (self w)) data in
         writeBuffer fuel data w
         = dispatch_and_answer fuel (_len (self w) + len data)
             (with_self (set_lens (map chunk_size queue))
                (with_self (set_bufs queue) w))
         /\ (_writing (self w) = true ->
             writeBuffer fuel data w
             = Returned (_len (self w) + len data <? _hwm (self w))
                 (with_self (set_len (_len (self w) + len data))
                    (with_self (set_lens (map chunk_size queue))
                       (with_self (set_bufs queue) w)))))
  /\ (forall fuel (w w' : world Buffer (list Buffer)) (data : Buffer),
         packed_bytes (self w) ->
         len data <= maxWrite (self w) ->
         final (writeBuffer fuel data w) = Some w' ->
         packed_bytes (self w'))
  /\ (forall maxWrite (bufs : list (list Buffer)) (data : Buffer),
         maxWrite < len data ->
         enqueue_bytes maxWrite bufs data = bufs ++ [[data]]).
Proof.
  split; [ | split; [ | split; [ | split; [ | split]]]].
  - intros fuel w data Hlive Hacc queue.
    pose proof (write_accepts fuel w data Hlive Hacc) as Hrun.
    split; [exact Hrun | ]. intros Hwr. rewrite Hrun.
    unfold dispatch_and_answer, bind, upd, this. cbn. rewrite Hwr. reflexivity.
  - intros fuel w w' data Hp Hd Hfin.
    assert (Hgoal : stable (Q_text (maxWrite (self w))) (settings (self w)) (self w')).
    { destruct (destroyed (self w)) eqn:Hlive.
      - unfold write, bind, this in Hfin. cbv beta iota in Hfin.
        rewrite Hlive in Hfin. injection Hfin as <-. split; [exact Hp | reflexivity].
      - destruct (negb (maxLength (self w) =? 0)
                  && (_len (self w) + len data >? maxLength (self w))) eqn:Hg.
        + unfold write, bind, this in Hfin. cbv beta iota in Hfin.
          rewrite Hlive, Hg in Hfin. injection Hfin as <-.
          split; [exact Hp | reflexivity].
        + rewrite (write_accepts fuel w data Hlive (accept_guard_inv _ _ Hg)) in Hfin.
          refine (keeps_final _ _ _ Hfin).
          * apply keeps_dispatch_and_answer.
            -- constructor.
            -- intros b bufs lens picked bufs' lens'. apply Q_text_next.
          * split; [ | reflexivity].
            apply enqueue_text_bounded; assumption. }
    destruct Hgoal as [HQ Hs]. unfold packed_text.
    assert (Hm : maxWrite (self w') = maxWrite (self w))
      by (unfold settings in Hs; congruence).
    rewrite Hm. exact HQ.
  - intros maxWrite bufs data. apply enqueue_text_oversized.
  - intros fuel w data Hlive Hacc Hlens queue.
    pose proof (writeBuffer_accepts fuel w data Hlive Hacc Hlens) as Hrun.
    split; [exact Hrun | ]. intros Hwr. rewrite Hrun.
    unfold dispatch_and_answer, bind, upd, this. cbn. rewrite Hwr. reflexivity.
  - intros fuel w w' data [Hl Hp] Hd Hfin.
    assert (Hgoal : stable (Q_bytes (maxWrite (self w))) (settings (self w)) (self w')).
    { destruct (destroyed (self w)) eqn:Hlive.
      - unfold writeBuffer, bind, this in Hfin. cbv beta iota in Hfin.
        rewrite Hlive in Hfin. injection Hfin as <-.
        split; [split; assumption | reflexivity].
      - destruct (negb (maxLength (self w) =? 0)
                  && (_len (self w) + len data >? maxLength (self w))) eqn:Hg.
        + unfold writeBuffer, bind, this in Hfin. cbv beta iota in Hfin.
          rewrite Hlive, Hg in Hfin. injection Hfin as <-.
          split; [split; assumption | reflexivity].
        + rewrite (writeBuffer_accepts fuel w data Hlive (accept_guard_inv _ _ Hg) Hl)
            in Hfin.
          refine (keeps_final _ _ _ Hfin).
          * apply keeps_dispatch_and_answer.
            -- split; [reflexivity | constructor].
            -- intros b bufs lens picked bufs' lens'. apply Q_bytes_next.
          * split; [ | reflexivity]. split; [reflexivity | ].
            apply enqueue_bytes_bounded; [ | exact Hd].
            rewrite <- Hl. exact Hp. }
    destruct Hgoal as [[HQl HQ] Hs]. unfold packed_bytes.
    assert (Hm : maxWrite (self w') = maxWrite (self w))
      by (unfold settings in Hs; congruence).
    rewrite Hm. split; assumption.
  - intros maxWrite bufs data. apply enqueue_bytes_oversized.
Qed.

(** [maxWrite] 4.  With a write in flight, two characters join a tail chunk
    of two, and three bytes start a new chunk behind a chunk of two; an idle
    blocking writer dispatches the queue the push has left; seven
    characters become one chunk. *)
Lemma enqueue_packs_within_maxWrite_witness :
  (exists w w',
      text (on_stdout false false 0 0 4) [] >>> write 4 [97] >>> write 4 [98; 99]
      = Returned true w
      /\ write 4 [100; 101] w = Returned true w'
      /\ _bufs (self w') = [[98; 99; 100; 101]]
      /\ packed_text (self w'))
  /\
  (exists w,
      text (on_stdout true false 0 0 4) [Done 2] = Returned tt w
      /\ write 4 [100; 101] w
         = dispatch_and_answer 4 2 (with_self (set_bufs [[100; 101]]) w))
  /\ enqueue_text 4 [[97; 98]] [99; 100; 101; 102; 103; 104; 105]
     = [[97; 98]; [99; 100; 101; 102; 103; 104; 105]]
  /\
  (exists w w',
      bytes (on_stdout false false 0 0 4) []
      >>> writeBuffer 4 [Byte.x61] >>> writeBuffer 4 [Byte.x62; Byte.x63]
      = Returned true w
      /\ writeBuffer 4 [Byte.x64; Byte.x65; Byte.x66] w = Returned true w'
      /\ _bufs (self w') = [[[Byte.x62; Byte.x63]]; [[Byte.x64; Byte.x65; Byte.x66]]]
      /\ _lens (self w') = [2; 3]
      /\ packed_bytes (self w'))
  /\ enqueue_bytes 4 [[[Byte.x61]]] [Byte.x62; Byte.x63; Byte.x64; Byte.x65; Byte.x66]
     = [[[Byte.x61]]; [[Byte.x62; Byte.x63; Byte.x64; Byte.x65; Byte.x66]]].
Proof.
  pose proof enqueue_packs_within_maxWrite
    as (Htext & Htext_packed & Htext_big & Hbytes & Hbytes_packed & Hbytes_big).
  split; [ | split; [ | split; [ | split]]].
  - eexists. eexists. split; [vm_compute; reflexivity | ].
    split.
    + match goal with
      | |- write _ ?d ?W = _ =>
          apply (proj2 (Htext 4%nat W d eq_refl (or_introl eq_refl))); reflexivity
      end.
    + split; [reflexivity | ].
      match goal with
      | |- packed_text (self ?W') =>
          match W' with
          | with_self _ (with_self _ ?W) =>
              apply (Htext_packed 4%nat W W' [100; 101])
          end
      end.
      * constructor; [vm_compute; discriminate | constructor].
      * vm_compute; discriminate.
      * vm_compute. reflexivity.
  - eexists. split; [vm_compute; reflexivity | ].
    match goal with
    | |- write _ ?d ?W = _ =>
        exact (proj1 (Htext 4%nat W d eq_refl (or_introl eq_refl)))
    end.
  - apply (Htext_big 4 [[97; 98]] [99; 100; 101; 102; 103; 104; 105]).
    vm_compute. reflexivity.
  - eexists. eexists. split; [vm_compute; reflexivity | ].
    split.
    + match goal with
      | |- writeBuffer _ ?d ?W = _ =>
          apply (proj2 (Hbytes 4%nat W d eq_refl (or_introl eq_refl) eq_refl));
            reflexivity
      end.
    + split; [reflexivity | ]. split; [reflexivity | ].
      match goal with
      | |- packed_bytes (self ?W') =>
          match W' with
          | with_self _ (with_self _ (with_self _ ?W)) =>
              apply (Hbytes_packed 4%nat W W' [Byte.x64; Byte.x65; Byte.x66])
          end
      end.
      * split; [reflexivity | ].
        constructor; [vm_compute; discriminate | constructor].
      * vm_compute; discriminate.
      * vm_compute. reflexivity.
  - apply (Hbytes_big 4 [[[Byte.x61]]]
             [Byte.x62; Byte.x63; Byte.x64; Byte.x65; Byte.x66]).
    vm_compute. reflexivity.
Defined.

(** ** The answer of an enqueue (C3) *)

(** [writeBuffer] up to dispatch, whatever [_lens] holds. *)
Lemma writeBuffer_buffers fuel (w : world Buffer (list Buffer)) (data : Buffer) :
  destroyed (self w) = false ->
  accepted (self w) (len data) ->
  writeBuffer fuel data w
  = dispatch_and_answer fuel (_len (self w) + len data)
      (with_self
         (set_lens (pushed_lens (maxWrite (self w)) (_bufs (self w))
                      (_lens (self w)) data))
         (with_self
            (set_bufs (pushed_bufs (maxWrite (self w)) (_bufs (self w))
                         (_lens (self w)) data))
            w)).
Proof.
  intros Hlive Hacc.
  unfold writeBuffer. unfold bind at 1. unfold this at 1. cbv beta iota.
  rewrite Hlive, (accept_guard Hacc).
  unfold bind at 1. unfold pushed_bufs, pushed_lens.
  destruct ((len (_bufs (self w)) =? 0)
            || match last_len (_lens (self w)) with
               | Some l => l + len data >? maxWrite (self w)
               | None => false
               end); [reflexivity | ].
  destruct (last_len (_lens (self w))) as [l | ] eqn:Hl; [reflexivity | ].
  destruct w as [s r t k ro dro ero dl el fr]. destruct s. reflexivity.
Qed.

Lemma pushed_bufs_not_empty maxWrite bufs lens data :
  pushed_bufs maxWrite bufs lens data <> [].
Proof.
  unfold pushed_bufs.
  destruct ((len bufs =? 0)
            || match last_len lens with
               | Some l => l + len data >? maxWrite
               | None => false
               end); intros H; apply app_eq_nil in H; destruct H; discriminate.
Qed.

Lemma dispatch_and_answer_reads_len {buf chunk} {content : Content buf chunk}
      fuel len' (w w' : world buf chunk) b :
  dispatch_and_answer fuel len' w = Returned b w' ->
  b = (_len (self w') <? _hwm (self w')).
Proof.
  unfold dispatch_and_answer. intros H.
  apply bind_inv in H. destruct H as (u1 & w1 & _ & H).
  apply bind_inv in H. destruct H as (s1 & w2 & _ & H).
  apply bind_inv in H. destruct H as (u2 & w3 & _ & H).
  apply bind_inv in H. destruct H as (s2 & w4 & Hthis & H).
  unfold this in Hthis. injection Hthis as <- <-.
  unfold ret in H. injection H as <- <-. reflexivity.
Qed.

Lemma dispatch_and_answer_keeps_settings {buf chunk} {content : Content buf chunk}
      fuel len' (w w' : world buf chunk) b :
  dispatch_and_answer fuel len' w = Returned b w' ->
  settings (self w') = settings (self w).
Proof.
  intros H.
  assert (Hst : stable (fun _ _ => True) (settings (self w)) (self w')).
  { refine (@keeps_final _ _ _ (fun _ _ => True) _ _
              (dispatch_and_answer fuel len') w w' _ _ _).
    - apply keeps_dispatch_and_answer; [exact I | intros; exact I].
    - split; [exact I | reflexivity].
    - rewrite H. reflexivity. }
  exact (proj2 Hst).
Qed.

(** In deferred mode dispatch only hands the chunk to [fs.write]: the call
    comes back with [_len] at the new length. *)
Lemma dispatch_and_answer_deferred_text fuel len' (w : world jsstring jsstring) :
  sync (self w) = false ->
  exists w',
    dispatch_and_answer (S fuel) len' w = Returned (len' <? _hwm (self w)) w'
    /\ _len (self w') = len'.
Proof.
  intros Hsync. unfold dispatch_and_answer, bind, upd, this. cbn.
  destruct (negb (_writing (self w)) && (len' >=? minLength (self w))); cbn.
  - unfold bind, upd, this. cbn. rewrite Hsync.
    destruct (_writingBuf (self w)) as [ | x b]; [destruct (_bufs (self w)) | ];
      cbn; eexists; split; reflexivity.
  - eexists; split; reflexivity.
Qed.

Lemma dispatch_and_answer_deferred_bytes fuel len' (w : world Buffer (list Buffer)) :
  sync (self w) = false ->
  _bufs (self w) <> [] ->
  exists w',
    dispatch_and_answer (S fuel) len' w = Returned (len' <? _hwm (self w)) w'
    /\ _len (self w') = len'.
Proof.
  intros Hsync Hbufs. unfold dispatch_and_answer, bind, upd, this. cbn.
  destruct (negb (_writing (self w)) && (len' >=? minLength (self w))); cbn.
  - unfold bind, upd, this. cbn. rewrite Hsync.
    destruct (_writingBuf (self w)) as [ | x b];
      [destruct (_bufs (self w)); [contradiction Hbufs; reflexivity | ] | ];
      cbn; eexists; split; reflexivity.
  - eexists; split; reflexivity.
Qed.

(** ** One unit of fuel *)

Section Unfolding.

Context {buf chunk : Type} {content : Content buf chunk}.

Lemma release_S fuel err n :
  release (S fuel) err n
  = release_body (release fuel) (_actualWrite fuel) (reopen fuel) fuel err n.
Proof. reflexivity. Qed.

Lemma _actualWrite_S fuel :
  _actualWrite (S fuel) = _actualWrite_body (release fuel).
Proof. reflexivity. Qed.

Lemma emit_ready_S fuel :
  emit_ready (S fuel) = emit_ready_body (run_ready fuel).
Proof. reflexivity. Qed.

Lemma run_ready_S fuel ls :
  run_ready (S fuel) ls
  = run_ready_body (reopen fuel) (end_ fuel) (run_ready fuel) ls.
Proof. reflexivity. Qed.

End Unfolding.

(** ** The ledger is kept

    On a writer that is not ending, reopening or destroyed, every function of
    the dispatch engine and every callback of the runtime keeps the ledger:
    the bytes the descriptor has taken, followed by the bytes pending, do not
    change.  The section is generic in the content mode; the two hypotheses
    say what it needs of the mode. *)

Section LedgerFacts.

Context {buf chunk : Type} {content : Content buf chunk}.

Variable flat : chunk -> list byte.
Variable wf : buf -> Prop.
Variable Qq : list chunk -> list Z -> Prop.
Variable sy : bool.

Hypothesis slice_ok :
  forall b n, wf b -> 0 <= n ->
              wf (slice b n)
              /\ firstn (Z.to_nat n) (octets b) ++ octets (slice b n) = octets b.

Hypothesis next_ok :
  forall b bufs lens picked bufs' lens',
    next_chunk b bufs lens = (picked, bufs', lens') ->
    wf b -> Qq bufs lens ->
    Qq bufs' lens'
    /\ match picked with
       | inr b' => wf b' /\ octets b' ++ flats flat bufs' = octets b ++ flats flat bufs
       | inl _ => flats flat bufs' = flats flat bufs
       end.

Lemma delivered_snoc (t : list (obs buf)) (o : obs buf) :
  delivered (t ++ [o])
  = delivered t ++ match o with
                   | SysWrite _ b (Done n) => firstn (Z.to_nat n) (octets b)
                   | _ => []
                   end.
Proof.
  induction t as [ | x t IH].
  - destruct o as [ | ? ? [ | ] | | | | | | ]; simpl; rewrite ?app_nil_r; reflexivity.
  - simpl. rewrite IH.
    destruct x as [ | ? ? [ | ] | | | | | | ]; try reflexivity.
    rewrite app_assoc. reflexivity.
Qed.

Lemma calm_snoc (ts : list (task buf)) t :
  Forall (@calm buf) ts -> calm t -> Forall (@calm buf) (ts ++ [t]).
Proof.
  intros H Ht. apply Forall_app. split; [exact H | constructor; [exact Ht | constructor]].
Qed.

Local Abbreviation Inv := (Inv flat wf Qq sy).
Local Abbreviation Idle := (Idle flat wf Qq sy).
Local Abbreviation Busy := (Busy flat wf Qq sy).

Lemma Idle_Inv L w : Idle L w -> Inv L w.
Proof. intros [H _]. exact H. Qed.

Lemma Busy_Idle L w : Busy L w -> Idle L w.
Proof. intros [H _]. exact H. Qed.

Lemma Busy_Inv L w : Busy L w -> Inv L w.
Proof. intros [[H _] _]. exact H. Qed.

Lemma Idle_frame L w w' : same_ledger w w' -> Idle L w -> Idle L w'.
Proof.
  intros (Hd & He & Hro & Hs & Hb & Hbufs & Hlens & Hr & Hdr & Her & Ht & Hrp & Hdel)
         [HI Hcalm].
  destruct HI as [Hsy [Hq1 [Hq2 Hq3]] Hwf Hqu Hre Hdo Heo Hts Hrs Hled].
  split; [constructor | ].
  - congruence.
  - repeat split; congruence.
  - rewrite Hb. exact Hwf.
  - rewrite Hbufs, Hlens. exact Hqu.
  - congruence.
  - congruence.
  - congruence.
  - left. rewrite Ht. exact Hcalm.
  - rewrite Hrp. exact Hrs.
  - unfold pending. rewrite Hdel, Hb, Hbufs. exact Hled.
  - rewrite Ht. exact Hcalm.
Qed.

Lemma Busy_frame L w w' :
  same_ledger w w' ->
  _writing (self w') = _writing (self w) \/ _writing (self w') = true ->
  Busy L w -> Busy L w'.
Proof.
  intros Hsame Hw [HI Hbusy]. split; [exact (Idle_frame Hsame HI) | ].
  intros H. destruct Hw as [Hw | Hw]; [rewrite Hw; auto | exact Hw].
Qed.

(** The write primitive took [n] bytes of the chunk in flight. *)
Lemma taken L (w : world buf chunk) n fd0 :
  Busy L w -> 0 <= n ->
  Busy L (sliced n
            (with_trace (trace w ++ [SysWrite fd0 (_writingBuf (self w)) (Done n)]) w)).
Proof.
  intros [[HI Hcalm] Hw] Hn.
  destruct HI as [Hsy Hq Hwf Hqu Hre Hdr Her Hts Hrs Hled].
  destruct (slice_ok Hwf Hn) as [Hwf' Hcut].
  split; [split; [constructor | ] | ]; cbn; try assumption.
  - left. exact Hcalm.
  - rewrite delivered_snoc. unfold pending in *. cbn.
    rewrite <- Hled. rewrite <- Hcut at 2. rewrite <- !app_assoc. reflexivity.
Qed.

Lemma taken_nothing L (w : world buf chunk) : Busy L w -> Busy L (sliced 0 w).
Proof.
  intros [[HI Hcalm] Hw].
  destruct HI as [Hsy Hq Hwf Hqu Hre Hdr Her Hts Hrs Hled].
  destruct (slice_ok Hwf (Z.le_refl 0)) as [Hwf' Hcut].
  split; [split; [constructor | ] | ]; cbn; try assumption.
  - left. exact Hcalm.
  - unfold pending in *. cbn. rewrite <- Hled. rewrite <- Hcut. reflexivity.
Qed.

Lemma answered L (w : world buf chunk) r rest :
  Busy L w -> replies w = r :: rest ->
  reply_ok r /\ Busy L (with_replies rest w).
Proof.
  intros [[HI Hcalm] Hw] Hr.
  destruct HI as [Hsy Hq Hwf Hqu Hre Hdr Her Hts Hrs Hled].
  rewrite Hr in Hrs. split; [exact (Forall_inv Hrs) | ].
  pose proof (Forall_inv_tail Hrs) as Hrest.
  split; [split; [constructor | ] | ]; cbn; try assumption.
Qed.

Lemma logged L (w : world buf chunk) o :
  match o with
  | SysWrite _ _ (Done _) => False
  | _ => True
  end ->
  Busy L w -> Busy L (with_trace (trace w ++ [o]) w).
Proof.
  intros Ho. apply Busy_frame; [ | left; reflexivity].
  unfold same_ledger. cbn. rewrite delivered_snoc.
  destruct o as [ | ? ? [ | ] | | | | | | ]; try contradiction;
    rewrite app_nil_r; repeat split; reflexivity.
Qed.

(** Stepping through a call. *)
Lemma ends_in_bind {A B} (m : Js buf chunk A) (k : A -> Js buf chunk B)
      (R : A -> world buf chunk -> Prop) (Pr Pt : world buf chunk -> Prop) w :
  match m w with
  | Returned a w' => R a w'
  | Thrown _ w' => Pt w'
  | _ => True
  end ->
  (forall a w', R a w' -> ends_in Pr Pt (k a w')) ->
  ends_in Pr Pt (bind m k w).
Proof.
  unfold bind. intros Hm Hk. destruct (m w); try exact Hm. apply Hk. exact Hm.
Qed.

Lemma ends_in_try {A} (m : Js buf chunk A) h
      (Pr Pmid Pt : world buf chunk -> Prop) w :
  ends_in Pr Pmid (m w) ->
  (forall e w', Pmid w' -> ends_in Pr Pt (h e w')) ->
  ends_in Pr Pt (try_catch m h w).
Proof.
  unfold try_catch. intros Hm Hh. destruct (m w); try exact Hm. apply Hh. exact Hm.
Qed.

Lemma ends_in_this {B} (k : sonic buf chunk -> Js buf chunk B) Pr Pt w :
  ends_in Pr Pt (k (self w) w) -> ends_in Pr Pt (bind this k w).
Proof. intros H. exact H. Qed.

Lemma ends_in_upd {B} f (k : unit -> Js buf chunk B) Pr Pt w :
  ends_in Pr Pt (k tt (with_self f w)) -> ends_in Pr Pt (bind (upd f) k w).
Proof. intros H. exact H. Qed.

Lemma ends_in_log {B} o (k : unit -> Js buf chunk B) Pr Pt w :
  ends_in Pr Pt (k tt (with_trace (trace w ++ [o]) w)) ->
  ends_in Pr Pt (bind (log o) k w).
Proof. intros H. exact H. Qed.

Lemma ends_in_weaken {A} (Pr Pt Pr' Pt' : world buf chunk -> Prop)
      (o : outcome (world buf chunk) A) :
  (forall w, Pr w -> Pr' w) -> (forall w, Pt w -> Pt' w) ->
  ends_in Pr Pt o -> ends_in Pr' Pt' o.
Proof. intros H1 H2. destruct o; simpl; auto. Qed.

(** One blocking write of the chunk in flight. *)
Lemma fsWriteSync_ledger L w :
  Busy L w ->
  match fsWriteSync w with
  | Returned n w' => Busy L (sliced n w')
  | Thrown _ w' => Busy L w'
  | _ => True
  end.
Proof.
  intros HB. unfold fsWriteSync, bind, this, blocking. cbv beta iota.
  destruct (replies w) as [ | [v | c] rest] eqn:Hr; cbv beta iota zeta; [exact I | | ].
  - destruct (answered HB Hr) as [Hv HB'].
    exact (taken (fd (self w)) HB' Hv).
  - destruct (answered HB Hr) as [_ HB'].
    exact (logged (SysWrite (fd (self w)) (_writingBuf (self w)) (Failed c)) I HB').
Qed.

Lemma release_loop_ledger fuel L :
  forall w, Busy L w -> ends_in (Busy L) (Busy L) (release_loop fuel w).
Proof.
  induction fuel as [ | f IH]; intros w HB; [exact I | ].
  cbn [release_loop].
  eapply ends_in_bind; [exact (fsWriteSync_ledger HB) | ].
  intros n w1 HB1. apply ends_in_upd. apply ends_in_upd. apply ends_in_this.
  assert (HB2 : Busy L (with_self (fun s => set_writingBuf (slice (_writingBuf s) n) s)
                          (with_self (fun s => set_len (_len s - n) s) w1))).
  { refine (Busy_frame _ _ HB1); [ | left; reflexivity].
    unfold same_ledger. cbn. repeat split; reflexivity. }
  match goal with
  | |- ends_in _ _ ((if ?c then _ else _) _) => destruct c
  end.
  - apply IH. exact HB2.
  - exact HB2.
Qed.

(** [fs.fsyncSync] after a chunk: whatever it answers, the ledger stands. *)
Lemma fsync_ledger L w :
  Busy L w -> ends_in (Busy L) (Busy L) (when (_fsync (self w)) fsyncSync w).
Proof.
  intros HB. destruct (_fsync (self w)); [ | exact HB].
  unfold when, fsyncSync, bind, this, blocking. cbv beta iota.
  destruct (replies w) as [ | [v | c] rest] eqn:Hr; cbv beta iota zeta; [exact I | | ].
  - destruct (answered HB Hr) as [_ HB'].
    exact (logged (SysFsync (fd (self w)) (Done v)) I HB').
  - destruct (answered HB Hr) as [_ HB'].
    exact (logged (SysFsync (fd (self w)) (Failed c)) I HB').
Qed.

(** ['error'] and ['drain'] with no listener of the writer's own. *)
Lemma emit_error_ledger L err w :
  Idle L w -> ends_in (Idle L) (Idle L) (emit (EvError err) w).
Proof.
  intros HI. unfold emit.
  destruct (Nat.eqb (listenerCount_error w) 0); [exact HI | ].
  pose proof (inv_error (Idle_Inv HI)) as He.
  unfold bind, log. cbv beta iota. cbn [error_once with_error_once]. rewrite He.
  cbn [for_each]. unfold ret.
  refine (Idle_frame _ HI). unfold same_ledger. cbn.
  rewrite delivered_snoc. cbn. rewrite app_nil_r.
  repeat split; try reflexivity; auto.
Qed.

Lemma emit_drain_ledger L w :
  Idle L w -> ends_in (Idle L) (Idle L) (emit EvDrain w).
Proof.
  intros HI. unfold emit.
  pose proof (inv_drain (Idle_Inv HI)) as Hd.
  unfold bind, log. cbv beta iota. cbn [drain_once with_drain_once]. rewrite Hd.
  cbn [for_each]. unfold ret.
  refine (Idle_frame _ HI). unfold same_ledger. cbn.
  rewrite delivered_snoc. cbn. rewrite app_nil_r.
  repeat split; try reflexivity; auto.
Qed.

(** A write is handed to the runtime. *)
Lemma on_its_way_ledger L (w : world buf chunk) d :
  Idle L w -> _writing (self w) = true -> on_its_way (self w) d ->
  Inv L (with_tasks (tasks w ++ [d]) w).
Proof.
  intros [HI Hcalm] Hw Hd.
  destruct HI as [Hsy Hq Hwf Hqu Hre Hdr Her Hts Hrs Hled].
  constructor; cbn; try assumption.
  right. exists (tasks w), d, []. repeat split; try assumption. constructor.
Qed.

Lemma completed_ledger fuel L :
  (forall w, Idle L w -> ends_in (Inv L) (Idle L) (_actualWrite fuel w)) ->
  forall w, Busy L w ->
            ends_in (Inv L) (Idle L)
              (release_completed (_actualWrite fuel) (reopen fuel) w).
Proof.
  intros IHwrite w HB. unfold release_completed.
  apply ends_in_this.
  eapply ends_in_bind with (R := fun _ w' => Busy L w').
  { pose proof (fsync_ledger HB) as H.
    destruct (when (_fsync (self w)) fsyncSync w); try exact H.
    apply Busy_Idle. exact H. }
  intros _ w1 HB1. apply ends_in_this. cbv zeta.
  destruct (inv_quiet (Busy_Inv HB1)) as (Hd & He & Hr).
  rewrite Hr.
  destruct (_len (self w1) >? minLength (self w1)).
  { apply IHwrite. apply Busy_Idle. exact HB1. }
  rewrite He. apply ends_in_upd.
  assert (HI : Idle L (with_self (set_writing false) w1)).
  { refine (Idle_frame _ (Busy_Idle HB1)). unfold same_ledger. cbn.
    repeat split; reflexivity. }
  destruct (sync (self w1)).
  - unfold when. destruct (negb (_asyncDrainScheduled (self w1))).
    + apply ends_in_upd. unfold schedule. cbn [ends_in].
      destruct HI as [HI Hcalm].
      destruct HI as [Hsy Hq Hwf Hqu Hre Hdr Her Hts Hrs Hled].
      constructor; cbn; try assumption.
      left. apply calm_snoc; [exact Hcalm | right; reflexivity].
    + exact (Idle_Inv HI).
  - eapply ends_in_weaken; [ | | exact (emit_drain_ledger HI)];
      [intros ?; apply Idle_Inv | auto].
Qed.

Lemma engine_ledger fuel L :
  (forall n w, Busy L (sliced n w) ->
               ends_in (Inv L) (Idle L) (release fuel None n w))
  /\ (forall err n w, Busy L w ->
                      ends_in (Inv L) (Idle L) (release fuel (Some err) n w))
  /\ (forall w, Idle L w -> ends_in (Inv L) (Idle L) (_actualWrite fuel w)).
Proof.
  induction fuel as [ | f (IHok & IHerr & IHwrite)].
  - repeat split; intros; exact I.
  - repeat split.
    + (* release(null, n) *)
      intros n w HB. rewrite release_S. unfold release_body.
      change (emit (EvWrite n)) with (@log buf chunk (Emit (EvWrite n))).
      apply ends_in_log. apply ends_in_upd. apply ends_in_this.
      eapply ends_in_bind with (R := fun _ w' => Busy L (sliced n w')).
      { unfold when.
        match goal with
        | |- match (if ?c then _ else _) _ with _ => _ end => destruct c
        end; cbn [upd ret];
          (refine (Busy_frame _ _ HB); [ | left; reflexivity]);
          unfold same_ledger; cbn; rewrite delivered_snoc, app_nil_r;
          repeat split; reflexivity. }
      intros _ w1 HB1. apply ends_in_upd. apply ends_in_this.
      change (with_self (fun s => set_writingBuf (slice (_writingBuf s) n) s) w1)
        with (sliced n w1).
      destruct (negb (length_of (_writingBuf (self (sliced n w1))) =? 0)).
      * destruct (sync (self (sliced n w1))) eqn:Hs; cbn [negb].
        -- eapply ends_in_bind with (R := fun _ w' => Busy L w').
           { pose proof (release_loop_ledger f HB1) as H. unfold attempt.
             destruct (release_loop f (sliced n w1)); exact H. }
           intros [err | u] w2 HB2.
           ++ apply IHerr. exact HB2.
           ++ apply completed_ledger; assumption.
        -- unfold fsWrite, bind, this, schedule. cbn [ends_in].
           apply on_its_way_ledger.
           ++ apply Busy_Idle. exact HB1.
           ++ apply HB1. rewrite <- (inv_sync (Busy_Inv HB1)). exact Hs.
           ++ right. exists (fd (self (sliced n w1))). reflexivity.
      * apply completed_ledger; assumption.
    + (* release(err) *)
      intros err n w HB. rewrite release_S. unfold release_body.
      apply ends_in_this.
      match goal with
      | |- ends_in _ _ ((if ?c then _ else _) _) => destruct c
      end.
      * destruct (sync (self w)) eqn:Hs.
        -- eapply ends_in_try with (Pmid := Idle L).
           ++ unfold sleep. apply ends_in_log. apply IHok.
              apply taken_nothing. exact (logged (Sleep BUSY_WRITE_TIMEOUT) I HB).
           ++ intros e w' HI'. apply IHerr. split; [exact HI' | ].
              intros Hsy. rewrite <- (inv_sync (Busy_Inv HB)) in Hsy. congruence.
        -- unfold schedule. cbn [ends_in]. apply on_its_way_ledger.
           ++ apply Busy_Idle. exact HB.
           ++ apply HB. rewrite <- (inv_sync (Busy_Inv HB)). exact Hs.
           ++ left. reflexivity.
      * apply ends_in_upd.
        assert (HI : Idle L (with_self (set_writing false) w)).
        { refine (Idle_frame _ (Busy_Idle HB)). unfold same_ledger. cbn.
          repeat split; reflexivity. }
        eapply ends_in_weaken; [ | | exact (emit_error_ledger err HI)];
          [intros ?; apply Idle_Inv | auto].
    + (* _actualWrite *)
      intros w HI. rewrite _actualWrite_S. unfold _actualWrite_body.
      apply ends_in_upd. apply ends_in_this.
      set (w1 := with_self (set_writing true) w).
      assert (HB1 : Busy L w1).
      { split; [ | reflexivity].
        refine (Idle_frame _ HI). unfold same_ledger. cbn. repeat split; reflexivity. }
      destruct (next_chunk (_writingBuf (self w1)) (_bufs (self w1)) (_lens (self w1)))
        as [[picked bufs'] lens'] eqn:Hnext.
      destruct (next_ok Hnext (inv_wf (Busy_Inv HB1)) (inv_queue (Busy_Inv HB1)))
        as [Hqueue Hpicked].
      apply ends_in_upd.
      destruct HB1 as [[HI1 Hcalm1] Hw1].
      destruct HI1 as [Hsy Hq Hwf Hqu Hre Hdr Her Hts Hrs Hled].
      destruct picked as [e | b].
      * unfold throw. cbn [ends_in].
        split; [constructor | ]; cbn; try assumption.
        unfold pending, flats in *. cbn in *. rewrite Hpicked. exact Hled.
      * destruct Hpicked as [Hwfb Hsame]. apply ends_in_upd.
        set (w3 := with_self (set_writingBuf b)
                     (with_self (fun s => set_lens lens' (set_bufs bufs' s)) w1)).
        assert (HB3 : Busy L w3).
        { split; [split; [constructor | ] | ]; cbn; try assumption.
          - left. exact Hcalm1.
          - unfold pending, flats in *. cbn in *. rewrite Hsame. exact Hled. }
        destruct (sync (self w1)) eqn:Hs.
        -- eapply ends_in_try with (Pmid := Idle L).
           ++ eapply ends_in_bind with (R := fun n w' => Busy L (sliced n w')).
              { pose proof (fsWriteSync_ledger HB3) as H.
                destruct (fsWriteSync w3); try exact H. apply Busy_Idle. exact H. }
              intros n w4 HB4. apply IHok. exact HB4.
           ++ intros e w' HI'. apply IHerr. split; [exact HI' | ].
              intros Hf. cbn in Hsy. congruence.
        -- unfold fsWrite, bind, this, schedule. cbn [ends_in].
           apply on_its_way_ledger.
           ++ apply Busy_Idle. exact HB3.
           ++ reflexivity.
           ++ right. exists (fd (self w3)). reflexivity.
Qed.

(** *** Between two calls *)

Lemma Inv_frame L w w' :
  same_ledger w w' -> _writing (self w') = _writing (self w) ->
  tasks w' = tasks w ->
  Inv L w -> Inv L w'.
Proof.
  intros (Hd & He & Hro & Hs & Hb & Hbufs & Hlens & Hr & Hdr & Her & Ht & Hrp & Hdel)
         Hw _ HI.
  destruct HI as [Hsy [Hq1 [Hq2 Hq3]] Hwf Hqu Hre Hdo Heo Hts Hrs Hled].
  constructor.
  - congruence.
  - repeat split; congruence.
  - rewrite Hb. exact Hwf.
  - rewrite Hbufs, Hlens. exact Hqu.
  - congruence.
  - congruence.
  - congruence.
  - rewrite Ht. destruct Hts as [Hcalm | (before & d & after' & Hts & Hb1 & Hb2 & Hway & Hwr)].
    + left. exact Hcalm.
    + right. exists before, d, after'. repeat split; try assumption.
      * destruct Hway as [Hway | [fd0 Hway]]; [left; exact Hway | right].
        exists fd0. rewrite Hb. exact Hway.
      * congruence.
  - rewrite Hrp. exact Hrs.
  - unfold pending. rewrite Hdel, Hb, Hbufs. exact Hled.
Qed.

Lemma calm_remove_nth (ts : list (task buf)) i :
  Forall (@calm buf) ts -> Forall (@calm buf) (remove_nth i ts).
Proof.
  intros H. revert i. induction H as [ | t ts Ht Hts IH]; intros [ | i]; simpl;
    try constructor; auto.
Qed.

Lemma tasks_ok_cons (s : sonic buf chunk) t (ts : list (task buf)) :
  calm t -> tasks_ok s ts -> tasks_ok s (t :: ts).
Proof.
  intros Ht [Hcalm | (before & d & after' & Hts & Hb1 & Hb2 & Hway & Hwr)].
  - left. constructor; assumption.
  - right. exists (t :: before), d, after'. subst ts.
    repeat split; try assumption; try reflexivity. constructor; assumption.
Qed.

(** The task the runtime picks is a tick, or the one write on its way. *)
Lemma tasks_ok_pick (s : sonic buf chunk) (ts : list (task buf)) i t :
  tasks_ok s ts -> nth_error ts i = Some t ->
  (calm t /\ tasks_ok s (remove_nth i ts))
  \/ (on_its_way s t /\ _writing s = true /\ Forall (@calm buf) (remove_nth i ts)).
Proof.
  intros [Hcalm | (before & d & after' & Hts & Hb1 & Hb2 & Hway & Hwr)] Hnth.
  - left. split.
    + rewrite Forall_forall in Hcalm. apply Hcalm. exact (nth_error_In _ _ Hnth).
    + left. apply calm_remove_nth. exact Hcalm.
  - subst ts. revert i Hnth. induction Hb1 as [ | b bs Hb Hbs IH]; intros i Hnth.
    + destruct i as [ | i]; simpl in *.
      * injection Hnth as <-. right. repeat split; assumption.
      * left. split.
        -- rewrite Forall_forall in Hb2. apply Hb2. exact (nth_error_In _ _ Hnth).
        -- right. exists [], d, (remove_nth i after').
           repeat split; try assumption; try constructor.
           apply calm_remove_nth. exact Hb2.
    + destruct i as [ | i]; simpl in *.
      * injection Hnth as <-. left. split; [exact Hb | ].
        right. exists bs, d, after'. repeat split; assumption.
      * destruct (IH i Hnth) as [[Ht Hok] | (Ht & Hw & Hrest)].
        -- left. split; [exact Ht | ]. apply tasks_ok_cons; assumption.
        -- right. repeat split; try assumption. constructor; assumption.
Qed.

Lemma Inv_without_task L w i :
  Inv L w -> tasks_ok (self w) (remove_nth i (tasks w)) ->
  Inv L (with_tasks (remove_nth i (tasks w)) w).
Proof.
  intros HI Hts. destruct HI as [Hsy Hq Hwf Hqu Hre Hdo Heo _ Hrs Hled].
  constructor; cbn; assumption.
Qed.

Lemma Inv_logged L (w : world buf chunk) o :
  match o with
  | SysWrite _ _ (Done _) => False
  | _ => True
  end ->
  Inv L w -> Inv L (with_trace (trace w ++ [o]) w).
Proof.
  intros Ho. apply Inv_frame; try reflexivity.
  unfold same_ledger. cbn. rewrite delivered_snoc.
  destruct o as [ | ? ? [ | ] | | | | | | ]; try contradiction;
    rewrite app_nil_r; repeat split; reflexivity.
Qed.

(** The runtime runs a callback: a tick changes nothing the ledger reads;
    the callback of [fs.write] is [release]. *)
Lemma complete_ledger fuel L i r w :
  Inv L w -> reply_ok r -> ends_in (Inv L) (Inv L) (complete fuel i r w).
Proof.
  intros HI Hr. unfold complete.
  destruct (nth_error (tasks w) i) as [t | ] eqn:Hnth; [ | exact HI].
  destruct (tasks_ok_pick i (inv_tasks HI) Hnth)
    as [[[Ht | Ht] Hok] | ([Ht | [fd0 Ht]] & Hw & Hrest)]; subst t.
  - (* process.nextTick(() => this.emit('ready')) *)
    pose proof (Inv_without_task i HI Hok) as HI'.
    cbn [run]. destruct fuel as [ | f]; [exact I | ].
    rewrite emit_ready_S. unfold emit_ready_body.
    apply ends_in_log. cbv beta.
    pose proof (Inv_logged (Emit EvReady) I HI') as HI''.
    cbn [ready_once with_trace with_tasks]. rewrite (inv_ready HI).
    destruct f as [ | f]; [exact I | ].
    rewrite run_ready_S. unfold run_ready_body, ret. cbn [ends_in].
    revert HI''. apply Inv_frame; try reflexivity.
    unfold same_ledger. cbn. rewrite (inv_ready HI). repeat split; reflexivity.
  - (* process.nextTick(emitDrain, this) *)
    pose proof (Inv_without_task i HI Hok) as HI'.
    cbn [run]. unfold emitDrain.
    match goal with
    | |- ends_in _ _ (if ?c then _ else _) => destruct c
    end; [exact HI' | ].
    apply ends_in_upd. unfold emit. cbv beta.
    apply ends_in_log. cbn [drain_once with_drain_once with_self with_tasks].
    rewrite (inv_drain HI). cbn [for_each]. unfold ret. cbn [ends_in].
    apply Inv_logged; [exact I | ].
    revert HI'. apply Inv_frame; try reflexivity.
    unfold same_ledger. cbn. rewrite (inv_drain HI). repeat split; reflexivity.
  - (* setTimeout(fsWrite, BUSY_WRITE_TIMEOUT) *)
    cbn [run]. unfold fsWrite, bind, this, schedule. cbn [ends_in].
    apply on_its_way_ledger.
    + split; [ | exact Hrest]. apply Inv_without_task; [exact HI | left; exact Hrest].
    + exact Hw.
    + right. eexists. reflexivity.
  - (* the callback of fs.write *)
    assert (HB : Busy L (with_tasks (remove_nth i (tasks w)) w)).
    { split; [split; [ | exact Hrest] | intros _; exact Hw].
      apply Inv_without_task; [exact HI | left; exact Hrest]. }
    cbn [run]. apply ends_in_log.
    destruct r as [v | c].
    + eapply ends_in_weaken;
        [ | | apply (proj1 (engine_ledger fuel L)); exact (taken fd0 HB Hr)];
        [auto | intros ?; apply Idle_Inv].
    + eapply ends_in_weaken;
        [ | | apply (proj1 (proj2 (engine_ledger fuel L)));
              exact (logged (SysWrite fd0 (_writingBuf (self w)) (Failed c)) I HB)];
        [auto | intros ?; apply Idle_Inv].
Qed.

(** The end of [write] and [writeBuffer]. *)
Lemma dispatch_and_answer_ledger fuel L len' w :
  Inv L w -> ends_in (Inv L) (Inv L) (dispatch_and_answer fuel len' w).
Proof.
  intros HI. unfold dispatch_and_answer.
  apply ends_in_upd. apply ends_in_this.
  assert (HI1 : Inv L (with_self (set_len len') w)).
  { revert HI. apply Inv_frame; try reflexivity.
    unfold same_ledger. cbn. repeat split; reflexivity. }
  eapply ends_in_bind with (R := fun _ w' => Inv L w').
  - unfold when.
    match goal with
    | |- match (if ?c then _ else _) _ with _ => _ end => destruct c eqn:Hc
    end; [ | exact HI1].
    apply andb_true_iff in Hc. destruct Hc as [Hc _].
    apply negb_true_iff in Hc. cbn in Hc.
    assert (Hidle : Idle L (with_self (set_len len') w)).
    { split; [exact HI1 | ].
      destruct (inv_tasks HI) as [Hcalm | (before & d & after' & _ & _ & _ & _ & Hwr)];
        [exact Hcalm | congruence]. }
    pose proof (proj2 (proj2 (engine_ledger fuel L)) _ Hidle) as H.
    destruct (_actualWrite fuel (with_self (set_len len') w)); try exact H.
    apply Idle_Inv. exact H.
  - intros _ w1 HI2. exact HI2.
Qed.

End LedgerFacts.

(** ** The two content modes

    Buffers meet the two hypotheses as they are; text meets them when every
    character takes one byte. *)

Lemma bytes_slice_ok (b : Buffer) n :
  True -> 0 <= n ->
  True /\ firstn (Z.to_nat n) (octets b) ++ octets (slice b n) = octets b.
Proof. intros _ Hn. split; [exact I | apply slice_buffer_keeps_the_rest; exact Hn]. Qed.

Lemma text_slice_ok (b : jsstring) n :
  one_byte_text b -> 0 <= n ->
  one_byte_text (slice b n)
  /\ firstn (Z.to_nat n) (octets b) ++ octets (slice b n) = octets b.
Proof.
  intros Hb Hn. split; [ | apply slice_ascii_keeps_the_rest; assumption].
  cbn [slice Utf8]. unfold js_slice, one_byte_text in *.
  destruct (Z.ltb_spec n 0) as [Hneg | _]; [lia | ].
  rewrite <- (firstn_skipn (Z.to_nat n) b) in Hb.
  apply Forall_app in Hb. exact (proj2 Hb).
Qed.

Lemma mergeBuf_all (c : list Buffer) :
  mergeBuf c (Some (chunk_size c)) = List.concat c.
Proof.
  destruct c as [ | x [ | y c]]; [reflexivity | simpl; rewrite app_nil_r; reflexivity | ].
  unfold mergeBuf, Buffer_concat, chunk_size, len.
  rewrite Nat2Z.id, Nat.sub_diag. cbn [repeat]. rewrite app_nil_r. apply firstn_all.
Qed.

Lemma bytes_next_ok (b : Buffer) bufs lens picked bufs' lens' :
  next_chunk b bufs lens = (picked, bufs', lens') ->
  True -> lens_in_step bufs lens ->
  lens_in_step bufs' lens'
  /\ match picked with
     | inr b' => True /\ octets b' ++ flats (@List.concat byte) bufs'
                         = octets b ++ flats (@List.concat byte) bufs
     | inl _ => flats (@List.concat byte) bufs' = flats (@List.concat byte) bufs
     end.
Proof.
  unfold lens_in_step. cbn [next_chunk Raw octets]. unfold next_buffer.
  destruct b as [ | x b']; [destruct bufs as [ | c rest] | ];
    intros H _ Hl; injection H as <- <- <-; subst lens.
  - split; reflexivity.
  - cbn [map hd_error tl]. split; [reflexivity | ]. split; [exact I | ].
    rewrite mergeBuf_all. reflexivity.
  - split; [reflexivity | ]. split; [exact I | reflexivity].
Qed.

Lemma text_next_ok (b : jsstring) bufs lens picked bufs' lens' :
  next_chunk b bufs lens = (picked, bufs', lens') ->
  one_byte_text b -> all_one_byte bufs lens ->
  all_one_byte bufs' lens'
  /\ match picked with
     | inr b' => one_byte_text b' /\ octets b' ++ flats utf8 bufs' = octets b ++ flats utf8 bufs
     | inl _ => flats utf8 bufs' = flats utf8 bufs
     end.
Proof.
  unfold all_one_byte. cbn [next_chunk Utf8 octets]. unfold next_utf8.
  destruct b as [ | x b']; [destruct bufs as [ | c rest] | ];
    intros H Hb Hq; injection H as <- <- <-.
  - split; [exact Hq | ]. split; [exact Hb | reflexivity].
  - split; [exact (Forall_inv_tail Hq) | ]. split; [exact (Forall_inv Hq) | reflexivity].
  - split; [exact Hq | ]. split; [exact Hb | reflexivity].
Qed.

Lemma flats_app {chunk} (flat : chunk -> list byte) a b :
  flats flat (a ++ b) = flats flat a ++ flats flat b.
Proof. unfold flats. rewrite map_app, concat_app. reflexivity. Qed.

Lemma flats_enqueue_bytes maxWrite bufs data :
  flats (@List.concat byte) (enqueue_bytes maxWrite bufs data)
  = flats (@List.concat byte) bufs ++ data.
Proof.
  induction bufs as [ | c rest IH].
  - unfold flats. simpl. rewrite !app_nil_r. reflexivity.
  - destruct rest as [ | c' rest'].
    + cbn [enqueue_bytes]. destruct (chunk_size c + len data <=? maxWrite).
      * unfold flats. simpl. rewrite concat_app. simpl. rewrite !app_nil_r. reflexivity.
      * unfold flats. simpl. rewrite !app_nil_r. reflexivity.
    + change (enqueue_bytes maxWrite (c :: c' :: rest') data)
        with (c :: enqueue_bytes maxWrite (c' :: rest') data).
      change (flats (@List.concat byte) (c :: ?l)) with (List.concat c ++ flats (@List.concat byte) l).
      unfold flats in *. cbn [map List.concat] in *. rewrite IH, <- !app_assoc. reflexivity.
Qed.

Lemma utf8_one_byte_app a b :
  one_byte_text a -> one_byte_text b -> utf8 (a ++ b) = utf8 a ++ utf8 b.
Proof.
  intros Ha Hb. rewrite (utf8_ascii Ha), (utf8_ascii Hb), <- map_app.
  apply utf8_ascii. apply Forall_app. split; assumption.
Qed.

Lemma enqueue_text_one_byte maxWrite bufs data :
  Forall one_byte_text bufs -> one_byte_text data ->
  Forall one_byte_text (enqueue_text maxWrite bufs data)
  /\ flats utf8 (enqueue_text maxWrite bufs data) = flats utf8 bufs ++ utf8 data.
Proof.
  intros Hb Hd. induction bufs as [ | c rest IH].
  - split; [repeat constructor; exact Hd | ].
    unfold flats. simpl. rewrite app_nil_r. reflexivity.
  - pose proof (Forall_inv Hb) as Hc. pose proof (Forall_inv_tail Hb) as Hrest.
    destruct rest as [ | c' rest'].
    + cbn [enqueue_text]. destruct (len c + len data <=? maxWrite).
      * split; [repeat constructor; apply Forall_app; split; assumption | ].
        unfold flats. simpl. rewrite !app_nil_r. apply utf8_one_byte_app; assumption.
      * split; [repeat constructor; assumption | ].
        unfold flats. simpl. rewrite !app_nil_r. reflexivity.
    + change (enqueue_text maxWrite (c :: c' :: rest') data)
        with (c :: enqueue_text maxWrite (c' :: rest') data).
      destruct (IH Hrest) as [IH1 IH2].
      split; [constructor; assumption | ].
      unfold flats in *. cbn [map List.concat] in *. rewrite IH2, <- !app_assoc. reflexivity.
Qed.

(** [writeBuffer] adds the bytes it lets through to the ledger, and nothing else. *)
Lemma writeBuffer_ledger fuel sy L (w : world Buffer (list Buffer)) (data : Buffer) :
  Inv_bytes sy L w ->
  let L' := L ++ let_through (self w) (len data) data in
  ends_in (Inv_bytes sy L') (Inv_bytes sy L') (writeBuffer fuel data w).
Proof.
  intros HI L'. unfold L', let_through.
  destruct (inv_quiet HI) as (Hlive & _).
  destruct (negb (maxLength (self w) =? 0) && (_len (self w) + len data >? maxLength (self w)))
    eqn:Hguard.
  - rewrite app_nil_r.
    unfold writeBuffer. unfold bind at 1. unfold this at 1. cbv beta iota.
    rewrite Hlive, Hguard.
    unfold Inv_bytes. apply ends_in_log. cbn.
    apply Inv_logged; [exact I | exact HI].
  - rewrite (writeBuffer_accepts fuel w data Hlive (accept_guard_inv _ _ Hguard) (inv_queue HI)).
    cbv zeta.
    apply (dispatch_and_answer_ledger bytes_slice_ok bytes_next_ok).
    destruct HI as [Hsy Hq Hwf Hqu Hre Hdo Heo Hts Hrs Hled].
    constructor; try assumption.
    + reflexivity.
    + change (delivered (trace w)
              ++ octets (_writingBuf (self w))
              ++ flats (@List.concat byte)
                   (enqueue_bytes (maxWrite (self w)) (_bufs (self w)) data)
              = L ++ data).
      rewrite flats_enqueue_bytes, <- Hled. unfold pending.
      rewrite <- !app_assoc. reflexivity.
Qed.

(** [write] does the same for text of one-byte characters. *)
Lemma write_ledger fuel sy L (w : world jsstring jsstring) (data : jsstring) :
  Inv_text sy L w -> one_byte_text data ->
  let L' := L ++ let_through (self w) (len data) (utf8 data) in
  ends_in (Inv_text sy L') (Inv_text sy L') (write fuel data w).
Proof.
  intros HI Hd L'. unfold L', let_through.
  destruct (inv_quiet HI) as (Hlive & _).
  destruct (negb (maxLength (self w) =? 0) && (_len (self w) + len data >? maxLength (self w)))
    eqn:Hguard.
  - rewrite app_nil_r.
    unfold write. unfold bind at 1. unfold this at 1. cbv beta iota.
    rewrite Hlive, Hguard.
    unfold Inv_text. apply ends_in_log. cbn.
    apply Inv_logged; [exact I | exact HI].
  - rewrite (write_accepts fuel w data Hlive (accept_guard_inv _ _ Hguard)).
    apply (dispatch_and_answer_ledger text_slice_ok text_next_ok).
    destruct HI as [Hsy Hq Hwf Hqu Hre Hdo Heo Hts Hrs Hled].
    destruct (enqueue_text_one_byte (maxWrite (self w)) Hqu Hd) as [Hall Hflat].
    constructor; try assumption.
    change (delivered (trace w)
            ++ octets (_writingBuf (self w))
            ++ flats utf8 (enqueue_text (maxWrite (self w)) (_bufs (self w)) data)
            = L ++ utf8 data).
    rewrite Hflat, <- Hled. unfold pending.
    rewrite <- !app_assoc. reflexivity.
Qed.

(** ** Round trip *)

(** A writer built on a descriptor starts with an empty ledger. *)
Lemma SonicBoom_ledger {buf chunk} {content : Content buf chunk}
      (flat : chunk -> list byte) (wf : buf -> Prop) (Qq : list chunk -> list Z -> Prop)
      fuel opts answers n (w0 : world buf chunk) :
  wf blank -> Qq [] [] -> octets (blank : buf) = [] ->
  (if dest_truthy (o_fd opts) then o_fd opts else o_dest opts) = Some (Num n) ->
  Forall reply_ok answers ->
  SonicBoom fuel opts answers = Returned tt w0 ->
  Inv flat wf Qq (sync (self w0)) [] w0.
Proof.
  intros Hwf HQ Hblank Hdest Hans. unfold SonicBoom. rewrite Hdest.
  unfold bind, upd, schedule, this, when. cbn.
  match goal with
  | |- (if ?c then _ else _) _ = _ -> _ => destruct c
  end; [discriminate | ].
  intros H. injection H as <-.
  constructor; cbn; try reflexivity; try assumption.
  - repeat split.
  - left. repeat constructor.
  - unfold pending. cbn. rewrite Hblank. reflexivity.
Qed.

Lemma run_bytes_ledger fuel steps :
  forall sy w sent w' sent',
    Inv_bytes sy sent w -> Forall step_ok_bytes steps ->
    run_bytes fuel steps w sent = Some (w', sent') ->
    Inv_bytes sy sent' w'.
Proof.
  induction steps as [ | st rest IH]; intros sy w sent w' sent' HI Hok Hrun.
  - injection Hrun as <- <-. exact HI.
  - pose proof (Forall_inv Hok) as Hst. pose proof (Forall_inv_tail Hok) as Hrest.
    destruct st as [data | i r]; cbn [run_bytes] in Hrun.
    + pose proof (writeBuffer_ledger fuel data HI) as H. cbv zeta in H.
      destruct (writeBuffer fuel data w) as [b w1 | e w1 | | ];
        try discriminate; exact (IH _ _ _ _ _ H Hrest Hrun).
    + pose proof (complete_ledger bytes_slice_ok bytes_next_ok fuel i r HI Hst) as H.
      destruct (complete fuel i r w) as [b w1 | e w1 | | ];
        try discriminate; exact (IH _ _ _ _ _ H Hrest Hrun).
Qed.

Lemma run_text_ledger fuel steps :
  forall sy w sent w' sent',
    Inv_text sy sent w -> Forall step_ok_text steps ->
    run_text fuel steps w sent = Some (w', sent') ->
    Inv_text sy sent' w'.
Proof.
  induction steps as [ | st rest IH]; intros sy w sent w' sent' HI Hok Hrun.
  - injection Hrun as <- <-. exact HI.
  - pose proof (Forall_inv Hok) as Hst. pose proof (Forall_inv_tail Hok) as Hrest.
    destruct st as [data | i r]; cbn [run_text] in Hrun.
    + pose proof (write_ledger fuel HI Hst) as H. cbv zeta in H.
      destruct (write fuel data w) as [b w1 | e w1 | | ];
        try discriminate; exact (IH _ _ _ _ _ H Hrest Hrun).
    + pose proof (complete_ledger text_slice_ok text_next_ok fuel i r HI Hst) as H.
      destruct (complete fuel i r w) as [b w1 | e w1 | | ];
        try discriminate; exact (IH _ _ _ _ _ H Hrest Hrun).
Qed.

(** X1. A buffer-mode writer on a descriptor, through any run of
    [write] calls and runtime callbacks (writes that succeed in part or in
    full, or fail): the bytes the descriptor has taken, followed by the
    bytes the writer still holds (the chunk in flight, then the queue), are
    exactly the bytes of the data let through, in the order of the calls.
    Nothing is lost, repeated or reordered. *)
Theorem bytes_delivered_then_pending_are_the_bytes_enqueued :
  forall fuel opts answers n steps w0 w sent,
    (if dest_truthy (o_fd opts) then o_fd opts else o_dest opts) = Some (Num n) ->
    Forall reply_ok answers ->
    Forall step_ok_bytes steps ->
    SonicBoom fuel opts answers = Returned tt w0 ->
    run_bytes fuel steps w0 [] = Some (w, sent) ->
    delivered (trace w) ++ pending (@List.concat byte) (self w) = sent.
Proof.
  intros fuel opts answers n steps w0 w sent Hdest Hans Hok Hnew Hrun.
  assert (H0 : Inv_bytes (sync (self w0)) [] w0).
  { apply (@SonicBoom_ledger _ _ Raw _ _ _ fuel opts answers n);
      [exact I | reflexivity | reflexivity | exact Hdest | exact Hans | exact Hnew]. }
  exact (inv_ledger (run_bytes_ledger fuel H0 Hok Hrun)).
Qed.

(** X2. The same for a text-mode writer, when every character of the data
    takes one byte in UTF-8. *)
Theorem one_byte_text_delivered_then_pending_is_the_text_enqueued :
  forall fuel opts answers n steps w0 w sent,
    (if dest_truthy (o_fd opts) then o_fd opts else o_dest opts) = Some (Num n) ->
    Forall reply_ok answers ->
    Forall step_ok_text steps ->
    SonicBoom fuel opts answers = Returned tt w0 ->
    run_text fuel steps w0 [] = Some (w, sent) ->
    delivered (trace w) ++ pending utf8 (self w) = sent.
Proof.
  intros fuel opts answers n steps w0 w sent Hdest Hans Hok Hnew Hrun.
  assert (H0 : Inv_text (sync (self w0)) [] w0).
  { apply (@SonicBoom_ledger _ _ Utf8 _ _ _ fuel opts answers n);
      [constructor | constructor | reflexivity | exact Hdest | exact Hans | exact Hnew]. }
  exact (inv_ledger (run_text_ledger fuel H0 Hok Hrun)).
Qed.

(** A deferred writer is given "ab" and "cde"; the descriptor takes one byte,
    then answers EAGAIN, then takes the rest of "ab"; "f" arrives and joins
    "cde", of which the descriptor takes three bytes: "abcde" are delivered
    and "f" is in flight. *)
Lemma bytes_delivered_then_pending_are_the_bytes_enqueued_witness :
  exists w0 w,
    bytes (on_stdout false false 0 0 4) [] = Returned tt w0
    /\ run_bytes 8 sample_run_bytes w0 [] = Some (w, map octet [97; 98; 99; 100; 101; 102])
    /\ delivered (trace w) = map octet [97; 98; 99; 100; 101]
    /\ pending (@List.concat byte) (self w) = map octet [102]
    /\ delivered (trace w) ++ pending (@List.concat byte) (self w)
       = map octet [97; 98; 99; 100; 101; 102].
Proof.
  eexists. eexists.
  split; [vm_compute; reflexivity | ].
  split; [vm_compute; reflexivity | ].
  split; [vm_compute; reflexivity | ].
  split; [vm_compute; reflexivity | ].
  eapply (@bytes_delivered_then_pending_are_the_bytes_enqueued
           8 (on_stdout false false 0 0 4) [] 1 sample_run_bytes).
  - reflexivity.
  - apply Forall_nil.
  - unfold sample_run_bytes.
    repeat (apply Forall_cons; [first [exact I | cbn; lia] | ]). apply Forall_nil.
  - vm_compute. reflexivity.
  - vm_compute. reflexivity.
Defined.

(** A blocking writer is given "ab" and "cd"; the descriptor takes one
    character, answers EAGAIN, and then takes the rest. *)
Lemma one_byte_text_delivered_then_pending_is_the_text_enqueued_witness :
  exists w0 w,
    text (on_stdout true false 0 0 4) sample_answers = Returned tt w0
    /\ run_text 8 sample_run_text w0 [] = Some (w, map octet [97; 98; 99; 100])
    /\ delivered (trace w) = map octet [97; 98; 99; 100]
    /\ pending utf8 (self w) = []
    /\ delivered (trace w) ++ pending utf8 (self w) = map octet [97; 98; 99; 100].
Proof.
  eexists. eexists.
  split; [vm_compute; reflexivity | ].
  split; [vm_compute; reflexivity | ].
  split; [vm_compute; reflexivity | ].
  split; [vm_compute; reflexivity | ].
  eapply (@one_byte_text_delivered_then_pending_is_the_text_enqueued
           8 (on_stdout true false 0 0 4) sample_answers 1 sample_run_text).
  - reflexivity.
  - unfold sample_answers.
    repeat (apply Forall_cons; [first [exact I | cbn; lia] | ]). apply Forall_nil.
  - unfold sample_run_text, step_ok_text, one_byte_text.
    repeat (apply Forall_cons;
            [first [exact I | cbn; lia
                   | repeat (apply Forall_cons; [lia | ]); apply Forall_nil] | ]).
    apply Forall_nil.
  - vm_compute. reflexivity.
  - vm_compute. reflexivity.
Defined.

(** ** What no operation changes *)

Section Evolution.

Context {buf chunk : Type} {content : Content buf chunk}.

Lemma evolves_refl (s : sonic buf chunk) : evolves s s.
Proof. repeat split; auto. Qed.

Lemma evolves_trans (s1 s2 s3 : sonic buf chunk) :
  evolves s1 s2 -> evolves s2 s3 -> evolves s1 s3.
Proof.
  intros (Hc & Hr & Hd & He) (Hc' & Hr' & Hd' & He').
  repeat split; [congruence | congruence | auto | auto].
Qed.

Lemma moves_ret {A} (a : A) : moves (ret (W := world buf chunk) a).
Proof. intros w. apply evolves_refl. Qed.

Lemma moves_throw {A} e : moves (throw (W := world buf chunk) (A := A) e).
Proof. intros w. apply evolves_refl. Qed.

Lemma moves_out_of_fuel {A} : moves (out_of_fuel (W := world buf chunk) (A := A)).
Proof. intros w. exact I. Qed.

Lemma moves_bind {A B} (m : Js buf chunk A) (k : A -> Js buf chunk B) :
  moves m -> (forall a, moves (k a)) -> moves (bind m k).
Proof.
  intros Hm Hk w. unfold bind. specialize (Hm w).
  destruct (m w) as [a w1 | e w1 | | ]; try exact Hm; try exact I.
  specialize (Hk a w1).
  destruct (k a w1); try exact I; eapply evolves_trans; eassumption.
Qed.

Lemma moves_this {B} (k : sonic buf chunk -> Js buf chunk B) :
  (forall s, moves (k s)) -> moves (bind this k).
Proof. intros Hk w. exact (Hk (self w) w). Qed.

Lemma moves_try_catch {A} (m : Js buf chunk A) h :
  moves m -> (forall e, moves (h e)) -> moves (try_catch m h).
Proof.
  intros Hm Hh w. unfold try_catch. specialize (Hm w).
  destruct (m w) as [a w1 | e w1 | | ]; try exact Hm.
  specialize (Hh e w1).
  destruct (h e w1); try exact I; eapply evolves_trans; eassumption.
Qed.

Lemma moves_attempt {A} (m : Js buf chunk A) : moves m -> moves (attempt m).
Proof.
  intros Hm w. unfold attempt. specialize (Hm w).
  destruct (m w); exact Hm.
Qed.

Lemma moves_when c (m : Js buf chunk unit) : moves m -> moves (when c m).
Proof. intros Hm. destruct c; [exact Hm | apply moves_ret]. Qed.

(** A step that leaves the writer itself alone. *)
Lemma moves_same_self {A} (m : Js buf chunk A) :
  (forall w, match m w with
             | Returned _ w' => self w' = self w
             | Thrown _ w' => self w' = self w
             | _ => True
             end) ->
  moves m.
Proof.
  intros Hm w. specialize (Hm w).
  destruct (m w); try exact I; rewrite Hm; apply evolves_refl.
Qed.

Lemma moves_log o : moves (log (buf := buf) (chunk := chunk) o).
Proof. apply moves_same_self. reflexivity. Qed.

Lemma moves_schedule t : moves (schedule (buf := buf) (chunk := chunk) t).
Proof. apply moves_same_self. reflexivity. Qed.

Lemma moves_once_ready l : moves (once_ready (buf := buf) (chunk := chunk) l).
Proof. apply moves_same_self. reflexivity. Qed.

Lemma moves_blocking c : moves (blocking (buf := buf) (chunk := chunk) c).
Proof.
  apply moves_same_self. intros w. unfold blocking.
  destruct (replies w) as [ | [v | code] rest]; reflexivity.
Qed.

Lemma moves_upd (f : sonic buf chunk -> sonic buf chunk) :
  (forall s, evolves s (f s)) -> moves (upd f).
Proof. intros Hf w. apply Hf. Qed.

Lemma moves_for_each {A} (f : A -> Js buf chunk unit) l :
  (forall a, moves (f a)) -> moves (for_each f l).
Proof.
  intros Hf. induction l as [ | a l IH]; simpl.
  - apply moves_ret.
  - apply moves_bind; [apply Hf | intros _; exact IH].
Qed.

End Evolution.

(** Every assignment of the source is to a field outside the configuration,
    and none clears [destroyed] or [_ending]. *)
Ltac assignment_evolves :=
  let s := fresh "s" in
  intros s; unfold evolves; repeat split; cbn; auto.

Ltac moves_step :=
  match goal with
  | H : moves ?m |- moves ?m => exact H
  | H : forall x, moves _ |- moves _ => apply H
  | H : forall x y, moves _ |- moves _ => apply H
  | H : forall x y z, moves _ |- moves _ => apply H
  | |- moves (ret _) => apply moves_ret
  | |- moves (throw _) => apply moves_throw
  | |- moves out_of_fuel => apply moves_out_of_fuel
  | |- moves (log _) => apply moves_log
  | |- moves (sleep _) => apply moves_log
  | |- moves (call _ _) => apply moves_log
  | |- moves (schedule _) => apply moves_schedule
  | |- moves (once_ready _) => apply moves_once_ready
  | |- moves (blocking _) => apply moves_blocking
  | |- moves (upd _) => apply moves_upd; assignment_evolves
  | |- moves (bind this _) => apply moves_this; intros ?
  | |- moves (bind _ _) => apply moves_bind; [ | intros ?]
  | |- moves (when _ _) => apply moves_when
  | |- moves (try_catch _ _) => apply moves_try_catch; [ | intros ?]
  | |- moves (attempt _) => apply moves_attempt
  | |- moves (if ?c then _ else _) => destruct c
  | |- moves (match ?x with _ => _ end) => destruct x
  end.
Section EvolutionOfTheEngine.

Context {buf chunk : Type} {content : Content buf chunk}.

Lemma moves_fsWriteSync : moves (fsWriteSync (buf := buf) (chunk := chunk)).
Proof. unfold fsWriteSync. repeat moves_step. Qed.

Lemma moves_fsWrite : moves (fsWrite (buf := buf) (chunk := chunk)).
Proof. unfold fsWrite. repeat moves_step. Qed.

Lemma moves_fsyncSync : moves (fsyncSync (buf := buf) (chunk := chunk)).
Proof. unfold fsyncSync. repeat moves_step. Qed.

Lemma moves_emit (ev : event buf) : moves (emit (chunk := chunk) ev).
Proof.
  destruct ev; try apply moves_log.
  - (* 'error' *)
    intros w. unfold emit.
    destruct (Nat.eqb (listenerCount_error w) 0); [apply evolves_refl | ].
    refine (@moves_bind _ _ _ _ (log _) _ _ _ (with_error_once [] w)).
    + apply moves_log.
    + intros _. apply moves_for_each. intros l. unfold onError.
      repeat moves_step. apply moves_same_self. reflexivity.
  - (* 'drain' *)
    intros w. unfold emit.
    refine (@moves_bind _ _ _ _ (log _) _ _ _ (with_drain_once [] w)).
    + apply moves_log.
    + intros _. apply moves_for_each. intros l. unfold onDrain.
      repeat moves_step; apply moves_same_self; reflexivity.
Qed.

Lemma moves_actualClose : moves (actualClose (buf := buf) (chunk := chunk)).
Proof. unfold actualClose. repeat moves_step. Qed.

Lemma moves_destroy : moves (destroy (buf := buf) (chunk := chunk)).
Proof. unfold destroy. repeat moves_step. apply moves_actualClose. Qed.

Lemma moves_release_loop fuel : moves (release_loop (buf := buf) (chunk := chunk) fuel).
Proof.
  induction fuel as [ | f IH]; simpl; repeat moves_step.
  apply moves_fsWriteSync.
Qed.

Lemma moves_engine :
  forall fuel,
    (forall err n, moves (release (buf := buf) (chunk := chunk) fuel err n))
    /\ moves (_actualWrite (buf := buf) (chunk := chunk) fuel)
    /\ (forall newfile, moves (reopen (buf := buf) (chunk := chunk) fuel newfile))
    /\ (forall target, moves (openFile (buf := buf) (chunk := chunk) fuel target))
    /\ (forall target err newfd,
           moves (fileOpened (buf := buf) (chunk := chunk) fuel target err newfd))
    /\ moves (end_ (buf := buf) (chunk := chunk) fuel)
    /\ moves (emit_ready (buf := buf) (chunk := chunk) fuel)
    /\ (forall ls, moves (run_ready (buf := buf) (chunk := chunk) fuel ls)).
Proof.
  induction fuel as [ | f (IHrelease & IHwrite & IHreopen & IHopen & IHopened
                           & IHend & IHready & IHrun)].
  - repeat split; intros; apply moves_out_of_fuel.
  - repeat split.
    + (* release *)
      intros err n. rewrite release_S. unfold release_body, release_completed.
      destruct err as [err | ].
      * repeat (first [ apply moves_emit | moves_step ]).
      * repeat (first [ apply moves_emit | apply moves_fsWrite
                      | apply moves_fsyncSync | apply moves_release_loop
                      | apply moves_actualClose | moves_step ]).
    + (* _actualWrite *)
      rewrite _actualWrite_S. unfold _actualWrite_body.
      apply moves_bind; [moves_step | intros _].
      apply moves_this. intros s.
      destruct (next_chunk (_writingBuf s) (_bufs s) (_lens s)) as [[picked bufs'] lens'].
      repeat (first [ apply moves_fsWriteSync | apply moves_fsWrite | moves_step ]).
    + (* reopen *)
      intros newfile. cbn [reopen]. unfold reopen_body. repeat moves_step.
    + (* openFile *)
      intros target. cbn [openFile]. unfold openFile_body. repeat moves_step.
    + (* fileOpened *)
      intros target err newfd. cbn [fileOpened]. unfold fileOpened_body.
      repeat (first [ apply moves_emit | moves_step ]).
    + (* end *)
      cbn [end_]. unfold end_body. repeat (first [ apply moves_actualClose | moves_step ]).
    + (* emit('ready') *)
      rewrite emit_ready_S. unfold emit_ready_body.
      apply moves_bind; [apply moves_log | intros _].
      intros w. apply (IHrun (ready_once w) (with_ready_once [] w)).
    + (* the listeners of 'ready' *)
      intros ls. rewrite run_ready_S. unfold run_ready_body.
      repeat (first [ apply moves_actualClose | moves_step ]).
Qed.

End EvolutionOfTheEngine.
Section EvolutionOfTheInterface.

Context {buf chunk : Type} {content : Content buf chunk}.

Lemma moves_done err : moves (done (buf := buf) (chunk := chunk) err).
Proof. unfold done. repeat (first [ apply moves_emit | moves_step ]). Qed.

Lemma moves_closeWrapped : moves (closeWrapped (buf := buf) (chunk := chunk)).
Proof. unfold closeWrapped. repeat (first [ apply moves_done | moves_step ]). Qed.

Lemma moves_emitDrain : moves (emitDrain (buf := buf) (chunk := chunk)).
Proof.
  assert (H : moves (upd (set_asyncDrainScheduled false) ;;
                     emit (buf := buf) (chunk := chunk) EvDrain))
    by (repeat (first [ apply moves_emit | moves_step ])).
  intros w. unfold emitDrain. cbv zeta.
  destruct (negb (negb (Nat.eqb (listenerCount_drain w) 0)));
    [apply evolves_refl | exact (H w)].
Qed.

Lemma moves_newListener name : moves (newListener (buf := buf) (chunk := chunk) name).
Proof. unfold newListener. repeat moves_step. Qed.

Lemma moves_callFlushCallbackOnDrain cb :
  moves (callFlushCallbackOnDrain (buf := buf) (chunk := chunk) cb).
Proof.
  unfold callFlushCallbackOnDrain.
  apply moves_bind; [apply moves_newListener | intros _].
  apply moves_same_self. reflexivity.
Qed.

Lemma moves_on_drain : moves (on_drain (buf := buf) (chunk := chunk)).
Proof.
  unfold on_drain.
  apply moves_bind; [apply moves_newListener | intros _].
  apply moves_same_self. reflexivity.
Qed.

Lemma moves_on_error : moves (on_error (buf := buf) (chunk := chunk)).
Proof.
  unfold on_error.
  apply moves_bind; [apply moves_newListener | intros _].
  apply moves_same_self. reflexivity.
Qed.

Lemma moves_run fuel t r : moves (run (buf := buf) (chunk := chunk) fuel t r).
Proof.
  destruct (moves_engine (buf := buf) (chunk := chunk) fuel)
    as (Hrelease & Hwrite & Hreopen & Hopen & Hopened & Hend & Hready & Hrun).
  unfold run. destruct t;
    repeat (first [ apply moves_emit | apply moves_fsWrite | apply moves_closeWrapped
                  | apply moves_done | apply moves_emitDrain | moves_step ]).
  intros w. destruct (negb (Nat.eqb (listenerCount_error w) 0));
    [apply moves_emit | apply evolves_refl].
Qed.

Lemma moves_complete fuel i r : moves (complete (buf := buf) (chunk := chunk) fuel i r).
Proof.
  intros w. unfold complete.
  destruct (nth_error (tasks w) i) as [t | ]; [ | apply evolves_refl].
  apply (moves_run fuel t r (with_tasks (remove_nth i (tasks w)) w)).
Qed.

Lemma moves_exec write_ flush_ flushSync_ fuel (o : op buf) :
  (forall data, moves (write_ data)) -> (forall cb, moves (flush_ cb)) ->
  moves flushSync_ ->
  moves (exec (chunk := chunk) write_ flush_ flushSync_ fuel o).
Proof.
  intros Hw Hf Hs.
  destruct (moves_engine (buf := buf) (chunk := chunk) fuel)
    as (Hrelease & Hwrite & Hreopen & Hopen & Hopened & Hend & Hready & Hrun).
  destruct o; cbn [exec];
    repeat (first [ apply moves_destroy | apply moves_on_drain | apply moves_on_error
                  | apply moves_complete | moves_step ]).
Qed.

Lemma moves_run_ops {A} (step_ : A -> Js buf chunk unit) :
  (forall o, moves (step_ o)) ->
  forall ops w w', run_ops step_ ops w = Some w' -> evolves (self w) (self w').
Proof.
  intros Hstep. induction ops as [ | o rest IH]; intros w w' Hrun.
  - injection Hrun as <-. apply evolves_refl.
  - cbn [run_ops] in Hrun. specialize (Hstep o w).
    destruct (step_ o w) as [a w1 | e w1 | | ]; cbn [final] in Hrun;
      try discriminate;
      exact (evolves_trans Hstep (IH _ _ Hrun)).
Qed.

End EvolutionOfTheInterface.

Lemma moves_write fuel data : moves (write fuel data).
Proof.
  unfold write, actualWrite.
  repeat (first [ apply moves_emit
                | apply (proj1 (proj2 (moves_engine (content := Utf8) fuel)))
                | moves_step ]).
Qed.

Lemma moves_writeBuffer fuel data : moves (writeBuffer fuel data).
Proof.
  unfold writeBuffer, actualWriteBuffer.
  repeat (first [ apply moves_emit
                | apply (proj1 (proj2 (moves_engine (content := Raw) fuel)))
                | moves_step ]).
Qed.

Lemma moves_flush fuel cb : moves (flush fuel cb).
Proof.
  unfold flush, actualWrite.
  destruct cb;
    repeat (first [ apply moves_callFlushCallbackOnDrain
                  | apply (proj1 (proj2 (moves_engine (content := Utf8) fuel)))
                  | moves_step ]).
Qed.

Lemma moves_flushBuffer fuel cb : moves (flushBuffer fuel cb).
Proof.
  unfold flushBuffer, actualWriteBuffer.
  destruct cb;
    repeat (first [ apply moves_callFlushCallbackOnDrain
                  | apply (proj1 (proj2 (moves_engine (content := Raw) fuel)))
                  | moves_step ]).
Qed.

Lemma moves_flushSync_loop fuel : forall buf, moves (flushSync_loop fuel buf).
Proof. induction fuel as [ | f IH]; intros buf; cbn [flushSync_loop]; repeat moves_step. Qed.

Lemma moves_flushSync fuel : moves (flushSync fuel).
Proof. unfold flushSync. repeat (first [ apply moves_flushSync_loop | moves_step ]). Qed.

Lemma moves_flushBufferSync_loop fuel : forall buf, moves (flushBufferSync_loop fuel buf).
Proof.
  induction fuel as [ | f IH]; intros buf; cbn [flushBufferSync_loop]; repeat moves_step.
Qed.

Lemma moves_flushBufferSync fuel : moves (flushBufferSync fuel).
Proof.
  unfold flushBufferSync. repeat (first [ apply moves_flushBufferSync_loop | moves_step ]).
Qed.

Lemma moves_exec_text fuel o : moves (exec_text fuel o).
Proof.
  apply moves_exec; [apply moves_write | apply moves_flush | apply moves_flushSync].
Qed.

Lemma moves_exec_bytes fuel o : moves (exec_bytes fuel o).
Proof.
  apply moves_exec;
    [apply moves_writeBuffer | apply moves_flushBuffer | apply moves_flushBufferSync].
Qed.

(** X3. Whatever a program does with a writer -- any sequence of [write],
    [flush], [flushSync], [reopen], [end], [destroy], attaching listeners,
    and callbacks run by the runtime with any answers -- the options stored
    by the constructor ([_hwm], [minLength], [maxLength], [maxWrite], [sync],
    [writable], [_fsync], [append], [mode], [mkdir], [retryEAGAIN]) never
    change, and [destroyed] and [_ending], once set, stay set.  In both
    content modes. *)
Theorem configuration_is_fixed_and_destroyed_is_final :
  (forall fuel ops (w w' : world jsstring jsstring),
      run_ops (exec_text fuel) ops w = Some w' -> evolves (self w) (self w'))
  /\ (forall fuel ops (w w' : world Buffer (list Buffer)),
         run_ops (exec_bytes fuel) ops w = Some w' -> evolves (self w) (self w')).
Proof.
  split; intros fuel; apply moves_run_ops; intros o;
    [apply moves_exec_text | apply moves_exec_bytes].
Qed.

(** A writer on a path is written to, flushed, ended and closed; a writer on
    descriptor 1 is written to and destroyed. *)
Lemma configuration_is_fixed_and_destroyed_is_final_witness :
  (exists w w',
      text (on_path "app.log") [] = Returned tt w
      /\ run_ops (exec_text 8) sample_program_text w = Some w'
      /\ destroyed (self w) = false /\ destroyed (self w') = true
      /\ evolves (self w) (self w'))
  /\ (exists w w',
         bytes (on_stdout false false 0 0 4) [] = Returned tt w
         /\ run_ops (exec_bytes 8) sample_program_bytes w = Some w'
         /\ destroyed (self w) = false /\ destroyed (self w') = true
         /\ evolves (self w) (self w')).
Proof.
  split; eexists; eexists;
    (split; [vm_compute; reflexivity | ]);
    (split; [vm_compute; reflexivity | ]);
    (split; [reflexivity | ]); (split; [reflexivity | ]).
  - eapply (proj1 configuration_is_fixed_and_destroyed_is_final 8%nat sample_program_text).
    vm_compute. reflexivity.
  - eapply (proj2 configuration_is_fixed_and_destroyed_is_final 8%nat sample_program_bytes).
    vm_compute. reflexivity.
Defined.
(** ** [_lens] follows [_bufs] *)

Lemma lens_in_step_next (b : Buffer) bufs lens picked bufs' lens' :
  next_chunk b bufs lens = (picked, bufs', lens') ->
  lens_in_step bufs lens -> lens_in_step bufs' lens'.
Proof.
  intros Hnext Hl. exact (proj1 (bytes_next_ok b Hnext I Hl)).
Qed.

Section Alignment.

Variable cfg : Z * Z * Z * Z * bool * bool.

Local Abbreviation kept := (@keeps Buffer (list Buffer) lens_in_step cfg _).

Local Abbreviation engine := (keeps_engine lens_in_step cfg eq_refl lens_in_step_next).

Ltac kept_step :=
  match goal with
  | |- kept (ret _) => apply keeps_ret
  | |- kept (throw _) => apply keeps_throw
  | |- kept out_of_fuel => apply keeps_out_of_fuel
  | |- kept (log _) => apply keeps_log
  | |- kept (sleep _) => apply keeps_log
  | |- kept (call _ _) => apply keeps_log
  | |- kept (schedule _) => apply keeps_schedule
  | |- kept (once_ready _) => apply keeps_once_ready
  | |- kept (blocking _) => apply keeps_blocking
  | |- kept (emit _) => apply keeps_emit
  | |- kept actualClose => apply keeps_actualClose; reflexivity
  | |- kept destroy => apply keeps_destroy; reflexivity
  | |- kept (release _ _ _) => apply (proj1 (engine _))
  | |- kept (_actualWrite _) => apply (proj1 (proj2 (engine _)))
  | |- kept (actualWriteBuffer _) => apply (proj1 (proj2 (engine _)))
  | |- kept (reopen _ _) => apply (proj1 (proj2 (proj2 (engine _))))
  | |- kept (fileOpened _ _ _ _) =>
      apply (proj1 (proj2 (proj2 (proj2 (proj2 (engine _))))))
  | |- kept (end_ _) =>
      apply (proj1 (proj2 (proj2 (proj2 (proj2 (proj2 (engine _)))))))
  | |- kept (emit_ready _) =>
      apply (proj1 (proj2 (proj2 (proj2 (proj2 (proj2 (proj2 (engine _))))))))
  | |- kept (upd _) =>
      apply keeps_upd; let s := fresh "s" in intros s; repeat split; reflexivity
  | |- kept (bind this _) => apply keeps_this; intros ?
  | |- kept (bind _ _) => apply keeps_bind; [ | intros ?]
  | |- kept (when _ _) => apply keeps_when
  | |- kept (if ?c then _ else _) => destruct c
  | |- kept (match ?x with _ => _ end) => destruct x
  end.

Lemma kept_newListener name : kept (newListener name).
Proof. unfold newListener. repeat kept_step. Qed.

Lemma kept_on_drain : kept on_drain.
Proof.
  unfold on_drain. apply keeps_bind; [apply kept_newListener | intros _].
  apply keeps_same_self. reflexivity.
Qed.

Lemma kept_on_error : kept on_error.
Proof.
  unfold on_error. apply keeps_bind; [apply kept_newListener | intros _].
  apply keeps_same_self. reflexivity.
Qed.

Lemma kept_callFlushCallbackOnDrain cb : kept (callFlushCallbackOnDrain cb).
Proof.
  unfold callFlushCallbackOnDrain. apply keeps_bind; [apply kept_newListener | intros _].
  apply keeps_same_self. reflexivity.
Qed.

Lemma kept_emitDrain : kept emitDrain.
Proof.
  assert (H : kept (upd (set_asyncDrainScheduled false) ;; emit EvDrain))
    by (repeat kept_step).
  intros w Hst. unfold emitDrain. cbv zeta.
  destruct (negb (negb (Nat.eqb (listenerCount_drain w) 0)));
    [exact Hst | exact (H w Hst)].
Qed.

Lemma kept_done err : kept (done err).
Proof. unfold done. repeat kept_step. Qed.

Lemma kept_closeWrapped : kept closeWrapped.
Proof. unfold closeWrapped. repeat (first [ apply kept_done | kept_step ]). Qed.

Lemma kept_run fuel t r : kept (run fuel t r).
Proof.
  unfold run. destruct t;
    repeat (first [ apply keeps_fsWrite | apply kept_closeWrapped | apply kept_done
                  | apply kept_emitDrain | kept_step ]).
  intros w Hst. destruct (negb (Nat.eqb (listenerCount_error w) 0));
    [apply keeps_emit; exact Hst | exact Hst].
Qed.

Lemma kept_complete fuel i r : kept (complete fuel i r).
Proof.
  intros w Hst. unfold complete.
  destruct (nth_error (tasks w) i) as [t | ]; [ | exact Hst].
  apply (kept_run fuel t r (with_tasks (remove_nth i (tasks w)) w)). exact Hst.
Qed.

Lemma kept_writeBuffer fuel data : kept (writeBuffer fuel data).
Proof.
  intros w Hst. pose proof Hst as [Hq Hcfg].
  destruct (destroyed (self w)) eqn:Hlive.
  - unfold writeBuffer, bind, this. cbv beta iota. rewrite Hlive. exact Hst.
  - destruct (negb (maxLength (self w) =? 0)
              && (_len (self w) + len data >? maxLength (self w))) eqn:Hguard.
    + unfold writeBuffer. unfold bind at 1. unfold this at 1. cbv beta iota.
      rewrite Hlive, Hguard.
      assert (H : kept (emit (EvDrop data) ;; s <- this ;; ret (_len s <? _hwm s)))
        by (repeat kept_step).
      exact (H w Hst).
    + rewrite (writeBuffer_accepts fuel w data Hlive (accept_guard_inv _ _ Hguard) Hq).
      cbv zeta.
      apply (keeps_dispatch_and_answer (cfg := cfg) eq_refl lens_in_step_next).
      split; [reflexivity | exact Hcfg].
Qed.

Lemma kept_flushBuffer fuel cb : kept (flushBuffer fuel cb).
Proof.
  assert (Hpush : kept (upd (set_bufs [[]]) ;; upd (set_lens [0]))).
  { intros w [_ Hcfg]. split; [reflexivity | exact Hcfg]. }
  unfold flushBuffer. destruct cb;
    repeat (first [ apply kept_callFlushCallbackOnDrain | exact Hpush | kept_step ]).
Qed.

Lemma kept_exec fuel (o : op Buffer) :
  o <> OpFlushSync -> kept (exec_bytes fuel o).
Proof.
  intros Ho. unfold exec_bytes. destruct o; cbn [exec];
    repeat (first [ apply kept_writeBuffer | apply kept_flushBuffer | apply kept_on_drain
                  | apply kept_on_error | apply kept_complete | kept_step ]).
  exfalso. apply Ho. reflexivity.
Qed.

End Alignment.

(** X4. Buffer mode: however a program uses the writer -- [write],
    [flush], [reopen], [end], [destroy], listeners, callbacks with any
    answers -- as long as it does not call [flushSync], [_lens] holds the
    byte size of each chunk of [_bufs], chunk for chunk. *)
Theorem lens_follows_bufs :
  forall fuel ops (w w' : world Buffer (list Buffer)),
    Forall (fun o => o <> OpFlushSync) ops ->
    aligned (self w) ->
    run_ops (exec_bytes fuel) ops w = Some w' ->
    aligned (self w').
Proof.
  intros fuel ops. induction ops as [ | o rest IH]; intros w w' Hops Hal Hrun.
  - injection Hrun as <-. exact Hal.
  - cbn [run_ops] in Hrun.
    destruct (final (exec_bytes fuel o w)) as [w1 | ] eqn:Hfin; [ | discriminate].
    apply (IH w1 w' (Forall_inv_tail Hops)); [ | exact Hrun].
    assert (Hst : stable lens_in_step (settings (self w)) (self w))
      by (split; [exact Hal | reflexivity]).
    exact (proj1 (keeps_final w (@kept_exec (settings (self w)) fuel o (Forall_inv Hops))
                    Hst Hfin)).
Qed.

(** Four buffers are enqueued on a deferred writer with [maxWrite] 4: the
    first is in flight, the second and third share a chunk, the fourth
    starts a new one. *)
Lemma lens_follows_bufs_witness :
  exists w w',
    bytes (on_stdout false false 0 0 4) [] = Returned tt w
    /\ run_ops (exec_bytes 8)
         [OpWrite (map octet [104; 105]); OpWrite (map octet [33]);
          OpWrite (map octet [63]); OpWrite (map octet [97; 98; 99; 100])] w = Some w'
    /\ _bufs (self w') = [[map octet [33]; map octet [63]]; [map octet [97; 98; 99; 100]]]
    /\ _lens (self w') = [2; 4]
    /\ aligned (self w').
Proof.
  eexists. eexists.
  split; [vm_compute; reflexivity | ].
  match goal with
  | |- run_ops _ ?P ?W = _ /\ _ =>
      split; [vm_compute; reflexivity | ];
      split; [reflexivity | ]; split; [reflexivity | ];
      apply (@lens_follows_bufs 8%nat P W)
  end.
  - repeat (apply Forall_cons; [discriminate | ]). apply Forall_nil.
  - reflexivity.
  - vm_compute. reflexivity.
Defined.
(** ** A destroyed writer *)

Section Destroyed.

Context {buf chunk : Type} {content : Content buf chunk}.

Lemma reopen_destroyed fuel newfile (w : world buf chunk) :
  destroyed (self w) = true ->
  reopen (S fuel) newfile w = Thrown SonicBoom_destroyed w.
Proof.
  intros Hd. cbn [reopen]. unfold reopen_body, bind, this. rewrite Hd. reflexivity.
Qed.

Lemma end_destroyed fuel (w : world buf chunk) :
  destroyed (self w) = true ->
  end_ (S fuel) w = Thrown SonicBoom_destroyed w.
Proof.
  intros Hd. cbn [end_]. unfold end_body, bind, this. rewrite Hd. reflexivity.
Qed.

End Destroyed.

Lemma write_destroyed fuel data (w : world jsstring jsstring) :
  destroyed (self w) = true ->
  write fuel data w = Thrown SonicBoom_destroyed w.
Proof. intros Hd. unfold write, bind, this. rewrite Hd. reflexivity. Qed.

Lemma writeBuffer_destroyed fuel data (w : world Buffer (list Buffer)) :
  destroyed (self w) = true ->
  writeBuffer fuel data w = Thrown SonicBoom_destroyed w.
Proof. intros Hd. unfold writeBuffer, bind, this. rewrite Hd. reflexivity. Qed.

Lemma flushSync_destroyed fuel (w : world jsstring jsstring) :
  destroyed (self w) = true ->
  flushSync fuel w = Thrown SonicBoom_destroyed w.
Proof. intros Hd. unfold flushSync, bind, this. rewrite Hd. reflexivity. Qed.

Lemma flushBufferSync_destroyed fuel (w : world Buffer (list Buffer)) :
  destroyed (self w) = true ->
  flushBufferSync fuel w = Thrown SonicBoom_destroyed w.
Proof. intros Hd. unfold flushBufferSync, bind, this. rewrite Hd. reflexivity. Qed.

(** X5. Once a writer is destroyed, it stays unusable: after any further
    program (calls, listeners, callbacks with any answers), [write],
    [flushSync], [reopen] and [end] all throw "SonicBoom destroyed" and leave
    everything as it is.  In both content modes. *)
Theorem destroyed_writer_refuses_for_good :
  (forall fuel ops data newfile (w w' : world jsstring jsstring),
      destroyed (self w) = true ->
      run_ops (exec_text fuel) ops w = Some w' ->
      write fuel data w' = Thrown SonicBoom_destroyed w'
      /\ flushSync fuel w' = Thrown SonicBoom_destroyed w'
      /\ reopen (S fuel) newfile w' = Thrown SonicBoom_destroyed w'
      /\ end_ (S fuel) w' = Thrown SonicBoom_destroyed w')
  /\ (forall fuel ops data newfile (w w' : world Buffer (list Buffer)),
         destroyed (self w) = true ->
         run_ops (exec_bytes fuel) ops w = Some w' ->
         writeBuffer fuel data w' = Thrown SonicBoom_destroyed w'
         /\ flushBufferSync fuel w' = Thrown SonicBoom_destroyed w'
         /\ reopen (S fuel) newfile w' = Thrown SonicBoom_destroyed w'
         /\ end_ (S fuel) w' = Thrown SonicBoom_destroyed w').
Proof.
  split; intros fuel ops data newfile w w' Hd Hrun.
  - assert (Hd' : destroyed (self w') = true).
    { destruct (moves_run_ops (exec_text fuel) (moves_exec_text fuel) ops w Hrun)
        as (_ & _ & H & _). exact (H Hd). }
    repeat split;
      [apply write_destroyed | apply flushSync_destroyed
       | apply reopen_destroyed | apply end_destroyed]; exact Hd'.
  - assert (Hd' : destroyed (self w') = true).
    { destruct (moves_run_ops (exec_bytes fuel) (moves_exec_bytes fuel) ops w Hrun)
        as (_ & _ & H & _). exact (H Hd). }
    repeat split;
      [apply writeBuffer_destroyed | apply flushBufferSync_destroyed
       | apply reopen_destroyed | apply end_destroyed]; exact Hd'.
Qed.

(** A destroyed writer whose close sequence then runs, with a listener
    attached in between. *)
Lemma destroyed_writer_refuses_for_good_witness :
  (exists w w',
      destroyed_text = Returned tt w
      /\ run_ops (exec_text 8) [OpCallback 0 (Done 0); OpOnDrain; OpCallback 0 (Done 0)] w
         = Some w'
      /\ write 8 [97] w' = Thrown SonicBoom_destroyed w'
      /\ flushSync 8 w' = Thrown SonicBoom_destroyed w'
      /\ reopen 9 None w' = Thrown SonicBoom_destroyed w'
      /\ end_ 9 w' = Thrown SonicBoom_destroyed w')
  /\ (exists w w',
         destroyed_bytes = Returned tt w
         /\ run_ops (exec_bytes 8) [OpCallback 1 (Done 0); OpFlush Nullish] w = Some w'
         /\ writeBuffer 8 [Byte.x61] w' = Thrown SonicBoom_destroyed w'
         /\ flushBufferSync 8 w' = Thrown SonicBoom_destroyed w'
         /\ reopen 9 None w' = Thrown SonicBoom_destroyed w'
         /\ end_ 9 w' = Thrown SonicBoom_destroyed w').
Proof.
  split; eexists; eexists; (split; [vm_compute; reflexivity | ]).
  - match goal with
    | |- run_ops _ ?P ?W = _ /\ _ =>
        split; [vm_compute; reflexivity | ];
        apply (proj1 destroyed_writer_refuses_for_good 8%nat P [97] None W)
    end; [reflexivity | vm_compute; reflexivity].
  - match goal with
    | |- run_ops _ ?P ?W = _ /\ _ =>
        split; [vm_compute; reflexivity | ];
        apply (proj2 destroyed_writer_refuses_for_good 8%nat P [Byte.x61] None W)
    end; [reflexivity | vm_compute; reflexivity].
Defined.

(** ** The constructor *)

Section Constructor.

Context {buf chunk : Type} {content : Content buf chunk}.

(** X6. The constructor takes its destination from [fd || dest], so a
    descriptor 0 given as [fd] counts as missing.  With no destination it
    throws "SonicBoom supports only file descriptors and files".  With a
    descriptor [n] it makes no system call; it throws when [minLength]
    (default 0) is not below [maxWrite] (default 16384, also for 0), and
    otherwise returns an idle, empty writer on [n] with the ['ready'] tick
    scheduled, [minLength < maxWrite] and [_hwm] the larger of [minLength]
    and 16387. *)
Theorem constructor_checks_destination_and_thresholds :
  forall fuel opts answers,
    let destination := if dest_truthy (o_fd opts) then o_fd opts else o_dest opts in
    (o_fd opts = Some (Num 0) -> destination = o_dest opts)
    /\ (destination = None ->
        exists w : world buf chunk,
          SonicBoom fuel opts answers
          = Thrown (Error "SonicBoom supports only file descriptors and files") w)
    /\ (forall n,
           destination = Some (Num n) ->
           (num_or (o_maxWrite opts) MAX_WRITE <= num_or (o_minLength opts) 0 ->
            exists e (w : world buf chunk),
              SonicBoom fuel opts answers = Thrown e w
              /\ trace w = [] /\ replies w = answers)
           /\ (num_or (o_minLength opts) 0 < num_or (o_maxWrite opts) MAX_WRITE ->
               exists w : world buf chunk,
                 SonicBoom fuel opts answers = Returned tt w
                 /\ fd (self w) = n /\ file (self w) = None
                 /\ _len (self w) = 0 /\ _bufs (self w) = [] /\ _lens (self w) = []
                 /\ _writing (self w) = false /\ destroyed (self w) = false
                 /\ tasks w = [tick_ready] /\ trace w = [] /\ replies w = answers
                 /\ minLength (self w) < maxWrite (self w)
                 /\ _hwm (self w) = Z.max (minLength (self w)) 16387)).
Proof.
  intros fuel opts answers destination.
  split; [intros H0; unfold destination; rewrite H0; reflexivity | ].
  split.
  - intros Hnone. unfold SonicBoom. fold destination. rewrite Hnone.
    eexists. reflexivity.
  - intros n Hnum. unfold SonicBoom. fold destination. rewrite Hnum.
    unfold bind, upd, schedule, this, when. cbn.
    change 16384 with MAX_WRITE.
    split; intros Hcmp.
    + destruct (Z.geb_spec (num_or (o_minLength opts) 0) (num_or (o_maxWrite opts) MAX_WRITE))
        as [_ | Hlt]; [ | lia].
      eexists. eexists. split; [reflexivity | split; reflexivity].
    + destruct (Z.geb_spec (num_or (o_minLength opts) 0) (num_or (o_maxWrite opts) MAX_WRITE))
        as [Hge | _]; [lia | ].
      eexists. split; [reflexivity | ].
      cbn. repeat split; try reflexivity. exact Hcmp.
Qed.

End Constructor.

(** [{ fd: 0 }] is refused; [{ fd: 1, minLength: 5, maxWrite: 4 }] is
    refused; [{ fd: 1, minLength: 5, maxWrite: 0 }] gets the default
    [maxWrite] and is accepted. *)
Lemma constructor_checks_destination_and_thresholds_witness :
  (exists w : world jsstring jsstring,
      SonicBoom 8 on_stdin []
      = Thrown (Error "SonicBoom supports only file descriptors and files") w)
  /\ (exists e (w : world jsstring jsstring),
         SonicBoom 8 (on_stdout false false 5 0 4) [] = Thrown e w
         /\ trace w = [] /\ replies w = [])
  /\ (exists w : world Buffer (list Buffer),
         SonicBoom 8 (on_stdout false false 5 0 0) [] = Returned tt w
         /\ fd (self w) = 1 /\ file (self w) = None
         /\ _len (self w) = 0 /\ _bufs (self w) = [] /\ _lens (self w) = []
         /\ _writing (self w) = false /\ destroyed (self w) = false
         /\ tasks w = [tick_ready] /\ trace w = [] /\ replies w = []
         /\ minLength (self w) < maxWrite (self w)
         /\ _hwm (self w) = Z.max (minLength (self w)) 16387).
Proof.
  split; [ | split].
  - apply (proj1 (proj2 (constructor_checks_destination_and_thresholds
                           (content := Utf8) 8 on_stdin []))).
    reflexivity.
  - apply (proj1 (proj2 (proj2 (constructor_checks_destination_and_thresholds
                                  (content := Utf8) 8 (on_stdout false false 5 0 4) []))
                    1 eq_refl)).
    vm_compute. discriminate.
  - apply (proj2 (proj2 (proj2 (constructor_checks_destination_and_thresholds
                                  (content := Raw) 8 (on_stdout false false 5 0 0) []))
                    1 eq_refl)).
    vm_compute. reflexivity.
Defined.
(** ** A writer on a descriptor stays on it *)

Ltac open_world :=
  unfold bound_to, upd, log, schedule, once_ready, with_self, with_trace, with_tasks,
    with_ready_once, with_replies, with_drain_once, with_error_once,
    with_drain_listeners, with_fresh in *;
  cbn [self tasks trace ready_once replies drain_once error_once] in *.

Section StaysOnDescriptor.

Context {buf chunk : Type} {content : Content buf chunk}.

Variable n : Z.

Local Abbreviation bound := (@bound_to buf chunk n).
Local Abbreviation stays := (@stays buf chunk n _).

Lemma stays_ret {A} (a : A) : stays (ret a).
Proof. intros w H. exact H. Qed.

Lemma stays_throw {A} e : stays (throw (A := A) e).
Proof. intros w H. exact H. Qed.

Lemma stays_out_of_fuel {A} : stays (out_of_fuel (A := A)).
Proof. intros w H. exact I. Qed.

Lemma stays_bind {A B} (m : Js buf chunk A) (k : A -> Js buf chunk B) :
  stays m -> (forall a, stays (k a)) -> stays (bind m k).
Proof.
  intros Hm Hk w H. unfold bind. specialize (Hm w H).
  destruct (m w) as [a w1 | e w1 | | ]; try exact Hm; try exact I.
  apply Hk. exact Hm.
Qed.

(** What was read from a writer on [n]. *)
Lemma stays_this {B} (k : sonic buf chunk -> Js buf chunk B) :
  (forall s, fd s = n -> file s = None -> _opening s = false -> stays (k s)) ->
  stays (bind this k).
Proof.
  intros Hk w H. pose proof H as (Hfd & Hfile & Hop & _).
  exact (Hk (self w) Hfd Hfile Hop w H).
Qed.

Lemma stays_try_catch {A} (m : Js buf chunk A) h :
  stays m -> (forall e, stays (h e)) -> stays (try_catch m h).
Proof.
  intros Hm Hh w H. unfold try_catch. specialize (Hm w H).
  destruct (m w) as [a w1 | e w1 | | ]; try exact Hm.
  apply Hh. exact Hm.
Qed.

Lemma stays_attempt {A} (m : Js buf chunk A) : stays m -> stays (attempt m).
Proof.
  intros Hm w H. unfold attempt. specialize (Hm w H).
  destruct (m w); exact Hm.
Qed.

Lemma stays_when c (m : Js buf chunk unit) : stays m -> stays (when c m).
Proof. intros Hm. destruct c; [exact Hm | apply stays_ret]. Qed.

Lemma stays_for_each {A} (f : A -> Js buf chunk unit) l :
  (forall a, stays (f a)) -> stays (for_each f l).
Proof.
  intros Hf. induction l as [ | a l IH]; simpl.
  - apply stays_ret.
  - apply stays_bind; [apply Hf | intros _; exact IH].
Qed.

(** An assignment to a field other than [fd], [file] and [_opening]. *)
Lemma stays_upd f :
  (forall s : sonic buf chunk,
      fd (f s) = fd s /\ file (f s) = file s /\ _opening (f s) = _opening s) ->
  stays (upd f).
Proof.
  intros Hf w (Hfd & Hfile & Hop & Ht & Htr & Hl).
  destruct (Hf (self w)) as (H1 & H2 & H3).
  open_world. repeat split; try congruence; assumption.
Qed.

Lemma stays_log o : obs_on n o -> stays (log o).
Proof.
  intros Ho w (Hfd & Hfile & Hop & Ht & Htr & Hl). open_world.
  repeat split; try assumption.
  apply Forall_app. split; [exact Htr | constructor; [exact Ho | constructor]].
Qed.

Lemma stays_schedule t : task_on n t -> stays (schedule t).
Proof.
  intros Ho w (Hfd & Hfile & Hop & Ht & Htr & Hl). open_world.
  repeat split; try assumption.
  apply Forall_app. split; [exact Ht | constructor; [exact Ho | constructor]].
Qed.

Lemma stays_once_ready l : listener_on l -> stays (once_ready l).
Proof.
  intros Ho w (Hfd & Hfile & Hop & Ht & Htr & Hl). open_world.
  repeat split; try assumption.
  apply Forall_app. split; [exact Hl | constructor; [exact Ho | constructor]].
Qed.

Lemma stays_blocking c : (forall r, obs_on n (c r)) -> stays (blocking c).
Proof.
  intros Ho w (Hfd & Hfile & Hop & Ht & Htr & Hl). unfold blocking.
  destruct (replies w) as [ | r rest]; [exact I | ].
  assert (H : bound (with_trace (trace w ++ [c r]) (with_replies rest w))).
  { open_world. repeat split; try assumption.
    apply Forall_app. split; [exact Htr | constructor; [apply Ho | constructor]]. }
  destruct r; exact H.
Qed.

(** A step that changes nothing the property reads. *)
Lemma stays_aside {A} (m : Js buf chunk A) :
  (forall w, match m w with
             | Returned _ w' =>
                 self w' = self w /\ tasks w' = tasks w /\ trace w' = trace w
                 /\ ready_once w' = ready_once w
             | Thrown _ w' =>
                 self w' = self w /\ tasks w' = tasks w /\ trace w' = trace w
                 /\ ready_once w' = ready_once w
             | _ => True
             end) ->
  stays m.
Proof.
  intros Hm w H. specialize (Hm w). unfold bound_to in *.
  destruct (m w) as [a w' | e w' | | ]; try exact I;
    destruct Hm as (-> & -> & -> & ->); exact H.
Qed.

End StaysOnDescriptor.

Ltac stays_side :=
  cbn; first [ exact I | assumption | reflexivity
             | (repeat split; first [assumption | reflexivity]) ].

Ltac stays_step :=
  match goal with
  | H : stays _ ?m |- stays _ ?m => exact H
  | H : forall x, stays _ _ |- stays _ _ => apply H
  | H : forall x y, stays _ _ |- stays _ _ => apply H
  | |- stays _ (ret _) => apply stays_ret
  | |- stays _ (throw _) => apply stays_throw
  | |- stays _ out_of_fuel => apply stays_out_of_fuel
  | |- stays _ (log _) => apply stays_log; stays_side
  | |- stays _ (sleep _) => apply stays_log; stays_side
  | |- stays _ (call _ _) => apply stays_log; stays_side
  | |- stays _ (schedule _) => apply stays_schedule; stays_side
  | |- stays _ (once_ready _) => apply stays_once_ready; stays_side
  | |- stays _ (blocking _) => apply stays_blocking; intros ?; stays_side
  | |- stays _ (upd _) =>
      apply stays_upd; let s := fresh "s" in intros s; repeat split; reflexivity
  | |- stays _ (bind this _) => apply stays_this; intros ? ? ? ?
  | |- stays _ (bind _ _) => apply stays_bind; [ | intros ?]
  | |- stays _ (when _ _) => apply stays_when
  | |- stays _ (try_catch _ _) => apply stays_try_catch; [ | intros ?]
  | |- stays _ (attempt _) => apply stays_attempt
  | |- stays _ (if ?c then _ else _) => destruct c
  | |- stays _ (match ?x with _ => _ end) => destruct x
  end.

Section EngineOnDescriptor.

Context {buf chunk : Type} {content : Content buf chunk}.

Variable n : Z.

Local Abbreviation stays := (@stays buf chunk n _).

Lemma stays_fsWriteSync : stays fsWriteSync.
Proof. unfold fsWriteSync. repeat stays_step. Qed.

Lemma stays_fsWrite : stays fsWrite.
Proof. unfold fsWrite. repeat stays_step. Qed.

Lemma stays_fsyncSync : stays fsyncSync.
Proof. unfold fsyncSync. repeat stays_step. Qed.

Lemma stays_emit ev : stays (emit ev).
Proof.
  destruct ev; try (apply stays_log; exact I).
  - (* 'error' *)
    intros w H. unfold emit.
    destruct (Nat.eqb (listenerCount_error w) 0); [exact H | ].
    refine (@stays_bind _ _ _ _ _ (log _) _ _ _ (with_error_once [] w) H).
    + apply stays_log. exact I.
    + intros _. apply stays_for_each. intros l. unfold onError.
      repeat stays_step. apply stays_aside. intros w'. repeat split; reflexivity.
  - (* 'drain' *)
    intros w H. unfold emit.
    refine (@stays_bind _ _ _ _ _ (log _) _ _ _ (with_drain_once [] w) H).
    + apply stays_log. exact I.
    + intros _. apply stays_for_each. intros l. unfold onDrain.
      repeat stays_step; apply stays_aside; intros w'; repeat split; reflexivity.
Qed.

Lemma stays_actualClose : stays actualClose.
Proof. unfold actualClose. repeat stays_step. Qed.

Lemma stays_destroy : stays destroy.
Proof. unfold destroy. repeat stays_step. apply stays_actualClose. Qed.

Lemma stays_release_loop fuel : stays (release_loop fuel).
Proof.
  induction fuel as [ | f IH]; simpl; repeat stays_step.
  apply stays_fsWriteSync.
Qed.

Lemma stays_engine :
  forall fuel,
    (forall err k, stays (release fuel err k))
    /\ stays (_actualWrite fuel)
    /\ (forall newfile, stays (reopen fuel newfile))
    /\ stays (end_ fuel)
    /\ stays (emit_ready fuel)
    /\ (forall ls, Forall listener_on ls -> stays (run_ready fuel ls)).
Proof.
  induction fuel as [ | f (IHrelease & IHwrite & IHreopen & IHend & IHready & IHrun)].
  - repeat split; intros; apply stays_out_of_fuel.
  - repeat split.
    + (* release *)
      intros err k. rewrite release_S. unfold release_body, release_completed.
      destruct err as [err | ].
      * repeat (first [ apply stays_emit | stays_step ]).
      * repeat (first [ apply stays_emit | apply stays_fsWrite
                      | apply stays_fsyncSync | apply stays_release_loop
                      | apply stays_actualClose | stays_step ]).
    + (* _actualWrite *)
      rewrite _actualWrite_S. unfold _actualWrite_body.
      apply stays_bind; [stays_step | intros _].
      apply stays_this. intros s Hfd Hfile Hop.
      destruct (next_chunk (_writingBuf s) (_bufs s) (_lens s)) as [[picked bufs'] lens'].
      repeat (first [ apply stays_fsWriteSync | apply stays_fsWrite | stays_step ]).
    + (* reopen: the writer has no path of its own *)
      intros newfile. cbn [reopen]. unfold reopen_body.
      apply stays_this. intros s Hfd Hfile Hop. rewrite Hfile, Hop. cbn [truthy negb].
      repeat stays_step.
    + (* end *)
      cbn [end_]. unfold end_body.
      repeat (first [ apply stays_actualClose | stays_step ]).
    + (* emit('ready') *)
      rewrite emit_ready_S. unfold emit_ready_body.
      apply stays_bind; [apply stays_log; exact I | intros _].
      intros w H. pose proof H as (Hfd & Hfile & Hop & Ht & Htr & Hl).
      apply (IHrun (ready_once w) Hl (with_ready_once [] w)).
      open_world. repeat split; try assumption. constructor.
    + (* the listeners of 'ready' *)
      intros ls Hls. rewrite run_ready_S. unfold run_ready_body.
      destruct ls as [ | l rest]; [apply stays_ret | ].
      pose proof (Forall_inv Hls) as Hl. pose proof (Forall_inv_tail Hls) as Hrest.
      apply stays_bind; [ | intros _; apply IHrun; exact Hrest].
      destruct l; try contradiction;
        repeat (first [ apply stays_actualClose | stays_step ]).
Qed.

Lemma stays_done err : stays (done err).
Proof. unfold done. repeat (first [ apply stays_emit | stays_step ]). Qed.

(** [closeWrapped] hands [fs.close] to the runtime only for a descriptor
    that is neither 1 nor 2. *)
Lemma stays_closeWrapped : stays closeWrapped.
Proof.
  unfold closeWrapped. apply stays_this. intros s Hfd Hfile Hop.
  destruct (fd s =? 1) eqn:E1; cbn [negb andb]; [apply stays_done | ].
  destruct (fd s =? 2) eqn:E2; cbn [negb andb]; [apply stays_done | ].
  apply Z.eqb_neq in E1, E2.
  apply stays_schedule. cbn. repeat split; congruence.
Qed.

Lemma stays_emitDrain : stays emitDrain.
Proof.
  assert (H : stays (upd (set_asyncDrainScheduled false) ;; emit EvDrain))
    by (repeat (first [ apply stays_emit | stays_step ])).
  intros w Hb. unfold emitDrain. cbv zeta.
  destruct (negb (negb (Nat.eqb (listenerCount_drain w) 0)));
    [exact Hb | exact (H w Hb)].
Qed.

Lemma stays_newListener name : stays (newListener name).
Proof. unfold newListener. repeat stays_step. Qed.

Lemma stays_callFlushCallbackOnDrain cb : stays (callFlushCallbackOnDrain cb).
Proof.
  unfold callFlushCallbackOnDrain.
  apply stays_bind; [apply stays_newListener | intros _].
  apply stays_aside. intros w. repeat split; reflexivity.
Qed.

Lemma stays_on_drain : stays on_drain.
Proof.
  unfold on_drain. apply stays_bind; [apply stays_newListener | intros _].
  apply stays_aside. intros w. repeat split; reflexivity.
Qed.

Lemma stays_on_error : stays on_error.
Proof.
  unfold on_error. apply stays_bind; [apply stays_newListener | intros _].
  apply stays_aside. intros w. repeat split; reflexivity.
Qed.

Lemma stays_run fuel t r : task_on n t -> stays (run fuel t r).
Proof.
  destruct (stays_engine fuel) as (Hrelease & Hwrite & Hreopen & Hend & Hready & Hrun).
  intros Ht. unfold run. destruct t; cbn in Ht; try contradiction.
  - (* fs.write comes back *)
    apply stays_bind; [apply stays_log; exact Ht | intros _].
    destruct r; apply Hrelease.
  - apply stays_fsWrite.
  - apply stays_bind; [apply stays_log; exact Ht | intros _]. apply stays_closeWrapped.
  - apply stays_bind; [apply stays_log; exact Ht | intros _]. apply stays_done.
  - apply stays_bind; [apply stays_log; exact Ht | intros _]. apply stays_log. exact I.
  - exact Hready.
  - apply stays_emitDrain.
  - intros w Hb. destruct (negb (Nat.eqb (listenerCount_error w) 0));
      [apply stays_emit; exact Hb | exact Hb].
Qed.

Lemma Forall_remove_nth {A} (P : A -> Prop) i (l : list A) :
  Forall P l -> Forall P (remove_nth i l).
Proof.
  intros H. revert i. induction H as [ | a l Ha Hl IH]; intros [ | i]; cbn;
    try constructor; auto.
Qed.

Lemma stays_complete fuel i r : stays (complete fuel i r).
Proof.
  intros w Hb. unfold complete.
  destruct (nth_error (tasks w) i) as [t | ] eqn:Hnth; [ | exact Hb].
  pose proof Hb as (Hfd & Hfile & Hop & Ht & Htr & Hl).
  assert (Hon : task_on n t).
  { rewrite Forall_forall in Ht. apply Ht. exact (nth_error_In _ _ Hnth). }
  apply (stays_run fuel t r Hon). open_world. repeat split; try assumption.
  apply Forall_remove_nth. exact Ht.
Qed.

Lemma stays_exec write_ flush_ flushSync_ fuel (o : op buf) :
  (forall data, stays (write_ data)) -> (forall cb, stays (flush_ cb)) ->
  stays flushSync_ ->
  stays (exec write_ flush_ flushSync_ fuel o).
Proof.
  intros Hw Hf Hs.
  destruct (stays_engine fuel) as (Hrelease & Hwrite & Hreopen & Hend & Hready & Hrun).
  destruct o; cbn [exec];
    repeat (first [ apply stays_destroy | apply stays_on_drain | apply stays_on_error
                  | apply stays_complete | stays_step ]).
Qed.

End EngineOnDescriptor.
Section InterfaceOnDescriptor.

Variable n : Z.

Lemma stays_write fuel data : stays n (write fuel data).
Proof.
  unfold write, actualWrite.
  repeat (first [ apply stays_emit
                | apply (proj1 (proj2 (stays_engine (content := Utf8) n fuel)))
                | stays_step ]).
Qed.

Lemma stays_writeBuffer fuel data : stays n (writeBuffer fuel data).
Proof.
  unfold writeBuffer, actualWriteBuffer.
  repeat (first [ apply stays_emit
                | apply (proj1 (proj2 (stays_engine (content := Raw) n fuel)))
                | stays_step ]).
Qed.

Lemma stays_flush fuel cb : stays n (flush fuel cb).
Proof.
  unfold flush, actualWrite.
  destruct cb;
    repeat (first [ apply stays_callFlushCallbackOnDrain
                  | apply (proj1 (proj2 (stays_engine (content := Utf8) n fuel)))
                  | stays_step ]).
Qed.

Lemma stays_flushBuffer fuel cb : stays n (flushBuffer fuel cb).
Proof.
  unfold flushBuffer, actualWriteBuffer.
  destruct cb;
    repeat (first [ apply stays_callFlushCallbackOnDrain
                  | apply (proj1 (proj2 (stays_engine (content := Raw) n fuel)))
                  | stays_step ]).
Qed.

Lemma stays_flushSync_loop fuel : forall buf, stays n (flushSync_loop fuel buf).
Proof. induction fuel as [ | f IH]; intros buf; cbn [flushSync_loop]; repeat stays_step. Qed.

Lemma stays_flushSync fuel : stays n (flushSync fuel).
Proof. unfold flushSync. repeat (first [ apply stays_flushSync_loop | stays_step ]). Qed.

Lemma stays_flushBufferSync_loop fuel : forall buf, stays n (flushBufferSync_loop fuel buf).
Proof.
  induction fuel as [ | f IH]; intros buf; cbn [flushBufferSync_loop]; repeat stays_step.
Qed.

Lemma stays_flushBufferSync fuel : stays n (flushBufferSync fuel).
Proof.
  unfold flushBufferSync. repeat (first [ apply stays_flushBufferSync_loop | stays_step ]).
Qed.

Lemma stays_exec_text fuel o : stays n (exec_text fuel o).
Proof.
  apply stays_exec; [apply stays_write | apply stays_flush | apply stays_flushSync].
Qed.

Lemma stays_exec_bytes fuel o : stays n (exec_bytes fuel o).
Proof.
  apply stays_exec;
    [apply stays_writeBuffer | apply stays_flushBuffer | apply stays_flushBufferSync].
Qed.

Lemma stays_run_ops {buf chunk A} (step_ : A -> Js buf chunk unit) :
  (forall o, stays n (step_ o)) ->
  forall ops w w', bound_to n w -> run_ops step_ ops w = Some w' -> bound_to n w'.
Proof.
  intros Hstep. induction ops as [ | o rest IH]; intros w w' Hb Hrun.
  - injection Hrun as <-. exact Hb.
  - cbn [run_ops] in Hrun. specialize (Hstep o w Hb).
    destruct (step_ o w) as [a w1 | e w1 | | ]; cbn [final] in Hrun;
      try discriminate; exact (IH _ _ Hstep Hrun).
Qed.

Lemma SonicBoom_bound {buf chunk} {content : Content buf chunk}
      fuel opts answers (w0 : world buf chunk) :
  (if dest_truthy (o_fd opts) then o_fd opts else o_dest opts) = Some (Num n) ->
  SonicBoom fuel opts answers = Returned tt w0 ->
  bound_to n w0.
Proof.
  intros Hdest. unfold SonicBoom. rewrite Hdest.
  unfold bind, upd, schedule, this, when. cbn.
  match goal with
  | |- (if ?c then _ else _) _ = _ -> _ => destruct c
  end; [discriminate | ].
  intros H. injection H as <-.
  unfold bound_to. cbn. repeat split; repeat constructor.
Qed.

End InterfaceOnDescriptor.

(** X7. A writer constructed on a descriptor [n] stays on it, whatever the
    program does afterwards (any calls, listeners and callbacks with any
    answers, [reopen] included): [fd] is [n] and the writer has no path;
    every write and fsync it makes or has pending is on [n]; it never opens
    a file or makes a directory; and it closes [n] only if [n] is neither 1
    nor 2.  In both content modes. *)
Theorem writer_on_descriptor_stays_on_it :
  (forall fuel opts answers n ops (w0 w : world jsstring jsstring),
      (if dest_truthy (o_fd opts) then o_fd opts else o_dest opts) = Some (Num n) ->
      SonicBoom fuel opts answers = Returned tt w0 ->
      run_ops (exec_text fuel) ops w0 = Some w ->
      bound_to n w)
  /\ (forall fuel opts answers n ops (w0 w : world Buffer (list Buffer)),
         (if dest_truthy (o_fd opts) then o_fd opts else o_dest opts) = Some (Num n) ->
         SonicBoom fuel opts answers = Returned tt w0 ->
         run_ops (exec_bytes fuel) ops w0 = Some w ->
         bound_to n w).
Proof.
  split; intros fuel opts answers n ops w0 w Hdest Hnew Hrun.
  - eapply stays_run_ops;
      [intros o; apply stays_exec_text | eapply SonicBoom_bound; eassumption | exact Hrun].
  - eapply stays_run_ops;
      [intros o; apply stays_exec_bytes | eapply SonicBoom_bound; eassumption | exact Hrun].
Qed.

(** On descriptor 1: a write, a [reopen] that is refused, [end], and the
    close sequence, which stops after [fs.fsync]. *)
Lemma writer_on_descriptor_stays_on_it_witness :
  (exists w0 w,
      text (on_stdout false false 0 0 0) [] = Returned tt w0
      /\ run_ops (exec_text 8) sample_program_on_stdout w0 = Some w
      /\ trace w = [SysWrite 1 [104; 105] (Done 2); Emit (EvWrite 2); Emit EvDrain;
                    SysFsync 1 (Done 0); Emit EvFinish; Emit EvClose]
      /\ tasks w = [tick_ready]
      /\ bound_to 1 w)
  /\ (exists w0 w,
         bytes (on_stdout true false 0 0 0) [Done 1; Done 0] = Returned tt w0
         /\ run_ops (exec_bytes 8) sample_program_on_stdout_bytes w0 = Some w
         /\ destroyed (self w) = true
         /\ bound_to 1 w).
Proof.
  split; eexists; eexists; (split; [vm_compute; reflexivity | ]).
  - split; [vm_compute; reflexivity | ].
    split; [reflexivity | ]. split; [reflexivity | ].
    eapply (proj1 writer_on_descriptor_stays_on_it 8%nat (on_stdout false false 0 0 0) []
              1 sample_program_on_stdout).
    + reflexivity.
    + vm_compute. reflexivity.
    + vm_compute. reflexivity.
  - split; [vm_compute; reflexivity | ].
    split; [reflexivity | ].
    eapply (proj2 writer_on_descriptor_stays_on_it 8%nat (on_stdout true false 0 0 0)
              [Done 1; Done 0] 1 sample_program_on_stdout_bytes).
    + reflexivity.
    + vm_compute. reflexivity.
    + vm_compute. reflexivity.
Defined.
(** ** [flushSync] *)

Lemma flushSync_loop_on_success :
  forall fuel (buf : jsstring) (w : world jsstring jsstring) n more,
    replies w = Done n :: more ->
    negb (len (_bufs (self w)) =? 0) || negb (len buf =? 0) = true ->
    let buf' := if len buf <=? 0 then hd [] (_bufs (self w)) else buf in
    flushSync_loop (S fuel) buf w
    = flushSync_loop fuel (js_slice buf' n) (flushSync_round buf' n more w).
Proof.
  intros fuel buf w n more Hr Hloop buf'.
  cbn [flushSync_loop]. unfold bind at 1. unfold this at 1. cbv beta iota.
  rewrite Hloop. fold buf'.
  unfold bind at 1. unfold attempt, bind at 1, blocking. rewrite Hr.
  cbv beta iota zeta. unfold flushSync_round. cbv zeta.
  unfold bind at 1. unfold upd at 1. cbv beta iota.
  unfold bind at 1. unfold when.
  destruct (len (js_slice buf' n) <=? 0); reflexivity.
Qed.

Lemma flushSync_loop_done :
  forall fuel (w : world jsstring jsstring),
    _bufs (self w) = [] -> flushSync_loop (S fuel) [] w = Returned tt w.
Proof.
  intros fuel w Hb. cbn [flushSync_loop]. unfold bind, this. rewrite Hb. reflexivity.
Qed.

Lemma len_pos_iff {A} (l : list A) : (len l <=? 0) = true <-> l = [].
Proof.
  unfold len. destruct l; simpl; split; intros H;
    try reflexivity; try discriminate.
Qed.

Lemma js_slice_nil_iff {A} (l : list A) n :
  0 <= n -> (js_slice l n = [] <-> len l <= n).
Proof.
  intros Hn. unfold js_slice, len.
  destruct (Z.ltb_spec n 0) as [Hneg | _]; [lia | ].
  split; intros H.
  - assert (Hlen : List.length (skipn (Z.to_nat n) l) = 0%nat) by (rewrite H; reflexivity).
    rewrite length_skipn in Hlen. lia.
  - apply skipn_all2. lia.
Qed.

Lemma utf8_one_byte_len (c : jsstring) : one_byte_text c -> len (utf8 c) = len c.
Proof.
  intros Hc. rewrite (utf8_ascii Hc). unfold len. rewrite length_map. reflexivity.
Qed.

Lemma one_byte_slice (c : jsstring) n :
  one_byte_text c -> 0 <= n -> one_byte_text (js_slice c n).
Proof. intros Hc Hn. exact (proj1 (text_slice_ok Hc Hn)). Qed.

(** When the loop of [flushSync] returns, it has handed over, in order, all
    that was left to write; partial writes and retries change nothing to
    that. *)
Lemma flushSync_loop_delivers :
  forall fuel (buf : jsstring) (w w' : world jsstring jsstring),
    one_byte_text buf -> Forall one_byte_text (_bufs (self w)) ->
    (buf = [] \/ _bufs (self w) <> []) ->
    Forall reply_ok (replies w) ->
    flushSync_loop fuel buf w = Returned tt w' ->
    delivered (trace w') = delivered (trace w) ++ flushSync_rest buf (_bufs (self w))
    /\ _bufs (self w') = []
    /\ _writingBuf (self w') = _writingBuf (self w).
Proof.
  induction fuel as [ | f IH]; intros buf w w' Hbuf Hbufs Hshape Hok Hrun;
    [discriminate Hrun | ].
  destruct (negb (len (_bufs (self w)) =? 0) || negb (len buf =? 0)) eqn:Hloop.
  - set (buf' := if len buf <=? 0 then hd [] (_bufs (self w)) else buf).
    assert (Hbuf' : one_byte_text buf').
    { unfold buf'. destruct (len buf <=? 0); [ | exact Hbuf].
      destruct (_bufs (self w)); [constructor | exact (Forall_inv Hbufs)]. }
    assert (Hrest : flushSync_rest buf (_bufs (self w))
                    = utf8 buf' ++ flats utf8 (tl (_bufs (self w)))).
    { unfold buf', flushSync_rest. destruct buf as [ | x buf0].
      - change (len [] <=? 0) with true. cbv iota.
        destruct (_bufs (self w)) as [ | c rest]; [reflexivity | ].
        unfold flats. reflexivity.
      - replace (len (x :: buf0) <=? 0) with false; [reflexivity | ].
        symmetry. apply Z.leb_gt. unfold len. cbn [List.length]. lia. }
    assert (Hne : _bufs (self w) <> []).
    { destruct Hshape as [-> | H]; [ | exact H].
      intros E. rewrite E in Hloop. discriminate. }
    destruct (replies w) as [ | [n | code] more] eqn:Hr.
    + (* no answer *)
      cbn [flushSync_loop] in Hrun. unfold bind at 1 in Hrun. unfold this at 1 in Hrun.
      cbv beta iota in Hrun. rewrite Hloop in Hrun.
      unfold bind at 1, attempt, bind at 1, blocking in Hrun. rewrite Hr in Hrun.
      discriminate.
    + (* the descriptor took [n] *)
      rewrite (flushSync_loop_on_success f buf w Hr Hloop) in Hrun. fold buf' in Hrun.
      pose proof (Forall_inv Hok) as Hn. cbn in Hn.
      pose proof (Forall_inv_tail Hok) as Hok'.
      set (w1 := flushSync_round buf' n more w) in *.
      assert (Hw1 : delivered (trace w1)
                    = delivered (trace w) ++ firstn (Z.to_nat n) (utf8 buf')
                    /\ replies w1 = more
                    /\ _writingBuf (self w1) = _writingBuf (self w)
                    /\ _bufs (self w1)
                       = if len (js_slice buf' n) <=? 0
                         then tl (_bufs (self w)) else _bufs (self w)).
      { unfold w1, flushSync_round. cbv zeta.
        destruct (len (js_slice buf' n) <=? 0); cbn;
          rewrite delivered_snoc; repeat split; reflexivity. }
      destruct Hw1 as (Hd1 & Hr1 & Hwb1 & Hb1).
      destruct (IH (js_slice buf' n) w1 w') as (Hd & Hb & Hwb).
      * apply one_byte_slice; assumption.
      * rewrite Hb1. destruct (len (js_slice buf' n) <=? 0); [ | exact Hbufs].
        destruct (_bufs (self w)); [constructor | exact (Forall_inv_tail Hbufs)].
      * rewrite Hb1. destruct (len (js_slice buf' n) <=? 0) eqn:E;
          [left; apply len_pos_iff; exact E | right; exact Hne].
      * rewrite Hr1. exact Hok'.
      * exact Hrun.
      * split; [ | split; [exact Hb | congruence]].
        rewrite Hd, Hd1, Hrest, Hb1, <- app_assoc. f_equal.
        destruct (len (js_slice buf' n) <=? 0) eqn:E.
        -- apply len_pos_iff in E. rewrite E. cbn [flushSync_rest].
           f_equal. apply firstn_all2.
           apply (js_slice_nil_iff buf' Hn) in E.
           rewrite <- (utf8_one_byte_len Hbuf') in E. unfold len in E. lia.
        -- unfold flushSync_rest.
           destruct (js_slice buf' n) as [ | y rest'] eqn:Es;
             [rewrite (proj2 (len_pos_iff (A := Z) [])) in E; [discriminate | reflexivity] | ].
           rewrite <- Es, app_assoc. f_equal.
           exact (slice_ascii_keeps_the_rest Hbuf' Hn).
    + (* the write failed *)
      pose proof (flushSync_loop_on_error f buf w Hr Hloop) as Hstep.
      cbv zeta in Hstep. fold buf' in Hstep. rewrite Hstep in Hrun. clear Hstep.
      destruct (retryable (SystemError code)
                && negb (retryEAGAIN (self w) (SystemError code) (len buf')
                           (_len (self w) - len buf'))); [discriminate | ].
      match type of Hrun with
      | flushSync_loop f buf' ?W = _ => set (w1 := W) in *
      end.
      destruct (IH buf' w1 w') as (Hd & Hb & Hwb).
      * exact Hbuf'.
      * exact Hbufs.
      * right. exact Hne.
      * exact (Forall_inv_tail Hok).
      * exact Hrun.
      * split; [ | split; [exact Hb | exact Hwb]].
        rewrite Hd. unfold w1. cbn [trace with_trace with_replies self].
        rewrite !delivered_snoc, !app_nil_r. f_equal.
        change (_bufs (self w1)) with (_bufs (self w)).
        rewrite Hrest. unfold flushSync_rest.
        destruct buf' as [ | y rest'] eqn:Eb; [ | reflexivity].
        unfold buf' in Eb.
        destruct (_bufs (self w)) as [ | c rest]; [contradiction | ].
        destruct (len buf <=? 0) eqn:El.
        -- cbn [hd] in Eb. subst c. reflexivity.
        -- apply len_pos_iff in Eb. rewrite El in Eb. discriminate.
  - (* nothing left *)
    cbn [flushSync_loop] in Hrun. unfold bind at 1 in Hrun. unfold this at 1 in Hrun.
    cbv beta iota in Hrun. rewrite Hloop in Hrun. injection Hrun as <-.
    apply orb_false_iff in Hloop. destruct Hloop as [H1 H2].
    apply negb_false_iff in H1, H2.
    apply len_nil_iff in H1. apply len_nil_iff in H2. subst buf. rewrite H1.
    cbn [flushSync_rest]. unfold flats. cbn. rewrite app_nil_r.
    repeat split; reflexivity.
Qed.
Lemma utf8_3_length c : List.length (utf8_3 c) = 3%nat.
Proof. reflexivity. Qed.

Lemma utf8_4_length hi lo : List.length (utf8_4 hi lo) = 4%nat.
Proof. reflexivity. Qed.

(** Every code unit gives at least one byte. *)
Lemma utf8_length_ge_bounded k :
  forall s : jsstring, (List.length s <= k)%nat ->
                       (List.length s <= List.length (utf8 s))%nat.
Proof.
  induction k as [ | k IH]; intros s Hk.
  - destruct s; [apply Nat.le_refl | cbn in Hk; lia].
  - destruct s as [ | c r]; [apply Nat.le_refl | ].
    cbn [List.length] in Hk.
    assert (Hr : (List.length r <= List.length (utf8 r))%nat) by (apply IH; lia).
    cbn [utf8].
    destruct (c <? 128); [cbn [List.length]; lia | ].
    destruct (c <? 2048); [cbn [List.length]; lia | ].
    destruct (is_lead c).
    + destruct r as [ | d r']; [rewrite utf8_3_length; cbn; lia | ].
      destruct (is_trail d).
      * rewrite length_app, utf8_4_length. cbn [List.length] in *.
        assert (Hr' : (List.length r' <= List.length (utf8 r'))%nat) by (apply IH; lia).
        lia.
      * rewrite length_app, utf8_3_length. cbn [List.length] in *. lia.
    + destruct (is_trail c); rewrite length_app, utf8_3_length; cbn [List.length]; lia.
Qed.

Lemma utf8_len_ge (s : jsstring) : len s <= len (utf8 s).
Proof.
  unfold len. apply inj_le. apply (utf8_length_ge_bounded (k := List.length s)).
  apply Nat.le_refl.
Qed.

(** A descriptor that takes each chunk whole: the loop of [flushSync] makes
    one system call per chunk and returns. *)
Lemma flushSync_loop_takes_all :
  forall chunks fuel (w : world jsstring jsstring) more,
    _bufs (self w) = chunks ->
    replies w = map (fun c => Done (len (utf8 c))) chunks ++ more ->
    (List.length chunks < fuel)%nat ->
    exists w',
      flushSync_loop fuel [] w = Returned tt w'
      /\ trace w'
         = trace w ++ map (fun c => SysWrite (fd (self w)) c (Done (len (utf8 c)))) chunks
      /\ _bufs (self w') = [] /\ replies w' = more /\ tasks w' = tasks w
      /\ _writingBuf (self w') = _writingBuf (self w).
Proof.
  induction chunks as [ | c rest IH]; intros fuel w more Hb Hr Hfuel;
    (destruct fuel as [ | f]; [cbn in Hfuel; lia | ]).
  - exists w. rewrite (flushSync_loop_done f w Hb), app_nil_r.
    repeat split; try reflexivity; first [exact Hb | exact Hr].
  - cbn [map app] in Hr.
    assert (Hloop : negb (len (_bufs (self w)) =? 0) || negb (len (@nil Z) =? 0) = true).
    { rewrite Hb. reflexivity. }
    rewrite (flushSync_loop_on_success f [] w Hr Hloop).
    change (len (@nil Z) <=? 0) with true. cbv iota. rewrite Hb. cbn [hd].
    assert (Hall : js_slice c (len (utf8 c)) = []).
    { apply js_slice_nil_iff; [apply len_nonneg | apply utf8_len_ge]. }
    rewrite Hall.
    set (w1 := flushSync_round c (len (utf8 c)) (map (fun c => Done (len (utf8 c))) rest ++ more) w).
    assert (Hw1 : _bufs (self w1) = rest
                  /\ replies w1 = map (fun c => Done (len (utf8 c))) rest ++ more
                  /\ trace w1 = trace w ++ [SysWrite (fd (self w)) c (Done (len (utf8 c)))]
                  /\ tasks w1 = tasks w /\ fd (self w1) = fd (self w)
                  /\ _writingBuf (self w1) = _writingBuf (self w)).
    { unfold w1, flushSync_round. cbv zeta. rewrite Hall.
      change (len (@nil Z) <=? 0) with true. cbv iota. cbn. rewrite Hb.
      repeat split; reflexivity. }
    destruct Hw1 as (Hb1 & Hr1 & Ht1 & Hk1 & Hfd1 & Hwb1).
    destruct (IH f w1 more Hb1 Hr1) as (w' & Hrun & Ht & Hb' & Hr' & Hk & Hwb);
      [cbn [List.length] in Hfuel; lia | ].
    exists w'. split; [exact Hrun | ].
    rewrite Ht, Ht1, Hfd1, <- app_assoc. cbn [map app].
    repeat split; try assumption; congruence.
Qed.

Lemma flushSync_enters fuel (w : world jsstring jsstring) :
  destroyed (self w) = false -> 0 <= fd (self w) ->
  exists w1,
    flushSync fuel w = flushSync_loop fuel [] w1
    /\ _bufs (self w1) = flushSync_queue (self w)
    /\ _writingBuf (self w1)
       = (if negb (_writing (self w)) && (len (_writingBuf (self w)) >? 0)
          then [] else _writingBuf (self w))
    /\ trace w1 = trace w /\ replies w1 = replies w /\ tasks w1 = tasks w
    /\ fd (self w1) = fd (self w).
Proof.
  intros Hlive Hfd. unfold flushSync. unfold bind at 1. unfold this at 1. cbv beta iota.
  rewrite Hlive.
  destruct (Z.ltb_spec (fd (self w)) 0) as [Hneg | _]; [lia | ].
  unfold flushSync_queue, when.
  destruct (negb (_writing (self w)) && (len (_writingBuf (self w)) >? 0)).
  - eexists. split; [reflexivity | ]. cbn. repeat split; reflexivity.
  - exists w. split; [reflexivity | ]. repeat split; reflexivity.
Qed.

(** X8. [flushSync] on a text writer that is not destroyed and has a
    descriptor goes through [_writingBuf] (when it holds something and no
    write is in flight) and then [_bufs], in order.  If the descriptor takes
    each chunk whole, it makes exactly one [fs.writeSync] per chunk and
    returns with [_bufs] empty.  And for text of one-byte characters,
    whatever the descriptor answers (partial writes, errors that are
    retried): whenever [flushSync] returns, the bytes it delivered are
    exactly the bytes of those chunks, in order, and [_bufs] is empty. *)
Theorem flushSync_writes_the_queue_in_order :
  forall fuel (w : world jsstring jsstring),
    destroyed (self w) = false -> 0 <= fd (self w) ->
    let queue := flushSync_queue (self w) in
    (forall more,
        replies w = map (fun c => Done (len (utf8 c))) queue ++ more ->
        (List.length queue < fuel)%nat ->
        exists w',
          flushSync fuel w = Returned tt w'
          /\ trace w'
             = trace w ++ map (fun c => SysWrite (fd (self w)) c (Done (len (utf8 c)))) queue
          /\ _bufs (self w') = [] /\ replies w' = more /\ tasks w' = tasks w)
    /\ (forall w',
           Forall one_byte_text queue -> Forall reply_ok (replies w) ->
           flushSync fuel w = Returned tt w' ->
           delivered (trace w') = delivered (trace w) ++ flats utf8 queue
           /\ _bufs (self w') = []).
Proof.
  intros fuel w Hlive Hfd queue.
  destruct (flushSync_enters fuel w Hlive Hfd)
    as (w1 & Henter & Hb1 & Hwb1 & Ht1 & Hr1 & Hk1 & Hfd1).
  fold queue in Hb1. rewrite Henter. split.
  - intros more Hr Hfuel. rewrite <- Hr1 in Hr.
    destruct (@flushSync_loop_takes_all queue fuel w1 more Hb1 Hr Hfuel)
      as (w' & Hrun & Ht & Hb & Hr' & Hk & _).
    exists w'. rewrite Ht, Ht1, Hfd1, Hk. repeat split; assumption.
  - intros w' Hq Hok Hrun.
    destruct (@flushSync_loop_delivers fuel (@nil Z) w1 w') as (Hd & Hb & _).
    + constructor.
    + rewrite Hb1. exact Hq.
    + left. reflexivity.
    + rewrite Hr1. exact Hok.
    + exact Hrun.
    + rewrite Hd, Ht1, Hb1. split; [reflexivity | exact Hb].
Qed.

(** "abc" and "de" wait behind a write in flight.  A descriptor that takes
    each whole is called twice; one that takes one byte, then fails with
    EAGAIN, then takes the rest still gets "abcde". *)
Lemma flushSync_writes_the_queue_in_order_witness :
  (exists w w',
      holding_two_chunks [Done 3; Done 2] = Returned true w
      /\ flushSync 3 w = Returned tt w'
      /\ trace w' = [SysWrite 1 [97; 98; 99] (Done 3); SysWrite 1 [100; 101] (Done 2)]
      /\ _bufs (self w') = [] /\ replies w' = [] /\ tasks w' = tasks w)
  /\ (exists w w',
         holding_two_chunks [Done 1; Failed "EAGAIN"; Done 2; Done 2] = Returned true w
         /\ flushSync 8 w = Returned tt w'
         /\ delivered (trace w') = delivered (trace w) ++ map octet [97; 98; 99; 100; 101]
         /\ _bufs (self w') = []).
Proof.
  split.
  - eexists.
    match goal with
    | |- exists w', ?O = Returned true ?W /\ _ =>
        assert (Hw : O = Returned true W) by (vm_compute; reflexivity);
        destruct (proj1 (@flushSync_writes_the_queue_in_order 3 W eq_refl
                           ltac:(vm_compute; discriminate)) [] eq_refl
                        ltac:(vm_compute; lia))
          as (w' & Hrun & Ht & Hb & Hr & Hk)
    end.
    exists w'. split; [exact Hw | ].
    repeat split; assumption.
  - eexists. eexists. split; [vm_compute; reflexivity | ].
    split; [vm_compute; reflexivity | ].
    match goal with
    | |- delivered (trace ?W') = delivered (trace ?W) ++ _ /\ _ =>
        apply (proj2 (@flushSync_writes_the_queue_in_order 8 W eq_refl
                        ltac:(vm_compute; discriminate)) W')
    end.
    + repeat (apply Forall_cons;
              [repeat (apply Forall_cons; [lia | ]); apply Forall_nil | ]).
      apply Forall_nil.
    + repeat (apply Forall_cons; [first [exact I | cbn; lia] | ]). apply Forall_nil.
    + vm_compute. reflexivity.
Defined.
(** ** [flushBufferSync] *)

Lemma flushBufferSync_loop_on_success :
  forall fuel (buf : Buffer) (w : world Buffer (list Buffer)) n more,
    replies w = Done n :: more ->
    negb (len (_bufs (self w)) =? 0) || negb (len buf =? 0) = true ->
    let buf' := if len buf <=? 0
                then mergeBuf (hd [] (_bufs (self w))) (hd_error (_lens (self w)))
                else buf in
    flushBufferSync_loop (S fuel) buf w
    = flushBufferSync_loop fuel (js_slice buf' n) (flushBufferSync_round buf' n more w).
Proof.
  intros fuel buf w n more Hr Hloop buf'.
  cbn [flushBufferSync_loop]. unfold bind at 1. unfold this at 1. cbv beta iota.
  rewrite Hloop. fold buf'.
  unfold bind at 1. unfold attempt, bind at 1, blocking. rewrite Hr.
  cbv beta iota zeta. unfold flushBufferSync_round. cbv zeta.
  unfold bind at 1. unfold upd at 1. cbv beta iota.
  unfold bind at 1. unfold when.
  destruct (len (js_slice buf' n) <=? 0); reflexivity.
Qed.

Lemma flushBufferSync_loop_on_error :
  forall fuel (buf : Buffer) (w : world Buffer (list Buffer)) c rest,
    replies w = Failed c :: rest ->
    negb (len (_bufs (self w)) =? 0) || negb (len buf =? 0) = true ->
    let buf' := if len buf <=? 0
                then mergeBuf (hd [] (_bufs (self w))) (hd_error (_lens (self w)))
                else buf in
    let w' := with_trace (trace w ++ [SysWrite (fd (self w)) buf' (Failed c)])
                (with_replies rest w) in
    flushBufferSync_loop (S fuel) buf w
    = if retryable (SystemError c)
         && negb (retryEAGAIN (self w) (SystemError c) (len buf')
                    (_len (self w) - len buf'))
      then Thrown (SystemError c) w'
      else flushBufferSync_loop fuel buf'
             (with_trace (trace w' ++ [Sleep BUSY_WRITE_TIMEOUT]) w').
Proof.
  intros fuel buf w c rest Hr Hloop buf' w'.
  cbn [flushBufferSync_loop]. unfold bind at 1. unfold this at 1. cbv beta iota.
  rewrite Hloop. fold buf'.
  unfold bind at 1. unfold attempt, bind at 1, blocking. rewrite Hr.
  cbv beta iota zeta. fold w'.
  unfold bind at 1. unfold this at 1. cbv beta iota.
  unfold retryable. change (self w') with (self w).
  destruct ((code_is (SystemError c) "EAGAIN" || code_is (SystemError c) "EBUSY")
            && negb (retryEAGAIN (self w) (SystemError c) (len buf')
                       (_len (self w) - len buf'))); reflexivity.
Qed.

Lemma flushBufferSync_loop_done :
  forall fuel (w : world Buffer (list Buffer)),
    _bufs (self w) = [] -> flushBufferSync_loop (S fuel) [] w = Returned tt w.
Proof.
  intros fuel w Hb. cbn [flushBufferSync_loop]. unfold bind, this. rewrite Hb. reflexivity.
Qed.

Lemma aligned_ready_to_merge bufs lens :
  lens = map chunk_size bufs -> ready_to_merge bufs lens.
Proof.
  intros ->. destruct bufs as [ | c rest]; split; try reflexivity.
  cbn [map hd hd_error]. apply mergeBuf_all.
Qed.

Lemma ready_to_merge_tl bufs lens :
  ready_to_merge bufs lens -> ready_to_merge (tl bufs) (tl lens).
Proof. intros [Htl _]. apply aligned_ready_to_merge. exact Htl. Qed.

(** A descriptor that takes each chunk whole. *)
Lemma flushBufferSync_loop_takes_all :
  forall chunks fuel (w : world Buffer (list Buffer)) more,
    _bufs (self w) = chunks ->
    ready_to_merge (_bufs (self w)) (_lens (self w)) ->
    replies w = map (fun c => Done (len (List.concat c))) chunks ++ more ->
    (List.length chunks < fuel)%nat ->
    exists w',
      flushBufferSync_loop fuel [] w = Returned tt w'
      /\ trace w'
         = trace w ++ map (fun c => SysWrite (fd (self w)) (List.concat c)
                                      (Done (len (List.concat c)))) chunks
      /\ _bufs (self w') = [] /\ replies w' = more /\ tasks w' = tasks w.
Proof.
  induction chunks as [ | c rest IH]; intros fuel w more Hb Hm Hr Hfuel;
    (destruct fuel as [ | f]; [cbn in Hfuel; lia | ]).
  - exists w. rewrite (flushBufferSync_loop_done f w Hb), app_nil_r.
    repeat split; try reflexivity; first [exact Hb | exact Hr].
  - cbn [map app] in Hr.
    assert (Hloop : negb (len (_bufs (self w)) =? 0) || negb (len (@nil byte) =? 0) = true).
    { rewrite Hb. reflexivity. }
    rewrite (flushBufferSync_loop_on_success f [] w Hr Hloop).
    change (len (@nil byte) <=? 0) with true. cbv iota.
    rewrite (proj2 Hm), Hb. cbn [hd].
    assert (Hall : js_slice (List.concat c) (len (List.concat c)) = []).
    { apply js_slice_nil_iff; [apply len_nonneg | apply Z.le_refl]. }
    rewrite Hall.
    set (w1 := flushBufferSync_round (List.concat c) (len (List.concat c))
                 (map (fun c => Done (len (List.concat c))) rest ++ more) w).
    assert (Hw1 : _bufs (self w1) = rest
                  /\ _lens (self w1) = tl (_lens (self w))
                  /\ replies w1 = map (fun c => Done (len (List.concat c))) rest ++ more
                  /\ trace w1 = trace w ++ [SysWrite (fd (self w)) (List.concat c)
                                              (Done (len (List.concat c)))]
                  /\ tasks w1 = tasks w /\ fd (self w1) = fd (self w)).
    { unfold w1, flushBufferSync_round. cbv zeta. rewrite Hall.
      change (len (@nil byte) <=? 0) with true. cbv iota. cbn. rewrite Hb.
      repeat split; reflexivity. }
    destruct Hw1 as (Hb1 & Hl1 & Hr1 & Ht1 & Hk1 & Hfd1).
    assert (Hm1 : ready_to_merge (_bufs (self w1)) (_lens (self w1))).
    { rewrite Hb1, Hl1. replace rest with (tl (_bufs (self w))) by (rewrite Hb; reflexivity).
      apply ready_to_merge_tl. exact Hm. }
    destruct (IH f w1 more Hb1 Hm1 Hr1) as (w' & Hrun & Ht & Hb' & Hr' & Hk);
      [cbn [List.length] in Hfuel; lia | ].
    exists w'. split; [exact Hrun | ].
    rewrite Ht, Ht1, Hfd1, <- app_assoc. cbn [map app].
    repeat split; try assumption; congruence.
Qed.
Lemma flushBufferSync_loop_delivers :
  forall fuel (buf : Buffer) (w w' : world Buffer (list Buffer)),
    ready_to_merge (_bufs (self w)) (_lens (self w)) ->
    (buf = [] \/ _bufs (self w) <> []) ->
    Forall reply_ok (replies w) ->
    flushBufferSync_loop fuel buf w = Returned tt w' ->
    delivered (trace w')
    = delivered (trace w) ++ flushBufferSync_rest buf (_bufs (self w))
    /\ _bufs (self w') = []
    /\ _writingBuf (self w') = _writingBuf (self w).
Proof.
  induction fuel as [ | f IH]; intros buf w w' Hm Hshape Hok Hrun;
    [discriminate Hrun | ].
  destruct (negb (len (_bufs (self w)) =? 0) || negb (len buf =? 0)) eqn:Hloop.
  - set (buf' := if len buf <=? 0
                 then mergeBuf (hd [] (_bufs (self w))) (hd_error (_lens (self w)))
                 else buf).
    assert (Hrest : flushBufferSync_rest buf (_bufs (self w))
                    = buf' ++ flats (@List.concat byte) (tl (_bufs (self w)))).
    { unfold buf', flushBufferSync_rest. destruct buf as [ | x buf0].
      - change (len (@nil byte) <=? 0) with true. cbv iota. rewrite (proj2 Hm).
        destruct (_bufs (self w)) as [ | c rest]; [reflexivity | ].
        unfold flats. reflexivity.
      - replace (len (x :: buf0) <=? 0) with false; [reflexivity | ].
        symmetry. apply Z.leb_gt. unfold len. cbn [List.length]. lia. }
    assert (Hne : _bufs (self w) <> []).
    { destruct Hshape as [-> | H]; [ | exact H].
      intros E. rewrite E in Hloop. discriminate. }
    destruct (replies w) as [ | [n | code] more] eqn:Hr.
    + (* no answer *)
      cbn [flushBufferSync_loop] in Hrun. unfold bind at 1 in Hrun.
      unfold this at 1 in Hrun. cbv beta iota in Hrun. rewrite Hloop in Hrun.
      unfold bind at 1, attempt, bind at 1, blocking in Hrun. rewrite Hr in Hrun.
      discriminate.
    + (* the descriptor took [n] *)
      rewrite (flushBufferSync_loop_on_success f buf w Hr Hloop) in Hrun.
      fold buf' in Hrun.
      pose proof (Forall_inv Hok) as Hn. cbn in Hn.
      pose proof (Forall_inv_tail Hok) as Hok'.
      set (w1 := flushBufferSync_round buf' n more w) in *.
      assert (Hw1 : delivered (trace w1)
                    = delivered (trace w) ++ firstn (Z.to_nat n) buf'
                    /\ replies w1 = more
                    /\ _writingBuf (self w1) = _writingBuf (self w)
                    /\ _bufs (self w1)
                       = (if len (js_slice buf' n) <=? 0
                          then tl (_bufs (self w)) else _bufs (self w))
                    /\ _lens (self w1)
                       = (if len (js_slice buf' n) <=? 0
                          then tl (_lens (self w)) else _lens (self w))).
      { unfold w1, flushBufferSync_round. cbv zeta.
        destruct (len (js_slice buf' n) <=? 0); cbn;
          rewrite delivered_snoc; repeat split; reflexivity. }
      destruct Hw1 as (Hd1 & Hr1 & Hwb1 & Hb1 & Hl1).
      destruct (IH (js_slice buf' n) w1 w') as (Hd & Hb & Hwb).
      * rewrite Hb1, Hl1. destruct (len (js_slice buf' n) <=? 0);
          [apply ready_to_merge_tl; exact Hm | exact Hm].
      * rewrite Hb1. destruct (len (js_slice buf' n) <=? 0) eqn:E;
          [left; apply len_pos_iff; exact E | right; exact Hne].
      * rewrite Hr1. exact Hok'.
      * exact Hrun.
      * split; [ | split; [exact Hb | congruence]].
        rewrite Hd, Hd1, Hrest, Hb1, <- app_assoc. f_equal.
        destruct (len (js_slice buf' n) <=? 0) eqn:E.
        -- apply len_pos_iff in E. rewrite E. cbn [flushBufferSync_rest].
           f_equal. apply firstn_all2.
           apply (js_slice_nil_iff buf' Hn) in E. unfold len in E. lia.
        -- unfold flushBufferSync_rest.
           destruct (js_slice buf' n) as [ | y rest'] eqn:Es;
             [rewrite (proj2 (len_pos_iff (A := byte) [])) in E; [discriminate | reflexivity] | ].
           rewrite <- Es, app_assoc. f_equal.
           exact (slice_buffer_keeps_the_rest buf' Hn).
    + (* the write failed *)
      pose proof (flushBufferSync_loop_on_error f buf w Hr Hloop) as Hstep.
      cbv zeta in Hstep. fold buf' in Hstep. rewrite Hstep in Hrun. clear Hstep.
      destruct (retryable (SystemError code)
                && negb (retryEAGAIN (self w) (SystemError code) (len buf')
                           (_len (self w) - len buf'))); [discriminate | ].
      match type of Hrun with
      | flushBufferSync_loop f buf' ?W = _ => set (w1 := W) in *
      end.
      destruct (IH buf' w1 w') as (Hd & Hb & Hwb).
      * exact Hm.
      * right. exact Hne.
      * exact (Forall_inv_tail Hok).
      * exact Hrun.
      * split; [ | split; [exact Hb | exact Hwb]].
        rewrite Hd. unfold w1. cbn [trace with_trace with_replies self].
        rewrite !delivered_snoc, !app_nil_r. f_equal.
        change (_bufs (self w1)) with (_bufs (self w)).
        rewrite Hrest. unfold flushBufferSync_rest.
        destruct buf' as [ | y rest'] eqn:Eb; [ | reflexivity].
        unfold buf' in Eb.
        destruct (_bufs (self w)) as [ | c rest] eqn:Ebufs; [contradiction | ].
        destruct (len buf <=? 0) eqn:El.
        -- rewrite (proj2 Hm) in Eb. cbn [hd] in Eb. unfold flats. cbn [map List.concat tl].
           rewrite Eb. reflexivity.
        -- apply len_pos_iff in Eb. rewrite El in Eb. discriminate.
  - (* nothing left *)
    cbn [flushBufferSync_loop] in Hrun. unfold bind at 1 in Hrun.
    unfold this at 1 in Hrun. cbv beta iota in Hrun. rewrite Hloop in Hrun.
    injection Hrun as <-.
    apply orb_false_iff in Hloop. destruct Hloop as [H1 H2].
    apply negb_false_iff in H1, H2.
    apply len_nil_iff in H1. apply len_nil_iff in H2. subst buf. rewrite H1.
    cbn [flushBufferSync_rest]. unfold flats. cbn. rewrite app_nil_r.
    repeat split; reflexivity.
Qed.

Lemma flushBufferSync_enters fuel (w : world Buffer (list Buffer)) :
  destroyed (self w) = false -> 0 <= fd (self w) ->
  exists w1,
    flushBufferSync fuel w = flushBufferSync_loop fuel [] w1
    /\ _bufs (self w1) = flushBufferSync_queue (self w)
    /\ _lens (self w1) = _lens (self w)
    /\ trace w1 = trace w /\ replies w1 = replies w /\ tasks w1 = tasks w
    /\ fd (self w1) = fd (self w).
Proof.
  intros Hlive Hfd. unfold flushBufferSync. unfold bind at 1. unfold this at 1.
  cbv beta iota. rewrite Hlive.
  destruct (Z.ltb_spec (fd (self w)) 0) as [Hneg | _]; [lia | ].
  unfold flushBufferSync_queue, when.
  destruct (negb (_writing (self w)) && (len (_writingBuf (self w)) >? 0)).
  - eexists. split; [reflexivity | ]. cbn. repeat split; reflexivity.
  - exists w. split; [reflexivity | ]. repeat split; reflexivity.
Qed.

Lemma flushBufferSync_queue_ready (s : sonic Buffer (list Buffer)) :
  aligned s ->
  (negb (_writing s) && (len (_writingBuf s) >? 0) = true -> _bufs s = []) ->
  ready_to_merge (flushBufferSync_queue s) (_lens s).
Proof.
  intros Hal Hmoved. unfold flushBufferSync_queue.
  destruct (negb (_writing s) && (len (_writingBuf s) >? 0)).
  - unfold aligned in Hal. rewrite (Hmoved eq_refl) in *. cbn in Hal. rewrite Hal.
    split; [reflexivity | ]. cbn. rewrite app_nil_r. reflexivity.
  - apply aligned_ready_to_merge. exact Hal.
Qed.

(** X9. [flushBufferSync] on a buffer writer that is not destroyed and has
    a descriptor, whose [_lens] follows [_bufs], and which does not have
    both an unwritten [_writingBuf] (no write in flight) and chunks in
    [_bufs]: it goes through [_writingBuf] (when unwritten) and then the
    chunks of [_bufs], in order.  If the descriptor takes each chunk whole,
    it makes exactly one [fs.writeSync] per chunk, with the concatenation of
    the chunk's buffers, and returns with [_bufs] empty.  Whatever the
    descriptor answers (partial writes, errors that are retried): whenever
    it returns, the bytes it delivered are exactly the bytes of those
    chunks, in order, and [_bufs] is empty. *)
Theorem flushBufferSync_writes_the_queue_in_order :
  forall fuel (w : world Buffer (list Buffer)),
    destroyed (self w) = false -> 0 <= fd (self w) ->
    aligned (self w) ->
    (negb (_writing (self w)) && (len (_writingBuf (self w)) >? 0) = true ->
     _bufs (self w) = []) ->
    let queue := flushBufferSync_queue (self w) in
    (forall more,
        replies w = map (fun c => Done (len (List.concat c))) queue ++ more ->
        (List.length queue < fuel)%nat ->
        exists w',
          flushBufferSync fuel w = Returned tt w'
          /\ trace w'
             = trace w ++ map (fun c => SysWrite (fd (self w)) (List.concat c)
                                          (Done (len (List.concat c)))) queue
          /\ _bufs (self w') = [] /\ replies w' = more /\ tasks w' = tasks w)
    /\ (forall w',
           Forall reply_ok (replies w) ->
           flushBufferSync fuel w = Returned tt w' ->
           delivered (trace w')
           = delivered (trace w) ++ flats (@List.concat byte) queue
           /\ _bufs (self w') = []).
Proof.
  intros fuel w Hlive Hfd Hal Hmoved queue.
  destruct (flushBufferSync_enters fuel w Hlive Hfd)
    as (w1 & Henter & Hb1 & Hl1 & Ht1 & Hr1 & Hk1 & Hfd1).
  fold queue in Hb1. rewrite Henter.
  assert (Hm : ready_to_merge (_bufs (self w1)) (_lens (self w1))).
  { rewrite Hb1, Hl1. apply flushBufferSync_queue_ready; assumption. }
  split.
  - intros more Hr Hfuel. rewrite <- Hr1 in Hr.
    destruct (@flushBufferSync_loop_takes_all queue fuel w1 more Hb1 Hm Hr Hfuel)
      as (w' & Hrun & Ht & Hb & Hr' & Hk).
    exists w'. rewrite Ht, Ht1, Hfd1, Hk. repeat split; assumption.
  - intros w' Hok Hrun.
    destruct (@flushBufferSync_loop_delivers fuel (@nil byte) w1 w') as (Hd & Hb & _).
    + exact Hm.
    + left. reflexivity.
    + rewrite Hr1. exact Hok.
    + exact Hrun.
    + rewrite Hd, Ht1, Hb1. split; [reflexivity | exact Hb].
Qed.

(** "ab" and "c" share a chunk and "de" has its own, behind a write in
    flight.  A descriptor that takes each whole is handed "abc", then "de";
    one that takes one byte, then fails with EAGAIN, then takes the rest
    still gets "abcde". *)
Lemma flushBufferSync_writes_the_queue_in_order_witness :
  (exists w w',
      holding_two_chunks_bytes [Done 3; Done 2] = Returned true w
      /\ flushBufferSync 3 w = Returned tt w'
      /\ trace w' = [SysWrite 1 (map octet [97; 98; 99]) (Done 3);
                     SysWrite 1 (map octet [100; 101]) (Done 2)]
      /\ _bufs (self w') = [] /\ replies w' = [] /\ tasks w' = tasks w)
  /\ (exists w w',
         holding_two_chunks_bytes [Done 1; Failed "EAGAIN"; Done 2; Done 2]
         = Returned true w
         /\ flushBufferSync 8 w = Returned tt w'
         /\ delivered (trace w') = delivered (trace w) ++ map octet [97; 98; 99; 100; 101]
         /\ _bufs (self w') = []).
Proof.
  split.
  - eexists.
    match goal with
    | |- exists w', ?O = Returned true ?W /\ _ =>
        assert (Hw : O = Returned true W) by (vm_compute; reflexivity);
        destruct (proj1 (@flushBufferSync_writes_the_queue_in_order 3 W eq_refl
                           ltac:(vm_compute; discriminate) eq_refl
                           ltac:(vm_compute; discriminate)) [] eq_refl
                        ltac:(vm_compute; lia))
          as (w' & Hrun & Ht & Hb & Hr & Hk)
    end.
    exists w'. split; [exact Hw | ].
    repeat split; assumption.
  - eexists. eexists. split; [vm_compute; reflexivity | ].
    split; [vm_compute; reflexivity | ].
    match goal with
    | |- delivered (trace ?W') = delivered (trace ?W) ++ _ /\ _ =>
        apply (proj2 (@flushBufferSync_writes_the_queue_in_order 8 W eq_refl
                        ltac:(vm_compute; discriminate) eq_refl
                        ltac:(vm_compute; discriminate)) W')
    end.
    + repeat (apply Forall_cons; [first [exact I | cbn; lia] | ]). apply Forall_nil.
    + vm_compute. reflexivity.
Defined.
Lemma mergeBuf_none (c : list Buffer) : mergeBuf c None = List.concat c.
Proof.
  destruct c as [ | x [ | y c]]; [reflexivity | simpl; rewrite app_nil_r; reflexivity | ].
  reflexivity.
Qed.

Lemma Buffer_concat_len bufs l :
  0 <= l -> len (Buffer_concat bufs (Some l)) = l.
Proof.
  intros Hl. unfold Buffer_concat, len.
  rewrite length_firstn, length_app, repeat_length. lia.
Qed.

Lemma js_slice_all {A} (l : list A) : js_slice l (len l) = [].
Proof. apply js_slice_nil_iff; [apply len_nonneg | apply Z.le_refl]. Qed.

(** X10. [flushBufferSync] puts an unwritten [_writingBuf] back at the
    head of [_bufs] without putting its size at the head of [_lens]
    (index.js 544-547).  With two chunks queued behind it, the first of
    several buffers, the loop then merges that first chunk with the size
    recorded for the second: what it hands to the descriptor is the first
    chunk cut, or filled with zero bytes, to the length of the second. *)
Theorem flushBufferSync_cuts_the_chunk_behind_an_unwritten_buffer :
  forall fuel (w : world Buffer (list Buffer)) wb b1 b2 bs c2 more,
    destroyed (self w) = false -> 0 <= fd (self w) ->
    _writing (self w) = false ->
    _writingBuf (self w) = wb -> wb <> [] ->
    _bufs (self w) = [b1 :: b2 :: bs; c2] ->
    _lens (self w) = [chunk_size (b1 :: b2 :: bs); chunk_size c2] ->
    let cut := Buffer_concat (b1 :: b2 :: bs) (Some (chunk_size c2)) in
    replies w = Done (len wb) :: Done (len cut) :: Done (chunk_size c2) :: more ->
    exists w',
      flushBufferSync (4 + fuel) w = Returned tt w'
      /\ trace w' = trace w ++ [SysWrite (fd (self w)) wb (Done (len wb));
                                SysWrite (fd (self w)) cut (Done (len cut));
                                SysWrite (fd (self w)) (List.concat c2)
                                  (Done (chunk_size c2))]
      /\ len cut = chunk_size c2
      /\ _bufs (self w') = [] /\ _lens (self w') = [] /\ replies w' = more.
Proof.
  intros fuel w wb b1 b2 bs c2 more Hlive Hfd Hwr Hwb Hne Hb Hl cut Hr.
  assert (Hwblen : (len wb >? 0) = true).
  { destruct wb; [contradiction | reflexivity]. }
  unfold flushBufferSync. unfold bind at 1. unfold this at 1. cbv beta iota.
  rewrite Hlive.
  destruct (Z.ltb_spec (fd (self w)) 0) as [Hneg | _]; [lia | ].
  rewrite Hwr, Hwb, Hwblen. cbn [negb andb when].
  unfold bind at 1. unfold bind at 1. unfold upd at 1 2. cbv beta iota.
  match goal with
  | |- exists w', flushBufferSync_loop _ _ ?W = _ /\ _ => set (w1 := W)
  end.
  assert (H1 : _bufs (self w1) = [[wb]; b1 :: b2 :: bs; c2]
               /\ _lens (self w1) = [chunk_size (b1 :: b2 :: bs); chunk_size c2]
               /\ replies w1 = Done (len wb) :: Done (len cut) :: Done (chunk_size c2) :: more
               /\ trace w1 = trace w /\ fd (self w1) = fd (self w)).
  { unfold w1. cbn. rewrite Hb, Hl, Hr. repeat split; reflexivity. }
  destruct H1 as (Hb1 & Hl1 & Hr1 & Ht1 & Hfd1). clearbody w1.
  (* first round: the buffer that was put back *)
  change (4 + fuel)%nat with (S (S (S (S fuel)))).
  rewrite (flushBufferSync_loop_on_success _ [] w1 Hr1) by (rewrite Hb1; reflexivity).
  change (len (@nil byte) <=? 0) with true. cbv iota. rewrite Hb1, Hl1.
  cbn [hd hd_error mergeBuf]. rewrite js_slice_all.
  match goal with
  | |- exists w', flushBufferSync_loop _ _ ?W = _ /\ _ => set (w2 := W)
  end.
  assert (H2 : _bufs (self w2) = [b1 :: b2 :: bs; c2]
               /\ _lens (self w2) = [chunk_size c2]
               /\ replies w2 = Done (len cut) :: Done (chunk_size c2) :: more
               /\ trace w2 = trace w ++ [SysWrite (fd (self w)) wb (Done (len wb))]
               /\ fd (self w2) = fd (self w)).
  { unfold w2, flushBufferSync_round. cbv zeta. rewrite js_slice_all.
    change (len (@nil byte) <=? 0) with true. cbv iota. cbn.
    rewrite Hb1, Hl1, Ht1, Hfd1. repeat split; reflexivity. }
  destruct H2 as (Hb2 & Hl2 & Hr2 & Ht2 & Hfd2). clearbody w2.
  (* second round: the first chunk, with the size of the second *)
  rewrite (flushBufferSync_loop_on_success _ [] w2 Hr2) by (rewrite Hb2; reflexivity).
  change (len (@nil byte) <=? 0) with true. cbv iota. rewrite Hb2, Hl2.
  cbn [hd hd_error mergeBuf]. fold cut. rewrite js_slice_all.
  match goal with
  | |- exists w', flushBufferSync_loop _ _ ?W = _ /\ _ => set (w3 := W)
  end.
  assert (H3 : _bufs (self w3) = [c2]
               /\ _lens (self w3) = []
               /\ replies w3 = Done (chunk_size c2) :: more
               /\ trace w3 = trace w ++ [SysWrite (fd (self w)) wb (Done (len wb));
                                         SysWrite (fd (self w)) cut (Done (len cut))]
               /\ fd (self w3) = fd (self w)).
  { unfold w3, flushBufferSync_round. cbv zeta. rewrite js_slice_all.
    change (len (@nil byte) <=? 0) with true. cbv iota. cbn.
    rewrite Hb2, Hl2, Ht2, Hfd2, <- app_assoc. repeat split; reflexivity. }
  destruct H3 as (Hb3 & Hl3 & Hr3 & Ht3 & Hfd3). clearbody w3.
  (* third round: the second chunk, with no size left *)
  rewrite (flushBufferSync_loop_on_success _ [] w3 Hr3) by (rewrite Hb3; reflexivity).
  change (len (@nil byte) <=? 0) with true. cbv iota. rewrite Hb3, Hl3.
  cbn [hd hd_error]. rewrite mergeBuf_none.
  change (chunk_size c2) with (len (List.concat c2)). rewrite js_slice_all.
  match goal with
  | |- exists w', flushBufferSync_loop _ _ ?W = _ /\ _ => set (w4 := W)
  end.
  assert (H4 : _bufs (self w4) = [] /\ _lens (self w4) = [] /\ replies w4 = more
               /\ trace w4 = trace w ++ [SysWrite (fd (self w)) wb (Done (len wb));
                                         SysWrite (fd (self w)) cut (Done (len cut));
                                         SysWrite (fd (self w)) (List.concat c2)
                                           (Done (len (List.concat c2)))]).
  { unfold w4, flushBufferSync_round. cbv zeta. rewrite js_slice_all.
    change (len (@nil byte) <=? 0) with true. cbv iota. cbn.
    rewrite Hb3, Hl3, Ht3, Hfd3, <- app_assoc. repeat split; reflexivity. }
  destruct H4 as (Hb4 & Hl4 & Hr4 & Ht4). clearbody w4.
  exists w4. rewrite (flushBufferSync_loop_done fuel w4 Hb4).
  split; [reflexivity | ]. split; [exact Ht4 | ].
  split; [apply Buffer_concat_len; unfold chunk_size; apply len_nonneg | ].
  repeat split; assumption.
Qed.

(** After four failed writes "x" is unwritten, "ab" and "c" share the first
    chunk (3 bytes) and "de" is the second (2 bytes): [flushBufferSync]
    hands over "x", then "ab" -- the first chunk cut to 2 bytes -- then
    "de"; "c" is never written. *)
Lemma flushBufferSync_cuts_the_chunk_behind_an_unwritten_buffer_witness :
  exists w w',
    holding_behind_failed_write = Returned true w
    /\ flushBufferSync 4 w = Returned tt w'
    /\ trace w' = trace w ++ [SysWrite 1 (map octet [120]) (Done 1);
                              SysWrite 1 (map octet [97; 98]) (Done 2);
                              SysWrite 1 (map octet [100; 101]) (Done 2)]
    /\ _bufs (self w') = [] /\ _lens (self w') = [] /\ replies w' = [].
Proof.
  eexists.
  match goal with
  | |- exists w', ?O = Returned true ?W /\ _ =>
      assert (Hw : O = Returned true W) by (vm_compute; reflexivity);
      destruct (@flushBufferSync_cuts_the_chunk_behind_an_unwritten_buffer
                  0 W (map octet [120]) (map octet [97; 98]) (map octet [99]) []
                  [map octet [100; 101]] []
                  eq_refl ltac:(vm_compute; discriminate) eq_refl eq_refl
                  ltac:(discriminate) eq_refl eq_refl eq_refl)
        as (w' & Hrun & Ht & _ & Hb & Hl & Hr)
  end.
  exists w'. split; [exact Hw | ].
  repeat split; assumption.
Defined.
(** ** Buffering *)

Lemma dispatch_and_answer_holds {buf chunk} {content : Content buf chunk}
      fuel len' (w : world buf chunk) :
  _writing (self w) = true \/ len' < minLength (self w) ->
  dispatch_and_answer fuel len' w
  = Returned (len' <? _hwm (self w)) (with_self (set_len len') w).
Proof.
  intros Hhold. unfold dispatch_and_answer, bind, upd, this. cbn.
  assert (Hc : negb (_writing (self w)) && (len' >=? minLength (self w)) = false).
  { destruct Hhold as [-> | Hlt]; [reflexivity | ].
    apply andb_false_iff. right.
    destruct (Z.geb_spec len' (minLength (self w))); [lia | reflexivity]. }
  rewrite Hc. reflexivity.
Qed.

(** X11. While a write is in flight or the file is opening ([_writing]),
    or while the data buffered stays below [minLength], an accepted [write]
    only buffers: it makes no system call and hands nothing to the runtime;
    the data joins [_bufs] by the chunking rule, [_len] grows by its length,
    and the answer is [_len < _hwm].  In both content modes (in buffer mode,
    for a writer whose [_lens] follows [_bufs]). *)
Theorem write_only_buffers_behind_a_write_or_below_minLength :
  (forall fuel data (w : world jsstring jsstring),
      destroyed (self w) = false ->
      accepted (self w) (len data) ->
      _writing (self w) = true \/ _len (self w) + len data < minLength (self w) ->
      exists w',
        write fuel data w = Returned (_len (self w) + len data <? _hwm (self w)) w'
        /\ trace w' = trace w /\ tasks w' = tasks w /\ replies w' = replies w
        /\ _bufs (self w') = enqueue_text (maxWrite (self w)) (_bufs (self w)) data
        /\ _len (self w') = _len (self w) + len data
        /\ _writingBuf (self w') = _writingBuf (self w)
        /\ _writing (self w') = _writing (self w))
  /\ (forall fuel data (w : world Buffer (list Buffer)),
         destroyed (self w) = false ->
         accepted (self w) (len data) ->
         aligned (self w) ->
         _writing (self w) = true \/ _len (self w) + len data < minLength (self w) ->
         exists w',
           writeBuffer fuel data w
           = Returned (_len (self w) + len data <? _hwm (self w)) w'
           /\ trace w' = trace w /\ tasks w' = tasks w /\ replies w' = replies w
           /\ _bufs (self w') = enqueue_bytes (maxWrite (self w)) (_bufs (self w)) data
           /\ aligned (self w')
           /\ _len (self w') = _len (self w) + len data
           /\ _writingBuf (self w') = _writingBuf (self w)
           /\ _writing (self w') = _writing (self w)).
Proof.
  split.
  - intros fuel data w Hlive Hacc Hhold.
    rewrite (write_accepts fuel w data Hlive Hacc).
    rewrite dispatch_and_answer_holds by exact Hhold.
    eexists. split; [reflexivity | ]. repeat split; reflexivity.
  - intros fuel data w Hlive Hacc Hal Hhold.
    pose proof (writeBuffer_accepts fuel w data Hlive Hacc Hal) as Hstep.
    cbv zeta in Hstep. rewrite Hstep. clear Hstep.
    rewrite dispatch_and_answer_holds by exact Hhold.
    eexists. split; [reflexivity | ]. repeat split; reflexivity.
Qed.

(** A writer with [minLength] 10 is given two characters; a writer with a
    write in flight is given two bytes. *)
Lemma write_only_buffers_behind_a_write_or_below_minLength_witness :
  (exists w w',
      text (on_stdout false false 10 0 0) [] = Returned tt w
      /\ write 4 [104; 105] w = Returned (_len (self w) + len [104; 105] <? _hwm (self w)) w'
      /\ trace w' = trace w /\ tasks w' = tasks w /\ replies w' = replies w
      /\ _bufs (self w') = [[104; 105]]
      /\ _len (self w') = 2)
  /\ (exists w w',
         bytes (on_stdout false false 0 0 4) [] >>> writeBuffer 4 (map octet [120])
         = Returned true w
         /\ writeBuffer 4 (map octet [104; 105]) w
            = Returned (_len (self w) + len (map octet [104; 105]) <? _hwm (self w)) w'
         /\ trace w' = trace w /\ tasks w' = tasks w /\ replies w' = replies w
         /\ _bufs (self w') = [[map octet [104; 105]]]
         /\ _lens (self w') = [2]).
Proof.
  split.
  - eexists.
    match goal with
    | |- exists w', ?O = Returned tt ?W /\ _ =>
        assert (Hw : O = Returned tt W) by (vm_compute; reflexivity);
        destruct (proj1 write_only_buffers_behind_a_write_or_below_minLength
                        4%nat [104; 105] W)
          as (w' & Hrun & Ht & Hk & Hr & Hb & Hl & _);
          [reflexivity | left; reflexivity | right; vm_compute; reflexivity | ]
    end.
    exists w'. split; [exact Hw | ].
    repeat split; assumption.
  - eexists.
    match goal with
    | |- exists w', ?O = Returned true ?W /\ _ =>
        assert (Hw : O = Returned true W) by (vm_compute; reflexivity);
        destruct (proj2 write_only_buffers_behind_a_write_or_below_minLength
                        4%nat (map octet [104; 105]) W)
          as (w' & Hrun & Ht & Hk & Hr & Hb & Hal & _);
          [reflexivity | left; reflexivity | reflexivity | left; reflexivity | ]
    end.
    exists w'. split; [exact Hw | ].
    split; [exact Hrun | ]. split; [exact Ht | ]. split; [exact Hk | ].
    split; [exact Hr | ]. split; [exact Hb | ].
    unfold aligned in Hal. rewrite Hal, Hb. reflexivity.
Defined.
(** ** Opening the file *)

Section Opening.

Context {buf chunk : Type} {content : Content buf chunk}.

Lemma fileOpened_S fuel target err newfd :
  fileOpened (buf := buf) (chunk := chunk) (S fuel) target err newfd
  = fileOpened_body (_actualWrite fuel) (emit_ready fuel) target err newfd.
Proof. reflexivity. Qed.

Lemma openFile_S fuel target :
  openFile (buf := buf) (chunk := chunk) (S fuel) target
  = openFile_body (fileOpened fuel) target.
Proof. reflexivity. Qed.

Lemma reopen_S fuel newfile :
  reopen (buf := buf) (chunk := chunk) (S fuel) newfile
  = reopen_body (openFile fuel) newfile.
Proof. reflexivity. Qed.

Lemma end_S fuel :
  end_ (buf := buf) (chunk := chunk) (S fuel) = end_body (_actualWrite fuel).
Proof. reflexivity. Qed.

(** Deferred mode: [openFile] only hands [fs.mkdir] or [fs.open] to the
    runtime. *)
Lemma openFile_deferred fuel target (w : world buf chunk) :
  sync (self w) = false ->
  openFile (S fuel) target w
  = Returned tt
      (with_tasks
         (tasks w ++ [if mkdir (self w)
                      then fs_mkdir target (open_flags (self w)) (mode (self w))
                      else fs_open target (open_flags (self w)) (mode (self w))])
         (with_self opening w)).
Proof.
  intros Hsync. rewrite openFile_S. unfold openFile_body, bind, upd, this. cbn.
  rewrite Hsync. unfold open_flags. destruct (mkdir (self w)); reflexivity.
Qed.

(** Inside the constructor [release] is not assigned yet; it is not missed
    as long as [fileOpened] has nothing to dispatch. *)
Lemma fileOpened_new_idle fuel fuel' target err newfd (w : world buf chunk) :
  sync (self w) = true ->
  _len (self w) <= minLength (self w) \/ destroyed (self w) = true ->
  fileOpened_body (_actualWrite_body release_unset) (emit_ready fuel)
    target err newfd w
  = fileOpened (S fuel') target err newfd w.
Proof.
  intros Hsync Hquiet. rewrite fileOpened_S.
  assert (Hcond : (_len (self w) >? minLength (self w)) && negb (destroyed (self w))
                  = false).
  { destruct Hquiet as [Hle | Hd].
    - apply andb_false_intro1. rewrite Z.gtb_ltb. apply Z.ltb_ge. exact Hle.
    - rewrite Hd. apply andb_false_r. }
  destruct w as [s rs tr ts ro dr er dl el fr]. destruct s. cbn in Hsync, Hcond.
  subst. unfold fileOpened_body, bind, upd, this, schedule, when, ret.
  destruct err as [e | ]; cbn; [reflexivity | ]. rewrite Hcond. reflexivity.
Qed.

Lemma openFile_new_deferred fuel target (w : world buf chunk) :
  sync (self w) = false ->
  openFile_new fuel target w
  = Returned tt
      (with_tasks
         (tasks w ++ [if mkdir (self w)
                      then fs_mkdir target (open_flags (self w)) (mode (self w))
                      else fs_open target (open_flags (self w)) (mode (self w))])
         (with_self opening w)).
Proof.
  intros Hsync. unfold openFile_new, openFile_body.
  do 3 (unfold bind at 1; unfold upd at 1; cbv beta iota).
  unfold bind at 1. unfold this at 1. cbv beta iota.
  match goal with
  | |- context [sync (self ?W)] => change (sync (self W)) with (sync (self w))
  end.
  rewrite Hsync.
  match goal with
  | |- context [mkdir (self ?W)] => change (mkdir (self W)) with (mkdir (self w))
  end.
  destruct (mkdir (self w)); reflexivity.
Qed.

(** ['ready'] with no listener of the writer's own waiting. *)
Lemma emit_ready_plain fuel (w : world buf chunk) :
  ready_once w = [] ->
  emit_ready (S (S fuel)) w = Returned tt (with_trace (trace w ++ [Emit EvReady]) w).
Proof.
  intros Hr. rewrite emit_ready_S. unfold emit_ready_body.
  unfold bind at 1. unfold log at 1. cbv beta iota.
  change (ready_once (with_trace (trace w ++ [Emit EvReady]) w)) with (ready_once w).
  rewrite Hr, run_ready_S. unfold run_ready_body, ret.
  destruct w; cbn in *; subst; reflexivity.
Qed.

(** [fileOpened(null, fd)] in deferred mode with nothing to dispatch. *)
Lemma fileOpened_deferred_idle fuel target newfd (w : world buf chunk) :
  sync (self w) = false -> ready_once w = [] ->
  _len (self w) <= minLength (self w) \/ destroyed (self w) = true ->
  fileOpened (S (S (S fuel))) target None newfd w
  = Returned tt (with_trace (trace w ++ [Emit EvReady])
                   (with_self (opened target newfd) w)).
Proof.
  intros Hsync Hr Hidle. rewrite fileOpened_S. unfold fileOpened_body.
  do 5 (unfold bind at 1; unfold upd at 1; cbv beta iota).
  unfold bind at 1. unfold this at 1. cbv beta iota.
  match goal with
  | |- context [sync (self ?W)] => change (sync (self W)) with (sync (self w))
  end.
  rewrite Hsync. unfold bind at 1.
  rewrite emit_ready_plain by exact Hr.
  unfold bind at 1. unfold this at 1. cbv beta iota. cbn [self with_trace].
  match goal with
  | |- (if ?c then _ else _) _ = _ => change c with false
  end. cbv iota.
  match goal with
  | |- when ?c _ _ = _ =>
      replace c with false; [reflexivity | ]
  end.
  symmetry. cbn.
  destruct Hidle as [Hle | Hd].
  - destruct (Z.gtb_spec (_len (self w)) (minLength (self w))); [lia | reflexivity].
  - rewrite Hd. apply andb_false_r.
Qed.

(** [_actualWrite] in deferred mode: the chunk goes to [fs.write]. *)
Lemma _actualWrite_deferred fuel (w : world buf chunk) b bufs' lens' :
  sync (self w) = false ->
  next_chunk (_writingBuf (self w)) (_bufs (self w)) (_lens (self w))
  = (inr b, bufs', lens') ->
  _actualWrite (S fuel) w
  = Returned tt
      (with_tasks (tasks w ++ [fs_write (fd (self w)) b])
         (with_self (fun s => set_writingBuf b
                                (set_lens lens' (set_bufs bufs' (set_writing true s)))) w)).
Proof.
  intros Hsync Hnext. rewrite _actualWrite_S. unfold _actualWrite_body.
  unfold bind at 1. unfold upd at 1. cbv beta iota.
  unfold bind at 1. unfold this at 1. cbv beta iota.
  cbn [self with_self _writingBuf _bufs _lens set_writing].
  change (_writingBuf (set_writing true (self w))) with (_writingBuf (self w)).
  change (_bufs (set_writing true (self w))) with (_bufs (self w)).
  change (_lens (set_writing true (self w))) with (_lens (self w)).
  rewrite Hnext.
  unfold bind at 1. unfold upd at 1. cbv beta iota.
  unfold bind at 1. unfold upd at 1. cbv beta iota.
  change (sync (set_writing true (self w))) with (sync (self w)).
  rewrite Hsync. reflexivity.
Qed.

(** [fileOpened(null, fd)] in deferred mode with data waiting: the first
    chunk is dispatched on the new descriptor. *)
Lemma fileOpened_deferred_starts fuel target newfd (w : world buf chunk) b bufs' lens' :
  sync (self w) = false -> ready_once w = [] ->
  minLength (self w) < _len (self w) -> destroyed (self w) = false ->
  next_chunk (_writingBuf (self w)) (_bufs (self w)) (_lens (self w))
  = (inr b, bufs', lens') ->
  fileOpened (S (S (S fuel))) target None newfd w
  = Returned tt
      (with_tasks (tasks w ++ [fs_write newfd b])
         (with_trace (trace w ++ [Emit EvReady])
            (with_self (fun s => set_writingBuf b
                                   (set_lens lens'
                                      (set_bufs bufs'
                                         (set_writing true (opened target newfd s))))) w))).
Proof.
  intros Hsync Hr Hlen Hlive Hnext. rewrite fileOpened_S. unfold fileOpened_body.
  do 5 (unfold bind at 1; unfold upd at 1; cbv beta iota).
  unfold bind at 1. unfold this at 1. cbv beta iota.
  match goal with
  | |- context [sync (self ?W)] => change (sync (self W)) with (sync (self w))
  end.
  rewrite Hsync. unfold bind at 1.
  rewrite emit_ready_plain by exact Hr.
  unfold bind at 1. unfold this at 1. cbv beta iota. cbn [self with_trace].
  match goal with
  | |- (if ?c then _ else _) _ = _ => change c with false
  end. cbv iota.
  match goal with
  | |- when ?c _ _ = _ => replace c with true
  end.
  - unfold when. rewrite (_actualWrite_deferred (S fuel) _ (b := b) (bufs' := bufs')
                            (lens' := lens')); [reflexivity | exact Hsync | exact Hnext].
  - symmetry. cbn. rewrite Hlive.
    destruct (Z.gtb_spec (_len (self w)) (minLength (self w))); [reflexivity | lia].
Qed.

(** [fileOpened(err)] in deferred mode. *)
Lemma fileOpened_deferred_failed fuel target err (w : world buf chunk) :
  sync (self w) = false ->
  fileOpened (S fuel) target (Some err) 0 w
  = emit (EvError err) (with_self not_opened w).
Proof.
  intros Hsync. rewrite fileOpened_S. unfold fileOpened_body.
  do 3 (unfold bind at 1; unfold upd at 1; cbv beta iota).
  unfold bind at 1. unfold this at 1. cbv beta iota.
  match goal with
  | |- context [sync (self ?W)] => change (sync (self W)) with (sync (self w))
  end.
  rewrite Hsync. reflexivity.
Qed.

End Opening.
Section ConstructorOnPath.

Context {buf chunk : Type} {content : Content buf chunk}.

(** The constructor on a path, in deferred mode: no system call yet. *)
Lemma SonicBoom_on_path_deferred fuel opts answers p :
  (if dest_truthy (o_fd opts) then o_fd opts else o_dest opts) = Some (Str p) ->
  bool_or (o_sync opts) false = false ->
  num_or (o_minLength opts) 0 < num_or (o_maxWrite opts) MAX_WRITE ->
  SonicBoom (buf := buf) (chunk := chunk) (S fuel) opts answers
  = Returned tt
      (mkWorld (opening (fields opts)) answers []
         [if mkdir (fields (buf := buf) (chunk := chunk) opts)
          then fs_mkdir p (open_flags (fields (buf := buf) (chunk := chunk) opts))
                 (o_mode opts)
          else fs_open p (open_flags (fields (buf := buf) (chunk := chunk) opts))
                 (o_mode opts)]
         [] [] [] 0 0 0).
Proof.
  intros Hdest Hsync Hthr. unfold SonicBoom. rewrite Hdest.
  unfold bind at 1. unfold bind at 1.
  rewrite openFile_new_deferred by exact Hsync.
  unfold this at 1. cbv beta iota.
  change (minLength (self (with_tasks _ (with_self opening _))))
    with (num_or (o_minLength opts) 0).
  change (maxWrite (self (with_tasks _ (with_self opening _))))
    with (num_or (o_maxWrite opts) MAX_WRITE).
  destruct (Z.geb_spec (num_or (o_minLength opts) 0) (num_or (o_maxWrite opts) MAX_WRITE))
    as [Hge | _]; [lia | ].
  reflexivity.
Qed.

End ConstructorOnPath.

Lemma complete_at {buf chunk} {content : Content buf chunk} fuel i r t
      (w : world buf chunk) :
  nth_error (tasks w) i = Some t ->
  complete fuel i r w = run fuel t r (with_tasks (remove_nth i (tasks w)) w).
Proof. intros H. unfold complete. rewrite H. reflexivity. Qed.

(** A text writer that is opening buffers what it is given. *)
Lemma write_while_opening fuel data (w0 : world jsstring jsstring) :
  destroyed (self w0) = false -> _writing (self w0) = true ->
  maxLength (self w0) = 0 -> _bufs (self w0) = [] -> _len (self w0) = 0 ->
  exists w1 answer,
    write fuel data w0 = Returned answer w1
    /\ tasks w1 = tasks w0 /\ trace w1 = trace w0 /\ replies w1 = replies w0
    /\ ready_once w1 = ready_once w0
    /\ _bufs (self w1) = [data] /\ _len (self w1) = len data
    /\ _writingBuf (self w1) = _writingBuf (self w0)
    /\ _lens (self w1) = _lens (self w0)
    /\ sync (self w1) = sync (self w0) /\ minLength (self w1) = minLength (self w0)
    /\ destroyed (self w1) = false.
Proof.
  intros Hlive Hwr Hml Hb0 Hl0.
  rewrite (write_accepts fuel w0 data Hlive (or_introl Hml)).
  rewrite dispatch_and_answer_holds by (left; exact Hwr).
  rewrite Hb0, Hl0. cbn [enqueue_text].
  eexists. eexists. split; [reflexivity | ].
  cbn. rewrite Hlive. repeat split; reflexivity.
Qed.

(** [fs.open] answers with a descriptor while one chunk of text waits. *)
Lemma open_completes_with_data_waiting fuel p flags mode0 newfd data
      (w1 : world jsstring jsstring) :
  tasks w1 = [fs_open p flags mode0] -> ready_once w1 = [] ->
  sync (self w1) = false -> destroyed (self w1) = false ->
  _writingBuf (self w1) = [] -> _bufs (self w1) = [data] ->
  minLength (self w1) < _len (self w1) ->
  exists w2,
    complete (S (S (S (S fuel)))) 0 (Done newfd) w1 = Returned tt w2
    /\ fd (self w2) = newfd /\ file (self w2) = Some p
    /\ trace w2 = trace w1 ++ [SysOpen p flags mode0 (Done newfd); Emit EvReady]
    /\ tasks w2 = [fs_write newfd data]
    /\ _writingBuf (self w2) = data /\ _bufs (self w2) = []
    /\ replies w2 = replies w1.
Proof.
  intros Hk Hr Hs Hlive Hwb Hb Hlen.
  assert (Hnth : nth_error (tasks w1) 0 = Some (fs_open p flags mode0))
    by (rewrite Hk; reflexivity).
  rewrite (@complete_at _ _ _ _ _ _ _ _ Hnth). unfold run.
  unfold bind at 1. unfold log at 1. cbv beta iota.
  match goal with
  | |- exists w2, fileOpened _ _ _ _ ?W = _ /\ _ => set (w1' := W)
  end.
  assert (Hnext : next_chunk (_writingBuf (self w1')) (_bufs (self w1')) (_lens (self w1'))
                  = (inr data, [], _lens (self w1))).
  { unfold w1'. cbn. rewrite Hwb, Hb. reflexivity. }
  rewrite (fileOpened_deferred_starts (S fuel) p newfd w1' (b := data) (bufs' := [])
             (lens' := _lens (self w1))); try assumption.
  eexists. split; [reflexivity | ].
  unfold w1'. cbn. rewrite Hk, <- app_assoc. repeat split; reflexivity.
Qed.

(** X12. A text writer constructed on a path in deferred mode, without
    [mkdir], with [minLength] below [maxWrite] and with no drop threshold
    ([maxLength] 0), makes no system call in the constructor: it hands
    [fs.open] to the runtime, with flag "a" unless [append] is false.  Data
    longer than [minLength] written before the file is open is only
    buffered.  When [fs.open] answers with a descriptor, the writer takes
    it, records the path, emits ['ready'], and hands the buffered data to
    [fs.write] on that descriptor. *)
Theorem data_written_while_opening_goes_to_the_new_descriptor :
  forall fuel opts answers p data newfd,
    (if dest_truthy (o_fd opts) then o_fd opts else o_dest opts) = Some (Str p) ->
    bool_or (o_sync opts) false = false ->
    bool_or (o_mkdir opts) false = false ->
    num_or (o_minLength opts) 0 < num_or (o_maxWrite opts) MAX_WRITE ->
    num_or (o_minLength opts) 0 < len data ->
    num_or (o_maxLength opts) 0 = 0 ->
    let flags :=
      if bool_or (match o_append opts with Some b => Some b | None => Some true end) false
      then "a" else "w" in
    exists w0 w1 w2 answer,
      SonicBoom (4 + fuel) opts answers = Returned tt w0
      /\ tasks w0 = [fs_open p flags (o_mode opts)] /\ trace w0 = []
      /\ fd (self w0) = -1
      /\ write (4 + fuel) data w0 = Returned answer w1
      /\ tasks w1 = tasks w0 /\ trace w1 = [] /\ replies w1 = answers
      /\ complete (4 + fuel) 0 (Done newfd) w1 = Returned tt w2
      /\ fd (self w2) = newfd /\ file (self w2) = Some p
      /\ trace w2 = [SysOpen p flags (o_mode opts) (Done newfd); Emit EvReady]
      /\ tasks w2 = [fs_write newfd data]
      /\ _writingBuf (self w2) = data /\ _bufs (self w2) = []
      /\ replies w2 = answers.
Proof.
  intros fuel opts answers p data newfd Hdest Hsync Hmkdir Hthr Hdata Hmax flags.
  change (4 + fuel)%nat with (S (S (S (S fuel)))).
  pose proof (SonicBoom_on_path_deferred (content := Utf8) (S (S (S fuel))) opts answers
                Hdest Hsync Hthr) as Hnew.
  change (mkdir (fields (buf := jsstring) (chunk := jsstring) opts))
    with (bool_or (o_mkdir opts) false) in Hnew.
  rewrite Hmkdir in Hnew.
  change (open_flags (fields (buf := jsstring) (chunk := jsstring) opts)) with flags in Hnew.
  match type of Hnew with
  | _ = Returned tt ?W => set (w0 := W) in *
  end.
  assert (Hw0 : destroyed (self w0) = false /\ _writing (self w0) = true
                /\ maxLength (self w0) = 0 /\ _bufs (self w0) = []
                /\ _len (self w0) = 0 /\ sync (self w0) = false
                /\ minLength (self w0) = num_or (o_minLength opts) 0
                /\ _writingBuf (self w0) = [] /\ ready_once w0 = []
                /\ tasks w0 = [fs_open p flags (o_mode opts)]
                /\ trace w0 = [] /\ replies w0 = answers /\ fd (self w0) = -1).
  { unfold w0. cbn. rewrite Hmax, Hsync. repeat split; reflexivity. }
  destruct Hw0 as (Hlive & Hwr & Hml & Hb0 & Hl0 & Hs0 & Hmin0 & Hwb0 & Hr0 & Hk0
                   & Ht0 & Hrp0 & Hfd0).
  clearbody w0.
  destruct (@write_while_opening (S (S (S (S fuel)))) data w0 Hlive Hwr Hml Hb0 Hl0)
    as (w1 & answer & Hwrite & Hk1 & Ht1 & Hrp1 & Hr1 & Hb1 & Hl1 & Hwb1 & _ & Hs1
        & Hmin1 & Hlive1).
  destruct (@open_completes_with_data_waiting fuel p flags (o_mode opts) newfd data w1)
    as (w2 & Hopen & Hfd2 & Hfile2 & Ht2 & Hk2 & Hwb2 & Hb2 & Hrp2);
    [congruence | congruence | congruence | exact Hlive1 | congruence | exact Hb1
     | rewrite Hmin1, Hl1, Hmin0; exact Hdata | ].
  rewrite Ht1, Ht0 in Ht2.
  exists w0, w1, w2, answer.
  repeat split; try assumption; congruence.
Qed.

(** [{ dest: 'app.log', sync: false }]: "hi" is written before the file is
    open and goes to descriptor 7 when it is. *)
Lemma data_written_while_opening_goes_to_the_new_descriptor_witness :
  exists w0 w1 w2 answer,
    SonicBoom 4 (on_file "app.log" false false true) [] = Returned tt w0
    /\ tasks w0 = [fs_open "app.log" "a" None] /\ trace w0 = []
    /\ fd (self w0) = -1
    /\ write 4 [104; 105] w0 = Returned answer w1
    /\ tasks w1 = tasks w0 /\ trace w1 = [] /\ replies w1 = []
    /\ complete 4 0 (Done 7) w1 = Returned tt w2
    /\ fd (self w2) = 7 /\ file (self w2) = Some "app.log"
    /\ trace w2 = [SysOpen "app.log" "a" None (Done 7); Emit EvReady]
    /\ tasks w2 = [fs_write 7 [104; 105]]
    /\ _writingBuf (self w2) = [104; 105] /\ _bufs (self w2) = []
    /\ replies w2 = [].
Proof.
  apply (@data_written_while_opening_goes_to_the_new_descriptor
           0 (on_file "app.log" false false true) [] "app.log" [104; 105] 7).
  - reflexivity.
  - reflexivity.
  - reflexivity.
  - vm_compute. reflexivity.
  - vm_compute. reflexivity.
  - reflexivity.
Defined.
Section OpeningInBlockingMode.

Context {buf chunk : Type} {content : Content buf chunk}.

Lemma fileOpened_sync_idle fuel target newfd (w : world buf chunk) :
  sync (self w) = true ->
  _len (self w) <= minLength (self w) \/ destroyed (self w) = true ->
  fileOpened (S fuel) target None newfd w
  = Returned tt (with_tasks (tasks w ++ [tick_ready]) (with_self (opened target newfd) w)).
Proof.
  intros Hsync Hidle. rewrite fileOpened_S. unfold fileOpened_body.
  do 5 (unfold bind at 1; unfold upd at 1; cbv beta iota).
  unfold bind at 1. unfold this at 1. cbv beta iota.
  match goal with
  | |- context [sync (self ?W)] => change (sync (self W)) with (sync (self w))
  end.
  rewrite Hsync. unfold bind at 1. unfold schedule at 1. cbv beta iota.
  unfold bind at 1. unfold this at 1. cbv beta iota.
  match goal with
  | |- (if ?c then _ else _) _ = _ => change c with false
  end. cbv iota.
  match goal with
  | |- when ?c _ _ = _ => replace c with false; [reflexivity | ]
  end.
  symmetry. cbn.
  destruct Hidle as [Hle | Hd].
  - destruct (Z.gtb_spec (_len (self w)) (minLength (self w))); [lia | reflexivity].
  - rewrite Hd. apply andb_false_r.
Qed.

Lemma fileOpened_sync_failed fuel target err (w : world buf chunk) :
  sync (self w) = true ->
  fileOpened (S fuel) target (Some err) 0 w
  = Returned tt (with_tasks (tasks w ++ [tick_error err]) (with_self not_opened w)).
Proof.
  intros Hsync. rewrite fileOpened_S. unfold fileOpened_body.
  do 3 (unfold bind at 1; unfold upd at 1; cbv beta iota).
  unfold bind at 1. unfold this at 1. cbv beta iota.
  match goal with
  | |- context [sync (self ?W)] => change (sync (self W)) with (sync (self w))
  end.
  rewrite Hsync. reflexivity.
Qed.

(** Blocking mode: [openFile] makes the directory when asked to, opens the
    file, and a failure of either is handed to [fileOpened] and thrown on. *)
Lemma openFile_sync fuel target (w : world buf chunk) :
  sync (self w) = true ->
  _len (self w) <= minLength (self w) \/ destroyed (self w) = true ->
  let flags := open_flags (self w) in
  let made r := with_trace (trace w ++ [SysMkdir target r]) in
  let tried r (w' : world buf chunk) :=
    with_trace (trace w' ++ [SysOpen target flags (mode (self w)) r]) w' in
  let gave_up err (w' : world buf chunk) :=
    Thrown (A := unit) err
      (with_tasks (tasks w' ++ [tick_error err]) (with_self not_opened w')) in
  openFile (S (S fuel)) target w
  = match mkdir (self w), replies w with
    | false, Done newfd :: more =>
        let w' := tried (Done newfd) (with_replies more (with_self opening w)) in
        Returned tt (with_tasks (tasks w' ++ [tick_ready])
                       (with_self (opened target newfd) w'))
    | false, Failed c :: more =>
        gave_up (SystemError c) (tried (Failed c) (with_replies more (with_self opening w)))
    | true, Failed c :: more =>
        gave_up (SystemError c) (made (Failed c) (with_replies more (with_self opening w)))
    | true, Done v :: Done newfd :: more =>
        let w' := tried (Done newfd)
                    (with_replies more (made (Done v) (with_self opening w))) in
        Returned tt (with_tasks (tasks w' ++ [tick_ready])
                       (with_self (opened target newfd) w'))
    | true, Done v :: Failed c :: more =>
        gave_up (SystemError c)
          (tried (Failed c) (with_replies more (made (Done v) (with_self opening w))))
    | true, [Done v] => Waiting
    | _, [] => Waiting
    end.
Proof.
  intros Hsync Hidle flags made tried gave_up. rewrite openFile_S. unfold openFile_body.
  do 3 (unfold bind at 1; unfold upd at 1; cbv beta iota).
  unfold bind at 1. unfold this at 1. cbv beta iota.
  match goal with
  | |- context [sync (self ?W)] => change (sync (self W)) with (sync (self w))
  end.
  rewrite Hsync.
  match goal with
  | |- context [mkdir (self ?W)] => change (mkdir (self W)) with (mkdir (self w))
  end.
  unfold try_catch, when.
  destruct (mkdir (self w)).
  - unfold bind at 1. unfold bind at 1. unfold blocking at 1. cbn [replies with_self].
    destruct (replies w) as [ | [v | c] more]; [reflexivity | | ].
    + unfold ret. unfold bind at 1. unfold blocking at 1. cbn [replies with_trace with_replies].
      destruct more as [ | [newfd | c] more]; [reflexivity | | ].
      * rewrite fileOpened_sync_idle; [reflexivity | exact Hsync | exact Hidle].
      * unfold bind at 1. rewrite fileOpened_sync_failed by exact Hsync. reflexivity.
    + unfold bind at 1. rewrite fileOpened_sync_failed by exact Hsync. reflexivity.
  - unfold bind at 1. unfold ret at 1. unfold bind at 1. unfold blocking at 1.
    cbn [replies with_self].
    destruct (replies w) as [ | [newfd | c] more]; [reflexivity | | ].
    + rewrite fileOpened_sync_idle; [reflexivity | exact Hsync | exact Hidle].
    + unfold bind at 1. rewrite fileOpened_sync_failed by exact Hsync. reflexivity.
Qed.

(** The constructor's [openFile], run before [release] is assigned, does the
    same as long as [fileOpened] has nothing to dispatch. *)
Lemma openFile_new_idle fuel fuel' target (w : world buf chunk) :
  sync (self w) = true ->
  _len (self w) <= minLength (self w) \/ destroyed (self w) = true ->
  openFile_new fuel target w = openFile (S (S fuel')) target w.
Proof.
  intros Hsync Hidle. rewrite openFile_S. unfold openFile_new, openFile_body.
  unfold bind at 1. unfold upd at 1. cbv beta iota. symmetry.
  unfold bind at 1. unfold upd at 1. cbv beta iota. symmetry.
  unfold bind at 1. unfold upd at 1. cbv beta iota. symmetry.
  unfold bind at 1. unfold upd at 1. cbv beta iota. symmetry.
  unfold bind at 1. unfold upd at 1. cbv beta iota. symmetry.
  unfold bind at 1. unfold upd at 1. cbv beta iota. symmetry.
  unfold bind at 1. unfold this at 1. cbv beta iota. symmetry.
  unfold bind at 1. unfold this at 1. cbv beta iota. symmetry.
  set (w1 := with_self (set_asyncDrainScheduled false) _).
  assert (Hsync1 : sync (self w1) = true) by exact Hsync.
  assert (Hidle1 : _len (self w1) <= minLength (self w1)
                   \/ destroyed (self w1) = true) by exact Hidle.
  clearbody w1. rewrite Hsync1.
  assert (Hnone : forall newfd rs tr,
             fileOpened_body (_actualWrite_body release_unset) (emit_ready fuel)
               target None newfd (with_trace tr (with_replies rs w1))
             = fileOpened (S fuel') target None newfd
                 (with_trace tr (with_replies rs w1))).
  { intros. apply fileOpened_new_idle; [exact Hsync1 | exact Hidle1]. }
  assert (Hsome : forall e rs tr,
             fileOpened_body (_actualWrite_body release_unset) (emit_ready fuel)
               target (Some e) 0 (with_trace tr (with_replies rs w1))
             = fileOpened (S fuel') target (Some e) 0
                 (with_trace tr (with_replies rs w1))).
  { intros. apply fileOpened_new_idle; [exact Hsync1 | exact Hidle1]. }
  assert (Hopened : forall newfd rs tr,
             exists w2, fileOpened (S fuel') target None newfd
                          (with_trace tr (with_replies rs w1)) = Returned tt w2).
  { intros. eexists. apply fileOpened_sync_idle; [exact Hsync1 | exact Hidle1]. }
  unfold try_catch, when, bind, blocking, ret, throw.
  destruct (mkdir (self w1)).
  - destruct (replies w1) as [ | [v | c] rest]; [reflexivity | | ].
    + cbn [replies with_trace with_replies].
      destruct rest as [ | [v' | c'] rest']; [reflexivity | | ].
      * change (with_replies rest' (with_trace ?t (with_replies ?r w1)))
          with (with_replies rest' (with_trace t w1)).
        change (with_trace ?t' (with_replies rest' (with_trace ?t w1)))
          with (with_trace t' (with_replies rest' w1)).
        rewrite Hnone. destruct (Hopened v' rest'
          (trace (with_trace (trace w1 ++ [SysMkdir target (Done v)])
                    (with_replies (Done v' :: rest') w1)) ++
           [SysOpen target (if append (self w1) then "a" else "w")
              (mode (self w1)) (Done v')])) as (w2 & ->). reflexivity.
      * change (with_replies rest' (with_trace ?t (with_replies ?r w1)))
          with (with_replies rest' (with_trace t w1)).
        change (with_trace ?t' (with_replies rest' (with_trace ?t w1)))
          with (with_trace t' (with_replies rest' w1)).
        rewrite Hsome. reflexivity.
    + rewrite Hsome. reflexivity.
  - destruct (replies w1) as [ | [v | c] rest]; [reflexivity | | ].
    + rewrite Hnone. destruct (Hopened v rest
          (trace w1 ++ [SysOpen target (if append (self w1) then "a" else "w")
                          (mode (self w1)) (Done v)])) as (w2 & ->). reflexivity.
    + rewrite Hsome. reflexivity.
Qed.

End OpeningInBlockingMode.

Section ConstructorOnPathBlocking.

Context {buf chunk : Type} {content : Content buf chunk}.

(** X13. The constructor on a path in blocking mode, with a [minLength]
    that is not negative.  Without [mkdir] it calls [fs.openSync] (flag "a"
    unless [append] is false) before it checks the thresholds: when the open
    succeeds and [minLength] is below [maxWrite] it returns an idle writer
    on the new descriptor with the ['ready'] tick scheduled; when the open
    succeeds and [minLength] is not below [maxWrite] it throws with the file
    left open; when the open fails it throws that error, leaves [fd] at -1
    and the writer neither opening nor writing, and schedules the tick that
    reports the error to listeners.  With [mkdir], a failure to make the
    directory is thrown in the same way and the file is never opened. *)
Theorem constructor_on_path_in_blocking_mode :
  forall fuel opts answers p,
    (if dest_truthy (o_fd opts) then o_fd opts else o_dest opts) = Some (Str p) ->
    bool_or (o_sync opts) false = true ->
    0 <= num_or (o_minLength opts) 0 ->
    let flags :=
      if bool_or (match o_append opts with Some b => Some b | None => Some true end) false
      then "a" else "w" in
    (bool_or (o_mkdir opts) false = false ->
     (forall newfd more,
         answers = Done newfd :: more ->
         (num_or (o_minLength opts) 0 < num_or (o_maxWrite opts) MAX_WRITE ->
          exists w : world buf chunk,
            SonicBoom (2 + fuel) opts answers = Returned tt w
            /\ fd (self w) = newfd /\ file (self w) = Some p
            /\ trace w = [SysOpen p flags (o_mode opts) (Done newfd)]
            /\ tasks w = [tick_ready] /\ replies w = more
            /\ _opening (self w) = false /\ _writing (self w) = false)
         /\ (num_or (o_maxWrite opts) MAX_WRITE <= num_or (o_minLength opts) 0 ->
             exists w : world buf chunk,
               SonicBoom (2 + fuel) opts answers
               = Thrown (Error ("minLength should be smaller than maxWrite ("
                                  ++ decimal (num_or (o_maxWrite opts) MAX_WRITE)
                                  ++ ")")) w
               /\ fd (self w) = newfd
               /\ trace w = [SysOpen p flags (o_mode opts) (Done newfd)]
               /\ tasks w = [tick_ready]))
     /\ (forall c more,
            answers = Failed c :: more ->
            exists w : world buf chunk,
              SonicBoom (2 + fuel) opts answers = Thrown (SystemError c) w
              /\ fd (self w) = -1 /\ file (self w) = None
              /\ trace w = [SysOpen p flags (o_mode opts) (Failed c)]
              /\ tasks w = [tick_error (SystemError c)] /\ replies w = more
              /\ _opening (self w) = false /\ _writing (self w) = false))
    /\ (bool_or (o_mkdir opts) false = true ->
        forall c more,
          answers = Failed c :: more ->
          exists w : world buf chunk,
            SonicBoom (2 + fuel) opts answers = Thrown (SystemError c) w
            /\ fd (self w) = -1 /\ file (self w) = None
            /\ trace w = [SysMkdir p (Failed c)]
            /\ tasks w = [tick_error (SystemError c)] /\ replies w = more
            /\ _opening (self w) = false /\ _writing (self w) = false).
Proof.
  intros fuel opts answers p Hdest Hsync Hmin flags.
  assert (Hctor :
            SonicBoom (buf := buf) (chunk := chunk) (2 + fuel) opts answers
            = match openFile (S (S fuel)) p
                      (mkWorld (fields opts) answers [] [] [] [] [] 0 0 0) with
              | Returned _ w' =>
                  if num_or (o_minLength opts) 0 >=? num_or (o_maxWrite opts) MAX_WRITE
                  then Thrown (Error ("minLength should be smaller than maxWrite ("
                                        ++ decimal (num_or (o_maxWrite opts) MAX_WRITE)
                                        ++ ")")) w'
                  else Returned tt w'
              | Thrown e w' => Thrown e w'
              | Waiting => Waiting
              | OutOfFuel => OutOfFuel
              end).
  { change (2 + fuel)%nat with (S (S fuel)).
    unfold SonicBoom. rewrite Hdest. unfold bind at 1.
    rewrite (@openFile_new_idle _ _ _ (S (S fuel)) fuel p
               (mkWorld (fields opts) answers [] [] [] [] [] 0 0 0)
               Hsync (or_introl Hmin)).
    pose proof (moves_engine (buf := buf) (chunk := chunk) (S (S fuel))) as Hmoves.
    destruct Hmoves as (_ & _ & _ & Hmv & _).
    specialize (Hmv p (mkWorld (fields opts) answers [] [] [] [] [] 0 0 0)).
    destruct (openFile (S (S fuel)) p (mkWorld (fields opts) answers [] [] [] [] [] 0 0 0))
      as [u w' | e w' | | ]; try reflexivity.
    destruct Hmv as (Hcfg & _). unfold configuration in Hcfg.
    assert (Hmin' : minLength (self w') = num_or (o_minLength opts) 0)
      by (injection Hcfg; intros; assumption).
    assert (Hmax' : maxWrite (self w') = num_or (o_maxWrite opts) MAX_WRITE)
      by (injection Hcfg; intros; assumption).
    unfold bind, this, when. cbv beta iota. rewrite Hmin', Hmax'.
    destruct u.
    destruct (num_or (o_minLength opts) 0 >=? num_or (o_maxWrite opts) MAX_WRITE);
      reflexivity. }
  rewrite Hctor. clear Hctor.
  rewrite openFile_sync; [ | exact Hsync | left; exact Hmin].
  cbv zeta.
  change (mkdir (self (mkWorld (fields (buf := buf) (chunk := chunk) opts)
                         answers [] [] [] [] [] 0 0 0)))
    with (bool_or (o_mkdir opts) false).
  cbn [replies].
  split.
  - intros Hmk. rewrite Hmk. split.
    + intros newfd more ->. split; intros Hthr.
      * destruct (Z.geb_spec (num_or (o_minLength opts) 0)
                             (num_or (o_maxWrite opts) MAX_WRITE)) as [Hge | _]; [lia | ].
        eexists. split; [reflexivity | ]. cbn. repeat split; reflexivity.
      * destruct (Z.geb_spec (num_or (o_minLength opts) 0)
                             (num_or (o_maxWrite opts) MAX_WRITE)) as [_ | Hlt]; [ | lia].
        eexists. split; [reflexivity | ]. cbn. repeat split; reflexivity.
    + intros c more ->. eexists. split; [reflexivity | ]. cbn. repeat split; reflexivity.
  - intros Hmk. rewrite Hmk. intros c more ->.
    eexists. split; [reflexivity | ]. cbn. repeat split; reflexivity.
Qed.

End ConstructorOnPathBlocking.

(** [{ dest: 'app.log', sync: true }] when the open succeeds with descriptor 7
    and when it fails with EACCES; with [mkdir] when the directory cannot be
    made. *)
Lemma constructor_on_path_in_blocking_mode_witness :
  (exists w : world jsstring jsstring,
      SonicBoom 2 (on_file "app.log" true false true) [Done 7] = Returned tt w
      /\ fd (self w) = 7 /\ file (self w) = Some "app.log"
      /\ trace w = [SysOpen "app.log" "a" None (Done 7)]
      /\ tasks w = [tick_ready] /\ replies w = []
      /\ _opening (self w) = false /\ _writing (self w) = false)
  /\ (exists w : world jsstring jsstring,
         SonicBoom 2 (on_file "app.log" true false false) [Failed "EACCES"]
         = Thrown (SystemError "EACCES") w
         /\ fd (self w) = -1 /\ file (self w) = None
         /\ trace w = [SysOpen "app.log" "w" None (Failed "EACCES")]
         /\ tasks w = [tick_error (SystemError "EACCES")] /\ replies w = []
         /\ _opening (self w) = false /\ _writing (self w) = false)
  /\ (exists w : world Buffer (list Buffer),
         SonicBoom 2 (on_file "logs/app.log" true true true) [Failed "EACCES"; Done 7]
         = Thrown (SystemError "EACCES") w
         /\ fd (self w) = -1 /\ file (self w) = None
         /\ trace w = [SysMkdir "logs/app.log" (Failed "EACCES")]
         /\ tasks w = [tick_error (SystemError "EACCES")] /\ replies w = [Done 7]
         /\ _opening (self w) = false /\ _writing (self w) = false).
Proof.
  split; [ | split].
  - apply (proj1 (proj1 (@constructor_on_path_in_blocking_mode _ _ Utf8 0
                           (on_file "app.log" true false true) [Done 7] "app.log"
                           eq_refl eq_refl ltac:(vm_compute; discriminate)) eq_refl)
                 7 [] eq_refl).
    vm_compute. reflexivity.
  - apply (proj2 (proj1 (@constructor_on_path_in_blocking_mode _ _ Utf8 0
                           (on_file "app.log" true false false) [Failed "EACCES"]
                           "app.log"
                           eq_refl eq_refl ltac:(vm_compute; discriminate)) eq_refl)
                 "EACCES" [] eq_refl).
  - apply (proj2 (@constructor_on_path_in_blocking_mode _ _ Raw 0
                    (on_file "logs/app.log" true true true) [Failed "EACCES"; Done 7]
                    "logs/app.log"
                    eq_refl eq_refl ltac:(vm_compute; discriminate)) eq_refl
                 "EACCES" [Done 7] eq_refl).
Defined.
Section OpenFailsInDeferredMode.

Context {buf chunk : Type} {content : Content buf chunk}.

Lemma emit_error_unheard err (w : world buf chunk) :
  error_listeners w = 0%nat -> error_once w = [] ->
  emit (EvError err) w = Thrown err w.
Proof.
  intros Hl Ho. unfold emit, listenerCount_error. rewrite Hl, Ho. reflexivity.
Qed.

Lemma emit_error_heard err (w : world buf chunk) :
  error_listeners w <> 0%nat -> error_once w = [] ->
  emit (EvError err) w = Returned tt (with_trace (trace w ++ [Emit (EvError err)]) w).
Proof.
  intros Hl Ho. unfold emit, listenerCount_error. rewrite Ho.
  cbn [List.length]. rewrite Nat.add_0_r.
  destruct (Nat.eqb_spec (error_listeners w) 0) as [E | _]; [contradiction | ].
  unfold bind, log. cbn.
  destruct w; cbn in *; subst; reflexivity.
Qed.

(** X14. Deferred mode, when the file cannot be opened: the callback of
    [fs.open] leaves the descriptor and the path as they were, clears
    [_opening], [_writing] and [_reopening], keeps what is buffered, and
    emits ['error'] -- which throws the error out of the callback when
    nobody listens.  With [mkdir], a failure to make the directory is
    handled in the same way and [fs.open] is never called; only when the
    directory is made is [fs.open] handed to the runtime. *)
Theorem failed_open_in_deferred_mode :
  forall fuel (w : world buf chunk) i target flags mode0 c,
    sync (self w) = false -> error_once w = [] ->
    let failed (t : task buf) (o : obs buf) :=
      nth_error (tasks w) i = Some t ->
      exists w',
        complete (S (S fuel)) i (Failed c) w
        = (if Nat.eqb (error_listeners w) 0
           then Thrown (SystemError c) w' else Returned tt w')
        /\ trace w' = trace w ++ o :: (if Nat.eqb (error_listeners w) 0 then []
                                       else [Emit (EvError (SystemError c))])
        /\ tasks w' = remove_nth i (tasks w)
        /\ fd (self w') = fd (self w) /\ file (self w') = file (self w)
        /\ _opening (self w') = false /\ _writing (self w') = false
        /\ _reopening (self w') = false
        /\ _bufs (self w') = _bufs (self w) /\ _len (self w') = _len (self w) in
    failed (fs_open target flags mode0) (SysOpen target flags mode0 (Failed c))
    /\ failed (fs_mkdir target flags mode0) (SysMkdir target (Failed c))
    /\ (forall v,
           nth_error (tasks w) i = Some (fs_mkdir target flags mode0) ->
           exists w',
             complete (S (S fuel)) i (Done v) w = Returned tt w'
             /\ trace w' = trace w ++ [SysMkdir target (Done v)]
             /\ tasks w' = remove_nth i (tasks w) ++ [fs_open target flags mode0]
             /\ self w' = self w).
Proof.
  intros fuel w i target flags mode0 c Hsync Herr failed.
  assert (Hfail : forall t o,
             run (S (S fuel)) t (Failed c)
             = (log o ;; fileOpened (S (S fuel)) target (Some (SystemError c)) 0) ->
             failed t o).
  { intros t o Hrun Hnth.
    rewrite (@complete_at _ _ _ _ _ _ _ _ Hnth), Hrun.
    unfold bind at 1. unfold log at 1. cbv beta iota.
    rewrite fileOpened_deferred_failed by exact Hsync.
    destruct (Nat.eqb_spec (error_listeners w) 0) as [E | E].
    - rewrite emit_error_unheard; [ | exact E | exact Herr].
      eexists. split; [reflexivity | ]. cbn. repeat split; reflexivity.
    - rewrite emit_error_heard; [ | exact E | exact Herr].
      eexists. split; [reflexivity | ]. cbn. rewrite <- app_assoc.
      repeat split; reflexivity. }
  split; [apply Hfail; reflexivity | ].
  split; [apply Hfail; reflexivity | ].
  intros v Hnth. rewrite (@complete_at _ _ _ _ _ _ _ _ Hnth).
  eexists. split; [reflexivity | ]. repeat split; reflexivity.
Qed.

End OpenFailsInDeferredMode.

(** [{ dest: 'app.log' }] when [fs.open] fails with EACCES and nobody
    listens, and when the application listens. *)
Lemma failed_open_in_deferred_mode_witness :
  (exists w w',
      text (on_path "app.log") [] = Returned tt w
      /\ complete 2 0 (Failed "EACCES") w = Thrown (SystemError "EACCES") w'
      /\ trace w' = [SysOpen "app.log" "a" None (Failed "EACCES")]
      /\ tasks w' = []
      /\ fd (self w') = -1 /\ file (self w') = None
      /\ _opening (self w') = false /\ _writing (self w') = false)
  /\ (exists w w',
         text (on_path "app.log") [] >>> on_error = Returned tt w
         /\ complete 2 0 (Failed "EACCES") w = Returned tt w'
         /\ trace w' = [SysOpen "app.log" "a" None (Failed "EACCES");
                        Emit (EvError (SystemError "EACCES"))]
         /\ tasks w' = []
         /\ fd (self w') = -1 /\ _opening (self w') = false).
Proof.
  split; eexists.
  - match goal with
    | |- exists w', ?O = Returned tt ?W /\ _ =>
        assert (Hw : O = Returned tt W) by (vm_compute; reflexivity);
        destruct (proj1 (@failed_open_in_deferred_mode _ _ Utf8 0 W 0 "app.log" "a" None
                           "EACCES" eq_refl eq_refl) eq_refl)
          as (w' & Hrun & Ht & Hk & Hfd & Hfile & Hop & Hwr & _)
    end.
    exists w'. split; [exact Hw | ].
    repeat split; assumption.
  - match goal with
    | |- exists w', ?O = Returned tt ?W /\ _ =>
        assert (Hw : O = Returned tt W) by (vm_compute; reflexivity);
        destruct (proj1 (@failed_open_in_deferred_mode _ _ Utf8 0 W 0 "app.log" "a" None
                           "EACCES" eq_refl eq_refl) eq_refl)
          as (w' & Hrun & Ht & Hk & Hfd & Hfile & Hop & Hwr & _)
    end.
    exists w'. split; [exact Hw | ].
    repeat split; assumption.
Defined.
(** ** [reopen] *)

Section Reopening.

Context {buf chunk : Type} {content : Content buf chunk}.

(** [reopen] on a writer with a path and no write in flight, deferred
    mode. *)
Lemma reopen_idle fuel newfile (w : world buf chunk) :
  destroyed (self w) = false -> _opening (self w) = false -> _ending (self w) = false ->
  truthy (file (self w)) = true -> _writing (self w) = false ->
  sync (self w) = false -> mkdir (self w) = false ->
  reopen (S (S fuel)) newfile w
  = Returned tt
      (with_tasks
         (tasks w ++ [fs_open (unwrap (or_else newfile (file (self w))))
                        (open_flags (self w)) (mode (self w))])
         (with_self opening
            (with_ready_once (ready_once w ++ [LCloseOld (fd (self w))])
               (with_self (set_reopening true) w)))).
Proof.
  intros Hlive Hop Hend Hfile Hwr Hsync Hmk. rewrite reopen_S. unfold reopen_body.
  unfold bind at 1. unfold this at 1. cbv beta iota.
  rewrite Hlive, Hop, Hend, Hfile. cbn [negb].
  unfold bind at 1. unfold upd at 1. cbv beta iota. rewrite Hwr.
  unfold bind at 1. unfold once_ready at 1. cbv beta iota.
  rewrite openFile_deferred by exact Hsync.
  match goal with
  | |- context [mkdir (self ?W)] => change (mkdir (self W)) with (mkdir (self w))
  end.
  rewrite Hmk. reflexivity.
Qed.

(** [reopen] while a write is in flight only leaves a mark. *)
Lemma reopen_busy fuel newfile (w : world buf chunk) :
  destroyed (self w) = false -> _opening (self w) = false -> _ending (self w) = false ->
  truthy (file (self w)) = true -> _writing (self w) = true ->
  reopen (S fuel) newfile w = Returned tt (with_self (set_reopening true) w).
Proof.
  intros Hlive Hop Hend Hfile Hwr. rewrite reopen_S. unfold reopen_body.
  unfold bind at 1. unfold this at 1. cbv beta iota.
  rewrite Hlive, Hop, Hend, Hfile. cbn [negb].
  unfold bind at 1. unfold upd at 1. cbv beta iota. rewrite Hwr. reflexivity.
Qed.

(** ['ready'] when the only listener of the writer's own is the one
    [reopen] left to close the old descriptor. *)
Lemma emit_ready_closes_old fuel old (w : world buf chunk) :
  ready_once w = [LCloseOld old] ->
  emit_ready (S (S (S fuel))) w
  = Returned tt
      (let w' := with_ready_once [] (with_trace (trace w ++ [Emit EvReady]) w) in
       if old =? fd (self w) then w'
       else with_tasks (tasks w ++ [fs_close_old old]) w').
Proof.
  intros Hr. rewrite emit_ready_S. unfold emit_ready_body.
  unfold bind at 1. unfold log at 1. cbv beta iota.
  change (ready_once (with_trace (trace w ++ [Emit EvReady]) w)) with (ready_once w).
  rewrite Hr, run_ready_S. unfold run_ready_body.
  unfold bind at 1. unfold bind at 1. unfold this at 1. cbv beta iota zeta.
  cbn [self with_ready_once with_trace].
  rewrite run_ready_S. unfold run_ready_body.
  destruct (old =? fd (self w)); reflexivity.
Qed.

Lemma fileOpened_deferred_reopened fuel target newfd old (w : world buf chunk) :
  sync (self w) = false -> ready_once w = [LCloseOld old] ->
  _len (self w) <= minLength (self w) \/ destroyed (self w) = true ->
  fileOpened (S (S (S (S fuel)))) target None newfd w
  = Returned tt
      (let w' := with_ready_once []
                   (with_trace (trace w ++ [Emit EvReady])
                      (with_self (opened target newfd) w)) in
       if old =? newfd then w' else with_tasks (tasks w ++ [fs_close_old old]) w').
Proof.
  intros Hsync Hr Hidle. rewrite fileOpened_S. unfold fileOpened_body.
  do 5 (unfold bind at 1; unfold upd at 1; cbv beta iota).
  unfold bind at 1. unfold this at 1. cbv beta iota.
  match goal with
  | |- context [sync (self ?W)] => change (sync (self W)) with (sync (self w))
  end.
  rewrite Hsync. unfold bind at 1.
  rewrite (emit_ready_closes_old fuel (old := old)) by exact Hr.
  cbv zeta. cbn [self with_self fd opened set_writing set_opening set_reopening set_file
                 set_fd].
  destruct (old =? newfd).
  - unfold bind at 1. unfold this at 1. cbv beta iota.
    match goal with
    | |- (if ?c then _ else _) _ = _ => change c with false
    end. cbv iota.
    match goal with
    | |- when ?c _ _ = _ => replace c with false; [reflexivity | ]
    end.
    symmetry. cbn.
    destruct Hidle as [Hle | Hd].
    + destruct (Z.gtb_spec (_len (self w)) (minLength (self w))); [lia | reflexivity].
    + rewrite Hd. apply andb_false_r.
  - unfold bind at 1. unfold this at 1. cbv beta iota.
    match goal with
    | |- (if ?c then _ else _) _ = _ => change c with false
    end. cbv iota.
    match goal with
    | |- when ?c _ _ = _ => replace c with false; [reflexivity | ]
    end.
    symmetry. cbn.
    destruct Hidle as [Hle | Hd].
    + destruct (Z.gtb_spec (_len (self w)) (minLength (self w))); [lia | reflexivity].
    + rewrite Hd. apply andb_false_r.
Qed.

(** The write in flight is done and [reopen] has left its mark. *)
Lemma release_reopens fuel n (w : world buf chunk) :
  _reopening (self w) = true -> destroyed (self w) = false ->
  _opening (self w) = false -> _ending (self w) = false ->
  truthy (file (self w)) = true -> sync (self w) = false ->
  mkdir (self w) = false -> _fsync (self w) = false ->
  length_of (slice (_writingBuf (self w)) n) = 0 ->
  exists w',
    release (3 + fuel) None n w = Returned tt w'
    /\ tasks w' = tasks w ++ [fs_open (unwrap (file (self w))) (open_flags (self w))
                                (mode (self w))]
    /\ trace w' = trace w ++ [Emit (EvWrite n)]
    /\ replies w' = replies w
    /\ ready_once w' = ready_once w ++ [LCloseOld (fd (self w))]
    /\ _opening (self w') = true /\ _writing (self w') = true
    /\ fd (self w') = fd (self w) /\ file (self w') = file (self w)
    /\ _bufs (self w') = _bufs (self w).
Proof.
  intros Hre Hlive Hop Hend Hfile Hsync Hmk Hfs Hrest.
  change (3 + fuel)%nat with (S (S (S fuel))).
  rewrite release_S. unfold release_body.
  unfold bind at 1. unfold emit at 1. unfold log at 1. cbv beta iota.
  unfold bind at 1. unfold upd at 1. cbv beta iota.
  unfold bind at 1. unfold this at 1. cbv beta iota.
  assert (Hgo : forall w0 : world buf chunk,
             tasks w0 = tasks w -> trace w0 = trace w ++ [Emit (EvWrite n)] ->
             replies w0 = replies w -> ready_once w0 = ready_once w ->
             (exists l, self w0 = set_len l (self w)) ->
             exists w',
               (upd (fun s : sonic buf chunk =>
                       set_writingBuf (slice (_writingBuf s) n) s);;
                s <- this;;
                (if negb (length_of (_writingBuf s) =? 0)
                 then
                  if negb (sync s)
                  then fsWrite
                  else
                   r <- attempt (release_loop (S (S fuel)));;
                   match r with
                   | inl err => release (S (S fuel)) (Some err) 0
                   | inr _ =>
                       release_completed (_actualWrite (S (S fuel)))
                         (reopen (S (S fuel)))
                   end
                 else
                  release_completed (_actualWrite (S (S fuel)))
                    (reopen (S (S fuel))))) w0 = Returned tt w'
    /\ tasks w' = tasks w ++ [fs_open (unwrap (file (self w))) (open_flags (self w))
                                (mode (self w))]
    /\ trace w' = trace w ++ [Emit (EvWrite n)]
    /\ replies w' = replies w
    /\ ready_once w' = ready_once w ++ [LCloseOld (fd (self w))]
    /\ _opening (self w') = true /\ _writing (self w') = true
    /\ fd (self w') = fd (self w) /\ file (self w') = file (self w)
    /\ _bufs (self w') = _bufs (self w)).
  { intros w0 Ht Htr Hrp Hro (l & Hs).
    assert (Hre0 : _reopening (self w0) = true) by (rewrite Hs; exact Hre).
    assert (Hlive0 : destroyed (self w0) = false) by (rewrite Hs; exact Hlive).
    assert (Hop0 : _opening (self w0) = false) by (rewrite Hs; exact Hop).
    assert (Hend0 : _ending (self w0) = false) by (rewrite Hs; exact Hend).
    assert (Hfile0 : file (self w0) = file (self w)) by (rewrite Hs; reflexivity).
    assert (Hsync0 : sync (self w0) = false) by (rewrite Hs; exact Hsync).
    assert (Hmk0 : mkdir (self w0) = false) by (rewrite Hs; exact Hmk).
    assert (Hfs0 : _fsync (self w0) = false) by (rewrite Hs; exact Hfs).
    assert (Hwb0 : _writingBuf (self w0) = _writingBuf (self w))
      by (rewrite Hs; reflexivity).
    assert (Hfd0 : fd (self w0) = fd (self w)) by (rewrite Hs; reflexivity).
    assert (Hbufs0 : _bufs (self w0) = _bufs (self w)) by (rewrite Hs; reflexivity).
    assert (Hap0 : append (self w0) = append (self w)) by (rewrite Hs; reflexivity).
    assert (Hmode0 : mode (self w0) = mode (self w)) by (rewrite Hs; reflexivity).
    clear Hs.
    unfold bind at 1. unfold upd at 1. cbv beta iota.
    unfold bind at 1. unfold this at 1. cbv beta iota.
    cbn [self with_self _writingBuf set_writingBuf]. rewrite Hwb0, Hrest.
    cbn [Z.eqb negb]. unfold release_completed.
    unfold bind at 1. unfold this at 1. cbv beta iota.
    cbn [self with_self _fsync set_writingBuf]. rewrite Hfs0.
    unfold when at 1. unfold bind at 1. unfold ret at 1. cbv beta iota.
    unfold bind at 1. unfold this at 1. cbv beta iota.
    cbn [self with_self _reopening set_writingBuf]. rewrite Hre0.
    unfold bind at 1. unfold upd at 1. cbv beta iota.
    unfold bind at 1. unfold upd at 1. cbv beta iota.
    rewrite reopen_idle;
      [ | cbn; assumption | cbn; assumption | cbn; assumption
        | cbn; rewrite Hfile0; exact Hfile | reflexivity | cbn; assumption
        | cbn; assumption ].
    eexists. split; [reflexivity | ].
    unfold open_flags.
    cbn [self with_self with_tasks with_trace with_ready_once tasks trace replies
         ready_once fd file _bufs _opening _writing append mode or_else
         opening set_writing set_opening set_reopening set_writingBuf
         set_asyncDrainScheduled].
    rewrite Ht, Htr, Hrp, Hro, Hfile0, Hfd0, Hbufs0, Hap0, Hmode0.
    destruct (file (self w)); [ | discriminate Hfile].
    repeat split; reflexivity. }
  unfold bind at 1. unfold when.
  match goal with
  | |- context [if ?c then _ else _] => destruct c
  end.
  - unfold upd at 1. cbv beta iota. apply Hgo; try reflexivity.
    eexists. cbn. reflexivity.
  - unfold ret at 1. cbv beta iota. apply Hgo; try reflexivity.
    eexists. cbn. reflexivity.
Qed.

(** X15. [reopen(file)] on a deferred writer without [mkdir] that has a
    path, is not destroyed, not opening and not ending, is idle (no write in
    flight, no more than [minLength] buffered) and has no listener of its
    own waiting for ['ready']: the call makes no system call; it marks the
    writer as reopening and hands [fs.open] to the runtime for [file], or
    for the writer's own path when [file] is missing or empty.  When that
    answers with a descriptor, the writer takes it and records the path,
    emits ['ready'], keeps what is buffered, and hands [fs.close] of the old
    descriptor to the runtime -- unless the new descriptor is the old
    one. *)
Theorem reopen_swaps_the_descriptor_and_closes_the_old_one :
  forall fuel newfile newfd (w : world buf chunk),
    destroyed (self w) = false -> _opening (self w) = false -> _ending (self w) = false ->
    truthy (file (self w)) = true -> _writing (self w) = false ->
    sync (self w) = false -> mkdir (self w) = false ->
    ready_once w = [] -> _len (self w) <= minLength (self w) ->
    let target := unwrap (or_else newfile (file (self w))) in
    let flags := open_flags (self w) in
    exists w1 w2,
      reopen (2 + fuel) newfile w = Returned tt w1
      /\ trace w1 = trace w /\ replies w1 = replies w
      /\ tasks w1 = tasks w ++ [fs_open target flags (mode (self w))]
      /\ fd (self w1) = fd (self w) /\ _reopening (self w1) = true
      /\ complete (4 + fuel) (List.length (tasks w)) (Done newfd) w1 = Returned tt w2
      /\ fd (self w2) = newfd /\ file (self w2) = Some target
      /\ trace w2 = trace w ++ [SysOpen target flags (mode (self w)) (Done newfd);
                                Emit EvReady]
      /\ tasks w2 = tasks w ++ (if fd (self w) =? newfd then []
                                else [fs_close_old (fd (self w))])
      /\ _reopening (self w2) = false /\ _opening (self w2) = false
      /\ _writing (self w2) = false
      /\ _bufs (self w2) = _bufs (self w) /\ _writingBuf (self w2) = _writingBuf (self w).
Proof.
  intros fuel newfile newfd w Hlive Hop Hend Hfile Hwr Hsync Hmk Hr Hlen target flags.
  change (2 + fuel)%nat with (S (S fuel)).
  change (4 + fuel)%nat with (S (S (S (S fuel)))).
  rewrite (reopen_idle fuel newfile w Hlive Hop Hend Hfile Hwr Hsync Hmk).
  fold target. fold flags.
  eexists. eexists. split; [reflexivity | ].
  split; [reflexivity | ]. split; [reflexivity | ]. split; [reflexivity | ].
  split; [reflexivity | ]. split; [reflexivity | ].
  match goal with
  | |- complete _ _ _ ?W = _ /\ _ => set (w1 := W)
  end.
  assert (Hnth : nth_error (tasks w1) (List.length (tasks w))
                 = Some (fs_open target flags (mode (self w)))).
  { unfold w1. cbn [tasks with_tasks].
    rewrite nth_error_app2 by apply Nat.le_refl. rewrite Nat.sub_diag. reflexivity. }
  rewrite (@complete_at _ _ _ _ _ _ _ _ Hnth). unfold run.
  unfold bind at 1. unfold log at 1. cbv beta iota.
  rewrite (fileOpened_deferred_reopened fuel target newfd (old := fd (self w)));
    [ | exact Hsync | unfold w1; cbn; rewrite Hr; reflexivity | left; exact Hlen].
  cbv zeta.
  assert (Hrest : remove_nth (List.length (tasks w)) (tasks w1) = tasks w).
  { unfold w1. cbn [tasks with_tasks]. clear. induction (tasks w) as [ | t l IH];
      [reflexivity | cbn; rewrite IH; reflexivity]. }
  split; [reflexivity | ].
  unfold w1 in Hrest. cbn [tasks with_tasks] in Hrest.
  destruct (fd (self w) =? newfd).
  - cbn [self with_self with_tasks with_trace with_ready_once tasks trace fd file
         opened set_writing set_opening set_reopening set_file set_fd
         _reopening _opening _writing _bufs _writingBuf].
    rewrite Hrest, <- app_assoc, app_nil_r.
    repeat split; reflexivity.
  - cbn [self with_self with_tasks with_trace with_ready_once tasks trace fd file
         opened set_writing set_opening set_reopening set_file set_fd
         _reopening _opening _writing _bufs _writingBuf].
    rewrite Hrest, <- app_assoc.
    repeat split; reflexivity.
Qed.

(** X16. [reopen(file)] while a write is in flight (deferred mode) does
    nothing but mark the writer: no system call, nothing handed to the
    runtime.  When the write in flight completes and leaves nothing of its
    chunk, [release] calls [reopen()] without the path: the file opened is
    the writer's own [file], whatever [file] the caller gave. *)
Theorem reopen_during_a_write_forgets_the_new_path :
  forall fuel newfile i d c n (w : world buf chunk),
    destroyed (self w) = false -> _opening (self w) = false -> _ending (self w) = false ->
    truthy (file (self w)) = true -> _writing (self w) = true ->
    sync (self w) = false -> mkdir (self w) = false -> _fsync (self w) = false ->
    nth_error (tasks w) i = Some (fs_write d c) ->
    length_of (slice (_writingBuf (self w)) n) = 0 ->
    exists w1 w2,
      reopen (1 + fuel) newfile w = Returned tt w1
      /\ tasks w1 = tasks w /\ trace w1 = trace w /\ replies w1 = replies w
      /\ ready_once w1 = ready_once w /\ _reopening (self w1) = true
      /\ complete (3 + fuel) i (Done n) w1 = Returned tt w2
      /\ tasks w2 = remove_nth i (tasks w)
                     ++ [fs_open (unwrap (file (self w))) (open_flags (self w))
                           (mode (self w))]
      /\ trace w2 = trace w ++ [SysWrite d c (Done n); Emit (EvWrite n)]
      /\ replies w2 = replies w
      /\ _opening (self w2) = true
      /\ fd (self w2) = fd (self w) /\ file (self w2) = file (self w).
Proof.
  intros fuel newfile i d c n w Hlive Hop Hend Hfile Hwr Hsync Hmk Hfs Hnth Hrest.
  change (1 + fuel)%nat with (S fuel).
  rewrite (reopen_busy fuel newfile w Hlive Hop Hend Hfile Hwr).
  set (w1 := with_self (set_reopening true) w).
  assert (Hnth1 : nth_error (tasks w1) i = Some (fs_write d c)) by exact Hnth.
  pose proof (@complete_at _ _ _ (3 + fuel) i (Done n) _ _ Hnth1) as Hc.
  unfold run in Hc. unfold bind at 1 in Hc. unfold log at 1 in Hc. cbv beta iota in Hc.
  match type of Hc with
  | _ = release _ None n ?W => set (w2 := W) in Hc
  end.
  destruct (@release_reopens fuel n w2)
    as (w' & Hrun & Ht & Htr & Hrp & Hro & Ho & _ & Hfd & Hf & _);
    try assumption; try reflexivity.
  rewrite <- Hc in Hrun.
  exists w1, w'. split; [reflexivity | ].
  split; [reflexivity | ]. split; [reflexivity | ]. split; [reflexivity | ].
  split; [reflexivity | ]. split; [reflexivity | ].
  split; [exact Hrun | ].
  split; [exact Ht | ].
  split; [rewrite Htr; unfold w2; cbn; rewrite <- app_assoc; reflexivity | ].
  split; [exact Hrp | ].
  split; [exact Ho | ].
  split; [exact Hfd | exact Hf].
Qed.

End Reopening.

(** An open writer on "app.log" (descriptor 7) asked to reopen on
    "app.log.1": the new file answers with descriptor 8 and descriptor 7 is
    closed. *)
Lemma reopen_swaps_the_descriptor_and_closes_the_old_one_witness :
  exists w w1 w2,
    open_on_app_log = Returned tt w
    /\ fd (self w) = 7 /\ tasks w = [] /\ trace w = [SysOpen "app.log" "a" None (Done 7); Emit EvReady]
    /\ reopen 2 (Some "app.log.1") w = Returned tt w1
    /\ tasks w1 = [fs_open "app.log.1" "a" None] /\ trace w1 = trace w
    /\ complete 4 0 (Done 8) w1 = Returned tt w2
    /\ fd (self w2) = 8 /\ file (self w2) = Some "app.log.1"
    /\ trace w2 = trace w ++ [SysOpen "app.log.1" "a" None (Done 8); Emit EvReady]
    /\ tasks w2 = [fs_close_old 7].
Proof.
  eexists.
  match goal with
  | |- exists w1 w2, ?O = Returned tt ?W /\ _ =>
      assert (Hw : O = Returned tt W) by (vm_compute; reflexivity);
      destruct (@reopen_swaps_the_descriptor_and_closes_the_old_one
                  _ _ _ 0 (Some "app.log.1") 8 W)
        as (w1 & w2 & H1 & H2 & H3 & H4 & H5 & H6 & H7 & H8 & H9 & H10 & H11 & H12);
      [ reflexivity | reflexivity | reflexivity | reflexivity | reflexivity
      | reflexivity | reflexivity | reflexivity | vm_compute; discriminate | ]
  end.
  exists w1, w2. split; [exact Hw | ].
  split; [reflexivity | ]. split; [reflexivity | ]. split; [reflexivity | ].
  split; [exact H1 | ]. split; [exact H4 | ]. split; [exact H2 | ].
  split; [exact H7 | ]. split; [exact H8 | ]. split; [exact H9 | ].
  split; [exact H10 | exact H11].
Defined.

(** "hi" is on its way to "app.log" when the writer is asked to reopen on
    "app.log.1": once the write is done it is "app.log" that is opened. *)
Lemma reopen_during_a_write_forgets_the_new_path_witness :
  exists w w1 w2,
    writing_to_app_log = Returned true w
    /\ tasks w = [fs_write 7 [104; 105]]
    /\ reopen 1 (Some "app.log.1") w = Returned tt w1
    /\ tasks w1 = tasks w /\ trace w1 = trace w
    /\ complete 3 0 (Done 2) w1 = Returned tt w2
    /\ tasks w2 = [fs_open "app.log" "a" None]
    /\ trace w2 = trace w ++ [SysWrite 7 [104; 105] (Done 2); Emit (EvWrite 2)].
Proof.
  eexists.
  match goal with
  | |- exists w1 w2, ?O = Returned true ?W /\ _ =>
      assert (Hw : O = Returned true W) by (vm_compute; reflexivity);
      destruct (@reopen_during_a_write_forgets_the_new_path
                  _ _ _ 0 (Some "app.log.1") 0%nat 7 [104; 105] 2 W)
        as (w1 & w2 & H1 & H2 & H3 & H4 & H5 & H6 & H7 & H8 & H9 & H10);
      [ reflexivity | reflexivity | reflexivity | reflexivity | reflexivity
      | reflexivity | reflexivity | reflexivity | reflexivity | reflexivity | ]
  end.
  exists w1, w2. split; [exact Hw | ].
  split; [reflexivity | ]. split; [exact H1 | ]. split; [exact H2 | ].
  split; [exact H3 | ]. split; [exact H7 | ]. split; [exact H8 | exact H9].
Defined.
(** ** [end] *)

(** In blocking or deferred mode alike: [release] told that the whole of
    [_writingBuf] was written. *)
Lemma release_whole fuel (w : world jsstring jsstring) :
  exists w1,
    release (S fuel) None (len (_writingBuf (self w))) w
    = release_completed (_actualWrite fuel) (reopen fuel) w1
    /\ trace w1 = trace w ++ [Emit (EvWrite (len (_writingBuf (self w))))]
    /\ replies w1 = replies w /\ tasks w1 = tasks w
    /\ _writingBuf (self w1) = [] /\ _bufs (self w1) = _bufs (self w)
    /\ _len (self w1) = Z.max 0 (_len (self w) - len (_writingBuf (self w)))
    /\ _writing (self w1) = _writing (self w)
    /\ sync (self w1) = sync (self w) /\ _fsync (self w1) = _fsync (self w)
    /\ _reopening (self w1) = _reopening (self w)
    /\ _ending (self w1) = _ending (self w)
    /\ minLength (self w1) = minLength (self w) /\ fd (self w1) = fd (self w)
    /\ _asyncDrainScheduled (self w1) = _asyncDrainScheduled (self w)
    /\ _hwm (self w1) = _hwm (self w).
Proof.
  rewrite release_S. unfold release_body.
  unfold bind at 1. unfold emit at 1. unfold log at 1. cbv beta iota.
  unfold bind at 1. unfold upd at 1. cbv beta iota.
  unfold bind at 1. unfold this at 1. cbv beta iota.
  unfold bind at 1. unfold when.
  cbn [self with_self with_trace _len set_len].
  destruct (_len (self w) - len (_writingBuf (self w)) <? 0) eqn:Hneg.
  - unfold upd at 1. cbv beta iota.
    unfold bind at 1. unfold upd at 1. cbv beta iota.
    unfold bind at 1. unfold this at 1. cbv beta iota.
    cbn [self with_self with_trace _writingBuf set_writingBuf set_len slice Utf8
         length_of].
    rewrite js_slice_all. change (negb (len (@nil Z) =? 0)) with false. cbv iota.
    eexists. split; [reflexivity | ].
    cbn. apply Z.ltb_lt in Hneg.
    repeat split; try reflexivity; try apply js_slice_all. lia.
  - unfold ret at 1. cbv beta iota.
    unfold bind at 1. unfold upd at 1. cbv beta iota.
    unfold bind at 1. unfold this at 1. cbv beta iota.
    cbn [self with_self with_trace _writingBuf set_writingBuf set_len slice Utf8
         length_of].
    rewrite js_slice_all. change (negb (len (@nil Z) =? 0)) with false. cbv iota.
    eexists. split; [reflexivity | ].
    cbn. apply Z.ltb_ge in Hneg.
    repeat split; try reflexivity; try apply js_slice_all. lia.
Qed.

Lemma next_utf8_held (wb : jsstring) bufs lens c rest :
  held wb bufs = c :: rest -> next_utf8 wb bufs lens = (inr c, rest, lens).
Proof.
  unfold held, next_utf8. destruct wb as [ | x wb0].
  - change (len (@nil Z) >? 0) with false. cbv iota. cbn [app].
    intros ->. reflexivity.
  - replace (len (x :: wb0) >? 0) with true.
    + cbn [app]. intros H. injection H as <- <-. reflexivity.
    + symmetry. apply Z.gtb_lt. unfold len. cbn [List.length]. lia.
Qed.

(** Blocking mode: [_actualWrite] when the descriptor takes the chunk
    whole. *)
Lemma _actualWrite_whole fuel c rest more (w : world jsstring jsstring) :
  sync (self w) = true ->
  held (_writingBuf (self w)) (_bufs (self w)) = c :: rest ->
  replies w = Done (len c) :: more ->
  exists w1,
    (forall w', release_completed (_actualWrite fuel) (reopen fuel) w1 = Returned tt w' ->
                _actualWrite (S (S fuel)) w = Returned tt w')
    /\ trace w1 = trace w ++ [SysWrite (fd (self w)) c (Done (len c)); Emit (EvWrite (len c))]
    /\ replies w1 = more /\ tasks w1 = tasks w
    /\ _writingBuf (self w1) = [] /\ _bufs (self w1) = rest
    /\ _len (self w1) = Z.max 0 (_len (self w) - len c)
    /\ _writing (self w1) = true
    /\ sync (self w1) = sync (self w) /\ _fsync (self w1) = _fsync (self w)
    /\ _reopening (self w1) = _reopening (self w)
    /\ _ending (self w1) = _ending (self w)
    /\ minLength (self w1) = minLength (self w) /\ fd (self w1) = fd (self w)
    /\ _asyncDrainScheduled (self w1) = _asyncDrainScheduled (self w)
    /\ _hwm (self w1) = _hwm (self w).
Proof.
  intros Hsync Hheld Hr.
  pose proof (next_utf8_held _ _ (_lens (self w)) Hheld) as Hnext.
  set (w0 := with_trace (trace w ++ [SysWrite (fd (self w)) c (Done (len c))])
               (with_replies more
                  (with_self (set_writingBuf c)
                     (with_self (fun s => set_lens (_lens (self w)) (set_bufs rest s))
                        (with_self (set_writing true) w))))).
  destruct (release_whole fuel w0)
    as (w1 & Hrel & Ht & Hrp & Hk & Hwb & Hb & Hl & Hw & Hs & Hf & Hre & He & Hm & Hfd
        & Ha & Hh).
  exists w1. split.
  - intros w' Hdone. rewrite _actualWrite_S. unfold _actualWrite_body.
    unfold bind at 1. unfold upd at 1. cbv beta iota.
    unfold bind at 1. unfold this at 1. cbv beta iota.
    cbn [self with_self _writingBuf _bufs _lens set_writing next_chunk Utf8].
    rewrite Hnext.
    unfold bind at 1. unfold upd at 1. cbv beta iota.
    unfold bind at 1. unfold upd at 1. cbv beta iota.
    cbn [sync set_writing]. rewrite Hsync.
    unfold try_catch. unfold bind at 1. unfold fsWriteSync at 1.
    unfold bind at 1. unfold this at 1. cbv beta iota.
    unfold blocking at 1.
    cbn [replies with_self self]. rewrite Hr. cbv beta iota zeta.
    change (release (S fuel) None (len c) _)
      with (release (S fuel) None (len (_writingBuf (self w0))) w0).
    rewrite Hrel, Hdone. reflexivity.
  - rewrite Ht, Hrp, Hk, Hb, Hl, Hw, Hs, Hf, Hre, He, Hm, Hfd, Ha, Hh. unfold w0.
    cbn. rewrite <- app_assoc. repeat split; try reflexivity. exact Hwb.
Qed.

Lemma held_length_nonneg q : 0 <= held_length q.
Proof.
  induction q as [ | c q IH]; [apply Z.le_refl | ].
  cbn [held_length fold_right]. fold (held_length q).
  pose proof (len_nonneg c). lia.
Qed.

Lemma len_nonempty {A} (c : list A) : c <> [] -> 0 < len c.
Proof. destruct c; [congruence | ]. intros _. unfold len. cbn [List.length]. lia. Qed.

(** [actualClose] on a writer with a descriptor. *)
Lemma actualClose_with_descriptor {buf chunk} {content : Content buf chunk}
      (w : world buf chunk) :
  fd (self w) <> -1 ->
  actualClose w
  = Returned tt
      (with_tasks (tasks w ++ [fs_fsync_close (fd (self w))])
         (with_self (fun s => set_lens [] (set_bufs [] s))
            (with_self (set_destroyed true) w))).
Proof.
  intros Hfd. unfold actualClose. unfold bind at 1. unfold this at 1. cbv beta iota.
  destruct (Z.eqb_spec (fd (self w)) (-1)) as [E | _]; [contradiction | ].
  reflexivity.
Qed.

(** Blocking mode, the writer ending: [release] goes on writing chunk
    after chunk, and closes when [_len] is down to 0. *)
Lemma release_completed_drains :
  forall rest fuel (w1 : world jsstring jsstring) more,
    sync (self w1) = true -> _fsync (self w1) = false ->
    _reopening (self w1) = false -> _ending (self w1) = true ->
    0 <= minLength (self w1) -> fd (self w1) <> -1 ->
    _writingBuf (self w1) = [] -> _bufs (self w1) = rest ->
    _len (self w1) = held_length rest ->
    Forall (fun c => c <> []) rest -> Forall one_byte_text rest ->
    replies w1 = map (fun c => Done (len (utf8 c))) rest ++ more ->
    (2 * List.length rest <= fuel)%nat ->
    exists w',
      release_completed (_actualWrite fuel) (reopen fuel) w1 = Returned tt w'
      /\ trace w' = trace w1 ++ whole_writes (fd (self w1)) rest
      /\ replies w' = more
      /\ tasks w' = tasks w1 ++ [fs_fsync_close (fd (self w1))]
      /\ destroyed (self w') = true /\ _writing (self w') = false
      /\ _ending (self w') = true
      /\ _bufs (self w') = [] /\ fd (self w') = fd (self w1) /\ _len (self w') = 0.
Proof.
  induction rest as [ | c r IH];
    intros fuel w1 more Hsync Hfs Hre Hend Hmin Hfd Hwb Hb Hl Hne Hone Hr Hfuel.
  - unfold release_completed.
    unfold bind at 1. unfold this at 1. cbv beta iota. rewrite Hfs.
    unfold when at 1. unfold bind at 1. unfold ret at 1. cbv beta iota.
    unfold bind at 1. unfold this at 1. cbv beta iota. rewrite Hre, Hend, Hl.
    cbn [held_length fold_right].
    destruct (Z.gtb_spec 0 (minLength (self w1))) as [Hlt | _]; [lia | ].
    change (0 >? 0) with false. cbv iota.
    unfold bind at 1. unfold upd at 1. cbv beta iota.
    rewrite actualClose_with_descriptor by exact Hfd.
    eexists. split; [reflexivity | ]. cbn.
    rewrite app_nil_r. rewrite Hend, Hl. repeat split; try reflexivity. exact Hr.
  - assert (Hc : 0 < len c) by (apply len_nonempty; exact (Forall_inv Hne)).
    pose proof (held_length_nonneg r) as Hr0.
    assert (Hlen : _len (self w1) = len c + held_length r) by exact Hl.
    destruct fuel as [ | [ | f]]; [cbn in Hfuel; lia | cbn in Hfuel; lia | ].
    assert (Hutf : len (utf8 c) = len c)
      by (apply utf8_one_byte_len; exact (Forall_inv Hone)).
    destruct (@_actualWrite_whole f c r (map (fun c => Done (len (utf8 c))) r ++ more) w1)
      as (w2 & Hgo & Ht2 & Hrp2 & Hk2 & Hwb2 & Hb2 & Hl2 & Hw2 & Hs2 & Hf2 & Hre2
          & He2 & Hm2 & Hfd2 & _).
    { exact Hsync. }
    { unfold held. rewrite Hwb, Hb. reflexivity. }
    { rewrite Hr. cbn [map app]. rewrite Hutf. reflexivity. }
    destruct (IH f w2 more) as (w' & Hrun & Ht & Hrp & Hk & Hd & Hw & He & Hbf & Hfd' & Hl');
      try congruence.
    { rewrite Hl2, Hlen. lia. }
    { exact (Forall_inv_tail Hne). }
    { exact (Forall_inv_tail Hone). }
    { cbn [List.length] in Hfuel. lia. }
    exists w'. split.
    + unfold release_completed.
      unfold bind at 1. unfold this at 1. cbv beta iota. rewrite Hfs.
      unfold when at 1. unfold bind at 1. unfold ret at 1. cbv beta iota.
      unfold bind at 1. unfold this at 1. cbv beta iota. rewrite Hre, Hend, Hlen.
      replace (len c + held_length r >? 0) with true
        by (symmetry; apply Z.gtb_lt; lia).
      destruct (len c + held_length r >? minLength (self w1));
        exact (Hgo w' Hrun).
    + rewrite Ht, Ht2, Hk, Hk2, Hfd2, Hfd', Hfd2. cbn [whole_writes flat_map].
      fold (whole_writes (fd (self w1)) r). rewrite Hutf, <- app_assoc.
      repeat split; try assumption; reflexivity.
Qed.

(** [end] on an idle blocking writer, up to the start of the close
    sequence. *)
Lemma end_drains :
  forall fuel (w : world jsstring jsstring) more,
    destroyed (self w) = false -> _opening (self w) = false ->
    _ending (self w) = false -> _writing (self w) = false ->
    _reopening (self w) = false ->
    sync (self w) = true -> _fsync (self w) = false ->
    0 <= minLength (self w) -> 0 <= fd (self w) ->
    let queue := held (_writingBuf (self w)) (_bufs (self w)) in
    _len (self w) = held_length queue ->
    Forall (fun c => c <> []) queue -> Forall one_byte_text queue ->
    replies w = map (fun c => Done (len (utf8 c))) queue ++ more ->
    (2 * List.length queue < fuel)%nat ->
    exists w',
      end_ fuel w = Returned tt w'
      /\ trace w' = trace w ++ whole_writes (fd (self w)) queue
      /\ replies w' = more
      /\ tasks w' = tasks w ++ [fs_fsync_close (fd (self w))]
      /\ destroyed (self w') = true /\ _ending (self w') = true
      /\ _writing (self w') = false
      /\ _bufs (self w') = [] /\ _len (self w') = 0
      /\ fd (self w') = fd (self w).
Proof.
  intros fuel w more Hlive Hop Hend Hwr Hre Hsync Hfs Hmin Hfd queue Hl Hne Hone Hr Hfuel.
  destruct fuel as [ | fuel]; [lia | ].
  rewrite end_S. unfold end_body.
  unfold bind at 1. unfold this at 1. cbv beta iota.
  rewrite Hlive, Hop, Hend.
  unfold bind at 1. unfold upd at 1. cbv beta iota. rewrite Hwr.
  set (w0 := with_self (set_ending true) w).
  destruct queue as [ | c rest] eqn:Hq.
  - replace (_len (self w) >? 0) with false by (rewrite Hl; reflexivity).
    cbn [andb].
    rewrite actualClose_with_descriptor by (unfold w0; cbn; lia).
    eexists. split; [reflexivity | ]. unfold w0. cbn.
    rewrite app_nil_r, Hl.
    assert (Hb : _bufs (self w) = []).
    { unfold queue, held in Hq. destruct (len (_writingBuf (self w)) >? 0);
        [discriminate Hq | exact Hq]. }
    repeat split; try reflexivity; [exact Hr | exact Hwr].
  - assert (Hc : 0 < len c) by (apply len_nonempty; exact (Forall_inv Hne)).
    pose proof (held_length_nonneg rest) as Hr0.
    assert (Hlen : _len (self w) = len c + held_length rest) by exact Hl.
    replace (_len (self w) >? 0) with true by (symmetry; apply Z.gtb_lt; lia).
    replace (fd (self w) >=? 0) with true by (symmetry; apply Z.geb_le; lia).
    cbn [andb].
    destruct fuel as [ | [ | f]]; [cbn in Hfuel; lia | cbn in Hfuel; lia | ].
    assert (Hutf : len (utf8 c) = len c)
      by (apply utf8_one_byte_len; exact (Forall_inv Hone)).
    destruct (@_actualWrite_whole f c rest
                (map (fun c => Done (len (utf8 c))) rest ++ more) w0)
      as (w2 & Hgo & Ht2 & Hrp2 & Hk2 & Hwb2 & Hb2 & Hl2 & Hw2 & Hs2 & Hf2 & Hre2
          & He2 & Hm2 & Hfd2 & _).
    { exact Hsync. }
    { exact Hq. }
    { unfold w0. cbn [replies with_self]. rewrite Hr. cbn [map app].
      rewrite Hutf. reflexivity. }
    destruct (@release_completed_drains rest f w2 more)
      as (w' & Hrun & Ht & Hrp & Hk & Hd & Hw & He & Hbf & Hfd' & Hl').
    { rewrite Hs2. exact Hsync. }
    { rewrite Hf2. exact Hfs. }
    { rewrite Hre2. exact Hre. }
    { rewrite He2. reflexivity. }
    { rewrite Hm2. exact Hmin. }
    { rewrite Hfd2. unfold w0. cbn. lia. }
    { exact Hwb2. }
    { exact Hb2. }
    { rewrite Hl2. unfold w0. cbn [self with_self _len set_ending]. rewrite Hlen. lia. }
    { exact (Forall_inv_tail Hne). }
    { exact (Forall_inv_tail Hone). }
    { exact Hrp2. }
    { cbn [List.length] in Hfuel. lia. }
    exists w'. split; [exact (Hgo w' Hrun) | ].
    rewrite Ht, Ht2, Hk, Hk2, Hfd2. unfold w0.
    cbn [self with_self trace tasks fd set_ending whole_writes flat_map].
    fold (whole_writes (fd (self w)) rest). rewrite Hutf, <- app_assoc.
    repeat split; try assumption; try reflexivity.
    rewrite Hfd', Hfd2. reflexivity.
Qed.

Lemma nth_error_last {A} (k : list A) (x : A) : nth_error (k ++ [x]) (List.length k) = Some x.
Proof. rewrite nth_error_app2 by apply Nat.le_refl. rewrite Nat.sub_diag. reflexivity. Qed.

Lemma remove_nth_last {A} (k : list A) (x : A) : remove_nth (List.length k) (k ++ [x]) = k.
Proof. induction k as [ | a k IH]; [reflexivity | cbn; rewrite IH; reflexivity]. Qed.

Section Closing.

Context {buf chunk : Type} {content : Content buf chunk}.

(** The close sequence of a writer that is ending: the answer of
    [fs.fsync] is not looked at; the descriptor is closed unless it is 1 or
    2; ['finish'] then ['close'] are emitted. *)
Lemma close_sequence fuel r v k (w1 : world buf chunk) :
  tasks w1 = k ++ [fs_fsync_close (fd (self w1))] ->
  _ending (self w1) = true -> _writing (self w1) = false ->
  let closes := negb (fd (self w1) =? 1) && negb (fd (self w1) =? 2) in
  exists w2,
    complete fuel (List.length k) r w1
    >>> (if closes then complete fuel (List.length k) (Done v) else ret tt)
    = Returned tt w2
    /\ trace w2 = trace w1 ++ SysFsync (fd (self w1)) r
                   :: (if closes then [SysClose (fd (self w1)) (Done v)] else [])
                   ++ [Emit EvFinish; Emit EvClose]
    /\ tasks w2 = k /\ self w2 = self w1 /\ replies w2 = replies w1.
Proof.
  intros Hk Hend Hwr closes.
  assert (Hnth : nth_error (tasks w1) (List.length k)
                 = Some (fs_fsync_close (fd (self w1))))
    by (rewrite Hk; apply nth_error_last).
  rewrite (@complete_at _ _ _ _ _ _ _ _ Hnth). rewrite Hk, remove_nth_last.
  unfold run. unfold bind at 1. unfold log at 1. cbv beta iota.
  unfold closeWrapped. unfold bind at 1. unfold this at 1. cbv beta iota.
  cbn [self with_trace with_tasks]. fold closes.
  destruct closes.
  - unfold schedule. unfold after.
    match goal with
    | |- exists w2, complete _ _ _ ?W = _ /\ _ => set (w := W)
    end.
    assert (Hnth2 : nth_error (tasks w) (List.length k)
                    = Some (fs_close_done (fd (self w1))))
      by (unfold w; cbn [tasks with_tasks with_trace]; apply nth_error_last).
    rewrite (@complete_at _ _ _ _ _ _ _ _ Hnth2).
    unfold w at 1. cbn [tasks with_tasks with_trace]. rewrite remove_nth_last.
    unfold run. unfold bind at 1. unfold log at 1. cbv beta iota.
    cbn [failure]. unfold done.
    unfold bind at 1. unfold this at 1. cbv beta iota.
    cbn [self with_trace with_tasks]. unfold w at 1 2. cbn [self with_trace with_tasks].
    rewrite Hend, Hwr. cbn [andb negb when].
    eexists. split; [reflexivity | ]. unfold w. cbn.
    rewrite <- !app_assoc. repeat split; reflexivity.
  - unfold done.
    unfold bind at 1. unfold this at 1. cbv beta iota.
    cbn [self with_trace with_tasks].
    rewrite Hend, Hwr. cbn [andb negb when].
    eexists. split; [reflexivity | ]. cbn.
    rewrite <- !app_assoc. repeat split; reflexivity.
Qed.

End Closing.

(** X17. [end()] on a blocking writer of one-byte text that has a
    descriptor, is idle (not opening, writing, reopening or ending), whose
    [_len] counts the characters it holds in chunks that are not empty, and
    whose [minLength] is not negative: when the descriptor takes each chunk
    whole, [end] writes what is left of [_writingBuf] and then every chunk
    of [_bufs], in order, one [fs.writeSync] and one ['write'] event per
    chunk, and only then marks the writer destroyed and hands [fs.fsync] to
    the runtime.  Whatever [fs.fsync] answers, the descriptor is then closed
    (unless it is 1 or 2), and when the close succeeds ['finish'] and then
    ['close'] are emitted. *)
Theorem end_writes_what_is_held_then_closes :
  forall fuel (w : world jsstring jsstring) more,
    destroyed (self w) = false -> _opening (self w) = false ->
    _ending (self w) = false -> _writing (self w) = false ->
    _reopening (self w) = false ->
    sync (self w) = true -> _fsync (self w) = false ->
    0 <= minLength (self w) -> 0 <= fd (self w) ->
    let queue := held (_writingBuf (self w)) (_bufs (self w)) in
    _len (self w) = held_length queue ->
    Forall (fun c => c <> []) queue -> Forall one_byte_text queue ->
    replies w = map (fun c => Done (len (utf8 c))) queue ++ more ->
    (2 * List.length queue < fuel)%nat ->
    let d := fd (self w) in
    let closes := negb (d =? 1) && negb (d =? 2) in
    exists w1,
      end_ fuel w = Returned tt w1
      /\ trace w1 = trace w ++ whole_writes d queue
      /\ replies w1 = more
      /\ tasks w1 = tasks w ++ [fs_fsync_close d]
      /\ destroyed (self w1) = true /\ _bufs (self w1) = [] /\ _len (self w1) = 0
      /\ forall r v,
          exists w2,
            complete fuel (List.length (tasks w)) r w1
            >>> (if closes then complete fuel (List.length (tasks w)) (Done v) else ret tt)
            = Returned tt w2
            /\ trace w2 = trace w1 ++ SysFsync d r
                           :: (if closes then [SysClose d (Done v)] else [])
                           ++ [Emit EvFinish; Emit EvClose]
            /\ tasks w2 = tasks w /\ replies w2 = more.
Proof.
  intros fuel w more Hlive Hop Hend Hwr Hre Hsync Hfs Hmin Hfd queue Hl Hne Hone Hr Hfuel
         d closes.
  destruct (@end_drains fuel w more Hlive Hop Hend Hwr Hre Hsync Hfs Hmin Hfd Hl Hne Hone
              Hr Hfuel)
    as (w1 & Hrun & Ht & Hrp & Hk & Hd & He & Hw & Hb & Hl1 & Hfd1).
  exists w1. repeat (split; [assumption | ]).
  intros r v. rewrite <- Hfd1 in Hk.
  destruct (@close_sequence _ _ _ fuel r v (tasks w) w1 Hk He Hw)
    as (w2 & Hrun2 & Ht2 & Hk2 & Hs2 & Hrp2).
  rewrite Hfd1 in Hrun2, Ht2. exists w2.
  split; [exact Hrun2 | ]. split; [exact Ht2 | ]. split; [exact Hk2 | ].
  rewrite Hrp2. exact Hrp.
Qed.

(** "x" left by a failed write and "ab" queued behind it are both written
    by [end] before the writer closes. *)
Lemma end_writes_what_is_held_then_closes_witness :
  exists w w',
    holding_after_failed_writes = Returned true w
    /\ held (_writingBuf (self w)) (_bufs (self w)) = [[120]; [97; 98]]
    /\ end_ 5 w = Returned tt w'
    /\ trace w' = trace w ++ [SysWrite 1 [120] (Done 1); Emit (EvWrite 1);
                              SysWrite 1 [97; 98] (Done 2); Emit (EvWrite 2)]
    /\ replies w' = []
    /\ tasks w' = tasks w ++ [fs_fsync_close 1]
    /\ destroyed (self w') = true /\ _bufs (self w') = []
    /\ exists w2,
         complete 5 1 (Failed "EIO") w' = Returned tt w2
         /\ trace w2 = trace w' ++ [SysFsync 1 (Failed "EIO"); Emit EvFinish; Emit EvClose]
         /\ tasks w2 = tasks w.
Proof.
  eexists.
  match goal with
  | |- exists w', ?O = Returned true ?W /\ _ =>
      assert (Hw : O = Returned true W) by (vm_compute; reflexivity);
      destruct (@end_writes_what_is_held_then_closes 5 W [])
        as (w' & H1 & H2 & H3 & H4 & H5 & H6 & H7 & H8);
      [ reflexivity | reflexivity | reflexivity | reflexivity | reflexivity
      | reflexivity | reflexivity | vm_compute; discriminate
      | vm_compute; discriminate | reflexivity
      | repeat constructor; discriminate
      | repeat constructor; vm_compute; intuition discriminate
      | reflexivity | vm_compute; lia | ]
  end.
  exists w'. split; [exact Hw | ]. split; [reflexivity | ].
  split; [exact H1 | ]. split; [exact H2 | ]. split; [exact H3 | ].
  split; [exact H4 | ]. split; [exact H5 | ]. split; [exact H6 | ].
  destruct (H8 (Failed "EIO") 0) as (w2 & G1 & G2 & G3 & _).
  exists w2. split; [ | split; [exact G2 | exact G3]].
  change (complete 5 1 (Failed "EIO") w' >>> ret tt = Returned tt w2) in G1.
  unfold after in G1.
  destruct (complete 5 1 (Failed "EIO") w') as [[] w0 | e w0 | | ];
    [exact G1 | discriminate G1 | discriminate G1 | discriminate G1].
Defined.
(** ** [flush] with a callback *)

(** [flush(cb)] on an idle deferred writer with a threshold: the callback is
    registered and a write is handed to the runtime. *)
Lemma flush_dispatches fuel cb (w : world jsstring jsstring) :
  destroyed (self w) = false -> 0 < minLength (self w) ->
  _writing (self w) = false -> sync (self w) = false ->
  exists w1,
    flush (S fuel) (Fn cb) w = Returned tt w1
    /\ trace w1 = trace w /\ replies w1 = replies w
    /\ tasks w1 = tasks w ++ [fs_write (fd (self w)) (flush_chunk (self w))]
    /\ drain_once w1 = drain_once w ++ [(fresh w, cb)]
    /\ error_once w1 = error_once w ++ [(fresh w, cb)]
    /\ error_listeners w1 = error_listeners w
    /\ _writingBuf (self w1) = flush_chunk (self w)
    /\ _len (self w1) = _len (self w) /\ fd (self w1) = fd (self w)
    /\ sync (self w1) = false /\ _fsync (self w1) = _fsync (self w)
    /\ _reopening (self w1) = _reopening (self w)
    /\ _ending (self w1) = _ending (self w)
    /\ minLength (self w1) = minLength (self w)
    /\ retryEAGAIN (self w1) = retryEAGAIN (self w).
Proof.
  intros Hlive Hmin Hwr Hsync.
  unfold flush. unfold bind at 1. unfold this at 1. cbv beta iota.
  rewrite Hlive.
  destruct (Z.leb_spec (minLength (self w)) 0) as [Hle | _]; [lia | ].
  rewrite Hwr.
  unfold bind at 1. unfold callFlushCallbackOnDrain. unfold bind at 1.
  unfold newListener. change (String.eqb "drain" "drain") with true.
  unfold when at 1. unfold upd at 1. cbv beta iota.
  unfold bind at 1. unfold when at 1. unfold actualWrite, flush_chunk.
  destruct (_bufs (self w)) as [ | c0 rest0] eqn:Hb;
    destruct (_writingBuf (self w)) as [ | x wb0] eqn:Hwb.
  - change (len (@nil jsstring) =? 0) with true. cbv iota. unfold upd at 1.
    erewrite _actualWrite_deferred;
      [ | exact Hsync
        | cbn [self with_self with_fresh with_error_once with_drain_once _writingBuf
               _bufs _lens set_bufs set_asyncDrainScheduled next_chunk Utf8];
          rewrite Hwb; reflexivity ].
    eexists. split; [reflexivity | ]. cbn. repeat split; first [reflexivity | assumption].
  - change (len (@nil jsstring) =? 0) with true. cbv iota. unfold upd at 1.
    erewrite _actualWrite_deferred;
      [ | exact Hsync
        | cbn [self with_self with_fresh with_error_once with_drain_once _writingBuf
               _bufs _lens set_bufs set_asyncDrainScheduled next_chunk Utf8];
          rewrite Hwb; reflexivity ].
    eexists. split; [reflexivity | ]. cbn. repeat split; first [reflexivity | assumption].
  - replace (len (c0 :: rest0) =? 0) with false
      by (symmetry; apply Z.eqb_neq; unfold len; cbn [List.length]; lia).
    cbv iota. unfold ret at 1.
    erewrite _actualWrite_deferred;
      [ | exact Hsync
        | cbn [self with_self with_fresh with_error_once with_drain_once _writingBuf
               _bufs _lens set_bufs set_asyncDrainScheduled next_chunk Utf8];
          rewrite Hwb, Hb; reflexivity ].
    eexists. split; [reflexivity | ]. cbn. repeat split; first [reflexivity | assumption].
  - replace (len (c0 :: rest0) =? 0) with false
      by (symmetry; apply Z.eqb_neq; unfold len; cbn [List.length]; lia).
    cbv iota. unfold ret at 1.
    erewrite _actualWrite_deferred;
      [ | exact Hsync
        | cbn [self with_self with_fresh with_error_once with_drain_once _writingBuf
               _bufs _lens set_bufs set_asyncDrainScheduled next_chunk Utf8];
          rewrite Hwb, Hb; reflexivity ].
    eexists. split; [reflexivity | ]. cbn. repeat split; first [reflexivity | assumption].
Qed.

Section FlushCallback.

Context {buf chunk : Type} {content : Content buf chunk}.

(** The write in flight is done, no more than [minLength] is left, and one
    flush callback waits: ['drain'] is emitted and [fs.fsync] is handed to
    the runtime with the callback. *)
Lemma release_drains fuel n reg cb (w : world buf chunk) :
  sync (self w) = false -> _fsync (self w) = false ->
  _reopening (self w) = false -> _ending (self w) = false ->
  length_of (slice (_writingBuf (self w)) n) = 0 ->
  _len (self w) - n <= minLength (self w) -> 0 <= minLength (self w) ->
  drain_once w = [(reg, cb)] -> error_once w = [(reg, cb)] ->
  exists w2,
    release (S fuel) None n w = Returned tt w2
    /\ trace w2 = trace w ++ [Emit (EvWrite n); Emit EvDrain]
    /\ tasks w2 = tasks w ++ [fs_fsync_cb (fd (self w)) cb]
    /\ replies w2 = replies w
    /\ drain_once w2 = [] /\ error_once w2 = []
    /\ _writing (self w2) = false /\ _bufs (self w2) = _bufs (self w).
Proof.
  intros Hsync Hfs Hre Hend Hrest Hlen Hmin Hd He.
  rewrite release_S. unfold release_body.
  unfold bind at 1. unfold emit at 1. unfold log at 1. cbv beta iota.
  unfold bind at 1. unfold upd at 1. cbv beta iota.
  unfold bind at 1. unfold this at 1. cbv beta iota.
  unfold bind at 1. unfold when.
  cbn [self with_self with_trace _len set_len].
  assert (Hgo : forall w0 : world buf chunk,
             tasks w0 = tasks w -> trace w0 = trace w ++ [Emit (EvWrite n)] ->
             replies w0 = replies w ->
             drain_once w0 = [(reg, cb)] -> error_once w0 = [(reg, cb)] ->
             (exists l, self w0 = set_len l (self w) /\ l <= minLength (self w)) ->
             exists w2,
               (upd (fun s : sonic buf chunk =>
                       set_writingBuf (slice (_writingBuf s) n) s);;
                s <- this;;
                (if negb (length_of (_writingBuf s) =? 0)
                 then
                  if negb (sync s)
                  then fsWrite
                  else
                   r <- attempt (release_loop fuel);;
                   match r with
                   | inl err => release fuel (Some err) 0
                   | inr _ => release_completed (_actualWrite fuel) (reopen fuel)
                   end
                 else release_completed (_actualWrite fuel) (reopen fuel))) w0
               = Returned tt w2
               /\ trace w2 = trace w ++ [Emit (EvWrite n); Emit EvDrain]
               /\ tasks w2 = tasks w ++ [fs_fsync_cb (fd (self w)) cb]
               /\ replies w2 = replies w
               /\ drain_once w2 = [] /\ error_once w2 = []
               /\ _writing (self w2) = false /\ _bufs (self w2) = _bufs (self w)).
  { intros w0 Ht Htr Hrp Hd0 He0 (l & Hs & Hl).
    assert (Hre0 : _reopening (self w0) = false) by (rewrite Hs; exact Hre).
    assert (Hend0 : _ending (self w0) = false) by (rewrite Hs; exact Hend).
    assert (Hsync0 : sync (self w0) = false) by (rewrite Hs; exact Hsync).
    assert (Hfs0 : _fsync (self w0) = false) by (rewrite Hs; exact Hfs).
    assert (Hwb0 : _writingBuf (self w0) = _writingBuf (self w))
      by (rewrite Hs; reflexivity).
    assert (Hfd0 : fd (self w0) = fd (self w)) by (rewrite Hs; reflexivity).
    assert (Hbufs0 : _bufs (self w0) = _bufs (self w)) by (rewrite Hs; reflexivity).
    assert (Hlen0 : _len (self w0) = l) by (rewrite Hs; reflexivity).
    assert (Hmin0 : minLength (self w0) = minLength (self w))
      by (rewrite Hs; reflexivity).
    clear Hs.
    unfold bind at 1. unfold upd at 1. cbv beta iota.
    unfold bind at 1. unfold this at 1. cbv beta iota.
    cbn [self with_self _writingBuf set_writingBuf]. rewrite Hwb0, Hrest.
    cbn [Z.eqb negb]. unfold release_completed.
    unfold bind at 1. unfold this at 1. cbv beta iota.
    cbn [self with_self _fsync set_writingBuf]. rewrite Hfs0.
    unfold when at 1. unfold bind at 1. unfold ret at 1. cbv beta iota.
    unfold bind at 1. unfold this at 1. cbv beta iota.
    cbn [self with_self _reopening _ending _len minLength sync set_writingBuf].
    rewrite Hre0, Hend0, Hlen0, Hmin0, Hsync0.
    destruct (Z.gtb_spec l (minLength (self w))) as [Hgt | _]; [lia | ].
    unfold bind at 1. unfold upd at 1. cbv beta iota.
    unfold emit. unfold bind at 1. unfold log at 1. cbv beta iota.
    cbn [drain_once with_self with_drain_once with_trace]. rewrite Hd0.
    cbn [for_each fst snd]. unfold bind at 1. unfold onDrain.
    unfold bind at 1. unfold this at 1. cbv beta iota.
    cbn [self with_self with_trace with_drain_once _fsync set_writing set_writingBuf].
    rewrite Hfs0. cbn [negb]. unfold bind at 1. unfold schedule at 1. cbv beta iota.
    unfold ret.
    eexists. split; [reflexivity | ]. cbn.
    rewrite Ht, Htr, Hrp, He0, Hfd0, Hbufs0, <- app_assoc. cbn [unregister filter fst].
    rewrite Nat.eqb_refl. repeat split; reflexivity. }
  destruct (_len (self w) - n <? 0) eqn:Hneg.
  - unfold upd at 1. cbv beta iota. apply Hgo; try reflexivity; try assumption.
    exists 0. split; [reflexivity | exact Hmin].
  - unfold ret at 1. cbv beta iota. apply Hgo; try reflexivity; try assumption.
    exists (_len (self w) - n). split; [reflexivity | exact Hlen].
Qed.

(** The write in flight failed for good and one flush callback waits: the
    callback is told, and its ['drain'] listener is removed. *)
Lemma release_fails fuel code reg cb (w : world buf chunk) :
  String.eqb code "EAGAIN" = false -> String.eqb code "EBUSY" = false ->
  drain_once w = [(reg, cb)] -> error_once w = [(reg, cb)] ->
  exists w2,
    release (S fuel) (Some (SystemError code)) 0 w = Returned tt w2
    /\ trace w2 = trace w ++ [Emit (EvError (SystemError code));
                              Call cb (Some (SystemError code))]
    /\ tasks w2 = tasks w /\ replies w2 = replies w
    /\ drain_once w2 = [] /\ error_once w2 = []
    /\ _writing (self w2) = false
    /\ _writingBuf (self w2) = _writingBuf (self w)
    /\ _bufs (self w2) = _bufs (self w) /\ _len (self w2) = _len (self w).
Proof.
  intros Ha Hb Hd He.
  rewrite release_S. unfold release_body.
  unfold bind at 1. unfold this at 1. cbv beta iota.
  cbn [code_is]. rewrite Ha, Hb. cbn [orb andb].
  unfold bind at 1. unfold upd at 1. cbv beta iota.
  unfold emit. unfold listenerCount_error.
  cbn [error_once error_listeners with_self]. rewrite He.
  rewrite Nat.add_comm. cbn [List.length Nat.add Nat.eqb].
  unfold bind at 1. unfold log at 1. cbv beta iota.
  cbn [for_each fst snd]. unfold bind at 1. unfold onError.
  unfold bind at 1. unfold call at 1. unfold log at 1. cbv beta iota. unfold ret.
  eexists. split; [reflexivity | ]. cbn.
  rewrite Hd, <- app_assoc. cbn [unregister filter fst].
  rewrite Nat.eqb_refl. repeat split; reflexivity.
Qed.

End FlushCallback.

(** X18. [flush(cb)] on a deferred text writer with the [fsync] option
    off and a positive [minLength], that is not destroyed, not reopening and
    not ending, idle, with no other flush callback waiting: the call makes
    no system call and hands to the runtime the write of the first chunk it
    holds (of the empty string when it holds nothing).  When that write
    completes the chunk and leaves no more than [minLength] buffered,
    ['drain'] is emitted and [fs.fsync] is handed to the runtime; its answer,
    error or not, is what [cb] is called with, once.  When instead the write
    fails (with another code than EAGAIN and EBUSY), ['error'] is emitted
    and [cb] is called with that error, once; the chunk stays in
    [_writingBuf].  In both cases no listener of [flush] is left behind. *)
Theorem flush_callback_is_called_once_the_data_is_synced :
  forall fuel cb (w : world jsstring jsstring),
    destroyed (self w) = false -> 0 < minLength (self w) ->
    _writing (self w) = false -> sync (self w) = false -> _fsync (self w) = false ->
    _reopening (self w) = false -> _ending (self w) = false ->
    drain_once w = [] -> error_once w = [] ->
    let d := fd (self w) in
    let c := flush_chunk (self w) in
    let i := List.length (tasks w) in
    exists w1,
      flush (1 + fuel) (Fn cb) w = Returned tt w1
      /\ trace w1 = trace w /\ tasks w1 = tasks w ++ [fs_write d c]
      /\ (forall n r,
             len (js_slice c n) = 0 -> _len (self w) - n <= minLength (self w) ->
             exists w2 w3,
               complete (1 + fuel) i (Done n) w1 = Returned tt w2
               /\ trace w2 = trace w ++ [SysWrite d c (Done n); Emit (EvWrite n);
                                         Emit EvDrain]
               /\ tasks w2 = tasks w ++ [fs_fsync_cb d cb]
               /\ complete (1 + fuel) i r w2 = Returned tt w3
               /\ trace w3 = trace w2 ++ [SysFsync d r; Call cb (failure r)]
               /\ tasks w3 = tasks w
               /\ drain_once w3 = [] /\ error_once w3 = [])
      /\ (forall code,
             code <> "EAGAIN"%string -> code <> "EBUSY"%string ->
             exists w2,
               complete (1 + fuel) i (Failed code) w1 = Returned tt w2
               /\ trace w2 = trace w ++ [SysWrite d c (Failed code);
                                         Emit (EvError (SystemError code));
                                         Call cb (Some (SystemError code))]
               /\ tasks w2 = tasks w
               /\ drain_once w2 = [] /\ error_once w2 = []
               /\ _writingBuf (self w2) = c).
Proof.
  intros fuel cb w Hlive Hmin Hwr Hsync Hfs Hre Hend Hd He d c i.
  change (1 + fuel)%nat with (S fuel).
  destruct (@flush_dispatches fuel cb w Hlive Hmin Hwr Hsync)
    as (w1 & Hrun & Ht1 & Hrp1 & Hk1 & Hd1 & He1 & Hel1 & Hwb1 & Hl1 & Hfd1 & Hs1 & Hf1
        & Hre1 & Hend1 & Hm1 & Hretry1).
  fold d in Hk1. fold c in Hk1, Hwb1. rewrite Hd in Hd1. rewrite He in He1.
  cbn [app] in Hd1, He1.
  exists w1. split; [exact Hrun | ]. split; [exact Ht1 | ]. split; [exact Hk1 | ].
  assert (Hnth : nth_error (tasks w1) i = Some (fs_write d c))
    by (rewrite Hk1; apply nth_error_last).
  assert (Hrest : remove_nth i (tasks w1) = tasks w)
    by (rewrite Hk1; apply remove_nth_last).
  split.
  - intros n r Hn Hlen.
    rewrite (@complete_at _ _ _ _ _ _ _ _ Hnth), Hrest. unfold run.
    unfold bind at 1. unfold log at 1. cbv beta iota.
    match goal with
    | |- context [release (S fuel) None n ?W] => set (w1' := W)
    end.
    destruct (@release_drains _ _ _ fuel n (fresh w) cb w1')
      as (w2 & Hrun2 & Ht2 & Hk2 & Hrp2 & Hd2 & He2 & Hw2 & Hb2).
    { exact Hs1. }
    { unfold w1'. cbn. rewrite Hf1. exact Hfs. }
    { unfold w1'. cbn. rewrite Hre1. exact Hre. }
    { unfold w1'. cbn. rewrite Hend1. exact Hend. }
    { unfold w1'. cbn. rewrite Hwb1. exact Hn. }
    { unfold w1'. cbn. rewrite Hl1, Hm1. exact Hlen. }
    { unfold w1'. cbn. rewrite Hm1. lia. }
    { exact Hd1. }
    { exact He1. }
    assert (Hnth2 : nth_error (tasks w2) i = Some (fs_fsync_cb d cb)).
    { rewrite Hk2. unfold w1'. cbn [tasks with_tasks with_trace self fd].
      rewrite Hfd1. apply nth_error_last. }
    assert (Hrest2 : remove_nth i (tasks w2) = tasks w).
    { rewrite Hk2. unfold w1'. cbn [tasks with_tasks with_trace self fd].
      apply remove_nth_last. }
    exists w2. eexists. split; [exact Hrun2 | ].
    split; [rewrite Ht2; unfold w1'; cbn; rewrite Ht1, <- app_assoc; reflexivity | ].
    split; [rewrite Hk2; unfold w1'; cbn; rewrite Hfd1; reflexivity | ].
    rewrite (@complete_at _ _ _ _ _ _ _ _ Hnth2), Hrest2. unfold run.
    unfold bind at 1. unfold log at 1. cbv beta iota. unfold call, log.
    split; [reflexivity | ].
    cbn [trace tasks drain_once error_once with_trace with_tasks].
    rewrite <- app_assoc.
    repeat split; first [reflexivity | assumption].
  - intros code Ha Hb.
    rewrite (@complete_at _ _ _ _ _ _ _ _ Hnth), Hrest. unfold run.
    unfold bind at 1. unfold log at 1. cbv beta iota.
    match goal with
    | |- context [release (S fuel) _ 0 ?W] => set (w1' := W)
    end.
    destruct (@release_fails _ _ _ fuel code (fresh w) cb w1')
      as (w2 & Hrun2 & Ht2 & Hk2 & Hrp2 & Hd2 & He2 & Hw2 & Hwb2 & Hb2 & Hl2).
    { apply String.eqb_neq. exact Ha. }
    { apply String.eqb_neq. exact Hb. }
    { exact Hd1. }
    { exact He1. }
    exists w2. split; [exact Hrun2 | ].
    split; [rewrite Ht2; unfold w1'; cbn; rewrite Ht1, <- app_assoc; reflexivity | ].
    split; [rewrite Hk2; reflexivity | ].
    split; [exact Hd2 | ]. split; [exact He2 | ].
    rewrite Hwb2. exact Hwb1.
Qed.

(** "ab" held below [minLength] 10 and flushed with callback 7. *)
Lemma flush_callback_is_called_once_the_data_is_synced_witness :
  exists w w1 w2 w3,
    holding_below_minLength = Returned true w
    /\ tasks w = [tick_ready] /\ trace w = []
    /\ flush 1 (Fn 7) w = Returned tt w1
    /\ tasks w1 = [tick_ready; fs_write 1 [97; 98]]
    /\ complete 1 1 (Done 2) w1 = Returned tt w2
    /\ trace w2 = [SysWrite 1 [97; 98] (Done 2); Emit (EvWrite 2); Emit EvDrain]
    /\ tasks w2 = [tick_ready; fs_fsync_cb 1 7]
    /\ complete 1 1 (Failed "EIO") w2 = Returned tt w3
    /\ trace w3 = trace w2 ++ [SysFsync 1 (Failed "EIO");
                               Call 7 (Some (SystemError "EIO"))]
    /\ tasks w3 = [tick_ready].
Proof.
  eexists.
  match goal with
  | |- exists w1 w2 w3, ?O = Returned true ?W /\ _ =>
      assert (Hw : O = Returned true W) by (vm_compute; reflexivity);
      destruct (@flush_callback_is_called_once_the_data_is_synced 0 7 W)
        as (w1 & H1 & H2 & H3 & H4 & _);
      [ reflexivity | reflexivity | reflexivity | reflexivity | reflexivity
      | reflexivity | reflexivity | reflexivity | reflexivity | ]
  end.
  destruct (H4 2 (Failed "EIO")) as (w2 & w3 & G1 & G2 & G3 & G4 & G5 & G6 & _);
    [reflexivity | vm_compute; discriminate | ].
  exists w1, w2, w3. split; [exact Hw | ].
  split; [reflexivity | ]. split; [reflexivity | ].
  split; [exact H1 | ]. split; [exact H3 | ]. split; [exact G1 | ].
  split; [exact G2 | ]. split; [exact G3 | ]. split; [exact G4 | ].
  split; [exact G5 | exact G6].
Defined.
(** ** [end] after multi-byte text *)

Section Spent.

Context {buf chunk : Type} {content : Content buf chunk}.

(** The write in flight is done and took at least as many bytes as [_len]
    counts; nobody waits for ['drain']: the writer goes idle with [_len] 0,
    whatever [_bufs] holds. *)
Lemma release_goes_idle fuel n (w : world buf chunk) :
  sync (self w) = false -> _fsync (self w) = false ->
  _reopening (self w) = false -> _ending (self w) = false ->
  length_of (slice (_writingBuf (self w)) n) = 0 ->
  _len (self w) <= n -> 0 <= minLength (self w) ->
  drain_once w = [] ->
  exists w2,
    release (S fuel) None n w = Returned tt w2
    /\ trace w2 = trace w ++ [Emit (EvWrite n); Emit EvDrain]
    /\ tasks w2 = tasks w /\ replies w2 = replies w
    /\ _len (self w2) = 0
    /\ _writing (self w2) = false /\ _bufs (self w2) = _bufs (self w)
    /\ destroyed (self w2) = destroyed (self w)
    /\ _opening (self w2) = _opening (self w)
    /\ _ending (self w2) = false /\ fd (self w2) = fd (self w).
Proof.
  intros Hsync Hfs Hre Hend Hrest Hlen Hmin Hd.
  rewrite release_S. unfold release_body.
  unfold bind at 1. unfold emit at 1. unfold log at 1. cbv beta iota.
  unfold bind at 1. unfold upd at 1. cbv beta iota.
  unfold bind at 1. unfold this at 1. cbv beta iota.
  unfold bind at 1. unfold when.
  cbn [self with_self with_trace _len set_len].
  assert (Hgo : forall w0 : world buf chunk,
             tasks w0 = tasks w -> trace w0 = trace w ++ [Emit (EvWrite n)] ->
             replies w0 = replies w -> drain_once w0 = [] ->
             self w0 = set_len 0 (self w) ->
             exists w2,
               (upd (fun s : sonic buf chunk =>
                       set_writingBuf (slice (_writingBuf s) n) s);;
                s <- this;;
                (if negb (length_of (_writingBuf s) =? 0)
                 then
                  if negb (sync s)
                  then fsWrite
                  else
                   r <- attempt (release_loop fuel);;
                   match r with
                   | inl err => release fuel (Some err) 0
                   | inr _ => release_completed (_actualWrite fuel) (reopen fuel)
                   end
                 else release_completed (_actualWrite fuel) (reopen fuel))) w0
               = Returned tt w2
               /\ trace w2 = trace w ++ [Emit (EvWrite n); Emit EvDrain]
               /\ tasks w2 = tasks w /\ replies w2 = replies w
               /\ _len (self w2) = 0
               /\ _writing (self w2) = false /\ _bufs (self w2) = _bufs (self w)
               /\ destroyed (self w2) = destroyed (self w)
               /\ _opening (self w2) = _opening (self w)
               /\ _ending (self w2) = false /\ fd (self w2) = fd (self w)).
  { intros w0 Ht Htr Hrp Hd0 Hs.
    assert (Hre0 : _reopening (self w0) = false) by (rewrite Hs; exact Hre).
    assert (Hend0 : _ending (self w0) = false) by (rewrite Hs; exact Hend).
    assert (Hsync0 : sync (self w0) = false) by (rewrite Hs; exact Hsync).
    assert (Hfs0 : _fsync (self w0) = false) by (rewrite Hs; exact Hfs).
    assert (Hwb0 : _writingBuf (self w0) = _writingBuf (self w))
      by (rewrite Hs; reflexivity).
    assert (Hfd0 : fd (self w0) = fd (self w)) by (rewrite Hs; reflexivity).
    assert (Hbufs0 : _bufs (self w0) = _bufs (self w)) by (rewrite Hs; reflexivity).
    assert (Hlen0 : _len (self w0) = 0) by (rewrite Hs; reflexivity).
    assert (Hmin0 : minLength (self w0) = minLength (self w))
      by (rewrite Hs; reflexivity).
    assert (Hdes0 : destroyed (self w0) = destroyed (self w))
      by (rewrite Hs; reflexivity).
    assert (Hop0 : _opening (self w0) = _opening (self w))
      by (rewrite Hs; reflexivity).
    clear Hs.
    unfold bind at 1. unfold upd at 1. cbv beta iota.
    unfold bind at 1. unfold this at 1. cbv beta iota.
    cbn [self with_self _writingBuf set_writingBuf]. rewrite Hwb0, Hrest.
    cbn [Z.eqb negb]. unfold release_completed.
    unfold bind at 1. unfold this at 1. cbv beta iota.
    cbn [self with_self _fsync set_writingBuf]. rewrite Hfs0.
    unfold when at 1. unfold bind at 1. unfold ret at 1. cbv beta iota.
    unfold bind at 1. unfold this at 1. cbv beta iota.
    cbn [self with_self _reopening _ending _len minLength sync set_writingBuf].
    rewrite Hre0, Hend0, Hlen0, Hmin0, Hsync0.
    destruct (Z.gtb_spec 0 (minLength (self w))) as [Hgt | _]; [lia | ].
    unfold bind at 1. unfold upd at 1. cbv beta iota.
    unfold emit. unfold bind at 1. unfold log at 1. cbv beta iota.
    cbn [drain_once with_self with_drain_once with_trace]. rewrite Hd0.
    cbn [for_each]. unfold ret.
    eexists. split; [reflexivity | ]. cbn.
    rewrite Ht, Htr, Hrp, Hfd0, Hbufs0, Hlen0, Hend0, Hdes0, Hop0, <- app_assoc.
    repeat split; reflexivity. }
  destruct (_len (self w) - n <? 0) eqn:Hneg.
  - unfold upd at 1. cbv beta iota. apply Hgo; try reflexivity; try assumption.
  - unfold ret at 1. cbv beta iota. apply Hgo; try reflexivity; try assumption.
    apply Z.ltb_ge in Hneg. cbn [self with_self with_trace].
    replace (_len (self w) - n) with 0 by lia. reflexivity.
Qed.

End Spent.

(** X19. [_len] counts characters but is decreased by the bytes written.
    On a deferred text writer with a write in flight that nobody waits on
    (no flush callback), when the descriptor takes the whole chunk and its
    bytes are at least what [_len] counts, the writer goes idle with [_len]
    0 whatever is still queued in [_bufs].  [end()] then finds [_len] at 0:
    it writes nothing, marks the writer destroyed and empties [_bufs] --
    the chunks queued behind the multi-byte text are never written. *)
Theorem end_drops_what_is_queued_behind_multibyte_text :
  forall fuel i (w : world jsstring jsstring),
    destroyed (self w) = false -> _opening (self w) = false ->
    _ending (self w) = false -> _reopening (self w) = false ->
    sync (self w) = false -> _fsync (self w) = false ->
    0 <= minLength (self w) -> fd (self w) <> -1 -> drain_once w = [] ->
    let d := fd (self w) in
    let c := _writingBuf (self w) in
    let n := len (utf8 c) in
    nth_error (tasks w) i = Some (fs_write d c) ->
    _len (self w) <= n ->
    exists w1 w2,
      complete (1 + fuel) i (Done n) w = Returned tt w1
      /\ trace w1 = trace w ++ [SysWrite d c (Done n); Emit (EvWrite n); Emit EvDrain]
      /\ tasks w1 = remove_nth i (tasks w)
      /\ _writing (self w1) = false /\ _len (self w1) = 0
      /\ _bufs (self w1) = _bufs (self w)
      /\ end_ (1 + fuel) w1 = Returned tt w2
      /\ trace w2 = trace w1
      /\ tasks w2 = tasks w1 ++ [fs_fsync_close d]
      /\ destroyed (self w2) = true /\ _bufs (self w2) = [].
Proof.
  intros fuel i w Hlive Hop Hend Hre Hsync Hfs Hmin Hfd Hd d c n Hnth Hlen.
  change (1 + fuel)%nat with (S fuel).
  rewrite (@complete_at _ _ _ _ _ _ _ _ Hnth). unfold run.
  unfold bind at 1. unfold log at 1. cbv beta iota.
  match goal with
  | |- context [release (S fuel) None n ?W] => set (w0 := W)
  end.
  destruct (@release_goes_idle _ _ _ fuel n w0)
    as (w1 & Hrun & Ht & Hk & Hrp & Hl1 & Hw1 & Hb1 & Hd1 & Ho1 & He1 & Hfd1);
    try assumption.
  { change (len (js_slice c n) = 0).
    assert (Hnil : js_slice c n = []).
    { apply js_slice_nil_iff; [apply len_nonneg | apply utf8_len_ge]. }
    rewrite Hnil. reflexivity. }
  exists w1. eexists. split; [exact Hrun | ].
  split; [rewrite Ht; unfold w0; cbn; rewrite <- app_assoc; reflexivity | ].
  split; [exact Hk | ]. split; [exact Hw1 | ]. split; [exact Hl1 | ].
  split; [exact Hb1 | ].
  rewrite end_S. unfold end_body.
  unfold bind at 1. unfold this at 1. cbv beta iota.
  rewrite Hd1, Ho1, He1. unfold w0 at 1 2. cbn [self with_trace with_tasks].
  rewrite Hlive, Hop.
  unfold bind at 1. unfold upd at 1. cbv beta iota. rewrite Hw1, Hl1.
  change (0 >? 0) with false. cbn [andb].
  rewrite actualClose_with_descriptor
    by (cbn [self with_self fd set_ending]; rewrite Hfd1; exact Hfd).
  split; [reflexivity | ]. cbn. rewrite Hfd1.
  repeat split; reflexivity.
Qed.

(** "abcd" queued behind four two-byte characters is dropped by [end]. *)
Lemma end_drops_what_is_queued_behind_multibyte_text_witness :
  exists w w1 w2,
    holding_behind_multibyte = Returned tt w
    /\ _bufs (self w) = [[97; 98; 99; 100]] /\ _len (self w) = 8
    /\ tasks w = [tick_ready; fs_write 1 [233; 233; 233; 233]]
    /\ complete 1 1 (Done 8) w = Returned tt w1
    /\ _bufs (self w1) = [[97; 98; 99; 100]] /\ _len (self w1) = 0
    /\ end_ 1 w1 = Returned tt w2
    /\ trace w2 = trace w ++ [SysWrite 1 [233; 233; 233; 233] (Done 8);
                              Emit (EvWrite 8); Emit EvDrain]
    /\ destroyed (self w2) = true /\ _bufs (self w2) = [].
Proof.
  eexists.
  match goal with
  | |- exists w1 w2, ?O = Returned tt ?W /\ _ =>
      assert (Hw : O = Returned tt W) by (vm_compute; reflexivity);
      destruct (@end_drops_what_is_queued_behind_multibyte_text 0 1%nat W)
        as (w1 & w2 & H1 & H2 & H3 & H4 & H5 & H6 & H7 & H8 & H9 & H10 & H11);
      [ reflexivity | reflexivity | reflexivity | reflexivity | reflexivity
      | reflexivity | vm_compute; discriminate | vm_compute; discriminate
      | reflexivity | reflexivity | vm_compute; discriminate | ]
  end.
  exists w1, w2. split; [exact Hw | ].
  split; [reflexivity | ]. split; [reflexivity | ]. split; [reflexivity | ].
  split; [exact H1 | ]. split; [exact H6 | ]. split; [exact H5 | ].
  split; [exact H7 | ]. split; [rewrite H8; exact H2 | ].
  split; [exact H10 | exact H11].
Defined.
(** ** [end] before the file is open *)
(** [fileOpened] when [end] waits for ['ready'] and data is held: [end]
    dispatches the first chunk, and [fileOpened] does not dispatch again. *)
Lemma end_at_ready_writes fuel p newfd c rest (w : world jsstring jsstring) :
  destroyed (self w) = false -> _ending (self w) = false -> sync (self w) = false ->
  ready_once w = [LEnd] ->
  _writingBuf (self w) = [] -> _bufs (self w) = c :: rest ->
  0 < _len (self w) -> 0 <= newfd ->
  fileOpened (5 + fuel) p None newfd w
  = Returned tt
      (with_tasks (tasks w ++ [fs_write newfd c])
         (with_self (fun s => set_writingBuf c (set_bufs rest (set_writing true
                                (set_ending true (opened p newfd s)))))
            (with_ready_once []
               (with_trace (trace w ++ [Emit EvReady]) w)))).
Proof.
  intros Hlive Hend Hsync Hr Hwb Hb Hlen Hfd.
  change (5 + fuel)%nat with (S (S (S (S (S fuel))))).
  rewrite fileOpened_S. unfold fileOpened_body.
  do 5 (unfold bind at 1; unfold upd at 1; cbv beta iota).
  unfold bind at 1. unfold this at 1. cbv beta iota.
  match goal with
  | |- context [sync (self ?W)] => change (sync (self W)) with (sync (self w))
  end.
  rewrite Hsync. unfold bind at 1.
  rewrite emit_ready_S. unfold emit_ready_body.
  unfold bind at 1. unfold log at 1. cbv beta iota.
  cbn [ready_once with_self with_trace]. rewrite Hr.
  rewrite run_ready_S. unfold run_ready_body.
  unfold bind at 1. rewrite end_S. unfold end_body.
  unfold bind at 1. unfold this at 1. cbv beta iota.
  cbn [self with_self with_trace with_ready_once destroyed _opening _ending _writing
       _len fd set_fd set_file set_reopening set_opening set_writing].
  rewrite Hlive, Hend.
  unfold bind at 1. unfold upd at 1. cbv beta iota.
  replace (_len (self w) >? 0) with true by (symmetry; apply Z.gtb_lt; exact Hlen).
  replace (newfd >=? 0) with true by (symmetry; apply Z.geb_le; exact Hfd).
  cbn [andb].
  erewrite _actualWrite_deferred;
    [ | exact Hsync
      | cbn [self with_self with_trace with_ready_once _writingBuf _bufs _lens
             set_ending set_fd set_file set_reopening set_opening set_writing
             next_chunk Utf8];
        rewrite Hwb, Hb; reflexivity ].
  rewrite run_ready_S. unfold run_ready_body, ret.
  unfold bind at 1. unfold this at 1. cbv beta iota.
  cbn [self with_self with_tasks _reopening _writing set_writingBuf set_lens set_bufs
       set_writing set_ending set_fd set_file set_reopening set_opening].
  cbn [negb andb when]. unfold ret. reflexivity.
Qed.

(** [fileOpened] when [end] waits for ['ready'] and nothing is held. *)
Lemma end_at_ready_closes fuel p newfd (w : world jsstring jsstring) :
  destroyed (self w) = false -> _ending (self w) = false -> sync (self w) = false ->
  ready_once w = [LEnd] ->
  _len (self w) <= 0 -> newfd <> -1 ->
  fileOpened (5 + fuel) p None newfd w
  = Returned tt
      (with_tasks (tasks w ++ [fs_fsync_close newfd])
         (with_self (fun s => set_lens [] (set_bufs [] (set_destroyed true
                                (set_ending true (opened p newfd s)))))
            (with_ready_once []
               (with_trace (trace w ++ [Emit EvReady]) w)))).
Proof.
  intros Hlive Hend Hsync Hr Hlen Hfd.
  change (5 + fuel)%nat with (S (S (S (S (S fuel))))).
  rewrite fileOpened_S. unfold fileOpened_body.
  do 5 (unfold bind at 1; unfold upd at 1; cbv beta iota).
  unfold bind at 1. unfold this at 1. cbv beta iota.
  match goal with
  | |- context [sync (self ?W)] => change (sync (self W)) with (sync (self w))
  end.
  rewrite Hsync. unfold bind at 1.
  rewrite emit_ready_S. unfold emit_ready_body.
  unfold bind at 1. unfold log at 1. cbv beta iota.
  cbn [ready_once with_self with_trace]. rewrite Hr.
  rewrite run_ready_S. unfold run_ready_body.
  unfold bind at 1. rewrite end_S. unfold end_body.
  unfold bind at 1. unfold this at 1. cbv beta iota.
  cbn [self with_self with_trace with_ready_once destroyed _opening _ending _writing
       _len fd set_fd set_file set_reopening set_opening set_writing].
  rewrite Hlive, Hend.
  unfold bind at 1. unfold upd at 1. cbv beta iota.
  replace (_len (self w) >? 0) with false
    by (symmetry; destruct (Z.gtb_spec (_len (self w)) 0); [lia | reflexivity]).
  cbn [andb].
  rewrite actualClose_with_descriptor by (cbn; exact Hfd).
  rewrite run_ready_S. unfold run_ready_body, ret.
  unfold bind at 1. unfold this at 1. cbv beta iota.
  cbn [self with_self with_tasks _reopening _writing destroyed set_destroyed set_lens
       set_bufs set_writing set_ending set_fd set_file set_reopening set_opening].
  rewrite andb_false_r. cbn [when]. unfold ret. reflexivity.
Qed.

(** X20. [end()] on a deferred text writer whose file is still opening
    only leaves a listener on ['ready']: the writer, what was observed and
    what the runtime holds are unchanged, and [_ending] is not yet set.
    When [fs.open] answers with a descriptor, ['ready'] is emitted and the
    deferred [end] runs: if the writer holds data ([_len] positive) the
    first chunk is handed to [fs.write] on the new descriptor, once;
    otherwise the writer is destroyed and the close sequence starts.  When
    [fs.open] fails (someone listening on ['error']), ['ready'] never
    comes: the writer is left neither ending nor destroyed, with its data,
    and the deferred [end] still waiting. *)
Theorem end_before_the_file_is_open_waits_for_ready :
  forall fuel i p flags mode0 (w : world jsstring jsstring),
    destroyed (self w) = false -> _opening (self w) = true ->
    _ending (self w) = false -> sync (self w) = false ->
    ready_once w = [] -> error_once w = [] ->
    nth_error (tasks w) i = Some (fs_open p flags mode0) ->
    exists w1,
      end_ (1 + fuel) w = Returned tt w1
      /\ self w1 = self w /\ trace w1 = trace w /\ tasks w1 = tasks w
      /\ replies w1 = replies w /\ ready_once w1 = [LEnd]
      /\ (forall newfd c rest,
             0 <= newfd -> 0 < _len (self w) ->
             _writingBuf (self w) = [] -> _bufs (self w) = c :: rest ->
             exists w2,
               complete (5 + fuel) i (Done newfd) w1 = Returned tt w2
               /\ trace w2 = trace w ++ [SysOpen p flags mode0 (Done newfd); Emit EvReady]
               /\ tasks w2 = remove_nth i (tasks w) ++ [fs_write newfd c]
               /\ _ending (self w2) = true /\ destroyed (self w2) = false
               /\ fd (self w2) = newfd /\ _bufs (self w2) = rest)
      /\ (forall newfd,
             0 <= newfd -> _len (self w) <= 0 ->
             exists w2,
               complete (5 + fuel) i (Done newfd) w1 = Returned tt w2
               /\ trace w2 = trace w ++ [SysOpen p flags mode0 (Done newfd); Emit EvReady]
               /\ tasks w2 = remove_nth i (tasks w) ++ [fs_fsync_close newfd]
               /\ _ending (self w2) = true /\ destroyed (self w2) = true
               /\ fd (self w2) = newfd)
      /\ (forall code,
             error_listeners w <> 0%nat ->
             exists w2,
               complete (5 + fuel) i (Failed code) w1 = Returned tt w2
               /\ trace w2 = trace w ++ [SysOpen p flags mode0 (Failed code);
                                         Emit (EvError (SystemError code))]
               /\ tasks w2 = remove_nth i (tasks w)
               /\ _ending (self w2) = false /\ destroyed (self w2) = false
               /\ _opening (self w2) = false
               /\ _bufs (self w2) = _bufs (self w)
               /\ ready_once w2 = [LEnd]).
Proof.
  intros fuel i p flags mode0 w Hlive Hop Hend Hsync Hr He Hnth.
  change (1 + fuel)%nat with (S fuel).
  rewrite end_S. unfold end_body.
  unfold bind at 1. unfold this at 1. cbv beta iota.
  rewrite Hlive, Hop. unfold once_ready. rewrite Hr. cbn [app].
  eexists. split; [reflexivity | ].
  split; [reflexivity | ]. split; [reflexivity | ]. split; [reflexivity | ].
  split; [reflexivity | ]. split; [reflexivity | ].
  set (w1 := with_ready_once [LEnd] w).
  assert (Hnth1 : nth_error (tasks w1) i = Some (fs_open p flags mode0)) by exact Hnth.
  split; [ | split].
  - intros newfd c rest Hfd Hlen Hwb Hb.
    rewrite (@complete_at _ _ _ _ _ _ _ _ Hnth1). unfold run.
    unfold bind at 1. unfold log at 1. cbv beta iota.
    rewrite (@end_at_ready_writes fuel p newfd c rest);
      [ | exact Hlive | exact Hend | exact Hsync | reflexivity | exact Hwb | exact Hb
        | exact Hlen | exact Hfd ].
    eexists. split; [reflexivity | ]. cbn. rewrite <- app_assoc.
    repeat split; first [reflexivity | assumption].
  - intros newfd Hfd Hlen.
    rewrite (@complete_at _ _ _ _ _ _ _ _ Hnth1). unfold run.
    unfold bind at 1. unfold log at 1. cbv beta iota.
    rewrite (@end_at_ready_closes fuel p newfd);
      [ | exact Hlive | exact Hend | exact Hsync | reflexivity | exact Hlen | lia ].
    eexists. split; [reflexivity | ]. cbn. rewrite <- app_assoc.
    repeat split; first [reflexivity | assumption].
  - intros code Hl.
    rewrite (@complete_at _ _ _ _ _ _ _ _ Hnth1). unfold run.
    unfold bind at 1. unfold log at 1. cbv beta iota.
    change (5 + fuel)%nat with (S (4 + fuel)).
    rewrite fileOpened_deferred_failed by exact Hsync.
    rewrite emit_error_heard; [ | exact Hl | exact He].
    eexists. split; [reflexivity | ]. cbn. rewrite <- app_assoc.
    repeat split; first [reflexivity | assumption].
Qed.

(** "hi" written and [end] called before "app.log" is open: when it opens
    on descriptor 7, "hi" is handed to [fs.write]. *)
Lemma end_before_the_file_is_open_waits_for_ready_witness :
  exists w w1 w2,
    written_before_open = Returned true w
    /\ tasks w = [fs_open "app.log" "a" None] /\ trace w = []
    /\ end_ 1 w = Returned tt w1
    /\ self w1 = self w /\ tasks w1 = tasks w /\ trace w1 = []
    /\ complete 5 0 (Done 7) w1 = Returned tt w2
    /\ trace w2 = [SysOpen "app.log" "a" None (Done 7); Emit EvReady]
    /\ tasks w2 = [fs_write 7 [104; 105]]
    /\ _ending (self w2) = true /\ destroyed (self w2) = false.
Proof.
  eexists.
  match goal with
  | |- exists w1 w2, ?O = Returned true ?W /\ _ =>
      assert (Hw : O = Returned true W) by (vm_compute; reflexivity);
      destruct (@end_before_the_file_is_open_waits_for_ready
                  0 0%nat "app.log" "a" None W)
        as (w1 & H1 & H2 & H3 & H4 & H5 & H6 & H7 & _);
      [ reflexivity | reflexivity | reflexivity | reflexivity | reflexivity
      | reflexivity | reflexivity | ]
  end.
  destruct (H7 7 [104; 105] []) as (w2 & G1 & G2 & G3 & G4 & G5 & _);
    [vm_compute; discriminate | reflexivity | reflexivity | reflexivity | ].
  exists w1, w2. split; [exact Hw | ].
  split; [reflexivity | ]. split; [reflexivity | ].
  split; [exact H1 | ]. split; [exact H2 | ]. split; [exact H4 | ].
  split; [exact H3 | ]. split; [exact G1 | ]. split; [exact G2 | ].
  split; [exact G3 | ]. split; [exact G4 | exact G5].
Defined.
(** ** Retried writes *)

Lemma js_slice_0 {A} (l : list A) : js_slice l 0 = l.
Proof. reflexivity. Qed.

(** Blocking mode: [release] having nothing more to do than to say so. *)
Lemma release_completed_idle {buf chunk} {content : Content buf chunk}
      (ra : Js buf chunk unit) (ro : option string -> Js buf chunk unit)
      (w : world buf chunk) :
  sync (self w) = true -> _fsync (self w) = false ->
  _reopening (self w) = false -> _ending (self w) = false ->
  _len (self w) <= minLength (self w) ->
  release_completed ra ro w
  = Returned tt
      (if _asyncDrainScheduled (self w)
       then with_self (set_writing false) w
       else with_tasks (tasks w ++ [tick_drain])
              (with_self (set_asyncDrainScheduled true)
                 (with_self (set_writing false) w))).
Proof.
  intros Hsync Hfs Hre Hend Hlen. unfold release_completed.
  unfold bind at 1. unfold this at 1. cbv beta iota. rewrite Hfs.
  unfold when at 1. unfold bind at 1. unfold ret at 1. cbv beta iota.
  unfold bind at 1. unfold this at 1. cbv beta iota. rewrite Hre, Hend, Hsync.
  destruct (Z.gtb_spec (_len (self w)) (minLength (self w))) as [Hgt | _]; [lia | ].
  unfold bind at 1. unfold upd at 1. cbv beta iota.
  destruct (_asyncDrainScheduled (self w)); reflexivity.
Qed.

Lemma with_self_same {buf chunk} (w : world buf chunk) (f : sonic buf chunk -> sonic buf chunk) :
  f (self w) = self w -> with_self f w = w.
Proof. intros H. unfold with_self. rewrite H. destruct w; reflexivity. Qed.

(** Blocking mode, a busy code: [release] pauses, says that nothing was
    written, and goes into its loop. *)
Lemma retry_enters fuel code (w : world jsstring jsstring) :
  sync (self w) = true ->
  (forall e a b, retryEAGAIN (self w) e a b = true) ->
  busy code -> _writingBuf (self w) <> [] -> 0 <= _len (self w) ->
  release (S (S fuel)) (Some (SystemError code)) 0 w
  = match
      (r <- attempt (release_loop fuel);;
       match r with
       | inl err => release fuel (Some err) 0
       | inr _ => release_completed (_actualWrite fuel) (reopen fuel)
       end) (with_trace (trace w ++ [Sleep BUSY_WRITE_TIMEOUT; Emit (EvWrite 0)]) w)
    with
    | Returned a w0 => Returned a w0
    | Thrown e w0 => release (S fuel) (Some e) 0 w0
    | Waiting => Waiting
    | OutOfFuel => OutOfFuel
    end.
Proof.
  intros Hsync Hretry Hcode Hc Hl0.
  rewrite release_S. unfold release_body.
  unfold bind at 1. unfold this at 1. cbv beta iota.
  rewrite Hretry, Hsync.
  replace (code_is (SystemError code) "EAGAIN" || code_is (SystemError code) "EBUSY")
    with true by (destruct Hcode as [-> | ->]; reflexivity).
  cbn [andb]. unfold try_catch.
  unfold bind at 1. unfold sleep at 1. unfold log at 1. cbv beta iota.
  rewrite release_S. unfold release_body.
  unfold bind at 1. unfold emit at 1. unfold log at 1. cbv beta iota.
  unfold bind at 1. unfold upd at 1. cbv beta iota.
  unfold bind at 1. unfold this at 1. cbv beta iota.
  cbn [self with_self with_trace _len set_len].
  rewrite Z.sub_0_r.
  replace (_len (self w) <? 0) with false by (symmetry; apply Z.ltb_ge; exact Hl0).
  unfold when at 1. unfold bind at 1. unfold ret at 1. cbv beta iota.
  unfold bind at 1. unfold upd at 1. cbv beta iota.
  unfold bind at 1. unfold this at 1. cbv beta iota.
  cbn [self with_self with_trace _writingBuf set_writingBuf set_len sync slice
       length_of Utf8 trace].
  rewrite js_slice_0, Hsync.
  replace (len (_writingBuf (self w)) =? 0) with false
    by (symmetry; apply Z.eqb_neq; pose proof (len_nonempty Hc); lia).
  cbn [negb].
  rewrite <- app_assoc. cbn [app].
  match goal with
  | |- match _ ?A with _ => _ end = match _ ?B with _ => _ end =>
      replace A with B; [reflexivity | ]
  end.
  clear. destruct w as [s ? ? ? ? ? ? ? ? ?]. destruct s.
  unfold with_self, with_trace, set_writingBuf, set_len. cbn.
  rewrite Z.sub_0_r. reflexivity.
Qed.

(** Blocking mode: a write that fails with busy codes, then is taken
    whole. *)
Lemma retry_loop :
  forall codes fuel c more (w : world jsstring jsstring) code,
    sync (self w) = true -> _fsync (self w) = false ->
    _reopening (self w) = false -> _ending (self w) = false ->
    (forall e a b, retryEAGAIN (self w) e a b = true) ->
    _writingBuf (self w) = c -> c <> [] -> 0 <= _len (self w) ->
    _len (self w) - len c <= minLength (self w) -> 0 <= minLength (self w) ->
    busy code -> Forall busy codes ->
    replies w = map Failed codes ++ Done (len c) :: more ->
    (2 * List.length codes + 3 <= fuel)%nat ->
    exists w',
      release fuel (Some (SystemError code)) 0 w = Returned tt w'
      /\ trace w' = trace w ++ [Sleep BUSY_WRITE_TIMEOUT; Emit (EvWrite 0)]
                     ++ retries (fd (self w)) c codes
                     ++ [SysWrite (fd (self w)) c (Done (len c))]
      /\ replies w' = more
      /\ tasks w' = tasks w ++ (if _asyncDrainScheduled (self w) then [] else [tick_drain])
      /\ _writingBuf (self w') = [] /\ _bufs (self w') = _bufs (self w)
      /\ _len (self w') = _len (self w) - len c
      /\ _writing (self w') = false.
Proof.
  induction codes as [ | code' codes IH];
    intros fuel c more w code Hsync Hfs Hre Hend Hretry Hwb Hc Hl0 Hlen Hmin Hcode Hcodes
           Hr Hfuel.
  - destruct fuel as [ | [ | [ | f]]]; try (cbn in Hfuel; lia).
    rewrite retry_enters; try assumption; [ | rewrite Hwb; exact Hc].
    unfold bind at 1. unfold attempt. cbn [release_loop].
    unfold bind at 1. unfold fsWriteSync. unfold bind at 1. unfold this at 1.
    cbv beta iota. unfold blocking. cbn [replies with_trace]. rewrite Hr.
    cbn [map app]. cbv beta iota zeta.
    unfold bind at 1. unfold upd at 1. cbv beta iota.
    unfold bind at 1. unfold upd at 1. cbv beta iota.
    unfold bind at 1. unfold this at 1. cbv beta iota.
    cbn [self with_self with_trace with_replies _writingBuf set_writingBuf set_len slice
         length_of Utf8].
    rewrite Hwb, js_slice_all. change (negb (len (@nil Z) =? 0)) with false.
    cbv iota. unfold ret at 1.
    rewrite release_completed_idle;
      [ | exact Hsync | exact Hfs | exact Hre | exact Hend
        | cbn [self with_self _len minLength set_writingBuf set_len]; exact Hlen ].
    eexists. split; [reflexivity | ].
    cbn [self with_self with_trace with_replies _asyncDrainScheduled set_writingBuf
         set_len].
    destruct (_asyncDrainScheduled (self w)); cbn; rewrite <- !app_assoc; cbn [app];
      rewrite ?app_nil_r, Hwb, js_slice_all; repeat split; reflexivity.
  - destruct fuel as [ | [ | [ | f]]]; try (cbn in Hfuel; lia).
    rewrite retry_enters; try assumption; [ | rewrite Hwb; exact Hc].
    unfold bind at 1. unfold attempt. cbn [release_loop].
    unfold bind at 1. unfold fsWriteSync. unfold bind at 1. unfold this at 1.
    cbv beta iota. unfold blocking. cbn [replies with_trace]. rewrite Hr.
    cbn [map app]. cbv beta iota zeta.
    match goal with
    | |- context [release (S f) (Some (SystemError code')) 0 ?W] => set (w0 := W)
    end.
    destruct (IH (S f) c more w0 code') as (w' & Hrun & Ht & Hrp & Hk & Hwb' & Hb' & Hl' & Hw');
      try assumption.
    { exact (Forall_inv Hcodes). }
    { exact (Forall_inv_tail Hcodes). }
    { reflexivity. }
    { cbn [List.length] in Hfuel. lia. }
    rewrite Hrun. exists w'. split; [reflexivity | ].
    rewrite Ht, Hrp, Hk, Hwb', Hb', Hl', Hw'. unfold w0.
    cbn [self with_self with_trace with_replies trace tasks fd _writingBuf _bufs _len
         _asyncDrainScheduled retries flat_map].
    fold (retries (fd (self w)) c codes). rewrite Hwb.
    rewrite <- !app_assoc. cbn [app].
    repeat split; reflexivity.
Qed.

(** Blocking mode: [_actualWrite] when the write fails. *)
Lemma _actualWrite_failed fuel c rest code more (w : world jsstring jsstring) :
  sync (self w) = true ->
  held (_writingBuf (self w)) (_bufs (self w)) = c :: rest ->
  replies w = Failed code :: more ->
  _actualWrite (S fuel) w
  = release fuel (Some (SystemError code)) 0
      (with_trace (trace w ++ [SysWrite (fd (self w)) c (Failed code)])
         (with_replies more
            (with_self (set_writingBuf c)
               (with_self (fun s => set_lens (_lens (self w)) (set_bufs rest s))
                  (with_self (set_writing true) w))))).
Proof.
  intros Hsync Hheld Hr.
  pose proof (next_utf8_held _ _ (_lens (self w)) Hheld) as Hnext.
  rewrite _actualWrite_S. unfold _actualWrite_body.
  unfold bind at 1. unfold upd at 1. cbv beta iota.
  unfold bind at 1. unfold this at 1. cbv beta iota.
  cbn [self with_self _writingBuf _bufs _lens set_writing next_chunk Utf8].
  rewrite Hnext.
  unfold bind at 1. unfold upd at 1. cbv beta iota.
  unfold bind at 1. unfold upd at 1. cbv beta iota.
  cbn [sync set_writing]. rewrite Hsync.
  unfold try_catch. unfold bind at 1. unfold fsWriteSync at 1.
  unfold bind at 1. unfold this at 1. cbv beta iota.
  unfold blocking at 1.
  cbn [replies with_self self]. rewrite Hr. cbv beta iota zeta.
  reflexivity.
Qed.

(** X21. [write(data)] on an idle blocking writer with nothing buffered,
    for one-byte text that is not empty and with the default
    [retryEAGAIN]: when the descriptor fails any number of times with
    EAGAIN or EBUSY and then takes the data whole, [write] returns
    normally; each failed attempt is followed by a pause of 100 ms and a
    ['write'] event of 0 bytes; the data is handed to the descriptor again,
    whole, until it is taken; no ['error'] is emitted; and the writer ends
    idle with nothing buffered.  Without any failure the write is followed
    by a ['write'] event of its size; after a retry, the bytes that were
    finally written are reported by no ['write'] event. *)
Theorem blocking_write_is_retried_until_taken :
  forall codes fuel data more (w : world jsstring jsstring),
    destroyed (self w) = false -> sync (self w) = true -> _fsync (self w) = false ->
    _writing (self w) = false -> _reopening (self w) = false ->
    _ending (self w) = false -> maxLength (self w) = 0 ->
    (forall e a b, retryEAGAIN (self w) e a b = true) ->
    _writingBuf (self w) = [] -> _bufs (self w) = [] -> _len (self w) = 0 ->
    0 <= minLength (self w) <= len data ->
    data <> [] -> one_byte_text data -> Forall busy codes ->
    let n := len (utf8 data) in
    replies w = map Failed codes ++ Done n :: more ->
    (2 * List.length codes + 4 <= fuel)%nat ->
    exists w',
      write fuel data w = Returned (0 <? _hwm (self w)) w'
      /\ trace w' = trace w
                    ++ match codes with
                       | [] => [SysWrite (fd (self w)) data (Done n); Emit (EvWrite n)]
                       | _ => retries (fd (self w)) data codes
                              ++ [SysWrite (fd (self w)) data (Done n)]
                       end
      /\ replies w' = more
      /\ tasks w' = tasks w ++ (if _asyncDrainScheduled (self w) then [] else [tick_drain])
      /\ _writingBuf (self w') = [] /\ _bufs (self w') = [] /\ _len (self w') = 0
      /\ _writing (self w') = false.
Proof.
  intros codes fuel data more w Hlive Hsync Hfs Hwr Hre Hend Hml Hretry Hwb Hb Hl Hmin
         Hdata Hone Hcodes n Hr Hfuel.
  assert (Hn : n = len data) by (apply utf8_one_byte_len; exact Hone).
  unfold write. unfold bind at 1. unfold this at 1. cbv beta iota.
  rewrite Hlive, Hml, Hb, Hl. change (0 =? 0) with true. cbn [negb andb orb app].
  change (len (@nil jsstring) =? 0) with true. cbn [orb].
  unfold bind at 1. unfold upd at 1. cbv beta iota.
  unfold bind at 1. unfold upd at 1. cbv beta iota.
  unfold bind at 1. unfold this at 1. cbv beta iota.
  cbn [self with_self _writing _len minLength set_len set_bufs]. rewrite Hwr.
  replace (0 + len data >=? minLength (self w)) with true
    by (symmetry; apply Z.geb_le; lia).
  cbn [negb andb when]. unfold actualWrite.
  set (w0 := with_self (set_len (0 + len data)) (with_self (set_bufs [data]) w)).
  assert (Hheld : held (_writingBuf (self w0)) (_bufs (self w0)) = [data]).
  { unfold w0. cbn [self with_self _writingBuf _bufs set_len set_bufs]. rewrite Hwb.
    reflexivity. }
  assert (Hcore : exists w',
             _actualWrite fuel w0 = Returned tt w'
             /\ trace w' = trace w
                    ++ match codes with
                       | [] => [SysWrite (fd (self w)) data (Done n); Emit (EvWrite n)]
                       | _ => retries (fd (self w)) data codes
                              ++ [SysWrite (fd (self w)) data (Done n)]
                       end
             /\ replies w' = more
             /\ tasks w' = tasks w ++ (if _asyncDrainScheduled (self w) then []
                                       else [tick_drain])
             /\ _writingBuf (self w') = [] /\ _bufs (self w') = []
             /\ _len (self w') = 0 /\ _writing (self w') = false).
  { destruct codes as [ | code codes].
    - destruct fuel as [ | [ | f]]; try (cbn in Hfuel; lia).
      destruct (@_actualWrite_whole f data [] more w0)
        as (w1 & Hgo & Ht1 & Hrp1 & Hk1 & Hwb1 & Hb1 & Hl1 & Hw1 & Hs1 & Hf1 & Hre1
            & He1 & Hm1 & Hfd1 & Ha & _).
      { exact Hsync. }
      { exact Hheld. }
      { unfold w0. cbn [replies with_self]. rewrite Hr, Hn. reflexivity. }
      assert (Hl1' : _len (self w1) = 0).
      { rewrite Hl1. unfold w0. cbn [self with_self _len set_len]. lia. }
      eexists. split.
      + apply Hgo. apply release_completed_idle.
        * rewrite Hs1. exact Hsync.
        * rewrite Hf1. exact Hfs.
        * rewrite Hre1. exact Hre.
        * rewrite He1. exact Hend.
        * rewrite Hl1', Hm1. unfold w0. cbn. lia.
      + replace (_asyncDrainScheduled (self w1)) with (_asyncDrainScheduled (self w))
          by (rewrite Ha; reflexivity).
        destruct (_asyncDrainScheduled (self w)); cbn;
          rewrite Ht1, Hrp1, Hk1, ?Hwb1, ?Hb1, ?Hl1', ?Hfd1, Hn; unfold w0; cbn;
          rewrite ?app_nil_r; repeat split; reflexivity.
    - destruct fuel as [ | f]; [cbn in Hfuel; lia | ].
      rewrite (@_actualWrite_failed f data [] code
                 (map Failed codes ++ Done n :: more) w0 Hsync Hheld);
        [ | unfold w0; cbn [replies with_self]; rewrite Hr; reflexivity ].
      match goal with
      | |- context [release f (Some (SystemError code)) 0 ?W] => set (w1 := W)
      end.
      destruct (@retry_loop codes f data more w1 code)
        as (w' & Hrun & Ht & Hrp & Hk & Hwb' & Hb' & Hl' & Hw').
      { exact Hsync. }
      { exact Hfs. }
      { exact Hre. }
      { exact Hend. }
      { exact Hretry. }
      { reflexivity. }
      { exact Hdata. }
      { unfold w1, w0. cbn. pose proof (len_nonneg data). lia. }
      { unfold w1, w0. cbn. lia. }
      { unfold w1, w0. cbn. lia. }
      { exact (Forall_inv Hcodes). }
      { exact (Forall_inv_tail Hcodes). }
      { unfold w1. cbn [replies with_trace with_replies]. rewrite Hn. reflexivity. }
      { cbn [List.length] in Hfuel. lia. }
      exists w'. split; [exact Hrun | ].
      rewrite Ht, Hrp, Hk, Hwb', Hb', Hl'. unfold w1, w0.
      cbn [self with_self with_trace with_replies trace tasks fd _bufs _len
           _asyncDrainScheduled set_writingBuf set_lens set_bufs set_writing set_len
           retries flat_map].
      fold (retries (fd (self w)) data codes). rewrite Hn, <- !app_assoc. cbn [app].
      repeat split; first [reflexivity | assumption | lia]. }
  destruct Hcore as (w' & Hrun & Ht & Hrp & Hk & Hwb' & Hb' & Hl' & Hw').
  exists w'.
  pose proof (proj1 (proj2 (moves_engine fuel)) w0) as Hmv.
  rewrite Hrun in Hmv. destruct Hmv as (Hcfg & _).
  assert (Hh : _hwm (self w') = _hwm (self w)).
  { unfold configuration in Hcfg. injection Hcfg. intros. assumption. }
  split.
  - unfold bind at 1. rewrite Hrun. unfold bind, this, ret. rewrite Hl', Hh. reflexivity.
  - repeat split; assumption.
Qed.

(** "hi" is refused with EAGAIN, then with EBUSY, then taken. *)
Lemma blocking_write_is_retried_until_taken_witness :
  exists w w',
    busy_twice = Returned tt w
    /\ write 8 [104; 105] w = Returned true w'
    /\ trace w' = [SysWrite 1 [104; 105] (Failed "EAGAIN"); Sleep 100; Emit (EvWrite 0);
                   SysWrite 1 [104; 105] (Failed "EBUSY"); Sleep 100; Emit (EvWrite 0);
                   SysWrite 1 [104; 105] (Done 2)]
    /\ replies w' = [] /\ _bufs (self w') = [] /\ _len (self w') = 0
    /\ _writing (self w') = false.
Proof.
  eexists.
  match goal with
  | |- exists w', ?O = Returned tt ?W /\ _ =>
      assert (Hw : O = Returned tt W) by (vm_compute; reflexivity);
      destruct (@blocking_write_is_retried_until_taken
                  ["EAGAIN"; "EBUSY"]%string 8 [104; 105] [] W)
        as (w' & H1 & H2 & H3 & H4 & H5 & H6 & H7 & H8);
      [ reflexivity | reflexivity | reflexivity | reflexivity | reflexivity
      | reflexivity | reflexivity | intros; reflexivity | reflexivity | reflexivity
      | reflexivity | vm_compute; split; discriminate | discriminate
      | repeat constructor; vm_compute; intuition discriminate
      | constructor; [left; reflexivity | constructor; [right; reflexivity | constructor]]
      | reflexivity | vm_compute; lia | ]
  end.
  exists w'. split; [exact Hw | ]. split; [exact H1 | ]. split; [exact H2 | ].
  split; [exact H3 | ]. split; [exact H6 | ]. split; [exact H7 | exact H8].
Defined.

(** ** [flushSync] that throws *)

Lemma delivered_app_text (t u : list (obs jsstring)) :
  delivered (t ++ u) = delivered t ++ delivered u.
Proof.
  induction t as [ | x t IH]; [reflexivity | ].
  cbn [app delivered]. rewrite IH.
  destruct x as [ | ? ? [ | ] | | | | | | ]; try reflexivity.
  rewrite app_assoc. reflexivity.
Qed.

Lemma delivered_whole_writes d (chunks : list jsstring) :
  delivered (map (fun c => SysWrite d c (Done (len (utf8 c)))) chunks)
  = flats utf8 chunks.
Proof.
  induction chunks as [ | c rest IH]; [reflexivity | ].
  cbn [map delivered]. rewrite IH. unfold flats. cbn [map List.concat octets Utf8].
  unfold len. rewrite Nat2Z.id, firstn_all. reflexivity.
Qed.

(** The loop of [flushSync] when the write fails with a busy code and
    [retryEAGAIN] says no. *)
Lemma flushSync_loop_refused :
  forall fuel (buf : jsstring) (w : world jsstring jsstring) code more,
    replies w = Failed code :: more ->
    negb (len (_bufs (self w)) =? 0) || negb (len buf =? 0) = true ->
    busy code -> (forall e a b, retryEAGAIN (self w) e a b = false) ->
    let buf' := if len buf <=? 0 then hd [] (_bufs (self w)) else buf in
    flushSync_loop (S fuel) buf w
    = Thrown (SystemError code)
        (with_trace (trace w ++ [SysWrite (fd (self w)) buf' (Failed code)])
           (with_replies more w)).
Proof.
  intros fuel buf w code more Hr Hloop Hcode Hretry buf'.
  cbn [flushSync_loop]. unfold bind at 1. unfold this at 1. cbv beta iota.
  rewrite Hloop. fold buf'.
  unfold bind at 1. unfold attempt, bind at 1, blocking. rewrite Hr.
  cbv beta iota zeta.
  unfold bind at 1. unfold this at 1. cbv beta iota.
  cbn [self with_trace with_replies]. rewrite Hretry.
  replace (code_is (SystemError code) "EAGAIN" || code_is (SystemError code) "EBUSY")
    with true by (destruct Hcode as [-> | ->]; reflexivity).
  reflexivity.
Qed.

(** With nothing left in [_writingBuf], [flushSync] is its loop. *)
Lemma flushSync_is_its_loop fuel (w : world jsstring jsstring) :
  destroyed (self w) = false -> 0 <= fd (self w) -> _writingBuf (self w) = [] ->
  flushSync fuel w = flushSync_loop fuel [] w.
Proof.
  intros Hlive Hfd Hwb. unfold flushSync. unfold bind at 1. unfold this at 1.
  cbv beta iota. rewrite Hlive.
  destruct (Z.ltb_spec (fd (self w)) 0) as [Hneg | _]; [lia | ].
  rewrite Hwb. change (len (@nil Z) >? 0) with false. rewrite andb_false_r.
  reflexivity.
Qed.

(** X22. [flushSync] on a text writer whose [retryEAGAIN] refuses: when
    the descriptor takes only the first [n] characters' worth of the chunk
    at the head of [_bufs] and then fails with EAGAIN or EBUSY, [flushSync]
    throws that error and leaves the chunk whole in [_bufs], although its
    start has been written.  The next [flushSync], on a descriptor that
    takes every chunk whole, writes that chunk from its beginning: the
    bytes delivered are the start of the chunk, then the whole chunk and
    the chunks behind it -- the start of the chunk is written twice. *)
Theorem flushSync_that_throws_writes_the_start_of_the_chunk_twice :
  forall fuel c rest n code more (w : world jsstring jsstring),
    destroyed (self w) = false -> 0 <= fd (self w) ->
    _writingBuf (self w) = [] -> _bufs (self w) = c :: rest ->
    0 < n < len c -> busy code ->
    (forall e a b, retryEAGAIN (self w) e a b = false) ->
    replies w = Done n :: Failed code
                :: map (fun c => Done (len (utf8 c))) (c :: rest) ++ more ->
    (List.length rest + 2 < fuel)%nat ->
    let d := fd (self w) in
    exists w1 w2,
      flushSync fuel w = Thrown (SystemError code) w1
      /\ trace w1 = trace w ++ [SysWrite d c (Done n);
                                SysWrite d (js_slice c n) (Failed code)]
      /\ _bufs (self w1) = c :: rest
      /\ flushSync fuel w1 = Returned tt w2
      /\ trace w2 = trace w1 ++ map (fun c => SysWrite d c (Done (len (utf8 c)))) (c :: rest)
      /\ _bufs (self w2) = [] /\ replies w2 = more
      /\ delivered (trace w2)
         = delivered (trace w) ++ firstn (Z.to_nat n) (utf8 c) ++ flats utf8 (c :: rest).
Proof.
  intros fuel c rest n code more w Hlive Hfd Hwb Hb Hn Hcode Hretry Hr Hfuel d.
  rewrite (flushSync_is_its_loop fuel w Hlive Hfd Hwb).
  destruct fuel as [ | [ | f]]; [lia | lia | ].
  assert (Hloop : negb (len (_bufs (self w)) =? 0) || negb (len (@nil Z) =? 0) = true).
  { rewrite Hb. reflexivity. }
  rewrite (flushSync_loop_on_success (S f) [] w Hr Hloop).
  change (len (@nil Z) <=? 0) with true. cbv iota. rewrite Hb. cbn [hd].
  assert (Hrest : (len (js_slice c n) <=? 0) = false).
  { destruct (Z.leb_spec (len (js_slice c n)) 0) as [Hle | _]; [ | reflexivity].
    assert (Hnil : js_slice c n = []).
    { apply len_pos_iff. apply Z.leb_le. exact Hle. }
    apply js_slice_nil_iff in Hnil; lia. }
  unfold flushSync_round. cbv zeta. rewrite Hrest.
  match goal with
  | |- context [flushSync_loop (S f) _ ?W] => set (w0 := W)
  end.
  assert (Hloop0 : negb (len (_bufs (self w0)) =? 0) || negb (len (js_slice c n) =? 0)
                   = true).
  { unfold w0. cbn [self with_self with_trace with_replies _bufs set_len].
    rewrite Hb. reflexivity. }
  rewrite (@flushSync_loop_refused f (js_slice c n) w0 code
             (map (fun c => Done (len (utf8 c))) (c :: rest) ++ more));
    [ | reflexivity | exact Hloop0 | exact Hcode | exact Hretry ].
  rewrite Hrest.
  match goal with
  | |- exists w1 w2, Thrown _ ?W = _ /\ _ => set (w1 := W)
  end.
  assert (Hb1 : _bufs (self w1) = c :: rest) by exact Hb.
  assert (Hfd1 : fd (self w1) = d) by reflexivity.
  assert (Ht1 : trace w1 = trace w ++ [SysWrite d c (Done n);
                                       SysWrite d (js_slice c n) (Failed code)]).
  { unfold w1, w0. cbn [trace with_trace with_replies with_self self fd set_len].
    rewrite <- app_assoc. reflexivity. }
  assert (Hr1 : replies w1 = map (fun c => Done (len (utf8 c))) (c :: rest) ++ more)
    by reflexivity.
  destruct (@flushSync_loop_takes_all (c :: rest) (S (S f)) w1 more Hb1 Hr1)
    as (w2 & Hrun2 & Ht2 & Hb2 & Hr2 & _).
  { cbn [List.length]. lia. }
  exists w1, w2. split; [reflexivity | ]. split; [exact Ht1 | ]. split; [exact Hb1 | ].
  split.
  { rewrite flushSync_is_its_loop; [exact Hrun2 | exact Hlive | exact Hfd | exact Hwb]. }
  rewrite Hfd1 in Ht2.
  split; [exact Ht2 | ]. split; [exact Hb2 | ]. split; [exact Hr2 | ].
  rewrite Ht2, Ht1, !delivered_app_text, delivered_whole_writes.
  cbn [delivered octets Utf8]. rewrite app_nil_r, <- app_assoc. reflexivity.
Qed.

(** "abc": "a" is written, the descriptor is busy, [flushSync] throws;
    flushed again, "abc" is written whole -- the file holds "aabc". *)
Lemma flushSync_that_throws_writes_the_start_of_the_chunk_twice_witness :
  exists w w1 w2,
    holding_abc = Returned true w
    /\ _bufs (self w) = [[97; 98; 99]] /\ trace w = []
    /\ flushSync 3 w = Thrown (SystemError "EAGAIN") w1
    /\ trace w1 = [SysWrite 1 [97; 98; 99] (Done 1);
                   SysWrite 1 [98; 99] (Failed "EAGAIN")]
    /\ _bufs (self w1) = [[97; 98; 99]]
    /\ flushSync 3 w1 = Returned tt w2
    /\ _bufs (self w2) = []
    /\ delivered (trace w2) = map octet [97; 97; 98; 99].
Proof.
  eexists.
  match goal with
  | |- exists w1 w2, ?O = Returned true ?W /\ _ =>
      assert (Hw : O = Returned true W) by (vm_compute; reflexivity);
      destruct (@flushSync_that_throws_writes_the_start_of_the_chunk_twice
                  3 [97; 98; 99] [] 1 "EAGAIN"%string [] W)
        as (w1 & w2 & H1 & H2 & H3 & H4 & H5 & H6 & H7 & H8);
      [ reflexivity | vm_compute; discriminate | reflexivity | reflexivity
      | vm_compute; split; reflexivity | left; reflexivity | intros; reflexivity
      | reflexivity | vm_compute; lia | ]
  end.
  exists w1, w2. split; [exact Hw | ]. split; [reflexivity | ]. split; [reflexivity | ].
  split; [exact H1 | ]. split; [exact H2 | ]. split; [exact H3 | ].
  split; [exact H4 | ]. split; [exact H6 | exact H8].
Defined.
(** ** The answer of an enqueue in blocking mode (C3) *)

Section BlockingDispatch.

Context {buf chunk : Type} {content : Content buf chunk}.

(** Blocking mode: the descriptor takes the chunk in flight whole, and
    nothing is left to dispatch. *)
Lemma _actualWrite_takes_whole fuel c bufs' lens' n more (w : world buf chunk) :
  sync (self w) = true ->
  next_chunk (_writingBuf (self w)) (_bufs (self w)) (_lens (self w))
  = (inr c, bufs', lens') ->
  replies w = Done n :: more ->
  length_of (slice c n) = 0 ->
  _fsync (self w) = false -> _reopening (self w) = false ->
  _ending (self w) = false ->
  0 <= _len (self w) - n <= minLength (self w) ->
  exists w',
    _actualWrite (S (S fuel)) w = Returned tt w'
    /\ _len (self w') = _len (self w) - n
    /\ _hwm (self w') = _hwm (self w)
    /\ trace w' = trace w ++ [SysWrite (fd (self w)) c (Done n); Emit (EvWrite n)].
Proof.
  intros Hsync Hnext Hr Hall Hfs Hre Hend Hleft.
  destruct w as [s rs tr ts ro dr er dl el fr]. destruct s. cbn in * |-. subst.
  rewrite _actualWrite_S. unfold _actualWrite_body.
  change (release (S fuel))
    with (release_body (release fuel) (_actualWrite fuel) (reopen fuel) fuel).
  unfold bind at 1. unfold upd at 1. cbv beta iota.
  unfold bind at 1. unfold this at 1. cbv beta iota.
  cbn [self with_self _writingBuf _bufs _lens set_writing].
  rewrite Hnext.
  assert (Hneg : (_len0 - n <? 0) = false) by (apply Z.ltb_ge; lia).
  assert (Hgt : (_len0 - n >? minLength0) = false)
    by (rewrite Z.gtb_ltb; apply Z.ltb_ge; lia).
  assert (Hz : (length_of (slice c n) =? 0) = true) by (rewrite Hall; reflexivity).
  cbv -[release _actualWrite reopen release_loop Z.sub Z.ltb Z.gtb Z.eqb
        length_of slice next_chunk app].
  rewrite Hneg. rewrite Hz. rewrite Hgt.
  destruct _asyncDrainScheduled0;
    (eexists; split; [reflexivity | ]; cbv [self _len _hwm trace];
     repeat split; rewrite <- app_assoc; reflexivity).
Qed.

(** Nothing is dispatched: the answer is on the new length. *)
Lemma dispatch_and_answer_idle fuel len' (w : world buf chunk) :
  _writing (self w) = true \/ len' < minLength (self w) ->
  dispatch_and_answer fuel len' w
  = Returned (len' <? _hwm (self w)) (with_self (set_len len') w).
Proof.
  intros Hidle. unfold dispatch_and_answer.
  unfold bind at 1. unfold upd at 1. cbv beta iota.
  unfold bind at 1. unfold this at 1. cbv beta iota.
  replace (negb (_writing (self (with_self (set_len len') w)))
           && (_len (self (with_self (set_len len') w))
               >=? minLength (self (with_self (set_len len') w))))
    with false; [reflexivity | ].
  symmetry. destruct w as [s rs tr ts ro dr er dl el fr]. destruct s. cbn in *.
  destruct Hidle as [-> | Hlt]; [reflexivity | ].
  apply andb_false_intro2. rewrite Z.geb_leb. apply Z.leb_gt. exact Hlt.
Qed.

(** Blocking mode, the data dispatched and taken whole: the answer is on
    what is left. *)
Lemma dispatch_and_answer_whole fuel len' c bufs' lens' n more (w : world buf chunk) :
  sync (self w) = true -> _writing (self w) = false ->
  minLength (self w) <= len' ->
  next_chunk (_writingBuf (self w)) (_bufs (self w)) (_lens (self w))
  = (inr c, bufs', lens') ->
  replies w = Done n :: more ->
  length_of (slice c n) = 0 ->
  _fsync (self w) = false -> _reopening (self w) = false ->
  _ending (self w) = false ->
  0 <= len' - n <= minLength (self w) ->
  exists w',
    dispatch_and_answer (S (S fuel)) len' w
    = Returned (len' - n <? _hwm (self w)) w'
    /\ _len (self w') = len' - n
    /\ trace w' = trace w ++ [SysWrite (fd (self w)) c (Done n); Emit (EvWrite n)].
Proof.
  intros Hsync Hwr Hmin Hnext Hr Hall Hfs Hre Hend Hleft.
  destruct (@_actualWrite_takes_whole fuel c bufs' lens' n more
              (with_self (set_len len') w))
    as (w1 & Hrun & Hlen & Hhwm & Htr);
    try assumption.
  unfold dispatch_and_answer.
  unfold bind at 1. unfold upd at 1. cbv beta iota.
  unfold bind at 1. unfold this at 1. cbv beta iota.
  replace (negb (_writing (self (with_self (set_len len') w)))
           && (_len (self (with_self (set_len len') w))
               >=? minLength (self (with_self (set_len len') w))))
    with true.
  - unfold when. unfold bind at 1. rewrite Hrun.
    unfold bind, this, ret. exists w1. rewrite Hlen, Hhwm.
    split; [reflexivity | ]. split; [reflexivity | exact Htr].
  - symmetry. destruct w as [s rs tr ts ro dr er dl el fr]. destruct s. cbn in *.
    rewrite Hwr. apply Z.geb_le. exact Hmin.
Qed.

End BlockingDispatch.

(** A blocking writer on descriptor 1 with the default high-water mark of
    16387 is given 16387 characters, which the descriptor takes whole: the
    length after the update is at the high-water mark, and the answer is
    true. *)
Lemma blocking_enqueue_answers_true_at_highWaterMark :
  exists w w',
    text (on_stdout true false 0 0 0) [Done 16387] = Returned tt w
    /\ accepted (self w) (len (repeat 97 (Z.to_nat 16387)))
    /\ write 6 (repeat 97 (Z.to_nat 16387)) w = Returned true w'
    /\ _hwm (self w) = 16387
    /\ _len (self w) + len (repeat 97 (Z.to_nat 16387)) = 16387
    /\ ~ (true = false
          <-> _hwm (self w) <= _len (self w) + len (repeat 97 (Z.to_nat 16387))).
Proof.
  eexists. eexists. split; [vm_compute; reflexivity | ].
  split; [left; reflexivity | ].
  split; [vm_compute; reflexivity | ].
  split; [reflexivity | ]. split; [reflexivity | ].
  intros [_ H]. assert (Hf : true = false) by (apply H; vm_compute; discriminate).
  discriminate Hf.
Qed.

(** C3, amended.  When an enqueue that the drop threshold lets through
    returns, the boolean it returns is [_len < _hwm] on the [_len] the call
    leaves behind, with [_hwm] as it was: false exactly when that length is
    at or above the high-water mark, true exactly when it is below.  In
    deferred mode, and in either mode when the call dispatches nothing (a
    write is in flight, or the new length is below [minLength]), the call
    returns and that length is the old length plus the length of the data.
    In blocking mode a call that dispatches answers on what the write inside
    the call has left: on an idle writer with nothing pending whose
    descriptor takes the data whole, that is the length before the call.
    Both content modes. *)
Theorem enqueue_answers_on_the_length_left :
  (forall fuel (w w' : world jsstring jsstring) (data : jsstring) (b : bool),
      accepted (self w) (len data) ->
      write fuel data w = Returned b w' ->
      _hwm (self w') = _hwm (self w)
      /\ (b = false <-> _hwm (self w) <= _len (self w'))
      /\ (b = true <-> _len (self w') < _hwm (self w)))
  /\ (forall fuel (w : world jsstring jsstring) (data : jsstring),
         destroyed (self w) = false ->
         accepted (self w) (len data) ->
         sync (self w) = false \/ _writing (self w) = true
         \/ _len (self w) + len data < minLength (self w) ->
         exists w',
           write (S fuel) data w
           = Returned (_len (self w) + len data <? _hwm (self w)) w'
           /\ _len (self w') = _len (self w) + len data)
  /\ (forall fuel (w : world jsstring jsstring) (data : jsstring) more,
         destroyed (self w) = false ->
         accepted (self w) (len data) ->
         sync (self w) = true -> _writing (self w) = false ->
         _fsync (self w) = false -> _reopening (self w) = false ->
         _ending (self w) = false ->
         _writingBuf (self w) = [] -> _bufs (self w) = [] ->
         0 <= _len (self w) <= minLength (self w) ->
         minLength (self w) <= _len (self w) + len data ->
         replies w = Done (len data) :: more ->
         exists w',
           write (S (S fuel)) data w = Returned (_len (self w) <? _hwm (self w)) w'
           /\ _len (self w') = _len (self w)
           /\ trace w' = trace w ++ [SysWrite (fd (self w)) data (Done (len data));
                                     Emit (EvWrite (len data))])
  /\ (forall fuel (w w' : world Buffer (list Buffer)) (data : Buffer) (b : bool),
         accepted (self w) (len data) ->
         writeBuffer fuel data w = Returned b w' ->
         _hwm (self w') = _hwm (self w)
         /\ (b = false <-> _hwm (self w) <= _len (self w'))
         /\ (b = true <-> _len (self w') < _hwm (self w)))
  /\ (forall fuel (w : world Buffer (list Buffer)) (data : Buffer),
         destroyed (self w) = false ->
         accepted (self w) (len data) ->
         sync (self w) = false \/ _writing (self w) = true
         \/ _len (self w) + len data < minLength (self w) ->
         exists w',
           writeBuffer (S fuel) data w
           = Returned (_len (self w) + len data <? _hwm (self w)) w'
           /\ _len (self w') = _len (self w) + len data)
  /\ (forall fuel (w : world Buffer (list Buffer)) (data : Buffer) more,
         destroyed (self w) = false ->
         accepted (self w) (len data) ->
         sync (self w) = true -> _writing (self w) = false ->
         _fsync (self w) = false -> _reopening (self w) = false ->
         _ending (self w) = false ->
         _writingBuf (self w) = [] -> _bufs (self w) = [] ->
         0 <= _len (self w) <= minLength (self w) ->
         minLength (self w) <= _len (self w) + len data ->
         replies w = Done (len data) :: more ->
         exists w',
           writeBuffer (S (S fuel)) data w
           = Returned (_len (self w) <? _hwm (self w)) w'
           /\ _len (self w') = _len (self w)
           /\ trace w' = trace w ++ [SysWrite (fd (self w)) data (Done (len data));
                                     Emit (EvWrite (len data))]).
Proof.
  assert (Hread : forall (x h : Z) (b : bool),
             b = (x <? h) -> (b = false <-> h <= x) /\ (b = true <-> x < h)).
  { intros x h b ->. destruct (Z.ltb_spec x h); split; split; intros; try lia;
      try reflexivity; try discriminate. }
  split; [ | split; [ | split; [ | split; [ | split]]]].
  - intros fuel w w' data b Hacc Hrun.
    destruct (destroyed (self w)) eqn:Hlive.
    { unfold write, bind, this in Hrun. cbv beta iota in Hrun.
      rewrite Hlive in Hrun. discriminate Hrun. }
    rewrite (write_accepts fuel w data Hlive Hacc) in Hrun.
    pose proof (dispatch_and_answer_reads_len _ _ _ Hrun) as Hb.
    pose proof (dispatch_and_answer_keeps_settings _ _ _ Hrun) as Hs.
    assert (Hh : _hwm (self w') = _hwm (self w))
      by (unfold settings in Hs; simpl in Hs; congruence).
    split; [exact Hh | ]. rewrite <- Hh. apply Hread. exact Hb.
  - intros fuel w data Hlive Hacc Hcase.
    rewrite (write_accepts (S fuel) w data Hlive Hacc).
    destruct Hcase as [Hsync | Hidle].
    + destruct (dispatch_and_answer_deferred_text fuel (_len (self w) + len data)
                  (with_self
                     (set_bufs (enqueue_text (maxWrite (self w)) (_bufs (self w)) data))
                     w) Hsync) as (w' & Hrun & Hlen).
      exists w'. split; [exact Hrun | exact Hlen].
    + rewrite dispatch_and_answer_idle by exact Hidle.
      eexists. split; reflexivity.
  - intros fuel w data more Hlive Hacc Hsync Hwr Hfs Hre Hend Hwb Hb Hlen Hmin Hr.
    rewrite (write_accepts (S (S fuel)) w data Hlive Hacc).
    destruct (@dispatch_and_answer_whole _ _ Utf8 fuel (_len (self w) + len data)
                data [] (_lens (self w)) (len data) more
                (with_self
                   (set_bufs (enqueue_text (maxWrite (self w)) (_bufs (self w)) data))
                   w))
      as (w' & Hrun & Hlen' & Htr); try assumption.
    + cbn [self with_self _writingBuf _bufs _lens set_bufs next_chunk Utf8].
      change (_writingBuf (set_bufs ?b (self w))) with (_writingBuf (self w)).
      change (_bufs (set_bufs ?b (self w))) with b.
      change (_lens (set_bufs ?b (self w))) with (_lens (self w)).
      rewrite Hwb, Hb. reflexivity.
    + cbn [length_of slice Utf8 Raw]. rewrite js_slice_all. reflexivity.
    + change (minLength (self (with_self ?f w))) with (minLength (self w)). lia.
    + exists w'. replace (_len (self w) + len data - len data) with (_len (self w))
        in Hrun, Hlen' by lia.
      split; [exact Hrun | ]. split; [exact Hlen' | exact Htr].
  - intros fuel w w' data b Hacc Hrun.
    destruct (destroyed (self w)) eqn:Hlive.
    { unfold writeBuffer, bind, this in Hrun. cbv beta iota in Hrun.
      rewrite Hlive in Hrun. discriminate Hrun. }
    rewrite (writeBuffer_buffers fuel w data Hlive Hacc) in Hrun.
    pose proof (dispatch_and_answer_reads_len _ _ _ Hrun) as Hb.
    pose proof (dispatch_and_answer_keeps_settings _ _ _ Hrun) as Hs.
    assert (Hh : _hwm (self w') = _hwm (self w))
      by (unfold settings in Hs; simpl in Hs; congruence).
    split; [exact Hh | ]. rewrite <- Hh. apply Hread. exact Hb.
  - intros fuel w data Hlive Hacc Hcase.
    rewrite (writeBuffer_buffers (S fuel) w data Hlive Hacc).
    destruct Hcase as [Hsync | Hidle].
    + match goal with
      | |- exists w', dispatch_and_answer _ _ ?W1 = _ /\ _ =>
          destruct (dispatch_and_answer_deferred_bytes fuel (_len (self w) + len data)
                      W1 Hsync (@pushed_bufs_not_empty _ _ _ _))
            as (w' & Hrun & Hlen)
      end.
      exists w'. split; [exact Hrun | exact Hlen].
    + rewrite dispatch_and_answer_idle by exact Hidle.
      eexists. split; reflexivity.
  - intros fuel w data more Hlive Hacc Hsync Hwr Hfs Hre Hend Hwb Hb Hlen Hmin Hr.
    rewrite (writeBuffer_buffers (S (S fuel)) w data Hlive Hacc).
    match goal with
    | |- exists w', dispatch_and_answer _ _ ?W1 = _ /\ _ =>
        destruct (@dispatch_and_answer_whole _ _ Raw fuel (_len (self w) + len data)
                    data [] (tl (_lens (self w) ++ [len data])) (len data) more W1)
          as (w' & Hrun & Hlen' & Htr); try assumption
    end.
    + cbn [self with_self _writingBuf _bufs _lens set_bufs set_lens next_chunk Raw].
      change (_writingBuf (set_lens ?l (set_bufs ?b (self w))))
        with (_writingBuf (self w)).
      change (_bufs (set_lens ?l (set_bufs ?b (self w)))) with b.
      change (_lens (set_lens ?l (set_bufs ?b (self w)))) with l.
      rewrite Hwb, Hb. reflexivity.
    + cbn [length_of slice Utf8 Raw]. rewrite js_slice_all. reflexivity.
    + change (minLength (self (with_self ?f (with_self ?g w))))
        with (minLength (self w)). lia.
    + exists w'. replace (_len (self w) + len data - len data) with (_len (self w))
        in Hrun, Hlen' by lia.
      split; [exact Hrun | ]. split; [exact Hlen' | exact Htr].
Qed.

(** 16387 characters at once: a blocking writer whose descriptor takes them
    all answers true (nothing is left buffered); a deferred writer answers
    false.  Three characters, or two bytes, taken whole by the descriptor of
    a blocking writer: the answer is on the length before the call. *)
Lemma enqueue_answers_on_the_length_left_witness :
  (exists w w',
      text (on_stdout true false 0 0 0) [Done 16387] = Returned tt w
      /\ write 6 (repeat 97 (Z.to_nat 16387)) w = Returned true w'
      /\ _len (self w') = 0
      /\ _hwm (self w') = _hwm (self w)
      /\ (true = false <-> _hwm (self w) <= _len (self w'))
      /\ (true = true <-> _len (self w') < _hwm (self w)))
  /\
  (exists w w',
      text (on_stdout false false 0 0 0) [] = Returned tt w
      /\ write 6 (repeat 97 (Z.to_nat 16387)) w
         = Returned (_len (self w) + len (repeat 97 (Z.to_nat 16387)) <? _hwm (self w)) w'
      /\ _len (self w') = _len (self w) + len (repeat 97 (Z.to_nat 16387))
      /\ (_len (self w) + len (repeat 97 (Z.to_nat 16387)) <? _hwm (self w)) = false)
  /\
  (exists w w',
      text (on_stdout true false 0 0 0) [Done 3] = Returned tt w
      /\ write 6 [97; 98; 99] w = Returned (_len (self w) <? _hwm (self w)) w'
      /\ _len (self w') = _len (self w)
      /\ trace w' = trace w ++ [SysWrite (fd (self w)) [97; 98; 99] (Done 3);
                                Emit (EvWrite 3)]
      /\ (_len (self w) <? _hwm (self w)) = true)
  /\
  (exists w w',
      bytes (on_stdout true false 0 0 0) [Done 2] = Returned tt w
      /\ writeBuffer 6 [Byte.x61; Byte.x62] w = Returned true w'
      /\ _hwm (self w') = _hwm (self w)
      /\ (true = false <-> _hwm (self w) <= _len (self w'))
      /\ (true = true <-> _len (self w') < _hwm (self w)))
  /\
  (exists w w',
      bytes (on_stdout false false 0 0 0) [] = Returned tt w
      /\ writeBuffer 6 [Byte.x61; Byte.x62] w
         = Returned (_len (self w) + len [Byte.x61; Byte.x62] <? _hwm (self w)) w'
      /\ _len (self w') = _len (self w) + len [Byte.x61; Byte.x62])
  /\
  (exists w w',
      bytes (on_stdout true false 0 0 0) [Done 2] = Returned tt w
      /\ writeBuffer 6 [Byte.x61; Byte.x62] w
         = Returned (_len (self w) <? _hwm (self w)) w'
      /\ _len (self w') = _len (self w)
      /\ trace w' = trace w ++ [SysWrite (fd (self w)) [Byte.x61; Byte.x62] (Done 2);
                                Emit (EvWrite 2)]).
Proof.
  pose proof enqueue_answers_on_the_length_left
    as (Htext & Htext_new & Htext_whole & Hbytes & Hbytes_new & Hbytes_whole).
  split; [ | split; [ | split; [ | split; [ | split]]]].
  - eexists. eexists. split; [vm_compute; reflexivity | ].
    split; [vm_compute; reflexivity | ].
    split; [reflexivity | ].
    match goal with
    | |- _hwm (self ?W') = _hwm (self ?W) /\ _ =>
        exact (Htext 6%nat W W' (repeat 97 (Z.to_nat 16387)) true
                 (or_introl eq_refl) ltac:(vm_compute; reflexivity))
    end.
  - eexists.
    match goal with
    | |- exists w', ?W0 = Returned tt ?W /\ _ =>
        assert (H0 : W0 = Returned tt W) by (vm_compute; reflexivity)
    end.
    match type of H0 with
    | _ = Returned tt ?W =>
        destruct (Htext_new 5%nat W (repeat 97 (Z.to_nat 16387)) eq_refl
                    (or_introl eq_refl) (or_introl eq_refl))
          as (w' & Hrun & Hlen)
    end.
    exists w'. split; [exact H0 | ]. split; [exact Hrun | ].
    split; [exact Hlen | vm_compute; reflexivity].
  - eexists.
    match goal with
    | |- exists w', ?W0 = Returned tt ?W /\ _ =>
        assert (H0 : W0 = Returned tt W) by (vm_compute; reflexivity)
    end.
    match type of H0 with
    | _ = Returned tt ?W =>
        destruct (Htext_whole 4%nat W [97; 98; 99] [] eq_refl (or_introl eq_refl)
                    eq_refl eq_refl eq_refl eq_refl eq_refl eq_refl eq_refl
                    ltac:(vm_compute; split; discriminate)
                    ltac:(vm_compute; discriminate) eq_refl)
          as (w' & Hrun & Hlen & Htr)
    end.
    exists w'. split; [exact H0 | ]. split; [exact Hrun | ].
    split; [exact Hlen | ]. split; [exact Htr | reflexivity].
  - eexists. eexists. split; [vm_compute; reflexivity | ].
    split; [vm_compute; reflexivity | ].
    match goal with
    | |- _hwm (self ?W') = _hwm (self ?W) /\ _ =>
        exact (Hbytes 6%nat W W' [Byte.x61; Byte.x62] true
                 (or_introl eq_refl) ltac:(vm_compute; reflexivity))
    end.
  - eexists.
    match goal with
    | |- exists w', ?W0 = Returned tt ?W /\ _ =>
        assert (H0 : W0 = Returned tt W) by (vm_compute; reflexivity)
    end.
    match type of H0 with
    | _ = Returned tt ?W =>
        destruct (Hbytes_new 5%nat W [Byte.x61; Byte.x62] eq_refl
                    (or_introl eq_refl) (or_introl eq_refl))
          as (w' & Hrun & Hlen)
    end.
    exists w'. split; [exact H0 | ]. split; [exact Hrun | exact Hlen].
  - eexists.
    match goal with
    | |- exists w', ?W0 = Returned tt ?W /\ _ =>
        assert (H0 : W0 = Returned tt W) by (vm_compute; reflexivity)
    end.
    match type of H0 with
    | _ = Returned tt ?W =>
        destruct (Hbytes_whole 4%nat W [Byte.x61; Byte.x62] [] eq_refl
                    (or_introl eq_refl)
                    eq_refl eq_refl eq_refl eq_refl eq_refl eq_refl eq_refl
                    ltac:(vm_compute; split; discriminate)
                    ltac:(vm_compute; discriminate) eq_refl)
          as (w' & Hrun & Hlen & Htr)
    end.
    exists w'. split; [exact H0 | ]. split; [exact Hrun | ].
    split; [exact Hlen | exact Htr].
Defined.

(** ** What is written after [destroy] (C5) *)

Section Confined.

Context {buf chunk : Type} {content : Content buf chunk}.

Variable in_flight : buf -> Prop.
Variable t0 : list (obs buf).

Local Abbreviation calm_since := (@drained buf chunk in_flight t0).
Local Abbreviation confined := (@confines buf chunk in_flight t0).

Hypothesis in_flight_slice : forall c n, in_flight c -> in_flight (slice c n).
Hypothesis in_flight_next :
  forall wb lens picked bufs' lens',
    in_flight wb ->
    next_chunk wb [] lens = (picked, bufs', lens') ->
    bufs' = [] /\ match picked with
                  | inr b => in_flight b
                  | inl _ => True
                  end.























Lemma confines_listeners {A} (m : Js buf chunk A) (f : world buf chunk -> world buf chunk) :
  (forall w, self (f w) = self w /\ tasks (f w) = tasks w /\ trace (f w) = trace w) ->
  confined m -> confined (fun w => m (f w)).
Proof.
  intros Hf Hm w H. apply Hm. destruct (Hf w) as (Hs & Hk & Ht).
  unfold drained in *. rewrite Hs, Hk, Ht. exact H.
Qed.

















End Confined.



Section AfterDestroy.

Context {buf chunk : Type} {content : Content buf chunk}.





End AfterDestroy.






